(** * V3 Polymarket market-channel codec: a shallow embedding of [decoder.py]

    The development follows the layout of the source file: LEB128 varints,
    the raw-DEFLATE/base64url transport, the session string pool, the
    stateful compressor [FrameCompressorV3] and the stateful decoder
    ([_V3State], [_try_decode_v3_line]).

    Conventions.
    - Python [int] is [Z]; indices into a buffer are [nat].
    - Python [bytes]/[bytearray] is [list byte].
    - Python [str] is [string], read as the UTF-8 encoding of the text
      (so [s.encode("utf-8")] is the list of its bytes and
      [b.decode("utf-8")] checks well-formedness of [b]).
    - An exception is a value of [exn]; a function that raises returns [inl].
      Functions that mutate an object return the object as it is left behind,
      also when they raise. *)

From Stdlib Require Import ZArith List Lia Bool.
From Stdlib.Strings Require Import String Ascii Byte.
From Stdlib Require Import DecimalString.
From stdpp Require Import base option list gmap strings.
Import ListNotations.
Local Open Scope Z_scope.

(** ** Exceptions raised by the codec *)

Inductive exn : Type :=
| UvarintNegative            (* ValueError("uvarint negative") *)
| UvarintTruncated           (* ValueError("uvarint truncated") *)
| UvarintOverflow            (* ValueError("uvarint overflow") *)
| BadStringRef               (* ValueError("bad string ref") *)
| LiteralOverflow            (* ValueError("literal overflow") *)
| UnsupportedVersion (ver : Z) (* ValueError(f"Unsupported V3 version: {ver}") *)
| AssetIdTruncated           (* ValueError("asset id truncated") *)
| UnknownEventType (et : string)  (* ValueError(f"Unknown event_type: {et}") *)
| UnknownEventTypeCode (c : Z)    (* ValueError(f"Unknown event type code: {c}") *)
| IndexError                 (* buf[i] past the end of the buffer *)
| UnicodeDecodeError         (* bytes.decode("utf-8") on ill-formed bytes *)
| AttributeError             (* .get on a value that is not a dict *)
| TypeError.                 (* list(x) / len(x) on a value that is not a sequence *)

(** ** Bytes *)

Definition byte_to_Z (b : byte) : Z := Z.of_N (Byte.to_N b).

(** [bytearray.append(z)]: every call site of the source passes a value in
    0..255, where [Byte.of_N] is defined. *)
Definition byte_of_Z (z : Z) : byte :=
  match Byte.of_N (Z.to_N z) with
  | Some b => b
  | None => x00
  end.

(** ** Varint helpers (LEB128) *)

(** The loop [while n > 0x7F: out.append((n & 0x7F) | 0x80); n >>= 7]
    followed by [out.append(n & 0x7F)].  [fuel] bounds the number of
    iterations; [Z.log2 n] iterations are always enough
    (see [uvarint_bytes_unfold]). *)
Fixpoint uvarint_push (fuel : nat) (n : Z) (out : list byte) {struct fuel} : list byte :=
  match fuel with
  | S k =>
      if 0x7F <? n
      then uvarint_push k (Z.shiftr n 7) (out ++ [byte_of_Z (Z.lor (Z.land n 0x7F) 0x80)])
      else out ++ [byte_of_Z (Z.land n 0x7F)]
  | O => out ++ [byte_of_Z (Z.land n 0x7F)]
  end.

Definition _uvarint_encode (n : Z) (out : list byte) : exn + list byte :=
  if n <? 0 then inl UvarintNegative
  else inr (uvarint_push (Z.to_nat (Z.log2 n)) n out).

(** The loop of [_uvarint_decode]; [rest] is [buf[i:]], so [i >= len(buf)]
    is [rest = []] and [buf[i]] is the head of [rest]. *)
Fixpoint uvarint_scan (rest : list byte) (i : nat) (shift x : Z) : exn + (Z * nat) :=
  match rest with
  | [] => inl UvarintTruncated
  | b :: rest' =>
      let x := Z.lor x (Z.shiftl (Z.land (byte_to_Z b) 0x7F) shift) in
      if Z.land (byte_to_Z b) 0x80 =? 0 then inr (x, S i)
      else
        let shift := shift + 7 in
        if 70 <? shift then inl UvarintOverflow
        else uvarint_scan rest' (S i) shift x
  end.

Definition _uvarint_decode (buf : list byte) (i : nat) : exn + (Z * nat) :=
  uvarint_scan (drop i buf) i 0 0.

(** The bytes one call of [_uvarint_encode] appends. *)
Definition uvarint_bytes (n : Z) : list byte :=
  uvarint_push (Z.to_nat (Z.log2 n)) n [].

(** ** Results of stateful code

    [M St A] is a computation on a mutable object of type [St] that either
    returns an [A] or raises; in both cases the object is handed back as the
    computation left it. *)

Definition M (St A : Type) : Type := St -> (exn + A) * St.

Definition ret {St A : Type} (a : A) : M St A := fun s => (inr a, s).

Definition raise {St A : Type} (e : exn) : M St A := fun s => (inl e, s).

Definition lift {St A : Type} (r : exn + A) : M St A := fun s => (r, s).

Definition bind {St A B : Type} (m : M St A) (k : A -> M St B) : M St B :=
  fun s =>
    match m s with
    | (inr a, s') => k a s'
    | (inl e, s') => (inl e, s')
    end.

(** Reading and updating the attributes of the object. *)
Definition get {St : Type} : M St St := fun s => (inr s, s).

Definition modify {St : Type} (f : St -> St) : M St unit := fun s => (inr tt, f s).

Notation "x <-- m ;; k" := (bind m (fun x => k))
  (at level 100, m at next level, right associativity, only parsing).
Notation "<( x , y )> <-- m ;; k" := (bind m (fun xy => let '(x, y) := xy in k))
  (at level 100, x name, y name, m at next level, right associativity, only parsing).

(** ** Text *)

Definition in_range (lo hi : Z) (b : byte) : bool :=
  (lo <=? byte_to_Z b) && (byte_to_Z b <=? hi).

(** Well-formed UTF-8 (the byte sequences [bytes.decode("utf-8")] accepts:
    shortest form, no surrogates, at most U+10FFFF). *)
Fixpoint utf8_valid (bs : list byte) : bool :=
  match bs with
  | [] => true
  | b0 :: r0 =>
      if in_range 0x00 0x7F b0 then utf8_valid r0
      else
        match r0 with
        | [] => false
        | b1 :: r1 =>
            if in_range 0xC2 0xDF b0 then in_range 0x80 0xBF b1 && utf8_valid r1
            else
              match r1 with
              | [] => false
              | b2 :: r2 =>
                  if (in_range 0xE0 0xE0 b0 && in_range 0xA0 0xBF b1
                      || in_range 0xE1 0xEC b0 && in_range 0x80 0xBF b1
                      || in_range 0xED 0xED b0 && in_range 0x80 0x9F b1
                      || in_range 0xEE 0xEF b0 && in_range 0x80 0xBF b1)
                  then in_range 0x80 0xBF b2 && utf8_valid r2
                  else
                    match r2 with
                    | [] => false
                    | b3 :: r3 =>
                        if (in_range 0xF0 0xF0 b0 && in_range 0x90 0xBF b1
                            || in_range 0xF1 0xF3 b0 && in_range 0x80 0xBF b1
                            || in_range 0xF4 0xF4 b0 && in_range 0x80 0x8F b1)
                        then in_range 0x80 0xBF b2 && in_range 0x80 0xBF b3
                             && utf8_valid r3
                        else false
                    end
              end
        end
  end.

(** [s.encode("utf-8")] *)
Definition utf8_encode (s : string) : list byte := list_byte_of_string s.

(** [b.decode("utf-8")]: [None] is [UnicodeDecodeError]. *)
Definition utf8_decode (b : list byte) : option string :=
  if utf8_valid b then Some (string_of_list_byte b) else None.

(** A [str] of the model: a well-formed text whose length fits [Py_ssize_t]. *)
Definition wf_str (s : string) : bool :=
  utf8_valid (utf8_encode s) && (Z.of_nat (length (utf8_encode s)) <? 2 ^ 63).

(** The characters of a text, each as a one-character [str]
    (what iterating over a [str] yields). *)
Fixpoint str_chars_from (cur : list byte) (bs : list byte) : list string :=
  match bs with
  | [] => match cur with [] => [] | _ => [string_of_list_byte cur] end
  | b :: bs' =>
      if in_range 0x80 0xBF b then str_chars_from (cur ++ [b]) bs'
      else
        match cur with
        | [] => str_chars_from [b] bs'
        | _ => string_of_list_byte cur :: str_chars_from [b] bs'
        end
  end.

Definition str_chars (s : string) : list string :=
  str_chars_from [] (utf8_encode s).

(** [str(z)] for an [int]. *)
Definition py_str_int (z : Z) : string := NilZero.string_of_int (Z.to_int z).

(** ** base64url (the [base64] and [binascii] modules) *)

(** [token.encode("ascii")]: [None] is [UnicodeEncodeError]. *)
Definition ascii_encode (s : string) : option (list byte) :=
  let b := list_byte_of_string s in
  if forallb (in_range 0 127) b then Some b else None.

(** The URL-safe alphabet: A-Z a-z 0-9 - _ *)
Definition b64_char (v : Z) : byte :=
  if v <? 26 then byte_of_Z (65 + v)
  else if v <? 52 then byte_of_Z (97 + (v - 26))
  else if v <? 62 then byte_of_Z (48 + (v - 52))
  else if v =? 62 then "-"%byte
  else "_"%byte.

Definition b64_pad : byte := "="%byte.

(** [base64.urlsafe_b64encode]: three bytes give four characters, a final
    group of one or two bytes is padded with ['=']. *)
Fixpoint urlsafe_b64encode (data : list byte) : list byte :=
  match data with
  | [] => []
  | [a] =>
      let a := byte_to_Z a in
      [b64_char (Z.shiftr a 2); b64_char (Z.shiftl (Z.land a 3) 4); b64_pad; b64_pad]
  | [a; b] =>
      let a := byte_to_Z a in
      let b := byte_to_Z b in
      [b64_char (Z.shiftr a 2);
       b64_char (Z.lor (Z.shiftl (Z.land a 3) 4) (Z.shiftr b 4));
       b64_char (Z.shiftl (Z.land b 0xF) 2); b64_pad]
  | a :: b :: c :: rest =>
      let a := byte_to_Z a in
      let b := byte_to_Z b in
      let c := byte_to_Z c in
      b64_char (Z.shiftr a 2)
      :: b64_char (Z.lor (Z.shiftl (Z.land a 3) 4) (Z.shiftr b 4))
      :: b64_char (Z.lor (Z.shiftl (Z.land b 0xF) 2) (Z.shiftr c 6))
      :: b64_char (Z.land c 0x3F)
      :: urlsafe_b64encode rest
  end.

(** Value of a character after [urlsafe_b64decode] has translated ['-'] and
    ['_'] to ['+'] and ['/'] (which stay valid themselves); [None] for a
    character outside the alphabet. *)
Definition b64_value (ch : byte) : option Z :=
  let c := byte_to_Z ch in
  if (65 <=? c) && (c <=? 90) then Some (c - 65)
  else if (97 <=? c) && (c <=? 122) then Some (c - 97 + 26)
  else if (48 <=? c) && (c <=? 57) then Some (c - 48 + 52)
  else if (c =? 43) || (c =? 45) then Some 62
  else if (c =? 47) || (c =? 95) then Some 63
  else None.

(** [binascii.a2b_base64] in its default, non-strict mode: characters
    outside the alphabet are skipped, a complete pad sequence ends the
    input, and an unfinished quad at the end is an error
    ([None], "Incorrect padding"). *)
Fixpoint a2b_base64 (s : list byte) (quad_pos : Z) (leftchar : Z) (pads : Z)
    (out : list byte) : option (list byte) :=
  match s with
  | [] => if quad_pos =? 0 then Some out else None
  | ch :: s' =>
      if byte_to_Z ch =? 61 then
        if 2 <=? quad_pos then
          if 4 <=? quad_pos + (pads + 1) then Some out
          else a2b_base64 s' quad_pos leftchar (pads + 1) out
        else a2b_base64 s' quad_pos leftchar pads out
      else
        match b64_value ch with
        | None => a2b_base64 s' quad_pos leftchar pads out
        | Some v =>
            if quad_pos =? 0 then a2b_base64 s' 1 v 0 out
            else if quad_pos =? 1 then
              a2b_base64 s' 2 (Z.land v 0x0F) 0
                (out ++ [byte_of_Z (Z.land (Z.lor (Z.shiftl leftchar 2) (Z.shiftr v 4)) 0xFF)])
            else if quad_pos =? 2 then
              a2b_base64 s' 3 (Z.land v 0x03) 0
                (out ++ [byte_of_Z (Z.land (Z.lor (Z.shiftl leftchar 4) (Z.shiftr v 2)) 0xFF)])
            else
              a2b_base64 s' 0 0 0
                (out ++ [byte_of_Z (Z.land (Z.lor (Z.shiftl leftchar 6) v) 0xFF)])
        end
  end.

Definition urlsafe_b64decode (s : list byte) : option (list byte) :=
  a2b_base64 s 0 0 0 [].

(** The token with its trailing ['='] characters removed. *)
Fixpoint strip_padding (s : list byte) : list byte :=
  match s with
  | [] => []
  | ch :: s' =>
      match strip_padding s' with
      | [] => if byte_to_Z ch =? 61 then [] else [ch]
      | r => ch :: r
      end
  end.

(** ** JSON values and the Python runtime

    The value [json.loads] returns.  A [dict] keeps its insertion order, so
    it is an association list; a [float] is carried by its [repr]. *)

#[local] Set Warnings "-register-all".

Inductive json : Type :=
| JNull
| JBool (b : bool)
| JInt (z : Z)
| JFloat (repr : string)
| JStr (s : string)
| JArr (items : list json)
| JObj (members : list (string * json)).

Fixpoint dict_get (k : string) (d : list (string * json)) : option json :=
  match d with
  | [] => None
  | (k', v) :: d' => if String.eqb k k' then Some v else dict_get k d'
  end.

(** [k in d] *)
Definition dict_has (k : string) (d : list (string * json)) : bool :=
  match dict_get k d with Some _ => true | None => false end.

(** [d.pop(k, None)], for its effect on [d] *)
Definition dict_pop (k : string) (d : list (string * json)) : list (string * json) :=
  List.filter (fun kv => negb (String.eqb k (fst kv))) d.

(** [v.get(k, dflt)]: only a [dict] has the method. *)
Definition py_get (v : json) (k : string) (dflt : json) : exn + json :=
  match v with
  | JObj d => inr (match dict_get k d with Some x => x | None => dflt end)
  | _ => inl AttributeError
  end.

(** The library functions the codec calls.  They are not part of the
    repository; the codec is verified against any implementation of them,
    and [raw_inflate_deflate] is the one law it relies on ([raw_deflate]
    never returns an empty stream: a DEFLATE stream has at least one block). *)
Record PyRuntime : Type := {
  json_loads : string -> option json;      (* None: JSONDecodeError *)
  json_dumps : json -> string;             (* separators=(",", ":") *)
  str_upper : string -> string;            (* str.upper *)
  int_of_str : string -> option Z;         (* int(s); None: ValueError *)
  float_trunc : string -> option Z;        (* int(f); None: OverflowError/ValueError *)
  repr_compound : json -> string;          (* str(v) for a list or a dict *)
  raw_deflate : list byte -> list byte;    (* compressobj(level=9, wbits=-15) *)
  raw_inflate : list byte -> option (list byte);  (* decompress(wbits=-15); None: zlib.error *)
  raw_inflate_deflate : forall d, raw_inflate (raw_deflate d) = Some d;
  raw_deflate_nonempty : forall d, raw_deflate d <> []
}.

Section Codec.

Context (R : PyRuntime).

(** [str(v)] *)
Definition py_str (v : json) : string :=
  match v with
  | JStr s => s
  | JInt z => py_str_int z
  | JBool true => "True"
  | JBool false => "False"
  | JNull => "None"
  | JFloat r => r
  | JArr _ | JObj _ => repr_compound R v
  end.

(** Truth value of [v] *)
Definition py_truthy (v : json) : bool :=
  match v with
  | JNull => false
  | JBool b => b
  | JInt z => negb (z =? 0)
  | JFloat r => negb (String.eqb r "0.0" || String.eqb r "-0.0")
  | JStr s => negb (String.eqb s EmptyString)
  | JArr l => match l with [] => false | _ => true end
  | JObj d => match d with [] => false | _ => true end
  end.

(** The items [list(v)], [len(v)] and [for x in v] see. *)
Definition py_list (v : json) : exn + list json :=
  match v with
  | JArr l => inr l
  | JObj d => inr (map (fun kv => JStr (fst kv)) d)
  | JStr s => inr (map JStr (str_chars s))
  | _ => inl TypeError
  end.

(** [int(v)] under [try: ... except Exception: return None] *)
Definition py_int (v : json) : option Z :=
  match v with
  | JStr s => int_of_str R s
  | JInt z => Some z
  | JBool b => Some (if b then 1 else 0)
  | JFloat r => float_trunc R r
  | JNull | JArr _ | JObj _ => None
  end.

(** ** Raw-DEFLATE base64 codecs *)

Definition _deflate_raw_b64 (data : list byte) : string :=
  string_of_list_byte (urlsafe_b64encode (raw_deflate R data)).

Inductive transport_error : Type :=
| UnicodeEncodeError   (* token.encode("ascii") *)
| BinasciiError        (* base64.urlsafe_b64decode *)
| ZlibError.           (* zlib.decompress *)

Definition _inflate_raw_b64 (token : string) : transport_error + list byte :=
  match ascii_encode token with
  | None => inl UnicodeEncodeError
  | Some t =>
      match urlsafe_b64decode t with
      | None => inl BinasciiError
      | Some data =>
          match raw_inflate R data with
          | None => inl ZlibError
          | Some d => inr d
          end
      end
  end.

(** ** Event and field coding *)

Definition _ET_CODE (et : string) : option Z :=
  if String.eqb et "book" then Some 0
  else if String.eqb et "price_change" then Some 1
  else if String.eqb et "tick_size_change" then Some 2
  else if String.eqb et "last_trade_price" then Some 3
  else None.

Definition _ET_FROM (code : Z) : option string :=
  if code =? 0 then Some "book"%string
  else if code =? 1 then Some "price_change"%string
  else if code =? 2 then Some "tick_size_change"%string
  else if code =? 3 then Some "last_trade_price"%string
  else None.

Definition _TB_TS_ABS : Z := Z.shiftl 1 5.
Definition _TB_OPT0 : Z := Z.shiftl 1 3.

Definition _REC_HEADER : Z := 0x48.
Definition _REC_FRAME : Z := 0x46.
Definition _REC_RAW : Z := 0x58.

Definition _H_SINGLE_ASSET : Z := Z.shiftl 1 0.

(** ** The session string pool *)

Record _StringPool : Type := {
  _s2i : gmap string Z;
  _i2s : list string;
  _next : Z
}.

(** [_StringPool.__init__] *)
Definition _StringPool_init : _StringPool :=
  {| _s2i := ∅; _i2s := ["<unused>"%string]; _next := 1 |}.

(** [self._s2i[s] = self._next; self._i2s.append(s); self._next += 1] *)
Definition pool_intern (s : string) (self : _StringPool) : _StringPool :=
  {| _s2i := <[s := _next self]> (_s2i self);
     _i2s := _i2s self ++ [s];
     _next := _next self + 1 |}.

Definition _StringPool_encode (s : string) (out : list byte) : M _StringPool (list byte) :=
  fun self =>
    match _s2i self !! s with
    | Some i => (_uvarint_encode (Z.lor (Z.shiftl i 1) 0) out, self)
    | None =>
        let b := utf8_encode s in
        match _uvarint_encode (Z.lor (Z.shiftl (Z.of_nat (length b)) 1) 1) out with
        | inl e => (inl e, self)
        | inr out => (inr (out ++ b), pool_intern s self)
        end
    end.

Definition _StringPool_decode (buf : list byte) (i : nat) : M _StringPool (string * nat) :=
  fun self =>
    match _uvarint_decode buf i with
    | inl e => (inl e, self)
    | inr (v, i) =>
        if Z.land v 1 =? 0 then
          let idx := Z.shiftr v 1 in
          if (idx <=? 0) || (_next self <=? idx) then (inl BadStringRef, self)
          else
            match _i2s self !! Z.to_nat idx with
            | Some s => (inr (s, i), self)
            | None => (inl IndexError, self)
            end
        else
          let ln := Z.shiftr v 1 in
          if Z.of_nat (length buf) <? Z.of_nat i + ln then (inl LiteralOverflow, self)
          else
            match utf8_decode (take (Z.to_nat ln) (drop i buf)) with
            | None => (inl UnicodeDecodeError, self)
            | Some s => (inr (s, (i + Z.to_nat ln)%nat), pool_intern s self)
            end
    end.

Definition _StringPool_reset : M _StringPool unit :=
  fun _ => (inr tt, _StringPool_init).


(** A sequence of calls [pool.encode(s, out)] on one pool and one buffer. *)
Fixpoint encode_all (ss : list string) (out : list byte) : M _StringPool (list byte) :=
  match ss with
  | [] => ret out
  | s :: ss' =>
      out <-- _StringPool_encode s out ;;
      encode_all ss' out
  end.

(** [n] calls of [pool.decode(buf, i)], each from the index the previous
    one returned. *)
Fixpoint decode_all (n : nat) (buf : list byte) (i : nat)
    : M _StringPool (list string * nat) :=
  match n with
  | O => ret ([], i)
  | S n' =>
      <( s, i )> <-- _StringPool_decode buf i ;;
      <( ss, i )> <-- decode_all n' buf i ;;
      ret (s :: ss, i)
  end.

(** The position, counted from 1, of [s] in [seen]. *)
Fixpoint ordinal (seen : list string) (s : string) : option Z :=
  match seen with
  | [] => None
  | x :: seen' =>
      if String.eqb s x then Some 1 else option_map Z.succ (ordinal seen' s)
  end.

(** The distinct strings of [ss] in the order of their first occurrence,
    after those of [seen]. *)
Fixpoint first_seen_from (seen ss : list string) : list string :=
  match ss with
  | [] => seen
  | s :: ss' =>
      match ordinal seen s with
      | Some _ => first_seen_from seen ss'
      | None => first_seen_from (seen ++ [s]) ss'
      end
  end.

Definition first_seen (ss : list string) : list string := first_seen_from [] ss.

(** The wire elements the specification prescribes for the strings [ss]
    when [seen] were seen before: a literal, [(len << 1) | 1] and the bytes,
    for a string not seen yet; a reference, [id << 1], to its first-seen
    ordinal otherwise. *)
Fixpoint pool_stream (seen ss : list string) : list (list byte) :=
  match ss with
  | [] => []
  | s :: ss' =>
      match ordinal seen s with
      | Some id => uvarint_bytes (2 * id) :: pool_stream seen ss'
      | None =>
          (uvarint_bytes (2 * Z.of_nat (length (utf8_encode s)) + 1) ++ utf8_encode s)
          :: pool_stream (seen ++ [s]) ss'
      end
  end.

(** ** V3 compressor (stateful) *)

(** The attributes of a [FrameCompressorV3] instance. *)
Record FrameCompressorV3 : Type := {
  asset_id : string;
  pool : _StringPool;
  base_ts : option Z;
  prev_ts : option Z;
  wrote_header : bool
}.

(** [FrameCompressorV3.__init__] *)
Definition FrameCompressorV3_init (aid : string) : FrameCompressorV3 :=
  {| asset_id := aid; pool := _StringPool_init; base_ts := None;
     prev_ts := None; wrote_header := false |}.

Definition set_pool (p : _StringPool) (self : FrameCompressorV3) : FrameCompressorV3 :=
  {| asset_id := asset_id self; pool := p; base_ts := base_ts self;
     prev_ts := prev_ts self; wrote_header := wrote_header self |}.

Definition set_prev_ts (t : option Z) (self : FrameCompressorV3) : FrameCompressorV3 :=
  {| asset_id := asset_id self; pool := pool self; base_ts := base_ts self;
     prev_ts := t; wrote_header := wrote_header self |}.

(** A method of [self.pool] called from a method of the compressor. *)
Definition on_pool {A : Type} (m : M _StringPool A) : M FrameCompressorV3 A :=
  fun self => let '(r, p) := m (pool self) in (r, set_pool p self).

Definition _get_ts (ev : json) : exn + option Z :=
  match ev with
  | JObj d =>
      match dict_get "timestamp" d with
      | None => inr None
      | Some JNull => inr None
      | Some ts => inr (py_int ts)
      end
  | _ => inl AttributeError
  end.

(** The body of [for lvx in lv] in [_encode_levels]. *)
Fixpoint encode_levels_loop (lv : list json) (out : list byte)
    : M FrameCompressorV3 (list byte) :=
  match lv with
  | [] => ret out
  | lvx :: lv' =>
      p <-- lift (py_get lvx "price" (JStr EmptyString)) ;;
      out <-- on_pool (_StringPool_encode (py_str p) out) ;;
      s <-- lift (py_get lvx "size" (JStr EmptyString)) ;;
      out <-- on_pool (_StringPool_encode (py_str s) out) ;;
      encode_levels_loop lv' out
  end.

Definition _encode_levels (levels : json) (out : list byte)
    : M FrameCompressorV3 (list byte) :=
  lv <-- lift (py_list levels) ;;
  out <-- lift (_uvarint_encode (Z.of_nat (length lv)) out) ;;
  encode_levels_loop lv out.

Definition _encode_book (ev : json) (out : list byte) : M FrameCompressorV3 (list byte) :=
  match ev with
  | JObj d =>
      let bids := if dict_has "bids" d
                  then default (JArr []) (dict_get "bids" d)
                  else default (JArr []) (dict_get "buys" d) in
      let asks := if dict_has "asks" d
                  then default (JArr []) (dict_get "asks" d)
                  else default (JArr []) (dict_get "sells" d) in
      out <-- _encode_levels bids out ;;
      _encode_levels asks out
  | _ => raise TypeError
  end.

(** [1 if side == "SELL" else 0] *)
Definition side_byte (side : string) : byte :=
  if String.eqb side "SELL" then byte_of_Z 1 else byte_of_Z 0.

(** The body of [for ch in chs] in [_encode_price_change]. *)
Fixpoint encode_changes_loop (chs : list json) (out : list byte)
    : M FrameCompressorV3 (list byte) :=
  match chs with
  | [] => ret out
  | ch :: chs' =>
      sd <-- lift (py_get ch "side" (JStr EmptyString)) ;;
      let side := str_upper R (py_str sd) in
      let out := out ++ [side_byte side] in
      p <-- lift (py_get ch "price" (JStr EmptyString)) ;;
      out <-- on_pool (_StringPool_encode (py_str p) out) ;;
      s <-- lift (py_get ch "size" (JStr EmptyString)) ;;
      out <-- on_pool (_StringPool_encode (py_str s) out) ;;
      encode_changes_loop chs' out
  end.

Definition _encode_price_change (ev : json) (out : list byte)
    : M FrameCompressorV3 (list byte) :=
  c <-- lift (py_get ev "changes" (JArr [])) ;;
  let chs := if py_truthy c then c else JArr [] in
  items <-- lift (py_list chs) ;;
  out <-- lift (_uvarint_encode (Z.of_nat (length items)) out) ;;
  encode_changes_loop items out.

Definition _encode_tick_size_change (ev : json) (out : list byte)
    : M FrameCompressorV3 (list byte) :=
  o <-- lift (py_get ev "old_tick_size" (JStr EmptyString)) ;;
  out <-- on_pool (_StringPool_encode (py_str o) out) ;;
  n <-- lift (py_get ev "new_tick_size" (JStr EmptyString)) ;;
  on_pool (_StringPool_encode (py_str n) out).

Definition _encode_last_trade_price (ev : json) (type_byte : Z) (out : list byte)
    : M FrameCompressorV3 (list byte) :=
  p <-- lift (py_get ev "price" (JStr EmptyString)) ;;
  out <-- on_pool (_StringPool_encode (py_str p) out) ;;
  s <-- lift (py_get ev "size" (JStr EmptyString)) ;;
  out <-- on_pool (_StringPool_encode (py_str s) out) ;;
  sd <-- lift (py_get ev "side" (JStr EmptyString)) ;;
  let side := str_upper R (py_str sd) in
  let out := out ++ [side_byte side] in
  if negb (Z.land type_byte _TB_OPT0 =? 0) then
    f <-- lift (py_get ev "fee_rate_bps" (JStr EmptyString)) ;;
    on_pool (_StringPool_encode (py_str f) out)
  else ret out.

(** [_ensure_header]: [None] when the header was already written. *)
Definition _ensure_header (first_ts : option Z) : M FrameCompressorV3 (option string) :=
  fun self =>
    if wrote_header self then (inr None, self)
    else
      let base := match first_ts with Some t => t | None => 0 end in
      let self := {| asset_id := asset_id self; pool := pool self;
                     base_ts := Some base; prev_ts := Some base;
                     wrote_header := wrote_header self |} in
      let flags := _H_SINGLE_ASSET in
      let out := [byte_of_Z _REC_HEADER] in
      match
        (out <-- lift (_uvarint_encode 3 out) ;;
         out <-- lift (_uvarint_encode flags out) ;;
         out <-- lift (_uvarint_encode base out) ;;
         out <-- lift (_uvarint_encode 1 out) ;;
         let aid_b := utf8_encode (asset_id self) in
         out <-- lift (_uvarint_encode (Z.of_nat (length aid_b)) out) ;;
         ret (out ++ aid_b)) self
      with
      | (inl e, self) => (inl e, self)
      | (inr out, self) =>
          let self := {| asset_id := asset_id self; pool := _StringPool_init;
                         base_ts := base_ts self; prev_ts := prev_ts self;
                         wrote_header := true |} in
          (inr (Some (_deflate_raw_b64 out)), self)
      end.

Definition is_dict (v : json) : bool :=
  match v with JObj _ => true | _ => false end.

Definition _encode_event (ev : json) (out : list byte) : M FrameCompressorV3 (list byte) :=
  e <-- lift (py_get ev "event_type" (JStr EmptyString)) ;;
  let et := py_str e in
  match _ET_CODE et with
  | None => raise (UnknownEventType et)
  | Some et_code =>
      ts <-- lift (_get_ts ev) ;;
      self <-- get ;;
      let '(ts_val, ts_abs, new_prev) :=
          match prev_ts self, ts with
          | None, None => (0, true, prev_ts self)
          | None, Some t => (t, true, Some t)
          | Some _, None => (0, true, prev_ts self)
          | Some p, Some t =>
              if p <=? t then (t - p, false, Some t) else (t, true, Some t)
          end in
      _ <-- modify (set_prev_ts new_prev) ;;
        let tb := Z.land et_code 0x07 in
        let tb := if ts_abs then Z.lor tb _TB_TS_ABS else tb in
        let has_fee := match ev with JObj d => dict_has "fee_rate_bps" d | _ => false end in
        let tb := if (et_code =? 3) && has_fee then Z.lor tb _TB_OPT0 else tb in
        let out := out ++ [byte_of_Z tb] in
        out <-- lift (_uvarint_encode ts_val out) ;;
        if et_code =? 0 then _encode_book ev out
        else if et_code =? 1 then _encode_price_change ev out
        else if et_code =? 2 then _encode_tick_size_change ev out
        else if et_code =? 3 then _encode_last_trade_price ev tb out
        else ret out
  end.

(** The body of [for ev in events] in [_encode_frame_events]. *)
Fixpoint encode_events_loop (events : list json) (out : list byte)
    : M FrameCompressorV3 (list byte) :=
  match events with
  | [] => ret out
  | ev :: events' =>
      out <-- _encode_event ev out ;;
      encode_events_loop events' out
  end.

(** The record [_encode_frame_events] builds, before it is deflated. *)
Definition frame_record (events : list json) : M FrameCompressorV3 (list byte) :=
  let out := [byte_of_Z _REC_FRAME] in
  out <-- lift (_uvarint_encode (Z.of_nat (length events)) out) ;;
  encode_events_loop events out.

Definition _encode_frame_events (events : list json) : M FrameCompressorV3 string :=
  out <-- frame_record events ;;
  ret (_deflate_raw_b64 out).

(** What [compress] returns: one line, or [[header_line, frame_line]]. *)
Inductive lines : Type :=
| One (line : string)
| Pair (header line : string).

(** [[header, line] if header else line] *)
Definition with_header (header : option string) (line : string) : lines :=
  match header with
  | Some h => if String.eqb h EmptyString then One line else Pair h line
  | None => One line
  end.

(** The record of the raw-text branches of [compress], before deflation. *)
Definition raw_record (s : string) : M FrameCompressorV3 (list byte) :=
  on_pool (_StringPool_encode s [byte_of_Z _REC_RAW]).

(** The loop choosing [first_ts]: the first event with a numeric timestamp. *)
Fixpoint first_timestamp (events : list json) : exn + option Z :=
  match events with
  | [] => inr None
  | ev :: events' =>
      match _get_ts ev with
      | inl e => inl e
      | inr (Some ts) => inr (Some ts)
      | inr None => first_timestamp events'
      end
  end.

(** [ev.pop("market", None); ev.pop("hash", None)] on the events that are dicts *)
Definition strip_event (ev : json) : json :=
  match ev with
  | JObj d => JObj (dict_pop "hash" (dict_pop "market" d))
  | _ => ev
  end.

Definition compress_raw (text : string) : M FrameCompressorV3 lines :=
  header <-- _ensure_header None ;;
  out <-- raw_record text ;;
  ret (with_header header (_deflate_raw_b64 out)).

Definition compress_events (events : list json) : M FrameCompressorV3 lines :=
  first_ts <-- lift (first_timestamp events) ;;
  header <-- _ensure_header first_ts ;;
  frame_line <-- _encode_frame_events (map strip_event events) ;;
  ret (with_header header frame_line).

Definition compress (raw_frame_str : string) : M FrameCompressorV3 lines :=
  match json_loads R raw_frame_str with
  | None => compress_raw raw_frame_str
  | Some (JObj d) => compress_events [JObj d]
  | Some (JArr events) => compress_events events
  | Some obj => compress_raw (json_dumps R obj)
  end.

(** ** V3 decoder (stateful) *)

Record _V3State : Type := {
  st_pool : _StringPool;
  st_base_ts : Z;
  st_prev_ts : option Z;
  st_asset_ids : list string;
  st_flags : Z;
  st_have_header : bool
}.

(** [_V3State.__init__] *)
Definition _V3State_init : _V3State :=
  {| st_pool := _StringPool_init; st_base_ts := 0; st_prev_ts := None;
     st_asset_ids := []; st_flags := 0; st_have_header := false |}.

Definition set_st_pool (p : _StringPool) (st : _V3State) : _V3State :=
  {| st_pool := p; st_base_ts := st_base_ts st; st_prev_ts := st_prev_ts st;
     st_asset_ids := st_asset_ids st; st_flags := st_flags st;
     st_have_header := st_have_header st |}.

Definition set_st_prev_ts (t : option Z) (st : _V3State) : _V3State :=
  {| st_pool := st_pool st; st_base_ts := st_base_ts st; st_prev_ts := t;
     st_asset_ids := st_asset_ids st; st_flags := st_flags st;
     st_have_header := st_have_header st |}.

Definition set_st_asset_ids (a : list string) (st : _V3State) : _V3State :=
  {| st_pool := st_pool st; st_base_ts := st_base_ts st; st_prev_ts := st_prev_ts st;
     st_asset_ids := a; st_flags := st_flags st;
     st_have_header := st_have_header st |}.

(** [st.asset_ids[0] if st.asset_ids else ""] *)
Definition stamp (st : _V3State) : string :=
  match st_asset_ids st with
  | a :: _ => a
  | [] => EmptyString
  end.

(** A method of [st.pool] called from a decoder function. *)
Definition on_st_pool {A : Type} (m : M _StringPool A) : M _V3State A :=
  fun st => let '(r, p) := m (st_pool st) in (r, set_st_pool p st).

(** [buf[i]] *)
Definition buf_at (buf : list byte) (i : nat) : exn + Z :=
  match buf !! i with
  | Some b => inr (byte_to_Z b)
  | None => inl IndexError
  end.

(** The loop [for _ in range(ac)] of [_decode_header]. *)
Fixpoint decode_assets_loop (n : nat) (buf : list byte) (i : nat) : M _V3State nat :=
  match n with
  | O => ret i
  | S n' =>
      <( ln, i )> <-- lift (_uvarint_decode buf i) ;;
      if Z.of_nat (length buf) <? Z.of_nat i + ln then raise AssetIdTruncated
      else
        match utf8_decode (take (Z.to_nat ln) (drop i buf)) with
        | None => raise UnicodeDecodeError
        | Some s =>
            _ <-- modify (fun st => set_st_asset_ids (st_asset_ids st ++ [s]) st) ;;
            decode_assets_loop n' buf (i + Z.to_nat ln)%nat
        end
  end.

Definition _decode_header (buf : list byte) (i : nat) : M _V3State nat :=
  <( ver, i )> <-- lift (_uvarint_decode buf i) ;;
  if negb (ver =? 3) then raise (UnsupportedVersion ver)
  else
    <( flags, i )> <-- lift (_uvarint_decode buf i) ;;
    <( base, i )> <-- lift (_uvarint_decode buf i) ;;
    _ <-- modify (fun st =>
            {| st_pool := _StringPool_init; st_base_ts := base;
               st_prev_ts := Some base; st_asset_ids := st_asset_ids st;
               st_flags := flags; st_have_header := st_have_header st |}) ;;
    <( ac, i )> <-- lift (_uvarint_decode buf i) ;;
    _ <-- modify (set_st_asset_ids []) ;;
    i <-- decode_assets_loop (Z.to_nat ac) buf i ;;
    _ <-- modify (fun st =>
            {| st_pool := st_pool st; st_base_ts := st_base_ts st;
               st_prev_ts := st_prev_ts st; st_asset_ids := st_asset_ids st;
               st_flags := st_flags st; st_have_header := true |}) ;;
    ret i.

(** [{"price": p, "size": s}] *)
Definition level_obj (p s : string) : json :=
  JObj [("price"%string, JStr p); ("size"%string, JStr s)].

(** The loop [for _ in range(n)] of [_dec_levels]. *)
Fixpoint dec_levels_loop (n : nat) (buf : list byte) (i : nat) (out : list json)
    : M _V3State (list json * nat) :=
  match n with
  | O => ret (out, i)
  | S n' =>
      <( p, i )> <-- on_st_pool (_StringPool_decode buf i) ;;
      <( s, i )> <-- on_st_pool (_StringPool_decode buf i) ;;
      dec_levels_loop n' buf i (out ++ [level_obj p s])
  end.

Definition _dec_levels (buf : list byte) (i : nat) : M _V3State (list json * nat) :=
  <( n, i )> <-- lift (_uvarint_decode buf i) ;;
  dec_levels_loop (Z.to_nat n) buf i [].

(** ["SELL" if buf[i] == 1 else "BUY"] *)
Definition side_name (b : Z) : string :=
  if b =? 1 then "SELL" else "BUY".

(** [{"side": side, "price": price, "size": size}] *)
Definition change_obj (side price size : string) : json :=
  JObj [("side"%string, JStr side); ("price"%string, JStr price);
        ("size"%string, JStr size)].

(** The loop [for _ in range(n)] of the [price_change] branch. *)
Fixpoint dec_changes_loop (n : nat) (buf : list byte) (i : nat) (chs : list json)
    : M _V3State (list json * nat) :=
  match n with
  | O => ret (chs, i)
  | S n' =>
      b <-- lift (buf_at buf i) ;;
      let side := side_name b in
      let i := S i in
      <( price, i )> <-- on_st_pool (_StringPool_decode buf i) ;;
      <( size, i )> <-- on_st_pool (_StringPool_decode buf i) ;;
      dec_changes_loop n' buf i (chs ++ [change_obj side price size])
  end.

Definition _decode_event (buf : list byte) (i : nat) : M _V3State (json * nat) :=
  tb <-- lift (buf_at buf i) ;;
  let i := S i in
  let et_code := Z.land tb 0x07 in
  let ts_abs := negb (Z.land tb _TB_TS_ABS =? 0) in
  match _ET_FROM et_code with
  | None => raise (UnknownEventTypeCode et_code)
  | Some et =>
      <( tsv, i )> <-- lift (_uvarint_decode buf i) ;;
      st <-- get ;;
      let ts := match st_prev_ts st with
                | Some p => if ts_abs then tsv else p + tsv
                | None => tsv
                end in
      _ <-- modify (set_st_prev_ts (Some ts)) ;;
      let obj := [("event_type"%string, JStr et);
                    ("asset_id"%string, JStr (stamp st));
                    ("timestamp"%string, JStr (py_str_int ts))] in
      if String.eqb et "book" then
           <( bids, i )> <-- _dec_levels buf i ;;
           <( asks, i )> <-- _dec_levels buf i ;;
           ret (JObj (obj ++ [("bids"%string, JArr bids); ("asks"%string, JArr asks)]), i)
         else if String.eqb et "price_change" then
           <( n, i )> <-- lift (_uvarint_decode buf i) ;;
           <( chs, i )> <-- dec_changes_loop (Z.to_nat n) buf i [] ;;
           ret (JObj (obj ++ [("changes"%string, JArr chs)]), i)
         else if String.eqb et "tick_size_change" then
           <( old_tick, i )> <-- on_st_pool (_StringPool_decode buf i) ;;
           <( new_tick, i )> <-- on_st_pool (_StringPool_decode buf i) ;;
           ret (JObj (obj ++ [("old_tick_size"%string, JStr old_tick);
                              ("new_tick_size"%string, JStr new_tick)]), i)
         else if String.eqb et "last_trade_price" then
           <( price, i )> <-- on_st_pool (_StringPool_decode buf i) ;;
           <( size, i )> <-- on_st_pool (_StringPool_decode buf i) ;;
           b <-- lift (buf_at buf i) ;;
           let side := side_name b in
           let i := S i in
           let obj := obj ++ [("price"%string, JStr price); ("size"%string, JStr size);
                              ("side"%string, JStr side)] in
           if negb (Z.land tb _TB_OPT0 =? 0) then
             <( fee, i )> <-- on_st_pool (_StringPool_decode buf i) ;;
             ret (JObj (obj ++ [("fee_rate_bps"%string, JStr fee)]), i)
           else ret (JObj obj, i)
         else ret (JObj obj, i)
  end.

(** The loop [for _ in range(cnt)] of [_decode_frame]. *)
Fixpoint decode_events_loop (n : nat) (buf : list byte) (i : nat) (arr : list json)
    : M _V3State (list json * nat) :=
  match n with
  | O => ret (arr, i)
  | S n' =>
      <( ev, i )> <-- _decode_event buf i ;;
      decode_events_loop n' buf i (arr ++ [ev])
  end.

(** The events of a frame record, before [json.dumps]. *)
Definition decode_frame_events (buf : list byte) (i : nat) : M _V3State (list json * nat) :=
  <( cnt, i )> <-- lift (_uvarint_decode buf i) ;;
  decode_events_loop (Z.to_nat cnt) buf i [].

Definition _decode_frame (buf : list byte) (i : nat) : M _V3State (string * nat) :=
  <( arr, i )> <-- decode_frame_events buf i ;;
  ret (json_dumps R (JArr arr), i).

Definition _decode_raw (buf : list byte) (i : nat) : M _V3State (string * nat) :=
  <( s, i )> <-- on_st_pool (_StringPool_decode buf i) ;;
  ret (json_dumps R (JStr s), i).

(** [None] is "not V3"; an exception of the record decoders propagates. *)
Definition _try_decode_v3_line (token : string) : M _V3State (option (list string)) :=
  match _inflate_raw_b64 token with
  | inl _ => ret None
  | inr buf =>
      match buf with
      | [] => ret None
      | k :: _ =>
          let kind := byte_to_Z k in
          let i := 1%nat in
          if kind =? _REC_HEADER then
            _ <-- _decode_header buf i ;;
            ret (Some [])
          else if kind =? _REC_FRAME then
            <( js, _ )> <-- _decode_frame buf i ;;
            ret (Some [js])
          else if kind =? _REC_RAW then
            <( js, _ )> <-- _decode_raw buf i ;;
            ret (Some [js])
          else ret None
      end
  end.

(** ** The data model of the specification

    An event of section 3 of the specification: a numeric timestamp and, by
    event type, the fields of the table.  [view_event] reads such an event
    off a parsed JSON object; it is defined on the syntactically valid
    events: the four event types, a [timestamp] string that [int] reads as
    an unsigned 64-bit number, and the required fields of the type, each a
    text ([bids]/[asks] possibly under their aliases [buys]/[sells], a
    [side] that is BUY or SELL in any case). *)

Inductive payload : Type :=
| Book (bids asks : list (string * string))
| PriceChange (changes : list (string * (string * string)))
| TickSizeChange (old_tick new_tick : string)
| LastTradePrice (price size side : string) (fee : option string).

Record event : Type := { ev_timestamp : Z; ev_payload : payload }.

Definition view_str (v : option json) : option string :=
  match v with
  | Some (JStr s) => if wf_str s then Some s else None
  | _ => None
  end.

Definition view_side (v : option json) : option string :=
  match view_str v with
  | Some s =>
      if String.eqb (str_upper R s) "SELL" || String.eqb (str_upper R s) "BUY"
      then Some s else None
  | None => None
  end.

Definition view_level (v : json) : option (string * string) :=
  match v with
  | JObj d =>
      match view_str (dict_get "price" d), view_str (dict_get "size" d) with
      | Some p, Some s => Some (p, s)
      | _, _ => None
      end
  | _ => None
  end.

Definition view_change (v : json) : option (string * (string * string)) :=
  match v with
  | JObj d =>
      match view_side (dict_get "side" d),
            view_str (dict_get "price" d), view_str (dict_get "size" d) with
      | Some sd, Some p, Some s => Some (sd, (p, s))
      | _, _, _ => None
      end
  | _ => None
  end.

Fixpoint view_list {A : Type} (f : json -> option A) (l : list json) : option (list A) :=
  match l with
  | [] => Some []
  | x :: l' =>
      match f x, view_list f l' with
      | Some a, Some r => Some (a :: r)
      | _, _ => None
      end
  end.

(** A [list] holds fewer than [2^63] items. *)
Definition view_array {A : Type} (f : json -> option A) (v : option json)
    : option (list A) :=
  match v with
  | Some (JArr l) => if Z.of_nat (length l) <? 2 ^ 63 then view_list f l else None
  | _ => None
  end.

Definition view_timestamp (v : option json) : option Z :=
  match v with
  | Some (JStr s) =>
      match int_of_str R s with
      | Some t => if (0 <=? t) && (t <? 2 ^ 64) then Some t else None
      | None => None
      end
  | _ => None
  end.

Definition view_payload (et : string) (d : list (string * json)) : option payload :=
  if String.eqb et "book" then
    match view_array view_level
            (if dict_has "bids" d then dict_get "bids" d else dict_get "buys" d),
          view_array view_level
            (if dict_has "asks" d then dict_get "asks" d else dict_get "sells" d) with
    | Some b, Some a => Some (Book b a)
    | _, _ => None
    end
  else if String.eqb et "price_change" then
    option_map PriceChange (view_array view_change (dict_get "changes" d))
  else if String.eqb et "tick_size_change" then
    match view_str (dict_get "old_tick_size" d), view_str (dict_get "new_tick_size" d) with
    | Some o, Some n => Some (TickSizeChange o n)
    | _, _ => None
    end
  else if String.eqb et "last_trade_price" then
    match view_str (dict_get "price" d), view_str (dict_get "size" d),
          view_side (dict_get "side" d) with
    | Some p, Some s, Some sd =>
        if dict_has "fee_rate_bps" d then
          match view_str (dict_get "fee_rate_bps" d) with
          | Some f => Some (LastTradePrice p s sd (Some f))
          | None => None
          end
        else Some (LastTradePrice p s sd None)
    | _, _, _ => None
    end
  else None.

Definition view_event (ev : json) : option event :=
  match ev with
  | JObj d =>
      match dict_get "event_type" d, view_timestamp (dict_get "timestamp" d) with
      | Some (JStr et), Some t =>
          match view_payload et d with
          | Some pl => Some {| ev_timestamp := t; ev_payload := pl |}
          | None => None
          end
      | _, _ => None
      end
  | _ => None
  end.

(** The events of a frame text: a JSON array of events, or one event. *)
Definition view_frame (text : string) : option (list event) :=
  match json_loads R text with
  | Some (JArr evs) => view_array view_event (Some (JArr evs))
  | Some (JObj d) => view_list view_event [JObj d]
  | _ => None
  end.

(** Normalisation: no [market] or [hash], [side] in upper case, levels
    under [bids]/[asks], the session's [asset_id], and the timestamp as the
    decimal string of its value. *)
Definition et_name (pl : payload) : string :=
  match pl with
  | Book _ _ => "book"
  | PriceChange _ => "price_change"
  | TickSizeChange _ _ => "tick_size_change"
  | LastTradePrice _ _ _ _ => "last_trade_price"
  end.

Definition norm_level (l : string * string) : json := level_obj (fst l) (snd l).

Definition norm_change (c : string * (string * string)) : json :=
  change_obj (str_upper R (fst c)) (fst (snd c)) (snd (snd c)).

Definition norm_payload (pl : payload) : list (string * json) :=
  match pl with
  | Book b a =>
      [("bids"%string, JArr (map norm_level b)); ("asks"%string, JArr (map norm_level a))]
  | PriceChange cs => [("changes"%string, JArr (map norm_change cs))]
  | TickSizeChange o n =>
      [("old_tick_size"%string, JStr o); ("new_tick_size"%string, JStr n)]
  | LastTradePrice p s sd fee =>
      [("price"%string, JStr p); ("size"%string, JStr s);
       ("side"%string, JStr (str_upper R sd))]
      ++ match fee with
         | Some f => [("fee_rate_bps"%string, JStr f)]
         | None => []
         end
  end.

Definition normalise (aid : string) (e : event) : json :=
  JObj ([("event_type"%string, JStr (et_name (ev_payload e)));
         ("asset_id"%string, JStr aid);
         ("timestamp"%string, JStr (py_str_int (ev_timestamp e)))]
        ++ norm_payload (ev_payload e)).

(** ** The wire layout of the specification (section 4.4)

    A record body is a sequence of pooled strings and plain bytes. *)

Inductive item : Type :=
| IStr (s : string)
| IRaw (bs : list byte).

Definition levels_items (ls : list (string * string)) : list item :=
  flat_map (fun l => [IStr (fst l); IStr (snd l)]) ls.

Definition changes_items (cs : list (string * (string * string))) : list item :=
  flat_map (fun c => [IRaw [side_byte (str_upper R (fst c))];
                      IStr (fst (snd c)); IStr (snd (snd c))]) cs.

Definition payload_items (pl : payload) : list item :=
  match pl with
  | Book b a =>
      IRaw (uvarint_bytes (Z.of_nat (length b))) :: levels_items b
      ++ IRaw (uvarint_bytes (Z.of_nat (length a))) :: levels_items a
  | PriceChange cs =>
      IRaw (uvarint_bytes (Z.of_nat (length cs))) :: changes_items cs
  | TickSizeChange o n => [IStr o; IStr n]
  | LastTradePrice p s sd fee =>
      [IStr p; IStr s; IRaw [side_byte (str_upper R sd)]]
      ++ match fee with Some f => [IStr f] | None => [] end
  end.

Definition et_code (pl : payload) : Z :=
  match pl with
  | Book _ _ => 0
  | PriceChange _ => 1
  | TickSizeChange _ _ => 2
  | LastTradePrice _ _ _ _ => 3
  end.

(** The type byte: event code, OPT0 for a fee, TS_ABS for an absolute time. *)
Definition type_byte (pl : payload) (ts_abs : bool) : Z :=
  et_code pl
  + (if ts_abs then 32 else 0)
  + match pl with LastTradePrice _ _ _ (Some _) => 8 | _ => 0 end.

(** An event after an event (or a header) of timestamp [prev]. *)
Definition event_items (prev : Z) (e : event) : list item :=
  let t := ev_timestamp e in
  let ts_abs := negb (prev <=? t) in
  IRaw [byte_of_Z (type_byte (ev_payload e) ts_abs)]
  :: IRaw (uvarint_bytes (if ts_abs then t else t - prev))
  :: payload_items (ev_payload e).

Fixpoint events_items (prev : Z) (es : list event) : list item :=
  match es with
  | [] => []
  | e :: es' => event_items prev e ++ events_items (ev_timestamp e) es'
  end.

(** The timestamp after the events [es]. *)
Definition last_timestamp (prev : Z) (es : list event) : Z :=
  fold_left (fun _ e => ev_timestamp e) es prev.

(** Well-formed events of the data model: every field a [str] of the model,
    every side BUY or SELL in some case, the timestamp an unsigned 64-bit
    number.  [view_event] returns such events only. *)
Definition side_ok (sd : string) : Prop :=
  str_upper R sd = "SELL"%string \/ str_upper R sd = "BUY"%string.

Definition level_wf (l : string * string) : Prop :=
  wf_str (fst l) = true /\ wf_str (snd l) = true.

Definition change_wf (c : string * (string * string)) : Prop :=
  side_ok (fst c) /\ wf_str (fst (snd c)) = true /\ wf_str (snd (snd c)) = true.

Definition payload_wf (pl : payload) : Prop :=
  match pl with
  | Book b a =>
      (Forall level_wf b /\ Z.of_nat (length b) < 2 ^ 63)
      /\ (Forall level_wf a /\ Z.of_nat (length a) < 2 ^ 63)
  | PriceChange cs => Forall change_wf cs /\ Z.of_nat (length cs) < 2 ^ 63
  | TickSizeChange o n => wf_str o = true /\ wf_str n = true
  | LastTradePrice p s sd fee =>
      wf_str p = true /\ wf_str s = true /\ side_ok sd
      /\ match fee with Some f => wf_str f = true | None => True end
  end.

Definition event_wf (e : event) : Prop :=
  0 <= ev_timestamp e < 2 ^ 64 /\ payload_wf (ev_payload e).

(** The timestamp a decoder whose [prev_ts] is [q] gives an event of
    timestamp [t] that was encoded after timestamp [prev]. *)
Definition decoded_ts (q : option Z) (prev t : Z) : Z :=
  let ts_abs := negb (prev <=? t) in
  let tsv := if ts_abs then t else t - prev in
  match q with
  | Some q' => if ts_abs then tsv else q' + tsv
  | None => tsv
  end.

Fixpoint decoded_events (q : option Z) (prev : Z) (es : list event) : list event :=
  match es with
  | [] => []
  | e :: es' =>
      let t := decoded_ts q prev (ev_timestamp e) in
      {| ev_timestamp := t; ev_payload := ev_payload e |}
      :: decoded_events (Some t) (ev_timestamp e) es'
  end.

(** The decoder's [prev_ts] after these events. *)
Fixpoint decoded_prev (q : option Z) (prev : Z) (es : list event) : option Z :=
  match es with
  | [] => q
  | e :: es' =>
      decoded_prev (Some (decoded_ts q prev (ev_timestamp e))) (ev_timestamp e) es'
  end.

(** A byte with the continuation bit set. *)
Definition cont_bit (b : byte) : Prop := 128 <= byte_to_Z b.

(** [token.rstrip("=")] *)
Definition strip_token (token : string) : string :=
  string_of_list_byte (strip_padding (list_byte_of_string token)).

(** What [_StringPool.encode s] appends for a pool [p], and the pool it
    leaves. *)
Definition pool_elem (p : _StringPool) (s : string) : list byte :=
  match _s2i p !! s with
  | Some i => uvarint_bytes (2 * i)
  | None => uvarint_bytes (2 * Z.of_nat (length (utf8_encode s)) + 1) ++ utf8_encode s
  end.

Definition pool_after (p : _StringPool) (s : string) : _StringPool :=
  match _s2i p !! s with
  | Some _ => p
  | None => pool_intern s p
  end.

(** The invariant of a pool: ids are [1 .. _next - 1] and [_i2s] inverts
    [_s2i]. *)
Definition pool_wf (p : _StringPool) : Prop :=
  _next p = Z.of_nat (length (_i2s p))
  /\ 1 <= _next p
  /\ forall (s : string) (i : Z),
       _s2i p !! s = Some i -> 1 <= i < _next p /\ _i2s p !! Z.to_nat i = Some s.

(** The pool after the distinct strings [seen], in this order. *)
Definition pool_repr (seen : list string) (p : _StringPool) : Prop :=
  _i2s p = "<unused>"%string :: seen
  /\ _next p = 1 + Z.of_nat (length seen)
  /\ forall s, _s2i p !! s = ordinal seen s.

(** The bytes of a sequence of items written through a pool, and the pool
    afterwards. *)
Fixpoint items_bytes (p : _StringPool) (items : list item) : list byte :=
  match items with
  | [] => []
  | IStr s :: r => pool_elem p s ++ items_bytes (pool_after p s) r
  | IRaw bs :: r => bs ++ items_bytes p r
  end.

Fixpoint items_pool (p : _StringPool) (items : list item) : _StringPool :=
  match items with
  | [] => p
  | IStr s :: r => items_pool (pool_after p s) r
  | IRaw _ :: r => items_pool p r
  end.

Definition item_wf (it : item) : bool :=
  match it with
  | IStr s => wf_str s
  | IRaw _ => true
  end.

(** The record of a frame of events of the data model, for a pool [p] and a
    previous timestamp [prev] (section 4.5: ['F'], the event count, the
    events). *)
Definition frame_bytes (p : _StringPool) (prev : Z) (es : list event) : list byte :=
  [byte_of_Z _REC_FRAME] ++ uvarint_bytes (Z.of_nat (length es))
  ++ items_bytes p (events_items prev es).

(** The header record (section 4.5): ['H'], version 3, flags, base
    timestamp, one asset. *)
Definition header_bytes (aid : string) (base : Z) : list byte :=
  [byte_of_Z _REC_HEADER] ++ uvarint_bytes 3 ++ uvarint_bytes _H_SINGLE_ASSET
  ++ uvarint_bytes base ++ uvarint_bytes 1
  ++ uvarint_bytes (Z.of_nat (length (utf8_encode aid))) ++ utf8_encode aid.

(** The header layout in general: any version, flags and list of assets. *)
Definition assets_bytes (assets : list string) : list byte :=
  flat_map (fun a => uvarint_bytes (Z.of_nat (length (utf8_encode a))) ++ utf8_encode a)
    assets.

Definition header_layout (ver flags base : Z) (assets : list string) : list byte :=
  [byte_of_Z _REC_HEADER] ++ uvarint_bytes ver ++ uvarint_bytes flags
  ++ uvarint_bytes base ++ uvarint_bytes (Z.of_nat (length assets))
  ++ assets_bytes assets.

(** The decoder state a header leaves. *)
Definition header_state (aid : string) (base : Z) : _V3State :=
  {| st_pool := _StringPool_init; st_base_ts := base; st_prev_ts := Some base;
     st_asset_ids := [aid]; st_flags := _H_SINGLE_ASSET; st_have_header := true |}.

(** The compressor after it wrote its header. *)
Definition header_written (aid : string) (base : Z) : FrameCompressorV3 :=
  {| asset_id := aid; pool := _StringPool_init; base_ts := Some base;
     prev_ts := Some base; wrote_header := true |}.

(** ** Sessions

    The lines a compressor returns for a sequence of frames, in the order
    the logger writes them, and the results of feeding a sequence of lines
    to a decoder state. *)

Definition lines_list (l : lines) : list string :=
  match l with
  | One line => [line]
  | Pair header line => [header; line]
  end.

Fixpoint compress_session (frames : list string) : M FrameCompressorV3 (list string) :=
  match frames with
  | [] => ret []
  | f :: fs =>
      l <-- compress f ;;
      ls <-- compress_session fs ;;
      ret (lines_list l ++ ls)
  end.

Fixpoint decode_session (tokens : list string) : M _V3State (list (option (list string))) :=
  match tokens with
  | [] => ret []
  | t :: ts =>
      o <-- _try_decode_v3_line t ;;
      os <-- decode_session ts ;;
      ret (o :: os)
  end.

(** The JSON texts a sequence of line results holds; [None] when a line was
    not taken as V3. *)
Fixpoint session_outputs (os : list (option (list string))) : option (list string) :=
  match os with
  | [] => Some []
  | Some js :: os' => option_map (app js) (session_outputs os')
  | None :: _ => None
  end.

(** A sequence of calls of [compress] on one instance.  A call that raises
    leaves the instance as it was at the [raise], and the next call goes on
    from there. *)
Fixpoint compress_calls (frames : list string) (self : FrameCompressorV3)
    : list (exn + lines) * FrameCompressorV3 :=
  match frames with
  | [] => ([], self)
  | f :: fs =>
      let '(r, self) := compress f self in
      let '(rs, self) := compress_calls fs self in
      (r :: rs, self)
  end.

(** The call returned, and did not raise. *)
Definition returned (r : exn + lines) : bool :=
  match r with inr _ => true | inl _ => false end.

(** The call returned a pair [[header_line, line]]. *)
Definition returned_pair (r : exn + lines) : bool :=
  match r with inr (Pair _ _) => true | _ => false end.

(** A fresh compressor and a fresh decoder state on a sequence of frames. *)
Definition run_session (aid : string) (frames : list string)
    : option (FrameCompressorV3 * _V3State * list (option (list string))) :=
  match compress_session frames (FrameCompressorV3_init aid) with
  | (inr tokens, c) =>
      match decode_session tokens _V3State_init with
      | (inr os, d) => Some (c, d, os)
      | (inl _, _) => None
      end
  | (inl _, _) => None
  end.

(** A compressor in the middle of a session: the header is written, the
    pool is consistent, the previous timestamp is set. *)
Definition in_session (c : FrameCompressorV3) : Prop :=
  wrote_header c = true /\ pool_wf (pool c)
  /\ exists p, prev_ts c = Some p /\ 0 <= p.

(** The compressor and the decoder state agree: same pool, same previous
    timestamp, the asset of the header. *)
Definition synced (c : FrameCompressorV3) (d : _V3State) : Prop :=
  stamp d = asset_id c /\ st_pool d = pool c /\ st_prev_ts d = prev_ts c.

(** A computation that leaves [wrote_header] as it found it. *)
Definition keeps {A : Type} (m : M FrameCompressorV3 A) : Prop :=
  forall c r c', m c = (r, c') -> wrote_header c' = wrote_header c.

(** The base timestamp of a first frame of events [es]. *)
Definition base_of (es : list event) : Z :=
  match es with e :: _ => ev_timestamp e | [] => 0 end.

End Codec.

(** ** A reference runtime

    An executable [PyRuntime], used to run the codec on concrete frames.
    It follows CPython on the inputs the codec sees in practice; where it is
    narrower than CPython this is said at the definition.  No theorem about
    the codec depends on it: they hold for every [PyRuntime]. *)

Module RefRuntime.

(** *** Raw DEFLATE

    The empty input is coded the way zlib codes it, as the empty
    fixed-Huffman block [03 00]; any other input as stored blocks
    (BTYPE=00) of at most 65535 bytes, which every inflater accepts. *)

Definition block_max : Z := 65535.

Definition stored_block (final : bool) (chunk : list byte) : list byte :=
  let len := Z.of_nat (length chunk) in
  let nlen := 65535 - len in
  [byte_of_Z (if final then 1 else 0);
   byte_of_Z (len mod 256); byte_of_Z (len / 256);
   byte_of_Z (nlen mod 256); byte_of_Z (nlen / 256)] ++ chunk.

Fixpoint stored_blocks (fuel : nat) (data : list byte) : list byte :=
  match fuel with
  | O => stored_block true []
  | S k =>
      if Z.of_nat (length data) <=? block_max then stored_block true data
      else stored_block false (take (Z.to_nat block_max) data)
           ++ stored_blocks k (drop (Z.to_nat block_max) data)
  end.

Definition deflate (data : list byte) : list byte :=
  match data with
  | [] => [byte_of_Z 3; byte_of_Z 0]
  | _ => stored_blocks (length data) data
  end.

Fixpoint stored_inflate (fuel : nat) (s : list byte) (out : list byte)
    : option (list byte) :=
  match fuel with
  | O => None
  | S k =>
      match s with
      | h :: l0 :: l1 :: n0 :: n1 :: rest =>
          let len := byte_to_Z l0 + 256 * byte_to_Z l1 in
          let nlen := byte_to_Z n0 + 256 * byte_to_Z n1 in
          if negb (len + nlen =? 65535) then None
          else if Z.of_nat (length rest) <? len then None
          else
            let out := out ++ take (Z.to_nat len) rest in
            if byte_to_Z h =? 1 then Some out
            else if byte_to_Z h =? 0 then stored_inflate k (drop (Z.to_nat len) rest) out
            else None
      | _ => None
      end
  end.

Definition inflate (s : list byte) : option (list byte) :=
  match s with
  | [a; b] => if (byte_to_Z a =? 3) && (byte_to_Z b =? 0) then Some [] else None
  | _ => stored_inflate (length s) s []
  end.

(** *** Text helpers *)

(** [str.upper], on the ASCII letters only. *)
Definition upper_byte (b : byte) : byte :=
  if in_range 97 122 b then byte_of_Z (byte_to_Z b - 32) else b.

Definition upper (s : string) : string :=
  string_of_list_byte (map upper_byte (list_byte_of_string s)).

Definition is_digit (b : byte) : bool := in_range 48 57 b.

Definition digit_val (b : byte) : Z := byte_to_Z b - 48.

Fixpoint span_digits (s : list byte) : list byte * list byte :=
  match s with
  | b :: r =>
      if is_digit b then let '(ds, rest) := span_digits r in (b :: ds, rest)
      else ([], s)
  | [] => ([], [])
  end.

Definition digits_val (ds : list byte) : Z :=
  fold_left (fun acc b => 10 * acc + digit_val b) ds 0.

(** [int(s)] for a [str]: optional blanks, an optional sign, ASCII digits
    that single underscores may separate.  (CPython also accepts the other
    Unicode decimal digits and blanks.) *)
Definition is_space (b : byte) : bool :=
  in_range 9 13 b || in_range 28 32 b.

Fixpoint lstrip (s : list byte) : list byte :=
  match s with
  | b :: r => if is_space b then lstrip r else s
  | [] => []
  end.

Fixpoint int_digits (s : list byte) (acc : Z) (prev_digit : bool) : option Z :=
  match s with
  | [] => if prev_digit then Some acc else None
  | b :: r =>
      if is_digit b then int_digits r (10 * acc + digit_val b) true
      else if (byte_to_Z b =? 95) && prev_digit then
        match r with
        | d :: _ => if is_digit d then int_digits r acc false else None
        | [] => None
        end
      else if is_space b && prev_digit then
        match lstrip r with [] => Some acc | _ => None end
      else None
  end.

Definition int_of_str (s : string) : option Z :=
  match lstrip (list_byte_of_string s) with
  | b :: r =>
      if byte_to_Z b =? 45 then option_map Z.opp (int_digits r 0 false)
      else if byte_to_Z b =? 43 then int_digits r 0 false
      else int_digits (b :: r) 0 false
  | [] => None
  end.

(** [int(f)] from the [repr] of [f], truncating the decimal it denotes
    (for a [repr] with more than 17 significant digits CPython truncates
    the binary value instead). *)
Definition float_trunc (r : string) : option Z :=
  let s := list_byte_of_string r in
  let '(neg, s) := match s with
                   | b :: t => if byte_to_Z b =? 45 then (true, t) else (false, s)
                   | [] => (false, s)
                   end in
  let '(ip, s) := span_digits s in
  match ip with
  | [] => None
  | _ =>
      let '(fp, s) := match s with
                      | b :: t => if byte_to_Z b =? 46 then span_digits t else ([], s)
                      | [] => ([], s)
                      end in
      let ex := match s with
                | [] => Some 0
                | b :: t =>
                    if (byte_to_Z b =? 101) || (byte_to_Z b =? 69) then
                      match t with
                      | sg :: u =>
                          if byte_to_Z sg =? 45 then
                            match span_digits u with
                            | (d :: ds, []) => Some (- digits_val (d :: ds))
                            | _ => None
                            end
                          else if byte_to_Z sg =? 43 then
                            match span_digits u with
                            | (d :: ds, []) => Some (digits_val (d :: ds))
                            | _ => None
                            end
                          else
                            match span_digits t with
                            | (d :: ds, []) => Some (digits_val (d :: ds))
                            | _ => None
                            end
                      | [] => None
                      end
                    else None
                end in
      match ex with
      | None => None
      | Some e =>
          let m := digits_val (ip ++ fp) in
          let sc := e - Z.of_nat (length fp) in
          let v := if 0 <=? sc then m * 10 ^ sc else m / 10 ^ (- sc) in
          Some (if neg then - v else v)
      end
  end.

(** *** Code points *)

Definition utf8_of_cp (cp : Z) : list byte :=
  if cp <? 0x80 then [byte_of_Z cp]
  else if cp <? 0x800 then
    [byte_of_Z (0xC0 + cp / 64); byte_of_Z (0x80 + cp mod 64)]
  else if cp <? 0x10000 then
    [byte_of_Z (0xE0 + cp / 4096); byte_of_Z (0x80 + (cp / 64) mod 64);
     byte_of_Z (0x80 + cp mod 64)]
  else
    [byte_of_Z (0xF0 + cp / 262144); byte_of_Z (0x80 + (cp / 4096) mod 64);
     byte_of_Z (0x80 + (cp / 64) mod 64); byte_of_Z (0x80 + cp mod 64)].

(** The code points of a well-formed UTF-8 text. *)
Fixpoint cps_of_utf8 (bs : list byte) : list Z :=
  match bs with
  | [] => []
  | b0 :: r0 =>
      let c0 := byte_to_Z b0 in
      if c0 <? 0x80 then c0 :: cps_of_utf8 r0
      else
        match r0 with
        | [] => []
        | b1 :: r1 =>
            let c1 := byte_to_Z b1 - 0x80 in
            if c0 <? 0xE0 then ((c0 - 0xC0) * 64 + c1) :: cps_of_utf8 r1
            else
              match r1 with
              | [] => []
              | b2 :: r2 =>
                  let c2 := byte_to_Z b2 - 0x80 in
                  if c0 <? 0xF0 then
                    ((c0 - 0xE0) * 4096 + c1 * 64 + c2) :: cps_of_utf8 r2
                  else
                    match r2 with
                    | [] => []
                    | b3 :: r3 =>
                        let c3 := byte_to_Z b3 - 0x80 in
                        ((c0 - 0xF0) * 262144 + c1 * 4096 + c2 * 64 + c3)
                        :: cps_of_utf8 r3
                    end
              end
        end
  end.

Definition hex_digit (v : Z) : byte :=
  if v <? 10 then byte_of_Z (48 + v) else byte_of_Z (97 + (v - 10)).

Definition hex4 (v : Z) : list byte :=
  [hex_digit (v / 4096 mod 16); hex_digit (v / 256 mod 16);
   hex_digit (v / 16 mod 16); hex_digit (v mod 16)].

Definition hex_val (b : byte) : option Z :=
  let c := byte_to_Z b in
  if (48 <=? c) && (c <=? 57) then Some (c - 48)
  else if (97 <=? c) && (c <=? 102) then Some (c - 97 + 10)
  else if (65 <=? c) && (c <=? 70) then Some (c - 65 + 10)
  else None.

Definition hex4_val (a b c d : byte) : option Z :=
  match hex_val a, hex_val b, hex_val c, hex_val d with
  | Some a, Some b, Some c, Some d => Some (a * 4096 + b * 256 + c * 16 + d)
  | _, _, _, _ => None
  end.

(** *** [json.dumps(v, separators=(",", ":"))] *)

Definition bytes_of (s : string) : list byte := list_byte_of_string s.

(** One character of a JSON string, with [ensure_ascii]. *)
Definition dumps_char (cp : Z) : list byte :=
  if cp =? 34 then [byte_of_Z 92; byte_of_Z 34]
  else if cp =? 92 then bytes_of "\\"
  else if cp =? 10 then bytes_of "\n"
  else if cp =? 13 then bytes_of "\r"
  else if cp =? 9 then bytes_of "\t"
  else if cp =? 8 then bytes_of "\b"
  else if cp =? 12 then bytes_of "\f"
  else if (32 <=? cp) && (cp <=? 126) then [byte_of_Z cp]
  else if cp <? 0x10000 then bytes_of "\u" ++ hex4 cp
  else
    let v := cp - 0x10000 in
    bytes_of "\u" ++ hex4 (0xD800 + v / 1024)
    ++ bytes_of "\u" ++ hex4 (0xDC00 + v mod 1024).

Definition dumps_str (s : string) : list byte :=
  [byte_of_Z 34] ++ concat (map dumps_char (cps_of_utf8 (bytes_of s))) ++ [byte_of_Z 34].

Fixpoint join (sep : list byte) (parts : list (list byte)) : list byte :=
  match parts with
  | [] => []
  | [p] => p
  | p :: ps => p ++ sep ++ join sep ps
  end.

Definition dumps_float (r : string) : list byte :=
  if String.eqb r "nan" then bytes_of "NaN"
  else if String.eqb r "inf" then bytes_of "Infinity"
  else if String.eqb r "-inf" then bytes_of "-Infinity"
  else bytes_of r.

Fixpoint dumps_bytes (v : json) : list byte :=
  match v with
  | JNull => bytes_of "null"
  | JBool true => bytes_of "true"
  | JBool false => bytes_of "false"
  | JInt z => bytes_of (py_str_int z)
  | JFloat r => dumps_float r
  | JStr s => dumps_str s
  | JArr l => bytes_of "[" ++ join (bytes_of ",") (map dumps_bytes l) ++ bytes_of "]"
  | JObj d =>
      bytes_of "{"
      ++ join (bytes_of ",")
           (map (fun kv => dumps_str (fst kv) ++ bytes_of ":" ++ dumps_bytes (snd kv)) d)
      ++ bytes_of "}"
  end.

Definition dumps (v : json) : string := string_of_list_byte (dumps_bytes v).

(** *** [json.loads]

    A recursive-descent parser for the JSON grammar as CPython reads it
    (including [NaN] and the infinities).  A float keeps its literal as its
    [repr]; an escaped lone surrogate, which no UTF-8 text can hold, is
    rejected.  [fuel] bounds the recursion; the length of the input is
    always enough. *)

Definition is_ws (b : byte) : bool :=
  let c := byte_to_Z b in (c =? 32) || (c =? 9) || (c =? 10) || (c =? 13).

Fixpoint skip_ws (s : list byte) : list byte :=
  match s with
  | b :: r => if is_ws b then skip_ws r else s
  | [] => []
  end.

(** [s] starts with [p]: the rest of [s]. *)
Fixpoint strip_prefix (p s : list byte) : option (list byte) :=
  match p, s with
  | [], _ => Some s
  | a :: p', b :: s' => if Byte.eqb a b then strip_prefix p' s' else None
  | _ :: _, [] => None
  end.

(** The text of a JSON string after its opening quote. *)
Fixpoint loads_str (fuel : nat) (s : list byte) (acc : list byte)
    : option (string * list byte) :=
  match fuel with
  | O => None
  | S k =>
      match s with
      | [] => None
      | b :: r =>
          let c := byte_to_Z b in
          if c =? 34 then Some (string_of_list_byte acc, r)
          else if c <? 32 then None
          else if c =? 92 then
            match r with
            | [] => None
            | e :: r' =>
                let x := byte_to_Z e in
                if x =? 34 then loads_str k r' (acc ++ [byte_of_Z 34])
                else if x =? 92 then loads_str k r' (acc ++ [byte_of_Z 92])
                else if x =? 47 then loads_str k r' (acc ++ [byte_of_Z 47])
                else if x =? 98 then loads_str k r' (acc ++ [byte_of_Z 8])
                else if x =? 102 then loads_str k r' (acc ++ [byte_of_Z 12])
                else if x =? 110 then loads_str k r' (acc ++ [byte_of_Z 10])
                else if x =? 114 then loads_str k r' (acc ++ [byte_of_Z 13])
                else if x =? 116 then loads_str k r' (acc ++ [byte_of_Z 9])
                else if x =? 117 then
                  match r' with
                  | h0 :: h1 :: h2 :: h3 :: r'' =>
                      match hex4_val h0 h1 h2 h3 with
                      | None => None
                      | Some u =>
                          if (0xD800 <=? u) && (u <=? 0xDBFF) then
                            match r'' with
                            | bs :: bu :: g0 :: g1 :: g2 :: g3 :: r3 =>
                                match hex4_val g0 g1 g2 g3 with
                                | Some lo =>
                                    if (byte_to_Z bs =? 92) && (byte_to_Z bu =? 117)
                                       && (0xDC00 <=? lo) && (lo <=? 0xDFFF)
                                    then
                                      loads_str k r3
                                        (acc ++ utf8_of_cp
                                           (0x10000 + (u - 0xD800) * 1024 + (lo - 0xDC00)))
                                    else None
                                | None => None
                                end
                            | _ => None
                            end
                          else if (0xDC00 <=? u) && (u <=? 0xDFFF) then None
                          else loads_str k r'' (acc ++ utf8_of_cp u)
                      end
                  | _ => None
                  end
                else None
            end
          else loads_str k r (acc ++ [b])
      end
  end.

(** A number: an optional minus sign, an integer part without leading
    zeros, an optional fraction and an optional exponent. *)
Definition loads_number (s : list byte) : option (json * list byte) :=
  let '(sign, s1) := match s with
                     | b :: t => if byte_to_Z b =? 45 then ([b], t) else ([], s)
                     | [] => ([], s)
                     end in
  let '(ds, s2) := span_digits s1 in
  let '(ip, s2) := match ds with
                   | z :: d :: ds' =>
                       if byte_to_Z z =? 48 then ([z], (d :: ds') ++ s2) else (ds, s2)
                   | _ => (ds, s2)
                   end in
  match ip with
  | [] => None
  | _ =>
      let '(frac, s3) :=
        match s2 with
        | b :: t =>
            if byte_to_Z b =? 46 then
              match span_digits t with
              | ([], _) => ([], s2)
              | (fs, rest) => (b :: fs, rest)
              end
            else ([], s2)
        | [] => ([], s2)
        end in
      let '(ex, s4) :=
        match s3 with
        | b :: t =>
            if (byte_to_Z b =? 101) || (byte_to_Z b =? 69) then
              let '(sg, u) := match t with
                              | g :: u =>
                                  if (byte_to_Z g =? 45) || (byte_to_Z g =? 43)
                                  then ([g], u) else ([], t)
                              | [] => ([], t)
                              end in
              match span_digits u with
              | ([], _) => ([], s3)
              | (es, rest) => (b :: sg ++ es, rest)
              end
            else ([], s3)
        | [] => ([], s3)
        end in
      match frac, ex with
      | [], [] =>
          let v := digits_val ip in
          Some (JInt (match sign with [] => v | _ => - v end), s4)
      | _, _ => Some (JFloat (string_of_list_byte (sign ++ ip ++ frac ++ ex)), s4)
      end
  end.

(** [d[k] = v] *)
Fixpoint dict_set (k : string) (v : json) (d : list (string * json))
    : list (string * json) :=
  match d with
  | [] => [(k, v)]
  | (k', v') :: d' =>
      if String.eqb k k' then (k, v) :: d' else (k', v') :: dict_set k v d'
  end.

Fixpoint loads_value (fuel : nat) (s : list byte) : option (json * list byte) :=
  match fuel with
  | O => None
  | S k =>
      match skip_ws s with
      | [] => None
      | b :: r =>
          let c := byte_to_Z b in
          if c =? 34 then
            match loads_str (length r) r [] with
            | Some (t, r') => Some (JStr t, r')
            | None => None
            end
          else if c =? 91 then
            match skip_ws r with
            | b' :: r' =>
                if byte_to_Z b' =? 93 then Some (JArr [], r')
                else loads_items k (b' :: r') []
            | [] => None
            end
          else if c =? 123 then
            match skip_ws r with
            | b' :: r' =>
                if byte_to_Z b' =? 125 then Some (JObj [], r')
                else loads_members k (b' :: r') []
            | [] => None
            end
          else
            match strip_prefix (bytes_of "null") (b :: r) with
            | Some r' => Some (JNull, r')
            | None =>
            match strip_prefix (bytes_of "true") (b :: r) with
            | Some r' => Some (JBool true, r')
            | None =>
            match strip_prefix (bytes_of "false") (b :: r) with
            | Some r' => Some (JBool false, r')
            | None =>
            match strip_prefix (bytes_of "NaN") (b :: r) with
            | Some r' => Some (JFloat "nan", r')
            | None =>
            match strip_prefix (bytes_of "Infinity") (b :: r) with
            | Some r' => Some (JFloat "inf", r')
            | None =>
            match strip_prefix (bytes_of "-Infinity") (b :: r) with
            | Some r' => Some (JFloat "-inf", r')
            | None => loads_number (b :: r)
            end end end end end end
      end
  end
with loads_items (fuel : nat) (s : list byte) (acc : list json)
    : option (json * list byte) :=
  match fuel with
  | O => None
  | S k =>
      match loads_value k s with
      | None => None
      | Some (v, r) =>
          match skip_ws r with
          | b :: r' =>
              if byte_to_Z b =? 44 then loads_items k r' (acc ++ [v])
              else if byte_to_Z b =? 93 then Some (JArr (acc ++ [v]), r')
              else None
          | [] => None
          end
      end
  end
with loads_members (fuel : nat) (s : list byte) (acc : list (string * json))
    : option (json * list byte) :=
  match fuel with
  | O => None
  | S k =>
      match skip_ws s with
      | q :: r =>
          if byte_to_Z q =? 34 then
            match loads_str (length r) r [] with
            | None => None
            | Some (key, r1) =>
                match skip_ws r1 with
                | c :: r2 =>
                    if byte_to_Z c =? 58 then
                      match loads_value k r2 with
                      | None => None
                      | Some (v, r3) =>
                          match skip_ws r3 with
                          | b :: r4 =>
                              if byte_to_Z b =? 44 then loads_members k r4 (dict_set key v acc)
                              else if byte_to_Z b =? 125 then Some (JObj (dict_set key v acc), r4)
                              else None
                          | [] => None
                          end
                      end
                    else None
                | [] => None
                end
            end
          else None
      | [] => None
      end
  end.

Definition loads (text : string) : option json :=
  let s := bytes_of text in
  match loads_value (S (length s)) s with
  | Some (v, r) => match skip_ws r with [] => Some v | _ => None end
  | None => None
  end.

(** *** [str(v)] for a list or a dict

    Python's [repr], with every [str] between apostrophes (CPython switches
    to double quotes for a text that holds an apostrophe and no double
    quote). *)

Definition repr_str (s : string) : list byte :=
  [byte_of_Z 39]
  ++ concat (map (fun b => if (byte_to_Z b =? 39) || (byte_to_Z b =? 92)
                           then [byte_of_Z 92; b] else [b]) (bytes_of s))
  ++ [byte_of_Z 39].

Fixpoint repr_bytes (v : json) : list byte :=
  match v with
  | JNull => bytes_of "None"
  | JBool true => bytes_of "True"
  | JBool false => bytes_of "False"
  | JInt z => bytes_of (py_str_int z)
  | JFloat r => bytes_of r
  | JStr s => repr_str s
  | JArr l => bytes_of "[" ++ join (bytes_of ", ") (map repr_bytes l) ++ bytes_of "]"
  | JObj d =>
      bytes_of "{"
      ++ join (bytes_of ", ")
           (map (fun kv => repr_str (fst kv) ++ bytes_of ": " ++ repr_bytes (snd kv)) d)
      ++ bytes_of "}"
  end.

Definition repr (v : json) : string := string_of_list_byte (repr_bytes v).

(** A text written with apostrophes in place of double quotes. *)
Definition dq (s : string) : string :=
  string_of_list_byte
    (map (fun b => if byte_to_Z b =? 39 then byte_of_Z 34 else b) (bytes_of s)).

End RefRuntime.

(** ** The scenarios of the specification (section 8) *)

Definition scenario_1_frame : string :=
  RefRuntime.dq
    "[{'event_type':'book','asset_id':'A','market':'m','hash':'h','timestamp':'1000','bids':[{'price':'0.5','size':'10'}],'asks':[{'price':'0.6','size':'5'}]}]".

Definition scenario_2_frame : string :=
  RefRuntime.dq
    "[{'event_type':'price_change','asset_id':'A','timestamp':'1050','changes':[{'side':'sell','price':'0.5','size':'0'}]}]".

(** A frame whose event has no [timestamp] field. *)
Definition untimed_frame : string :=
  RefRuntime.dq
    "[{'event_type':'tick_size_change','asset_id':'A','old_tick_size':'0.01','new_tick_size':'0.001'}]".

(** The event of [untimed_frame], as [json.loads] returns it. *)
Definition untimed_event : json :=
  JObj [("event_type", JStr "tick_size_change"); ("asset_id", JStr "A");
        ("old_tick_size", JStr "0.01"); ("new_tick_size", JStr "0.001")]%string.

(** The frame record of scenario 2 in a session that began with scenario 1:
    ['F'], one event; type byte 1 ([price_change], [TS_ABS] clear), the
    timestamp value 50; one change: side 1, price the varint 2 (a reference
    to id 1), size the literal tag 3 and the byte of [0]. *)
Definition scenario_2_record : list byte :=
  map byte_of_Z [0x46; 1; 1; 50; 1; 1; 2; 3; 48].

(** What the decoder prints for scenario 2. *)
Definition scenario_2_decoded : string :=
  RefRuntime.dq
    "[{'event_type':'price_change','asset_id':'A','timestamp':'1050','changes':[{'side':'SELL','price':'0.5','size':'0'}]}]".

Definition scenario_1_events : list event :=
  [{| ev_timestamp := 1000;
      ev_payload := Book [("0.5", "10")] [("0.6", "5")] |}]%string.

Definition scenario_2_events : list event :=
  [{| ev_timestamp := 1050;
      ev_payload := PriceChange [("sell", ("0.5", "0"))] |}]%string.


(** * Further definitions: the rest of [decoder.py] and its caller *)

(** The characters of a base64url token: the alphabet and the padding. *)
Definition b64url_char (b : byte) : bool :=
  let c := byte_to_Z b in
  ((65 <=? c) && (c <=? 90)) || ((97 <=? c) && (c <=? 122))
  || ((48 <=? c) && (c <=? 57)) || (c =? 45) || (c =? 95) || (c =? 61).

(** ** Frames of any kind

    What [compress] stores for a frame text: the events of a JSON array (or
    of one JSON object), or a raw text, which is the frame itself when
    [json.loads] rejects it and the compact dump of the value when the frame
    is a JSON scalar. *)

Inductive frame_view : Type :=
| FEvents (es : list event)
| FRaw (s : string).

Section Frames.
Context (R : PyRuntime).

Definition view_any (text : string) : option frame_view :=
  match json_loads R text with
  | None => if wf_str text then Some (FRaw text) else None
  | Some (JArr _) | Some (JObj _) => option_map FEvents (view_frame R text)
  | Some v => if wf_str (json_dumps R v) then Some (FRaw (json_dumps R v)) else None
  end.

(** The JSON text the decoder prints for a frame. *)
Definition frame_output (aid : string) (fv : frame_view) : string :=
  match fv with
  | FEvents es => json_dumps R (JArr (map (normalise R aid) es))
  | FRaw s => json_dumps R (JStr s)
  end.

End Frames.

(** A heartbeat between the two scenario frames, and a scalar frame. *)
Definition mixed_frames : list string :=
  [scenario_1_frame; "PONG"; scenario_2_frame; "17"]%string.

Definition mixed_views : list frame_view :=
  [FEvents scenario_1_events; FRaw "PONG"; FEvents scenario_2_events; FRaw "17"]%string.

(** ** Frames on which [compress] raises *)

(** The events [compress] goes through: the items of a JSON array, or the
    one JSON object ([events = [obj]]); [None] for the other values, which
    take the raw path. *)
Definition frame_events (v : json) : option (list json) :=
  match v with
  | JArr l => Some l
  | JObj d => Some [JObj d]
  | _ => None
  end.

(** A frame whose event has an unknown type, the book of scenario 1 followed
    by such an event, and a frame with a negative timestamp. *)
Definition unknown_type_frame : string :=
  RefRuntime.dq "[{'event_type':'trade','timestamp':'1000'}]".

Definition partial_frame : string :=
  RefRuntime.dq
    "[{'event_type':'book','timestamp':'1000','bids':[{'price':'0.5','size':'10'}],'asks':[]},{'event_type':'trade','timestamp':'1001'}]".

Definition negative_ts_frame : string :=
  RefRuntime.dq
    "[{'event_type':'tick_size_change','timestamp':'-5','old_tick_size':'0.01','new_tick_size':'0.001'}]".

(** The items of the array a text parses to, under the reference runtime. *)
Definition ref_items (text : string) : list json :=
  match RefRuntime.loads text with
  | Some (JArr l) => l
  | _ => []
  end.

(** ** Invariants of stateful code *)

(** [m] keeps the invariant [I] of the object, whether it returns or
    raises. *)
Definition preserves {St A : Type} (I : St -> Prop) (m : M St A) : Prop :=
  forall s r s', I s -> m s = (r, s') -> I s'.

(** The pool of a compressor, and of a decoder state, is consistent. *)
Definition enc_ok (c : FrameCompressorV3) : Prop := pool_wf (pool c).

Definition dec_ok (d : _V3State) : Prop := pool_wf (st_pool d).

(** ** Defaults of missing fields

    The value the encoder takes for a key an event does not have:
    the empty string for the text fields, the empty list for [changes], and the
    empty list for [bids] and [asks] when their aliases [buys] and [sells]
    are missing too.  The other keys have no default of this kind. *)
Definition field_default (d : list (string * json)) (k : string) : option json :=
  if String.eqb k "price" || String.eqb k "size" || String.eqb k "side"
     || String.eqb k "old_tick_size" || String.eqb k "new_tick_size"
  then Some (JStr EmptyString)
  else if String.eqb k "changes" then Some (JArr [])
  else if String.eqb k "bids" then if dict_has "buys" d then None else Some (JArr [])
  else if String.eqb k "asks" then if dict_has "sells" d then None else Some (JArr [])
  else None.

(** A trade without [size] and without [side]. *)
Definition bare_trade : list (string * json) :=
  [("event_type", JStr "last_trade_price"); ("timestamp", JStr "1060");
   ("price", JStr "0.5")]%string.

(** ** Legacy paths: [_strip_keys]

    [{k: _strip_keys(v) for k, v in d.items() if k not in {"market", "hash"}}]
    for a dict, [[_strip_keys(x) for x in d]] for a list, the value itself
    otherwise.  The keys of a dict are distinct, so the comprehension keeps
    the remaining members in their order. *)
Fixpoint _strip_keys (v : json) : json :=
  match v with
  | JObj d =>
      JObj ((fix members (d : list (string * json)) : list (string * json) :=
               match d with
               | [] => []
               | (k, x) :: d' =>
                   if String.eqb k "market" || String.eqb k "hash" then members d'
                   else (k, _strip_keys x) :: members d'
               end) d)
  | JArr l => JArr (map _strip_keys l)
  | _ => v
  end.

(** The members of a stripped dict. *)
Definition strip_members (d : list (string * json)) : list (string * json) :=
  map (fun kv => (fst kv, _strip_keys (snd kv)))
    (List.filter (fun kv => negb (String.eqb (fst kv) "market" || String.eqb (fst kv) "hash"))
       d).

(** [k] is a key of a dict somewhere inside [v]. *)
Fixpoint has_key (k : string) (v : json) : bool :=
  match v with
  | JObj d =>
      (fix members (d : list (string * json)) : bool :=
         match d with
         | [] => false
         | (k', x) :: d' => String.eqb k' k || has_key k x || members d'
         end) d
  | JArr l => existsb (has_key k) l
  | _ => false
  end.

(** A value with [market] and [hash] at several depths. *)
Definition nested_value : json :=
  JArr [JObj [("market", JStr "m"); ("price", JStr "0.5");
              ("inner", JObj [("hash", JStr "h"); ("size", JStr "1")])];
        JStr "market"]%string.

(** ** The library functions of the legacy paths and of the logger

    [zlib.decompress] with its default window (a zlib stream, with header
    and checksum), [str.strip] without argument, and
    [json.dumps(obj, separators=(",", ":"), ensure_ascii=False)]; like the
    functions of [PyRuntime] they are not part of the repository. *)
Record LegacyRuntime : Type := {
  zlib_decompress : list byte -> option (list byte);   (* None: zlib.error *)
  str_strip : string -> string;
  json_dumps_unicode : json -> string
}.

(** ** Text files

    A text file is the list of the bytes of its text.  The files are opened
    in text mode with universal newlines: [\r\n] and [\r] are read as [\n],
    and a [\n] that is written is read back as [\n] whatever the line
    separator of the platform. *)

Definition nl : byte := byte_of_Z 10.
Definition cr : byte := byte_of_Z 13.

(** The text [f.read()] returns for the bytes of the file. *)
Fixpoint universal_newlines (bs : list byte) : list byte :=
  match bs with
  | [] => []
  | b :: bs' =>
      if byte_to_Z b =? 13 then
        match bs' with
        | b' :: bs'' =>
            if byte_to_Z b' =? 10 then nl :: universal_newlines bs''
            else nl :: universal_newlines bs'
        | [] => [nl]
        end
      else b :: universal_newlines bs'
  end.

(** [for line in f]: the lines of a text, each with its newline; [cur] is
    the line being read. *)
Fixpoint text_lines (bs cur : list byte) : list (list byte) :=
  match bs with
  | [] => match cur with [] => [] | _ => [cur] end
  | b :: bs' =>
      if byte_to_Z b =? 10 then (cur ++ [b]) :: text_lines bs' []
      else text_lines bs' (cur ++ [b])
  end.

(** [line.rstrip("\n")] *)
Fixpoint rstrip_nl (s : list byte) : list byte :=
  match s with
  | [] => []
  | ch :: s' =>
      match rstrip_nl s' with
      | [] => if byte_to_Z ch =? 10 then [] else [ch]
      | r => ch :: r
      end
  end.

(** A record holds no newline and no carriage return. *)
Definition clean (r : list byte) : Prop :=
  Forall (fun b => byte_to_Z b <> 10 /\ byte_to_Z b <> 13) r.

(** ** The logger: [DurableJsonlWriter] and [MarketSubscriber._on_message] *)

(** [line.replace("\n", "\\n")] *)
Definition escape_newlines (s : list byte) : list byte :=
  flat_map (fun b => if byte_to_Z b =? 10 then [byte_of_Z 92; byte_of_Z 110] else [b]) s.

(** [write_line]: the text appended to the file. *)
Definition write_line (line : string) (fh : list byte) : list byte :=
  let b := list_byte_of_string line in
  let b := if existsb (fun x => byte_to_Z x =? 10) b then escape_newlines b else b in
  fh ++ b ++ [nl].

Section Logger.
Context (R : PyRuntime) (L : LegacyRuntime).

(** [write_json] *)
Definition write_json (obj : json) (fh : list byte) : list byte :=
  fh ++ list_byte_of_string (json_dumps_unicode L obj) ++ [nl].

(** [_write_compact]: one [write_line] per line of the payload. *)
Definition _write_compact (payload : lines) (fh : list byte) : list byte :=
  fold_left (fun fh item => write_line item fh) (lines_list payload) fh.

(** [_write_jsonl] *)
Definition _write_jsonl (epoch_ms : Z) (aid : string) (payload : lines) (fh : list byte)
    : list byte :=
  fold_left
    (fun fh item =>
       write_json (JObj [("t"%string, JInt epoch_ms); ("a"%string, JStr aid);
                         ("c"%string, JStr item)]) fh)
    (lines_list payload) fh.

(** The record of the fail-safe path and of the raw path:
    [{"t": epoch_ms, "a": asset_id, "m": payload}], where the payload is the
    parsed message, or [{"_raw": message}] when it does not parse. *)
Definition message_record (epoch_ms : Z) (aid message : string) : json :=
  let payload := match json_loads R message with
                 | Some v => v
                 | None => JObj [("_raw"%string, JStr message)]
                 end in
  JObj [("t"%string, JInt epoch_ms); ("a"%string, JStr aid); ("m"%string, payload)].

(** The subscriber: its asset, its options, the compressor behind
    [compression_fn] (if any) and the text of its output file. *)
Record MarketSubscriber : Type := {
  sub_asset_id : string;
  sub_compressor : option FrameCompressorV3;
  sub_compact_records : bool;
  sub_out : list byte
}.

(** [_on_message], for what it writes; [epoch_ms] is the clock. *)
Definition _on_message (epoch_ms : Z) (message : string) (self : MarketSubscriber)
    : MarketSubscriber :=
  match sub_compressor self with
  | Some c =>
      match compress R message c with
      | (inr compressed, c') =>
          {| sub_asset_id := sub_asset_id self; sub_compressor := Some c';
             sub_compact_records := sub_compact_records self;
             sub_out := if sub_compact_records self
                        then _write_compact compressed (sub_out self)
                        else _write_jsonl epoch_ms (sub_asset_id self) compressed
                               (sub_out self) |}
      | (inl _, c') =>
          {| sub_asset_id := sub_asset_id self; sub_compressor := Some c';
             sub_compact_records := sub_compact_records self;
             sub_out := write_json (message_record epoch_ms (sub_asset_id self) message)
                          (sub_out self) |}
      end
  | None =>
      {| sub_asset_id := sub_asset_id self; sub_compressor := None;
         sub_compact_records := sub_compact_records self;
         sub_out := write_json (message_record epoch_ms (sub_asset_id self) message)
                      (sub_out self) |}
  end.

(** The subscriber [main] builds, on an output file that holds [fh]. *)
Definition subscriber_init (aid : string) (fh : list byte) : MarketSubscriber :=
  {| sub_asset_id := aid; sub_compressor := Some (FrameCompressorV3_init aid);
     sub_compact_records := true; sub_out := fh |}.

(** The messages of a connection, each with the time it arrived at. *)
Definition on_messages (msgs : list (Z * string)) (self : MarketSubscriber)
    : MarketSubscriber :=
  fold_left (fun self m => _on_message (fst m) (snd m) self) msgs self.

(** ** The reinflater *)

(** [json.dumps(_strip_keys(json.loads(txt)), separators=(",", ":"))];
    [None] when [json.loads] raises. *)
Definition strip_dump (txt : string) : option string :=
  match json_loads R txt with
  | Some v => Some (json_dumps R (_strip_keys v))
  | None => None
  end.

(** [s[0] in "{["], for a non-empty [s] *)
Definition starts_bracket (s : string) : bool :=
  match list_byte_of_string s with
  | b :: _ => (byte_to_Z b =? 123) || (byte_to_Z b =? 91)
  | [] => false
  end.

(** [s[0]] is the double quote, for a non-empty [s] *)
Definition starts_quote (s : string) : bool :=
  match list_byte_of_string s with
  | b :: _ => byte_to_Z b =? 34
  | [] => false
  end.

Definition _maybe_json_value (line : string) : option string :=
  let s := str_strip L line in
  if String.eqb s EmptyString then None
  else if starts_bracket s then strip_dump s
  else if starts_quote s then
    match json_loads R s with
    | None => None
    | Some inner =>
        match inner with
        | JStr t =>
            if negb (String.eqb t EmptyString) && starts_bracket t then
              match strip_dump t with
              | Some js => Some js
              | None => Some (json_dumps R inner)
              end
            else Some (json_dumps R inner)
        | _ => Some (json_dumps R inner)
        end
    end
  else None.

(** The entries of a file: the items of the JSON array the file holds,
    or else its non-empty lines. *)
Definition _iter_any_entries (file : list byte) : list json :=
  let text := universal_newlines file in
  match json_loads R (string_of_list_byte text) with
  | Some (JArr items) => items
  | _ =>
      map (fun s => JStr (string_of_list_byte s))
        (List.filter (fun s => match s with [] => false | _ => true end)
           (map rstrip_nl (text_lines text [])))
  end.

(** [_try_decode_v3_line(x, st)] for a value [x] of an entry: a value that
    is not a [str] has no [encode], which the function takes as "not V3". *)
Definition try_v3 (x : json) : M _V3State (option (list string)) :=
  match x with
  | JStr token => _try_decode_v3_line R token
  | _ => ret None
  end.

(** The legacy compact form, zlib and base64 of a JSON text; [None] when
    any step raises. *)
Definition legacy_compact (x : json) : option string :=
  match x with
  | JStr token =>
      match ascii_encode token with
      | None => None
      | Some t =>
          match urlsafe_b64decode t with
          | None => None
          | Some raw =>
              match zlib_decompress L raw with
              | None => None
              | Some data =>
                  match utf8_decode data with
                  | None => None
                  | Some txt => strip_dump txt
                  end
              end
          end
      end
  | _ => None
  end.

(** What the branch [if "m" in entry] yields. *)
Definition wrapper_payload (m : json) : string :=
  match m with
  | JObj md =>
      match dict_get "_raw" md with
      | Some (JStr raw) => json_dumps R (JStr raw)
      | _ => json_dumps R (_strip_keys m)
      end
  | _ => json_dumps R (_strip_keys m)
  end.

(** The body of the loop of [yield_json_values]: the values one entry
    yields. *)
Definition entry_values (entry : json) : M _V3State (list string) :=
  match entry with
  | JObj d =>
      let after_compressed : M _V3State (list string) :=
        match dict_get "m" d with
        | Some m => ret [wrapper_payload m]
        | None => ret [json_dumps R (_strip_keys entry)]
        end in
      let after_c : M _V3State (list string) :=
        match dict_get "compressed" d with
        | Some x =>
            maybe <-- try_v3 x ;;
            match maybe with
            | Some vs => ret vs
            | None => after_compressed
            end
        | None => after_compressed
        end in
      match dict_get "c" d with
      | Some x =>
          maybe <-- try_v3 x ;;
          match maybe with
          | Some vs => ret vs
          | None =>
              match legacy_compact x with
              | Some js => ret [js]
              | None => after_c
              end
          end
      | None => after_c
      end
  | JStr s =>
      maybe <-- _try_decode_v3_line R s ;;
      match maybe with
      | Some vs => ret vs
      | None =>
          match legacy_compact entry with
          | Some js => ret [js]
          | None =>
              match _maybe_json_value s with
              | Some mjs => ret [mjs]
              | None => ret [json_dumps R (JStr s)]
              end
          end
      end
  | _ => ret [json_dumps R (_strip_keys entry)]
  end.

(** [yield_json_values]: the values yielded before the generator ends, and
    the exception that ends it, if any. *)
Fixpoint yield_json_values (entries : list json) (st : _V3State)
    : list string * option exn * _V3State :=
  match entries with
  | [] => ([], None, st)
  | entry :: entries' =>
      match entry_values entry st with
      | (inl e, st') => ([], Some e, st')
      | (inr vs, st') =>
          let '(rest, r, st'') := yield_json_values entries' st' in
          (vs ++ rest, r, st'')
      end
  end.

(** [",".join(values)] *)
Fixpoint join_comma (values : list string) : list byte :=
  match values with
  | [] => []
  | [v] => list_byte_of_string v
  | v :: vs => list_byte_of_string v ++ [byte_of_Z 44] ++ join_comma vs
  end.

(** [reinflate_file]: the exception it ends with, if any, and the text of
    the output file; [None] when the file was not opened. *)
Definition reinflate_file (input : list byte) (ndjson : bool)
    : option exn * option (list byte) :=
  let '(values, r, _) := yield_json_values (_iter_any_entries input) _V3State_init in
  if ndjson then
    (r, Some (flat_map (fun js => list_byte_of_string js ++ [nl]) values))
  else
    match r with
    | Some e => (Some e, None)
    | None => (None, Some ([byte_of_Z 91] ++ join_comma values ++ [byte_of_Z 93]))
    end.

End Logger.

(** ** A reference implementation of the legacy library functions

    [zlib.decompress] for streams of stored blocks, [str.strip] for the
    ASCII white space, and [json.dumps] with [ensure_ascii=False]. *)

Module RefLegacy.

Definition adler32 (data : list byte) : Z :=
  let '(a, b) :=
    fold_left (fun ab x =>
                 let a' := (fst ab + byte_to_Z x) mod 65521 in
                 (a', (snd ab + a') mod 65521))
      data (1, 0) in
  b * 65536 + a.

Definition be32 (bs : list byte) : Z :=
  fold_left (fun acc b => acc * 256 + byte_to_Z b) bs 0.

Definition zlib_decompress (data : list byte) : option (list byte) :=
  match data with
  | cmf :: flg :: rest =>
      let c := byte_to_Z cmf in
      let f := byte_to_Z flg in
      if (c mod 16 =? 8) && (c / 16 <=? 7) && ((c * 256 + f) mod 31 =? 0)
         && (Z.land f 32 =? 0) && (4 <=? Z.of_nat (length rest)) then
        let n := (length rest - 4)%nat in
        match RefRuntime.inflate (take n rest) with
        | Some d => if adler32 d =? be32 (drop n rest) then Some d else None
        | None => None
        end
      else None
  | _ => None
  end.

Fixpoint rstrip (s : list byte) : list byte :=
  match s with
  | [] => []
  | b :: s' =>
      match rstrip s' with
      | [] => if RefRuntime.is_space b then [] else [b]
      | r => b :: r
      end
  end.

Definition strip (s : string) : string :=
  string_of_list_byte (rstrip (RefRuntime.lstrip (list_byte_of_string s))).

(** One character of a JSON string, without [ensure_ascii]. *)
Definition dumps_char (cp : Z) : list byte :=
  if cp =? 34 then [byte_of_Z 92; byte_of_Z 34]
  else if cp =? 92 then [byte_of_Z 92; byte_of_Z 92]
  else if cp =? 10 then [byte_of_Z 92; byte_of_Z 110]
  else if cp =? 13 then [byte_of_Z 92; byte_of_Z 114]
  else if cp =? 9 then [byte_of_Z 92; byte_of_Z 116]
  else if cp =? 8 then [byte_of_Z 92; byte_of_Z 98]
  else if cp =? 12 then [byte_of_Z 92; byte_of_Z 102]
  else if cp <? 32 then [byte_of_Z 92; byte_of_Z 117] ++ RefRuntime.hex4 cp
  else RefRuntime.utf8_of_cp cp.

Definition dumps_str (s : string) : list byte :=
  [byte_of_Z 34]
  ++ concat (map dumps_char (RefRuntime.cps_of_utf8 (list_byte_of_string s)))
  ++ [byte_of_Z 34].

Fixpoint dumps_bytes (v : json) : list byte :=
  match v with
  | JStr s => dumps_str s
  | JArr l =>
      [byte_of_Z 91] ++ RefRuntime.join [byte_of_Z 44] (map dumps_bytes l)
      ++ [byte_of_Z 93]
  | JObj d =>
      [byte_of_Z 123]
      ++ RefRuntime.join [byte_of_Z 44]
           (map (fun kv => dumps_str (fst kv) ++ [byte_of_Z 58] ++ dumps_bytes (snd kv)) d)
      ++ [byte_of_Z 125]
  | _ => RefRuntime.dumps_bytes v
  end.

Definition dumps (v : json) : string := string_of_list_byte (dumps_bytes v).

End RefLegacy.

Definition ref_legacy : LegacyRuntime :=
  {| zlib_decompress := RefLegacy.zlib_decompress;
     str_strip := RefLegacy.strip;
     json_dumps_unicode := RefLegacy.dumps |}.

(** The messages of the mixed session, with their arrival times. *)
Definition mixed_messages : list (Z * string) :=
  combine [1700000000000; 1700000000100; 1700000000200; 1700000000300] mixed_frames.

(** The tokens [yield_json_values] gives to [_try_decode_v3_line] for an
    entry: the entry itself when it is a string, the values under ["c"] and
    ["compressed"] when it is a dict. *)
Definition entry_token (entry : json) (token : string) : Prop :=
  entry = JStr token
  \/ exists d, entry = JObj d
               /\ (dict_get "c" d = Some (JStr token)
                   \/ dict_get "compressed" d = Some (JStr token)).

(** A line [_deflate_raw_b64] returned. *)
Definition is_token (R : PyRuntime) (t : string) : Prop :=
  exists data, t = _deflate_raw_b64 R data.

(** The text of a file that holds the lines [tokens]. *)
Definition token_records (tokens : list string) : list byte :=
  flat_map (fun r => r ++ [nl]) (map list_byte_of_string tokens).

(** The whole file is not one JSON array. *)
Definition not_json_array (R : PyRuntime) (file : list byte) : Prop :=
  match json_loads R (string_of_list_byte (universal_newlines file)) with
  | Some (JArr _) => False
  | _ => True
  end.

(** Scenario 3 of the specification: a trade with a timestamp below the
    one of the frame before it. *)
Definition scenario_3_frame : string :=
  RefRuntime.dq
    "[{'event_type':'last_trade_price','asset_id':'A','timestamp':'900','price':'0.55','size':'2','side':'BUY'}]".

Definition scenario_3_event : event :=
  {| ev_timestamp := 900;
     ev_payload := LastTradePrice "0.55" "2" "BUY" None |}.

(** ** The keys of an event

    The keys [_encode_event] and the four encoders of the payloads look up
    in an event. *)
Definition read_keys : list string :=
  ["event_type"; "timestamp"; "bids"; "buys"; "asks"; "sells"; "changes";
   "price"; "size"; "side"; "old_tick_size"; "new_tick_size"; "fee_rate_bps"]%string.

(** The trade of scenario 3, as [json.loads] returns it. *)
Definition scenario_3_dict : list (string * json) :=
  [("event_type", JStr "last_trade_price"); ("asset_id", JStr "A");
   ("timestamp", JStr "900"); ("price", JStr "0.55"); ("size", JStr "2");
   ("side", JStr "BUY")]%string.
(** *** Facts about bytes and bit operations *)

Lemma byte_to_Z_range (b : byte) : 0 <= byte_to_Z b < 256.
Proof.
  unfold byte_to_Z. pose proof (Byte.to_N_bounded b) as H.
  split; [apply N2Z.is_nonneg|]. lia.
Qed.

Lemma byte_to_of_Z (z : Z) : 0 <= z < 256 -> byte_to_Z (byte_of_Z z) = z.
Proof.
  intros Hz. unfold byte_to_Z, byte_of_Z.
  destruct (Byte.of_N (Z.to_N z)) as [b|] eqn:E.
  - apply Byte.to_of_N in E. rewrite E. lia.
  - apply Byte.of_N_None_iff in E. lia.
Qed.

Lemma byte_of_to_Z (b : byte) : byte_of_Z (byte_to_Z b) = b.
Proof.
  unfold byte_to_Z, byte_of_Z. rewrite N2Z.id, Byte.of_to_N. reflexivity.
Qed.

Lemma land_lowbits_zero (a b k : Z) :
  0 <= k -> 0 <= a < 2 ^ k -> Z.land a (Z.shiftl b k) = 0.
Proof.
  intros Hk [Ha0 Ha]. apply Z.bits_inj'. intros i Hi.
  rewrite Z.land_spec, Z.bits_0.
  destruct (Z.lt_ge_cases i k) as [Hlt|Hge].
  - rewrite (Z.shiftl_spec_low b k i Hlt). apply andb_false_r.
  - destruct (Z.eq_dec a 0) as [->|Hne]; [now rewrite Z.bits_0|].
    rewrite (Z.bits_above_log2 a i); [reflexivity|lia|].
    apply Z.log2_lt_pow2 in Ha; lia.
Qed.

Lemma lor_shiftl_add (a b k : Z) :
  0 <= k -> 0 <= a < 2 ^ k -> Z.lor a (Z.shiftl b k) = a + b * 2 ^ k.
Proof.
  intros Hk Ha. rewrite <- Z.lxor_lor by (apply land_lowbits_zero; assumption).
  rewrite <- Z.add_nocarry_lxor by (apply land_lowbits_zero; assumption).
  now rewrite Z.shiftl_mul_pow2.
Qed.

Lemma land_7F (n : Z) : Z.land n 0x7F = n mod 128.
Proof. change 0x7F with (Z.ones 7). now rewrite Z.land_ones. Qed.

Lemma lor_80 (m : Z) : 0 <= m < 128 -> Z.lor m 0x80 = m + 128.
Proof.
  intros Hm. pose proof (lor_shiftl_add m 1 7) as H.
  change (Z.shiftl 1 7) with 128 in H. change (2 ^ 7) with 128 in H. lia.
Qed.

Lemma byte_cont_bit (b : byte) :
  (Z.land (byte_to_Z b) 0x80 =? 0) = (byte_to_Z b <? 128).
Proof. destruct b; reflexivity. Qed.

(** *** The encoder, one byte at a time *)

Lemma uvarint_push_app (fuel : nat) (n : Z) (out : list byte) :
  uvarint_push fuel n out = out ++ uvarint_push fuel n [].
Proof.
  revert n out. induction fuel as [|k IH]; intros n out; simpl.
  - reflexivity.
  - destruct (0x7F <? n); [|reflexivity].
    rewrite IH. rewrite (IH _ [_]). now rewrite <- app_assoc.
Qed.

Lemma uvarint_push_fuel (f1 f2 : nat) (n : Z) (out : list byte) :
  Z.log2 n < 7 * (Z.of_nat f1 + 1) -> Z.log2 n < 7 * (Z.of_nat f2 + 1) ->
  uvarint_push f1 n out = uvarint_push f2 n out.
Proof.
  revert f2 n out. induction f1 as [|k IH]; intros f2 n out H1 H2.
  - destruct f2 as [|k2]; simpl; [reflexivity|].
    destruct (Z.ltb_spec 0x7F n) as [Hn|Hn]; [|reflexivity].
    assert (7 <= Z.log2 n) by (apply Z.log2_le_pow2; lia). lia.
  - destruct f2 as [|k2]; simpl.
    + destruct (Z.ltb_spec 0x7F n) as [Hn|Hn]; [|reflexivity].
      assert (7 <= Z.log2 n) by (apply Z.log2_le_pow2; lia). lia.
    + destruct (Z.ltb_spec 0x7F n) as [Hn|Hn]; [|reflexivity].
      assert (Hl : Z.log2 (Z.shiftr n 7) = Z.log2 n - 7).
      { rewrite Z.log2_shiftr by lia.
        assert (7 <= Z.log2 n) by (apply Z.log2_le_pow2; lia). lia. }
      apply IH; lia.
Qed.

Lemma uvarint_bytes_unfold (n : Z) :
  uvarint_bytes n =
    if 0x7F <? n
    then byte_of_Z (Z.lor (Z.land n 0x7F) 0x80) :: uvarint_bytes (Z.shiftr n 7)
    else [byte_of_Z (Z.land n 0x7F)].
Proof.
  unfold uvarint_bytes.
  destruct (Z.ltb_spec 0x7F n) as [Hn|Hn].
  - assert (H7 : 7 <= Z.log2 n) by (apply Z.log2_le_pow2; lia).
    destruct (Z.to_nat (Z.log2 n)) as [|k] eqn:Ek; [lia|].
    simpl. destruct (Z.ltb_spec 0x7F n) as [_|?]; [|lia].
    rewrite uvarint_push_app. simpl. f_equal.
    apply uvarint_push_fuel.
    + rewrite Z.log2_shiftr by lia. lia.
    + rewrite Z.log2_shiftr by lia.
      pose proof (Z.log2_nonneg (Z.shiftr n 7)).
      rewrite Z.log2_shiftr in * by lia. lia.
  - destruct (Z.to_nat (Z.log2 n)); simpl; [reflexivity|].
    destruct (Z.ltb_spec 0x7F n); [lia|reflexivity].
Qed.

Lemma _uvarint_encode_ok (n : Z) (out : list byte) :
  0 <= n -> _uvarint_encode n out = inr (out ++ uvarint_bytes n).
Proof.
  intros Hn. unfold _uvarint_encode, uvarint_bytes.
  destruct (Z.ltb_spec n 0); [lia|]. now rewrite uvarint_push_app.
Qed.

(** *** Decoding what the encoder wrote *)

Lemma uvarint_bytes_small (n : Z) :
  0 <= n <= 0x7F -> uvarint_bytes n = [byte_of_Z n].
Proof.
  intros Hn. rewrite uvarint_bytes_unfold.
  destruct (Z.ltb_spec 0x7F n); [lia|].
  rewrite land_7F, Z.mod_small by lia. reflexivity.
Qed.

Lemma uvarint_bytes_big (n : Z) :
  0x7F < n ->
  uvarint_bytes n = byte_of_Z (n mod 128 + 128) :: uvarint_bytes (n / 128).
Proof.
  intros Hn. rewrite uvarint_bytes_unfold.
  destruct (Z.ltb_spec 0x7F n); [|lia].
  rewrite land_7F, lor_80 by (apply Z.mod_pos_bound; lia).
  rewrite Z.shiftr_div_pow2 by lia. reflexivity.
Qed.

Lemma uvarint_bytes_nonempty (n : Z) : uvarint_bytes n <> [].
Proof.
  rewrite uvarint_bytes_unfold. destruct (0x7F <? n); discriminate.
Qed.

Lemma uvarint_scan_bytes (m : nat) :
  forall (n shift x : Z) (i : nat) (post : list byte),
    0 <= n < 2 ^ (7 * (Z.of_nat m + 1)) ->
    0 <= shift -> shift + 7 * Z.of_nat m <= 70 ->
    0 <= x < 2 ^ shift ->
    uvarint_scan (uvarint_bytes n ++ post) i shift x
    = inr (x + n * 2 ^ shift, (i + length (uvarint_bytes n))%nat).
Proof.
  induction m as [|m IH]; intros n shift x i post Hn Hs Hm Hx.
  - change (2 ^ (7 * (Z.of_nat 0 + 1))) with 128 in Hn.
    rewrite uvarint_bytes_small by lia. simpl.
    rewrite byte_cont_bit, byte_to_of_Z by lia.
    destruct (Z.ltb_spec n 128); [|lia].
    rewrite land_7F, Z.mod_small by lia.
    rewrite lor_shiftl_add by lia.
    repeat f_equal; lia.
  - destruct (Z_le_gt_dec n 0x7F) as [Hle|Hgt].
    + rewrite uvarint_bytes_small by lia. simpl.
      rewrite byte_cont_bit, byte_to_of_Z by lia.
      destruct (Z.ltb_spec n 128); [|lia].
      rewrite land_7F, Z.mod_small by lia.
      rewrite lor_shiftl_add by lia.
      repeat f_equal; lia.
    + rewrite uvarint_bytes_big by lia. simpl.
      pose proof (Z.mod_pos_bound n 128 ltac:(lia)) as Hmod.
      rewrite byte_cont_bit, byte_to_of_Z by lia.
      destruct (Z.ltb_spec (n mod 128 + 128) 128); [lia|].
      destruct (Z.ltb_spec 70 (shift + 7)); [lia|].
      rewrite land_7F.
      replace ((n mod 128 + 128) mod 128) with (n mod 128)
        by (apply (Z.mod_unique _ _ 1); lia).
      rewrite lor_shiftl_add by lia.
      assert (Hpow : 2 ^ (shift + 7) = 2 ^ shift * 128)
        by (rewrite Z.pow_add_r by lia; reflexivity).
      assert (Hsp : 0 < 2 ^ shift) by (apply Z.pow_pos_nonneg; lia).
      rewrite IH.
      * f_equal. f_equal; [|lia]. rewrite Hpow.
        pose proof (Z.div_mod n 128 ltac:(lia)). nia.
      * split; [apply Z.div_pos; lia|].
        apply Z.div_lt_upper_bound; [lia|].
        replace (7 * (Z.of_nat (S m) + 1)) with (7 + 7 * (Z.of_nat m + 1)) in Hn by lia.
        rewrite Z.pow_add_r in Hn by lia. change (2 ^ 7) with 128 in Hn. lia.
      * lia.
      * lia.
      * rewrite Hpow. nia.
Qed.

Lemma _uvarint_decode_bytes (n : Z) (pre post : list byte) :
  0 <= n < 2 ^ 77 ->
  _uvarint_decode (pre ++ uvarint_bytes n ++ post) (length pre)
  = inr (n, (length pre + length (uvarint_bytes n))%nat).
Proof.
  intros Hn. unfold _uvarint_decode. rewrite drop_app_length.
  rewrite (uvarint_scan_bytes 10) by (simpl; lia).
  f_equal. f_equal. simpl. lia.
Qed.

(** Eleven continuation bytes overflow, whatever follows. *)
Lemma uvarint_scan_overflow (m : nat) :
  forall (rest : list byte) (i : nat) (shift x : Z),
    shift + 7 * Z.of_nat (S m) > 70 ->
    (S m <= length rest)%nat ->
    Forall cont_bit (take (S m) rest) ->
    uvarint_scan rest i shift x = inl UvarintOverflow.
Proof.
  induction m as [|m IH]; intros rest i shift x Hs Hlen Hall.
  - destruct rest as [|b rest]; [simpl in Hlen; lia|].
    simpl in *. apply Forall_cons in Hall as [Hb _]. unfold cont_bit in Hb.
    rewrite byte_cont_bit. destruct (Z.ltb_spec (byte_to_Z b) 128); [lia|].
    destruct (Z.ltb_spec 70 (shift + 7)); [reflexivity|lia].
  - destruct rest as [|b rest]; [simpl in Hlen; lia|].
    rewrite firstn_cons in Hall. apply Forall_cons in Hall as [Hb Hall].
    unfold cont_bit in Hb. cbn [uvarint_scan].
    rewrite byte_cont_bit. destruct (Z.ltb_spec (byte_to_Z b) 128); [lia|].
    destruct (Z.ltb_spec 70 (shift + 7)); [reflexivity|].
    apply IH; [lia|simpl in Hlen; lia|exact Hall].
Qed.

(** A buffer that ends inside the varint is reported as truncated. *)
Lemma uvarint_scan_truncated :
  forall (rest : list byte) (i : nat) (shift x : Z),
    shift + 7 * Z.of_nat (length rest) <= 70 ->
    Forall cont_bit rest ->
    uvarint_scan rest i shift x = inl UvarintTruncated.
Proof.
  induction rest as [|b rest IH]; intros i shift x Hs Hall; [reflexivity|].
  apply Forall_cons in Hall as [Hb Hall]. unfold cont_bit in Hb.
  cbn [uvarint_scan]. rewrite byte_cont_bit.
  destruct (Z.ltb_spec (byte_to_Z b) 128); [lia|].
  simpl length in Hs.
  destruct (Z.ltb_spec 70 (shift + 7)); [lia|].
  apply IH; [lia|exact Hall].
Qed.

Lemma uvarint_bytes_overflow (m : nat) :
  forall (n : Z) (post : list byte) (i : nat) (shift x : Z),
    2 ^ (7 * Z.of_nat (S m)) <= n ->
    shift + 7 * Z.of_nat (S m) > 70 ->
    uvarint_scan (uvarint_bytes n ++ post) i shift x = inl UvarintOverflow.
Proof.
  induction m as [|m IH]; intros n post i shift x Hn Hs.
  - change (2 ^ (7 * Z.of_nat 1)) with 128 in Hn.
    rewrite uvarint_bytes_big by lia. simpl.
    pose proof (Z.mod_pos_bound n 128 ltac:(lia)) as Hmod.
    rewrite byte_cont_bit, byte_to_of_Z by lia.
    destruct (Z.ltb_spec (n mod 128 + 128) 128); [lia|].
    destruct (Z.ltb_spec 70 (shift + 7)); [reflexivity|lia].
  - assert (Hp : 2 ^ (7 * Z.of_nat (S (S m))) = 128 * 2 ^ (7 * Z.of_nat (S m))).
    { replace (7 * Z.of_nat (S (S m))) with (7 + 7 * Z.of_nat (S m)) by lia.
      rewrite Z.pow_add_r by lia. reflexivity. }
    assert (Hpos : 0 < 2 ^ (7 * Z.of_nat (S m))) by (apply Z.pow_pos_nonneg; lia).
    rewrite uvarint_bytes_big by lia. simpl app. cbn [uvarint_scan].
    pose proof (Z.mod_pos_bound n 128 ltac:(lia)) as Hmod.
    rewrite byte_cont_bit, byte_to_of_Z by lia.
    destruct (Z.ltb_spec (n mod 128 + 128) 128); [lia|].
    destruct (Z.ltb_spec 70 (shift + 7)); [reflexivity|].
    apply IH; [|lia].
    apply Z.div_le_lower_bound; lia.
Qed.

(** C7 (amended): varint round-trip.  For every integer [0 <= n < 2^77],
    decoding at the start of the bytes [_uvarint_encode n] appended returns
    [n] and the index just after them; from [2^77] on the encoder still
    writes its bytes but the decoder reports the overflow.  The encoder
    raises on every negative input; the decoder reports a truncation when
    the buffer ends after at most ten bytes that all carry the continuation
    bit, and an overflow at the eleventh such byte (shift 77 > 70). *)
Theorem uvarint_roundtrip_below_2_77 :
  forall (n : Z) (out post : list byte),
    (n < 0 -> _uvarint_encode n out = inl UvarintNegative)
    /\ (0 <= n < 2 ^ 77 ->
        exists bs,
          _uvarint_encode n out = inr (out ++ bs)
          /\ _uvarint_decode (out ++ bs ++ post) (length out)
             = inr (n, (length out + length bs)%nat))
    /\ (2 ^ 77 <= n ->
        exists bs,
          _uvarint_encode n out = inr (out ++ bs)
          /\ _uvarint_decode (out ++ bs ++ post) (length out) = inl UvarintOverflow)
    /\ (forall (buf : list byte) (i : nat),
          Forall cont_bit (drop i buf) -> (length (drop i buf) <= 10)%nat ->
          _uvarint_decode buf i = inl UvarintTruncated)
    /\ (forall (buf : list byte) (i : nat),
          (11 <= length (drop i buf))%nat -> Forall cont_bit (take 11 (drop i buf)) ->
          _uvarint_decode buf i = inl UvarintOverflow).
Proof.
  intros n out post. repeat split.
  - intros Hn. unfold _uvarint_encode. destruct (Z.ltb_spec n 0); [reflexivity|lia].
  - intros Hn. exists (uvarint_bytes n). split.
    + apply _uvarint_encode_ok. lia.
    + apply _uvarint_decode_bytes. exact Hn.
  - intros Hn. exists (uvarint_bytes n). split.
    + apply _uvarint_encode_ok. lia.
    + unfold _uvarint_decode. rewrite drop_app_length.
      apply (uvarint_bytes_overflow 10); [exact Hn|lia].
  - intros buf i Hall Hlen. unfold _uvarint_decode.
    apply uvarint_scan_truncated; [lia|exact Hall].
  - intros buf i Hlen Hall. unfold _uvarint_decode.
    apply (uvarint_scan_overflow 10); [lia|exact Hlen|exact Hall].
Qed.

Lemma uvarint_roundtrip_below_2_77_witness :
  _uvarint_encode (-1) [] = inl UvarintNegative
  /\ (exists bs,
        _uvarint_encode 1050 [] = inr ([] ++ bs)
        /\ _uvarint_decode ([] ++ bs ++ []) (length (@nil byte))
           = inr (1050, (length (@nil byte) + length bs)%nat))
  /\ (exists bs,
        _uvarint_encode (2 ^ 77) [] = inr ([] ++ bs)
        /\ _uvarint_decode ([] ++ bs ++ []) (length (@nil byte)) = inl UvarintOverflow)
  /\ _uvarint_decode [byte_of_Z 0x9a] 0 = inl UvarintTruncated
  /\ _uvarint_decode (repeat (byte_of_Z 0x80) 11) 0 = inl UvarintOverflow.
Proof.
  split; [|split; [|split; [|split]]].
  - apply (proj1 (uvarint_roundtrip_below_2_77 (-1) [] [])). lia.
  - apply (proj1 (proj2 (uvarint_roundtrip_below_2_77 1050 [] []))). lia.
  - apply (proj1 (proj2 (proj2 (uvarint_roundtrip_below_2_77 (2 ^ 77) [] [])))). lia.
  - apply (proj1 (proj2 (proj2 (proj2 (uvarint_roundtrip_below_2_77 0 [] []))))).
    + repeat constructor. unfold cont_bit. vm_compute. discriminate.
    + cbn. lia.
  - apply (proj2 (proj2 (proj2 (proj2 (uvarint_roundtrip_below_2_77 0 [] []))))).
    + cbn. lia.
    + repeat constructor; unfold cont_bit; vm_compute; discriminate.
Defined.

(** C7 as stated fails at [n = 2^77]: the encoder writes twelve bytes and
    the decoder raises the overflow error on them. *)
Lemma uvarint_roundtrip_fails_at_2_77 :
  exists bs,
    _uvarint_encode (2 ^ 77) [] = inr bs
    /\ length bs = 12%nat
    /\ _uvarint_decode bs 0 = inl UvarintOverflow
    /\ _uvarint_decode bs 0 <> inr (2 ^ 77, length bs).
Proof.
  eexists. split; [vm_compute; reflexivity|].
  split; [reflexivity|]. split; [vm_compute; reflexivity|]. discriminate.
Qed.

(** ** base64url round-trip *)

Lemma lor_shiftl_low (hi lo k : Z) :
  0 <= k -> 0 <= lo < 2 ^ k -> Z.lor (Z.shiftl hi k) lo = hi * 2 ^ k + lo.
Proof.
  intros Hk Hlo. rewrite Z.lor_comm, lor_shiftl_add by assumption. lia.
Qed.

Lemma forall_below_64 (P : Z -> Prop) :
  (forall k : nat, (k < 64)%nat -> P (Z.of_nat k)) ->
  forall v, 0 <= v < 64 -> P v.
Proof.
  intros H v Hv. rewrite <- (Z2Nat.id v) by lia. apply H. lia.
Qed.

Lemma b64_value_char (v : Z) :
  0 <= v < 64 ->
  b64_value (b64_char v) = Some v /\ (byte_to_Z (b64_char v) =? 61) = false
  /\ in_range 0 127 (b64_char v) = true.
Proof.
  revert v. apply forall_below_64. intros k Hk.
  do 64 (destruct k as [|k]; [vm_compute; auto|]). lia.
Qed.

(** The four sextets of a group of three bytes. *)
Lemma sextet_ranges (a b c : Z) :
  0 <= a < 256 -> 0 <= b < 256 -> 0 <= c < 256 ->
  0 <= Z.shiftr a 2 < 64
  /\ 0 <= Z.shiftl (Z.land a 3) 4 < 64
  /\ 0 <= Z.lor (Z.shiftl (Z.land a 3) 4) (Z.shiftr b 4) < 64
  /\ 0 <= Z.shiftl (Z.land b 0xF) 2 < 64
  /\ 0 <= Z.lor (Z.shiftl (Z.land b 0xF) 2) (Z.shiftr c 6) < 64
  /\ 0 <= Z.land c 0x3F < 64.
Proof.
  intros Ha Hb Hc.
  change 3 with (Z.ones 2). change 0xF with (Z.ones 4). change 0x3F with (Z.ones 6).
  rewrite !Z.land_ones by lia.
  rewrite !Z.shiftr_div_pow2 by lia.
  assert (0 <= b / 2 ^ 4 < 2 ^ 4)
    by (split; [apply Z.div_pos; lia|apply Z.div_lt_upper_bound; lia]).
  assert (0 <= c / 2 ^ 6 < 2 ^ 2)
    by (split; [apply Z.div_pos; lia|apply Z.div_lt_upper_bound; lia]).
  rewrite !lor_shiftl_low by lia.
  rewrite !Z.shiftl_mul_pow2 by lia.
  change (2 ^ 2) with 4 in *. change (2 ^ 4) with 16 in *. change (2 ^ 6) with 64 in *.
  pose proof (Z.mod_pos_bound a 4 ltac:(lia)).
  pose proof (Z.mod_pos_bound b 16 ltac:(lia)).
  pose proof (Z.mod_pos_bound c 64 ltac:(lia)).
  assert (0 <= a / 4 < 64)
    by (split; [apply Z.div_pos; lia|apply Z.div_lt_upper_bound; lia]).
  lia.
Qed.

Lemma quad_byte1 (a b : Z) :
  0 <= a < 256 -> 0 <= b < 256 ->
  Z.land (Z.lor (Z.shiftl (Z.shiftr a 2) 2)
                (Z.shiftr (Z.lor (Z.shiftl (Z.land a 3) 4) (Z.shiftr b 4)) 4)) 0xFF = a.
Proof.
  intros Ha Hb.
  change 3 with (Z.ones 2). change 0xFF with (Z.ones 8).
  rewrite !Z.land_ones by lia.
  rewrite !Z.shiftr_div_pow2 by lia.
  assert (0 <= b / 2 ^ 4 < 2 ^ 4)
    by (split; [apply Z.div_pos; lia|apply Z.div_lt_upper_bound; lia]).
  rewrite (lor_shiftl_low (a mod 2 ^ 2)) by lia.
  pose proof (Z.mod_pos_bound a 4 ltac:(lia)).
  change (2 ^ 2) with 4 in *. change (2 ^ 4) with 16 in *. change (2 ^ 8) with 256.
  replace ((a mod 4 * 16 + b / 16) / 16) with (a mod 4)
    by (apply (Z.div_unique _ _ _ (b / 16)); lia).
  rewrite lor_shiftl_low by (change (2 ^ 2) with 4; lia).
  change (2 ^ 2) with 4.
  pose proof (Z.div_mod a 4 ltac:(lia)).
  rewrite Z.mod_small; lia.
Qed.

Lemma quad_left1 (a b : Z) :
  0 <= a < 256 -> 0 <= b < 256 ->
  Z.land (Z.lor (Z.shiftl (Z.land a 3) 4) (Z.shiftr b 4)) 0x0F = b / 16.
Proof.
  intros Ha Hb.
  change 3 with (Z.ones 2). change 0x0F with (Z.ones 4).
  rewrite !Z.land_ones by lia.
  rewrite !Z.shiftr_div_pow2 by lia.
  assert (0 <= b / 2 ^ 4 < 2 ^ 4)
    by (split; [apply Z.div_pos; lia|apply Z.div_lt_upper_bound; lia]).
  rewrite lor_shiftl_low by lia.
  change (2 ^ 2) with 4 in *. change (2 ^ 4) with 16 in *.
  symmetry. apply (Z.mod_unique _ _ (a mod 4)); lia.
Qed.

Lemma quad_byte2 (b c : Z) :
  0 <= b < 256 -> 0 <= c < 256 ->
  Z.land (Z.lor (Z.shiftl (b / 16) 4)
                (Z.shiftr (Z.lor (Z.shiftl (Z.land b 0xF) 2) (Z.shiftr c 6)) 2)) 0xFF = b.
Proof.
  intros Hb Hc.
  change 0xF with (Z.ones 4). change 0xFF with (Z.ones 8).
  rewrite !Z.land_ones by lia.
  rewrite !Z.shiftr_div_pow2 by lia.
  assert (0 <= c / 2 ^ 6 < 2 ^ 2)
    by (split; [apply Z.div_pos; lia|apply Z.div_lt_upper_bound; lia]).
  rewrite (lor_shiftl_low (b mod 2 ^ 4)) by lia.
  pose proof (Z.mod_pos_bound b 16 ltac:(lia)).
  change (2 ^ 2) with 4 in *. change (2 ^ 4) with 16 in *. change (2 ^ 6) with 64 in *.
  change (2 ^ 8) with 256.
  replace ((b mod 16 * 4 + c / 64) / 4) with (b mod 16)
    by (apply (Z.div_unique _ _ _ (c / 64)); lia).
  rewrite lor_shiftl_low by (change (2 ^ 4) with 16; lia).
  change (2 ^ 4) with 16.
  pose proof (Z.div_mod b 16 ltac:(lia)).
  rewrite Z.mod_small; lia.
Qed.

Lemma quad_left2 (b c : Z) :
  0 <= b < 256 -> 0 <= c < 256 ->
  Z.land (Z.lor (Z.shiftl (Z.land b 0xF) 2) (Z.shiftr c 6)) 0x03 = c / 64.
Proof.
  intros Hb Hc.
  change 0xF with (Z.ones 4). change 0x03 with (Z.ones 2).
  rewrite !Z.land_ones by lia.
  rewrite !Z.shiftr_div_pow2 by lia.
  assert (0 <= c / 2 ^ 6 < 2 ^ 2)
    by (split; [apply Z.div_pos; lia|apply Z.div_lt_upper_bound; lia]).
  rewrite lor_shiftl_low by lia.
  change (2 ^ 2) with 4 in *. change (2 ^ 4) with 16 in *. change (2 ^ 6) with 64 in *.
  symmetry. apply (Z.mod_unique _ _ (b mod 16)); lia.
Qed.

Lemma quad_byte3 (c : Z) :
  0 <= c < 256 ->
  Z.land (Z.lor (Z.shiftl (c / 64) 6) (Z.land c 0x3F)) 0xFF = c.
Proof.
  intros Hc.
  change 0x3F with (Z.ones 6). change 0xFF with (Z.ones 8).
  rewrite !Z.land_ones by lia.
  pose proof (Z.mod_pos_bound c 64 ltac:(lia)).
  rewrite lor_shiftl_low by (change (2 ^ 6) with 64; lia).
  change (2 ^ 6) with 64. change (2 ^ 8) with 256.
  pose proof (Z.div_mod c 64 ltac:(lia)).
  rewrite Z.mod_small; lia.
Qed.

(** The tail group of one byte: the second sextet has no low bits. *)
Lemma quad_byte1_tail (a : Z) :
  0 <= a < 256 ->
  Z.land (Z.lor (Z.shiftl (Z.shiftr a 2) 2)
                (Z.shiftr (Z.shiftl (Z.land a 3) 4) 4)) 0xFF = a.
Proof.
  intros Ha. pose proof (quad_byte1 a 0 Ha ltac:(lia)) as H.
  change (Z.shiftr 0 4) with 0 in H. rewrite Z.lor_0_r in H. exact H.
Qed.

Lemma quad_left1_tail (a : Z) :
  0 <= a < 256 -> Z.land (Z.shiftl (Z.land a 3) 4) 0x0F = 0.
Proof.
  intros Ha. pose proof (quad_left1 a 0 Ha ltac:(lia)) as H.
  change (Z.shiftr 0 4) with 0 in H. rewrite Z.lor_0_r in H. exact H.
Qed.

Lemma quad_byte2_tail (b : Z) :
  0 <= b < 256 ->
  Z.land (Z.lor (Z.shiftl (b / 16) 4) (Z.shiftr (Z.shiftl (Z.land b 0xF) 2) 2)) 0xFF = b.
Proof.
  intros Hb. pose proof (quad_byte2 b 0 Hb ltac:(lia)) as H.
  change (Z.shiftr 0 6) with 0 in H. rewrite Z.lor_0_r in H. exact H.
Qed.

Lemma a2b_char (v : Z) (s : list byte) (q l p : Z) (out : list byte) :
  0 <= v < 64 ->
  a2b_base64 (b64_char v :: s) q l p out =
    if q =? 0 then a2b_base64 s 1 v 0 out
    else if q =? 1 then
      a2b_base64 s 2 (Z.land v 0x0F) 0
        (out ++ [byte_of_Z (Z.land (Z.lor (Z.shiftl l 2) (Z.shiftr v 4)) 0xFF)])
    else if q =? 2 then
      a2b_base64 s 3 (Z.land v 0x03) 0
        (out ++ [byte_of_Z (Z.land (Z.lor (Z.shiftl l 4) (Z.shiftr v 2)) 0xFF)])
    else
      a2b_base64 s 0 0 0
        (out ++ [byte_of_Z (Z.land (Z.lor (Z.shiftl l 6) v) 0xFF)]).
Proof.
  intros Hv. destruct (b64_value_char v Hv) as (Hval & Hpad & _).
  cbn [a2b_base64]. rewrite Hpad, Hval. reflexivity.
Qed.

Lemma a2b_group (a b c : byte) (rest out : list byte) :
  a2b_base64
    (b64_char (Z.shiftr (byte_to_Z a) 2)
     :: b64_char (Z.lor (Z.shiftl (Z.land (byte_to_Z a) 3) 4) (Z.shiftr (byte_to_Z b) 4))
     :: b64_char (Z.lor (Z.shiftl (Z.land (byte_to_Z b) 0xF) 2) (Z.shiftr (byte_to_Z c) 6))
     :: b64_char (Z.land (byte_to_Z c) 0x3F) :: rest) 0 0 0 out
  = a2b_base64 rest 0 0 0 (out ++ [a; b; c]).
Proof.
  pose proof (byte_to_Z_range a) as Ha. pose proof (byte_to_Z_range b) as Hb.
  pose proof (byte_to_Z_range c) as Hc.
  destruct (sextet_ranges _ _ _ Ha Hb Hc) as (H0 & _ & H1 & _ & H2 & H3).
  rewrite a2b_char by assumption. cbn [Z.eqb].
  rewrite a2b_char by assumption. cbn [Z.eqb Pos.eqb].
  rewrite quad_byte1, quad_left1 by assumption.
  rewrite a2b_char by assumption. cbn [Z.eqb Pos.eqb].
  rewrite quad_byte2, quad_left2 by assumption.
  rewrite a2b_char by assumption. cbn [Z.eqb Pos.eqb].
  rewrite quad_byte3 by assumption.
  rewrite !byte_of_to_Z, <- !app_assoc. reflexivity.
Qed.

(** The two characters of a final group of one byte. *)
Lemma a2b_tail1 (a : byte) (rest out : list byte) :
  a2b_base64
    (b64_char (Z.shiftr (byte_to_Z a) 2)
     :: b64_char (Z.shiftl (Z.land (byte_to_Z a) 3) 4) :: rest) 0 0 0 out
  = a2b_base64 rest 2 0 0 (out ++ [a]).
Proof.
  pose proof (byte_to_Z_range a) as Ha.
  destruct (sextet_ranges _ _ _ Ha Ha Ha) as (H0 & H1 & _).
  rewrite a2b_char by assumption. cbn [Z.eqb].
  rewrite a2b_char by assumption. cbn [Z.eqb Pos.eqb].
  rewrite quad_byte1_tail, quad_left1_tail by assumption.
  rewrite byte_of_to_Z. reflexivity.
Qed.

(** The three characters of a final group of two bytes. *)
Lemma a2b_tail2 (a b : byte) (rest out : list byte) :
  a2b_base64
    (b64_char (Z.shiftr (byte_to_Z a) 2)
     :: b64_char (Z.lor (Z.shiftl (Z.land (byte_to_Z a) 3) 4) (Z.shiftr (byte_to_Z b) 4))
     :: b64_char (Z.shiftl (Z.land (byte_to_Z b) 0xF) 2) :: rest) 0 0 0 out
  = a2b_base64 rest 3 (Z.land (Z.shiftl (Z.land (byte_to_Z b) 0xF) 2) 0x03) 0
      (out ++ [a; b]).
Proof.
  pose proof (byte_to_Z_range a) as Ha. pose proof (byte_to_Z_range b) as Hb.
  destruct (sextet_ranges _ _ _ Ha Hb Hb) as (H0 & _ & H1 & H2 & _).
  rewrite a2b_char by assumption. cbn [Z.eqb].
  rewrite a2b_char by assumption. cbn [Z.eqb Pos.eqb].
  rewrite quad_byte1, quad_left1 by assumption.
  rewrite a2b_char by assumption. cbn [Z.eqb Pos.eqb].
  rewrite quad_byte2_tail by assumption.
  rewrite !byte_of_to_Z, <- !app_assoc. reflexivity.
Qed.

Lemma urlsafe_b64_roundtrip_aux (n : nat) :
  forall (data out : list byte),
    (length data <= n)%nat ->
    a2b_base64 (urlsafe_b64encode data) 0 0 0 out = Some (out ++ data).
Proof.
  induction n as [|n IH]; intros data out Hlen.
  - destruct data; [|simpl in Hlen; lia]. simpl. now rewrite app_nil_r.
  - destruct data as [|a [|b [|c rest]]].
    + simpl. now rewrite app_nil_r.
    + cbn [urlsafe_b64encode]. rewrite a2b_tail1. reflexivity.
    + cbn [urlsafe_b64encode]. rewrite a2b_tail2. reflexivity.
    + cbn [urlsafe_b64encode]. rewrite a2b_group.
      rewrite IH by (simpl in Hlen; lia).
      now rewrite <- app_assoc.
Qed.

Lemma urlsafe_b64_roundtrip (data : list byte) :
  urlsafe_b64decode (urlsafe_b64encode data) = Some data.
Proof.
  unfold urlsafe_b64decode.
  now rewrite (urlsafe_b64_roundtrip_aux (length data)).
Qed.

Lemma strip_padding_cons (ch : byte) (s : list byte) :
  (byte_to_Z ch =? 61) = false -> strip_padding (ch :: s) = ch :: strip_padding s.
Proof.
  intros H. cbn [strip_padding]. rewrite H. destruct (strip_padding s); reflexivity.
Qed.

Lemma strip_padding_char (v : Z) (s : list byte) :
  0 <= v < 64 -> strip_padding (b64_char v :: s) = b64_char v :: strip_padding s.
Proof.
  intros Hv. apply strip_padding_cons. apply (b64_value_char v Hv).
Qed.

Lemma mod3_SSS (k : nat) : (S (S (S k)) mod 3 = k mod 3)%nat.
Proof.
  replace (S (S (S k))) with (k + 1 * 3)%nat by lia. apply Nat.Div0.mod_add.
Qed.

Lemma urlsafe_b64_stripped_aux (n : nat) :
  forall (data out : list byte),
    (length data <= n)%nat ->
    a2b_base64 (strip_padding (urlsafe_b64encode data)) 0 0 0 out
    = if (length data mod 3 =? 0)%nat then Some (out ++ data) else None.
Proof.
  induction n as [|n IH]; intros data out Hlen.
  - destruct data; [|simpl in Hlen; lia]. simpl. now rewrite app_nil_r.
  - destruct data as [|a [|b [|c rest]]].
    + simpl. now rewrite app_nil_r.
    + pose proof (byte_to_Z_range a) as Ha.
      destruct (sextet_ranges _ _ _ Ha Ha Ha) as (H0 & H1 & _).
      cbn [urlsafe_b64encode]. rewrite !strip_padding_char by assumption.
      change (strip_padding [b64_pad; b64_pad]) with (@nil byte).
      rewrite a2b_tail1. reflexivity.
    + pose proof (byte_to_Z_range a) as Ha. pose proof (byte_to_Z_range b) as Hb.
      destruct (sextet_ranges _ _ _ Ha Hb Hb) as (H0 & _ & H1 & H2 & _).
      cbn [urlsafe_b64encode]. rewrite !strip_padding_char by assumption.
      change (strip_padding [b64_pad]) with (@nil byte).
      rewrite a2b_tail2. reflexivity.
    + pose proof (byte_to_Z_range a) as Ha. pose proof (byte_to_Z_range b) as Hb.
      pose proof (byte_to_Z_range c) as Hc.
      destruct (sextet_ranges _ _ _ Ha Hb Hc) as (H0 & _ & H1 & _ & H2 & H3).
      cbn [urlsafe_b64encode]. rewrite !strip_padding_char by assumption.
      rewrite a2b_group. rewrite IH by (simpl in Hlen; lia).
      cbn [length]. rewrite mod3_SSS.
      destruct (length rest mod 3 =? 0)%nat; [|reflexivity].
      now rewrite <- app_assoc.
Qed.

Lemma urlsafe_b64encode_ascii (data : list byte) :
  forallb (in_range 0 127) (urlsafe_b64encode data) = true.
Proof.
  assert (Hn : forall n data, (length data <= n)%nat ->
                 forallb (in_range 0 127) (urlsafe_b64encode data) = true).
  { clear data. induction n as [|n IH]; intros data Hlen.
    - destruct data; [reflexivity|simpl in Hlen; lia].
    - destruct data as [|a [|b [|c rest]]]; [reflexivity| | |].
      + pose proof (byte_to_Z_range a) as Ha.
        destruct (sextet_ranges _ _ _ Ha Ha Ha) as (H0 & H1 & _).
        cbn [urlsafe_b64encode forallb].
        rewrite (proj2 (proj2 (b64_value_char _ H0))),
                (proj2 (proj2 (b64_value_char _ H1))). reflexivity.
      + pose proof (byte_to_Z_range a) as Ha. pose proof (byte_to_Z_range b) as Hb.
        destruct (sextet_ranges _ _ _ Ha Hb Hb) as (H0 & _ & H1 & H2 & _).
        cbn [urlsafe_b64encode forallb].
        rewrite (proj2 (proj2 (b64_value_char _ H0))),
                (proj2 (proj2 (b64_value_char _ H1))),
                (proj2 (proj2 (b64_value_char _ H2))). reflexivity.
      + pose proof (byte_to_Z_range a) as Ha. pose proof (byte_to_Z_range b) as Hb.
        pose proof (byte_to_Z_range c) as Hc.
        destruct (sextet_ranges _ _ _ Ha Hb Hc) as (H0 & _ & H1 & _ & H2 & H3).
        cbn [urlsafe_b64encode forallb].
        rewrite (proj2 (proj2 (b64_value_char _ H0))),
                (proj2 (proj2 (b64_value_char _ H1))),
                (proj2 (proj2 (b64_value_char _ H2))),
                (proj2 (proj2 (b64_value_char _ H3))).
        cbn [andb]. apply IH. simpl in Hlen. lia. }
  apply (Hn (length data)). lia.
Qed.

Lemma strip_padding_ascii (s : list byte) :
  forallb (in_range 0 127) s = true ->
  forallb (in_range 0 127) (strip_padding s) = true.
Proof.
  induction s as [|ch s IH]; [reflexivity|].
  cbn [forallb strip_padding]. intros H. apply andb_prop in H as [Hc Hs].
  specialize (IH Hs). destruct (strip_padding s) as [|r rs].
  - destruct (byte_to_Z ch =? 61); [reflexivity|]. cbn [forallb]. now rewrite Hc.
  - cbn [forallb] in *. now rewrite Hc, IH.
Qed.

(** ** The reference runtime is a runtime *)

Lemma stored_inflate_block (k : nat) (final : bool) (chunk rest out : list byte) :
  Z.of_nat (length chunk) <= 65535 ->
  RefRuntime.stored_inflate (S k) (RefRuntime.stored_block final chunk ++ rest) out
  = if final then Some (out ++ chunk)
    else RefRuntime.stored_inflate k rest (out ++ chunk).
Proof.
  intros Hlen. unfold RefRuntime.stored_block.
  set (len := Z.of_nat (length chunk)) in *.
  assert (Hl : 0 <= len) by (subst len; lia).
  cbn [app RefRuntime.stored_inflate].
  pose proof (Z.mod_pos_bound len 256 ltac:(lia)).
  pose proof (Z.mod_pos_bound (65535 - len) 256 ltac:(lia)).
  assert (0 <= len / 256 < 256)
    by (split; [apply Z.div_pos; lia|apply Z.div_lt_upper_bound; lia]).
  assert (0 <= (65535 - len) / 256 < 256)
    by (split; [apply Z.div_pos; lia|apply Z.div_lt_upper_bound; lia]).
  rewrite !byte_to_of_Z by (try destruct final; lia).
  pose proof (Z.div_mod len 256 ltac:(lia)).
  pose proof (Z.div_mod (65535 - len) 256 ltac:(lia)).
  replace (len mod 256 + 256 * (len / 256)) with len by lia.
  replace ((65535 - len) mod 256 + 256 * ((65535 - len) / 256)) with (65535 - len) by lia.
  replace (len + (65535 - len) =? 65535) with true by (symmetry; apply Z.eqb_eq; lia).
  cbn [negb]. rewrite length_app.
  destruct (Z.ltb_spec (Z.of_nat (length chunk + length rest)) len); [subst len; lia|].
  subst len. rewrite Nat2Z.id, take_app_length, drop_app_length.
  destruct final; reflexivity.
Qed.

Lemma stored_inflate_blocks (fuel : nat) :
  forall (data out : list byte) (f : nat),
    (length data <= fuel)%nat -> (fuel < f)%nat ->
    RefRuntime.stored_inflate f (RefRuntime.stored_blocks fuel data) out
    = Some (out ++ data).
Proof.
  induction fuel as [|fuel IH]; intros data out f Hlen Hf.
  - destruct data; [|simpl in Hlen; lia]. destruct f as [|f]; [lia|].
    cbn [RefRuntime.stored_blocks].
    rewrite <- (app_nil_r (RefRuntime.stored_block true [])).
    rewrite stored_inflate_block by (simpl; lia). reflexivity.
  - destruct f as [|f]; [lia|]. cbn [RefRuntime.stored_blocks].
    unfold RefRuntime.block_max.
    destruct (Z.leb_spec (Z.of_nat (length data)) 65535) as [Hs|Hb].
    + rewrite <- (app_nil_r (RefRuntime.stored_block true data)).
      rewrite stored_inflate_block by lia. reflexivity.
    + rewrite stored_inflate_block by (rewrite length_take; lia).
      rewrite IH; [|rewrite length_drop; lia|lia].
      now rewrite <- app_assoc, take_drop.
Qed.

Lemma stored_blocks_length (fuel : nat) (data : list byte) :
  (5 <= length (RefRuntime.stored_blocks fuel data))%nat
  /\ (length data <= fuel ->
      length data + 5 <= length (RefRuntime.stored_blocks fuel data))%nat.
Proof.
  revert data. induction fuel as [|fuel IH]; intros data.
  - simpl. split; [lia|]. destruct data; simpl; lia.
  - cbn [RefRuntime.stored_blocks]. unfold RefRuntime.block_max.
    destruct (Z.leb_spec (Z.of_nat (length data)) 65535) as [Hs|Hb].
    + unfold RefRuntime.stored_block. cbn [app length]. lia.
    + unfold RefRuntime.stored_block. rewrite length_app. cbn [app length].
      rewrite length_take. destruct (IH (drop (Z.to_nat 65535) data)) as [H5 Hd].
      rewrite length_drop in Hd. split; [lia|]. intros Hlen. lia.
Qed.

Lemma ref_inflate_deflate (d : list byte) :
  RefRuntime.inflate (RefRuntime.deflate d) = Some d.
Proof.
  destruct d as [|b d]; [reflexivity|].
  unfold RefRuntime.deflate.
  set (data := b :: d). set (s := RefRuntime.stored_blocks (length data) data).
  destruct (stored_blocks_length (length data) data) as [H5 Hd].
  specialize (Hd ltac:(lia)). fold s in H5, Hd.
  assert (Hinf : RefRuntime.inflate s = RefRuntime.stored_inflate (length s) s []).
  { unfold RefRuntime.inflate. destruct s as [|? [|? [|? ?]]]; simpl in H5; try lia.
    reflexivity. }
  rewrite Hinf. subst s. rewrite stored_inflate_blocks; [reflexivity|lia|lia].
Qed.

Lemma ref_deflate_nonempty (d : list byte) : RefRuntime.deflate d <> [].
Proof.
  destruct d as [|b d]; [discriminate|]. unfold RefRuntime.deflate.
  destruct (stored_blocks_length (length (b :: d)) (b :: d)) as [H5 _].
  intros E. rewrite E in H5. simpl in H5. lia.
Qed.

(** The reference runtime as a [PyRuntime]. *)
Definition ref_runtime : PyRuntime :=
  {| json_loads := RefRuntime.loads;
     json_dumps := RefRuntime.dumps;
     str_upper := RefRuntime.upper;
     int_of_str := RefRuntime.int_of_str;
     float_trunc := RefRuntime.float_trunc;
     repr_compound := RefRuntime.repr;
     raw_deflate := RefRuntime.deflate;
     raw_inflate := RefRuntime.inflate;
     raw_inflate_deflate := ref_inflate_deflate;
     raw_deflate_nonempty := ref_deflate_nonempty |}.

(** ** Transport round-trip *)

Section Transport.

Context (R : PyRuntime).

Lemma _inflate_deflate_raw_b64 (d : list byte) :
  _inflate_raw_b64 R (_deflate_raw_b64 R d) = inr d.
Proof.
  unfold _inflate_raw_b64, _deflate_raw_b64, ascii_encode.
  rewrite list_byte_of_string_of_list_byte, urlsafe_b64encode_ascii.
  rewrite urlsafe_b64_roundtrip, raw_inflate_deflate. reflexivity.
Qed.

Lemma _inflate_stripped_raw_b64 (d : list byte) :
  _inflate_raw_b64 R (strip_token (_deflate_raw_b64 R d))
  = if (length (raw_deflate R d) mod 3 =? 0)%nat then inr d else inl BinasciiError.
Proof.
  unfold _inflate_raw_b64, _deflate_raw_b64, strip_token, ascii_encode.
  rewrite !list_byte_of_string_of_list_byte.
  rewrite strip_padding_ascii by apply urlsafe_b64encode_ascii.
  unfold urlsafe_b64decode.
  rewrite (urlsafe_b64_stripped_aux (length (raw_deflate R d))) by lia.
  destruct (length (raw_deflate R d) mod 3 =? 0)%nat; [|reflexivity].
  cbn [app]. now rewrite raw_inflate_deflate.
Qed.

End Transport.

(** C3 (amended): [_inflate_raw_b64] recovers every record [d] from the
    token [_deflate_raw_b64 d]; from that token without its trailing ['=']
    it recovers [d] only when the token carries no padding (the compressed
    length is a multiple of 3) and raises [binascii.Error] otherwise: the
    base64 decoding depends on the padding. *)
Theorem transport_roundtrip_needs_padding :
  forall (R : PyRuntime) (d : list byte),
    _inflate_raw_b64 R (_deflate_raw_b64 R d) = inr d
    /\ _inflate_raw_b64 R (strip_token (_deflate_raw_b64 R d))
       = if (length (raw_deflate R d) mod 3 =? 0)%nat
         then inr d else inl BinasciiError.
Proof.
  intros R d. split.
  - apply _inflate_deflate_raw_b64.
  - apply _inflate_stripped_raw_b64.
Qed.

(** C3 as stated fails on the empty record: its token is ["AwA="], and
    without the padding character the decoder raises. *)
Lemma transport_unpadded_fails :
  _deflate_raw_b64 ref_runtime [] = "AwA="%string
  /\ _inflate_raw_b64 ref_runtime "AwA=" = inr []
  /\ strip_token "AwA=" = "AwA"%string
  /\ _inflate_raw_b64 ref_runtime "AwA" = inl BinasciiError.
Proof. repeat split; vm_compute; reflexivity. Qed.

(** ** The string pool *)

Lemma lit_tag (len : Z) : 0 <= len -> Z.lor (Z.shiftl len 1) 1 = 2 * len + 1.
Proof.
  intros H. rewrite lor_shiftl_low by (change (2 ^ 1) with 2; lia).
  change (2 ^ 1) with 2. lia.
Qed.

Lemma ref_tag (i : Z) : Z.lor (Z.shiftl i 1) 0 = 2 * i.
Proof. rewrite Z.lor_0_r, Z.shiftl_mul_pow2 by lia. change (2 ^ 1) with 2. lia. Qed.

Lemma land_1 (v : Z) : Z.land v 1 = v mod 2.
Proof. change 1 with (Z.ones 1) at 1. now rewrite Z.land_ones. Qed.

Lemma shiftr_1 (v : Z) : Z.shiftr v 1 = v / 2.
Proof. rewrite Z.shiftr_div_pow2 by lia. reflexivity. Qed.

Lemma pool_init_wf : pool_wf _StringPool_init.
Proof.
  unfold pool_wf, _StringPool_init. cbn. split; [reflexivity|]. split; [lia|].
  intros s i H. rewrite lookup_empty in H. discriminate.
Qed.

Lemma pool_after_wf (p : _StringPool) (s : string) :
  pool_wf p -> pool_wf (pool_after p s).
Proof.
  intros (Hn & H1 & Hinv). unfold pool_after.
  destruct (_s2i p !! s) as [i|] eqn:E; [exact (conj Hn (conj H1 Hinv))|].
  unfold pool_wf, pool_intern. cbn. split; [|split].
  - rewrite length_app. simpl. lia.
  - lia.
  - intros s' i. destruct (decide (s = s')) as [->|Hne].
    + rewrite lookup_insert_eq. intros [= <-]. split; [lia|].
      rewrite Hn, Nat2Z.id. rewrite lookup_app_r by lia.
      now rewrite Nat.sub_diag.
    + rewrite lookup_insert_ne by assumption. intros Hs.
      destruct (Hinv _ _ Hs) as [Hi Hl]. split; [lia|].
      rewrite lookup_app_l; [exact Hl|]. apply lookup_lt_Some in Hl. exact Hl.
Qed.

Lemma pool_after_next (p : _StringPool) (s : string) :
  _next p <= _next (pool_after p s) <= _next p + 1.
Proof.
  unfold pool_after. destruct (_s2i p !! s); cbn; lia.
Qed.

Lemma pool_encode_ok (s : string) (out : list byte) (p : _StringPool) :
  pool_wf p ->
  _StringPool_encode s out p = (inr (out ++ pool_elem p s), pool_after p s).
Proof.
  intros (Hn & H1 & Hinv). unfold _StringPool_encode, pool_elem, pool_after.
  destruct (_s2i p !! s) as [i|] eqn:E.
  - destruct (Hinv _ _ E) as [Hi _].
    rewrite ref_tag, _uvarint_encode_ok by lia. reflexivity.
  - rewrite lit_tag, _uvarint_encode_ok by lia.
    now rewrite <- app_assoc.
Qed.

Lemma utf8_decode_encode (s : string) :
  wf_str s = true -> utf8_decode (utf8_encode s) = Some s.
Proof.
  unfold wf_str, utf8_decode, utf8_encode. intros H.
  apply andb_prop in H as [-> _]. now rewrite string_of_list_byte_of_string.
Qed.

Lemma wf_str_length (s : string) :
  wf_str s = true -> Z.of_nat (length (utf8_encode s)) < 2 ^ 63.
Proof.
  unfold wf_str. intros H. apply andb_prop in H as [_ H]. now apply Z.ltb_lt in H.
Qed.

Lemma pool_decode_ok (s : string) (pre post : list byte) (p : _StringPool) :
  pool_wf p -> wf_str s = true -> _next (pool_after p s) <= 2 ^ 76 ->
  _StringPool_decode (pre ++ pool_elem p s ++ post) (length pre) p
  = (inr (s, (length pre + length (pool_elem p s))%nat), pool_after p s).
Proof.
  intros (Hn & H1 & Hinv) Hs Hb. unfold _StringPool_decode, pool_elem, pool_after in *.
  destruct (_s2i p !! s) as [i|] eqn:E.
  - destruct (Hinv _ _ E) as [Hi Hl].
    rewrite _uvarint_decode_bytes by lia.
    rewrite land_1, shiftr_1.
    replace ((2 * i) mod 2) with 0 by (apply (Z.mod_unique _ _ i); lia).
    replace (2 * i / 2) with i by (apply (Z.div_unique _ _ _ 0); lia).
    cbn [Z.eqb].
    destruct (Z.leb_spec i 0); [lia|]. destruct (Z.leb_spec (_next p) i); [lia|].
    cbn [orb]. rewrite Hl. reflexivity.
  - pose proof (wf_str_length s Hs) as Hlen.
    set (len := Z.of_nat (length (utf8_encode s))) in *.
    rewrite <- app_assoc.
    rewrite _uvarint_decode_bytes by lia.
    rewrite land_1, shiftr_1.
    replace ((2 * len + 1) mod 2) with 1 by (apply (Z.mod_unique _ _ len); lia).
    replace ((2 * len + 1) / 2) with len by (apply (Z.div_unique _ _ _ 1); lia).
    cbn [Z.eqb].
    set (vb := uvarint_bytes (2 * len + 1)).
    rewrite !length_app.
    destruct (Z.ltb_spec (Z.of_nat (length pre + (length vb + (length (utf8_encode s) + length post))))
                (Z.of_nat (length pre + length vb) + len)); [subst len; lia|].
    replace (pre ++ vb ++ utf8_encode s ++ post)
      with ((pre ++ vb) ++ utf8_encode s ++ post) by (now rewrite <- app_assoc).
    rewrite <- length_app, drop_app_length.
    subst len. rewrite Nat2Z.id, take_app_length, utf8_decode_encode by assumption.
    rewrite !length_app. do 3 f_equal. lia.
Qed.

(** *** The pool against its specification *)

Lemma ordinal_Some (seen : list string) (s : string) (i : Z) :
  ordinal seen s = Some i ->
  1 <= i <= Z.of_nat (length seen) /\ seen !! Z.to_nat (i - 1) = Some s.
Proof.
  revert i. induction seen as [|x seen IH]; intros i; [discriminate|].
  cbn [ordinal]. destruct (String.eqb_spec s x) as [->|Hne].
  - intros [= <-]. cbn. split; [lia|reflexivity].
  - destruct (ordinal seen s) as [j|]; [|discriminate]. cbn. intros [= <-].
    destruct (IH j eq_refl) as [Hj Hl]. split; [lia|].
    replace (Z.to_nat (Z.succ j - 1)) with (S (Z.to_nat (j - 1))) by lia. exact Hl.
Qed.

Lemma ordinal_app (seen : list string) (s x : string) :
  ordinal (seen ++ [x]) s =
    match ordinal seen s with
    | Some i => Some i
    | None => if String.eqb s x then Some (1 + Z.of_nat (length seen)) else None
    end.
Proof.
  induction seen as [|y seen IH]; cbn [app ordinal length].
  - destruct (String.eqb s x); reflexivity.
  - destruct (String.eqb s y); [reflexivity|]. rewrite IH.
    destruct (ordinal seen s); [reflexivity|].
    destruct (String.eqb s x); cbn; [f_equal; lia|reflexivity].
Qed.

Lemma pool_repr_init : pool_repr [] _StringPool_init.
Proof.
  unfold pool_repr, _StringPool_init. cbn. split; [reflexivity|]. split; [reflexivity|].
  intros s. apply lookup_empty.
Qed.

Lemma pool_repr_wf (seen : list string) (p : _StringPool) :
  pool_repr seen p -> pool_wf p.
Proof.
  intros (Hi & Hn & Hs). unfold pool_wf. rewrite Hi, Hn. cbn [length].
  split; [lia|]. split; [lia|]. intros s i E. rewrite Hs in E.
  destruct (ordinal_Some _ _ _ E) as [Hr Hl]. split; [lia|].
  replace (Z.to_nat i) with (S (Z.to_nat (i - 1))) by lia. exact Hl.
Qed.

Lemma pool_repr_after (seen : list string) (p : _StringPool) (s : string) :
  pool_repr seen p ->
  pool_repr (match ordinal seen s with Some _ => seen | None => seen ++ [s] end)
            (pool_after p s).
Proof.
  intros (Hi & Hn & Hs). unfold pool_after. rewrite Hs.
  destruct (ordinal seen s) as [i|] eqn:E; [exact (conj Hi (conj Hn Hs))|].
  unfold pool_repr, pool_intern. cbn. rewrite Hi, Hn, length_app. cbn.
  split; [reflexivity|]. split; [lia|]. intros s'. rewrite ordinal_app.
  destruct (decide (s = s')) as [<-|Hne].
  - rewrite lookup_insert_eq, E, String.eqb_refl. reflexivity.
  - rewrite lookup_insert_ne, Hs by assumption.
    destruct (ordinal seen s'); [reflexivity|].
    destruct (String.eqb_spec s' s); [congruence|reflexivity].
Qed.

Lemma pool_stream_run (ss : list string) :
  forall (seen : list string) (p : _StringPool) (out : list byte),
    pool_repr seen p ->
    Forall (fun s => wf_str s = true) ss ->
    1 + Z.of_nat (length seen) + Z.of_nat (length ss) <= 2 ^ 76 ->
    exists p',
      encode_all ss out p = (inr (out ++ concat (pool_stream seen ss)), p')
      /\ pool_repr (first_seen_from seen ss) p'
      /\ forall pre post,
           decode_all (length ss) (pre ++ concat (pool_stream seen ss) ++ post)
             (length pre) p
           = (inr (ss, (length pre + length (concat (pool_stream seen ss)))%nat), p').
Proof.
  induction ss as [|s ss IH]; intros seen p out Hp Hwf Hb.
  - exists p. cbn. rewrite app_nil_r. split; [reflexivity|]. split; [assumption|].
    intros pre post. now rewrite Nat.add_0_r.
  - apply Forall_cons in Hwf as [Hs Hwf].
    pose proof (pool_repr_wf _ _ Hp) as Hpw.
    pose proof (pool_repr_after _ _ s Hp) as Hp1.
    assert (Helem : pool_elem p s =
              match ordinal seen s with
              | Some id => uvarint_bytes (2 * id)
              | None => uvarint_bytes (2 * Z.of_nat (length (utf8_encode s)) + 1)
                        ++ utf8_encode s
              end).
    { unfold pool_elem. destruct Hp as (_ & _ & Hl). rewrite Hl. reflexivity. }
    assert (Hnext : _next (pool_after p s) <= 2 ^ 76).
    { pose proof (pool_after_next p s). destruct Hp as (_ & Hn & _).
      cbn [length] in Hb. lia. }
    set (seen1 := match ordinal seen s with Some _ => seen | None => seen ++ [s] end) in *.
    assert (Hlen1 : 1 + Z.of_nat (length seen1) + Z.of_nat (length ss) <= 2 ^ 76).
    { subst seen1. cbn [length] in Hb.
      destruct (ordinal seen s); [lia|]. rewrite length_app. cbn. lia. }
    assert (Hstream : pool_stream seen (s :: ss) = pool_elem p s :: pool_stream seen1 ss).
    { rewrite Helem. subst seen1. cbn [pool_stream]. destruct (ordinal seen s); reflexivity. }
    assert (Hfs : first_seen_from seen (s :: ss) = first_seen_from seen1 ss).
    { subst seen1. cbn [first_seen_from]. destruct (ordinal seen s); reflexivity. }
    destruct (IH seen1 (pool_after p s) (out ++ pool_elem p s) Hp1 Hwf Hlen1)
      as (p' & Henc & Hrepr & Hdec).
    exists p'. rewrite Hstream, Hfs. cbn [concat]. split; [|split].
    + cbn [encode_all]. unfold bind. rewrite pool_encode_ok by assumption.
      rewrite Henc. now rewrite <- app_assoc.
    + exact Hrepr.
    + intros pre post. cbn [length decode_all]. unfold bind.
      rewrite <- app_assoc. rewrite pool_decode_ok by assumption.
      specialize (Hdec (pre ++ pool_elem p s) post).
      rewrite <- app_assoc, length_app in Hdec. rewrite Hdec.
      unfold ret. cbv beta iota. rewrite length_app. do 3 f_equal. lia.
Qed.

(** C4: string pool monotonicity.  For every sequence [ss] of strings
    passed to [_StringPool.encode] on a fresh pool, the bytes written are
    the stream the specification prescribes ([pool_stream]: a literal, with
    an odd varint, at the first occurrence of a string, a reference
    [2 * id], with an even varint, to its first-seen ordinal [id] at every
    later one); the pool numbers the distinct strings from 1 in first-seen
    order; and a fresh decoder pool fed these bytes returns [ss] and ends
    as the same pool. *)
Theorem pool_monotonicity :
  forall (ss : list string),
    Forall (fun s => wf_str s = true) ss ->
    Z.of_nat (length ss) < 2 ^ 76 ->
    exists p',
      encode_all ss [] _StringPool_init = (inr (concat (pool_stream [] ss)), p')
      /\ _i2s p' = "<unused>"%string :: first_seen ss
      /\ _next p' = 1 + Z.of_nat (length (first_seen ss))
      /\ (forall s, _s2i p' !! s = ordinal (first_seen ss) s)
      /\ decode_all (length ss) (concat (pool_stream [] ss)) 0 _StringPool_init
         = (inr (ss, length (concat (pool_stream [] ss))), p').
Proof.
  intros ss Hwf Hlen.
  destruct (pool_stream_run ss [] _StringPool_init [] pool_repr_init Hwf)
    as (p' & Henc & (Hi & Hn & Hs) & Hdec); [cbn [length]; lia|].
  exists p'. split; [exact Henc|]. split; [exact Hi|]. split; [exact Hn|].
  split; [exact Hs|].
  specialize (Hdec [] []). cbn [app length Nat.add] in Hdec.
  rewrite app_nil_r in Hdec. exact Hdec.
Qed.

Lemma pool_monotonicity_witness :
  exists p',
    encode_all ["0.5"; "10"; "0.5"]%string [] _StringPool_init
    = (inr (concat (pool_stream [] ["0.5"; "10"; "0.5"]%string)), p')
    /\ _i2s p' = "<unused>"%string :: first_seen ["0.5"; "10"; "0.5"]%string
    /\ _next p' = 1 + Z.of_nat (length (first_seen ["0.5"; "10"; "0.5"]%string))
    /\ (forall s, _s2i p' !! s = ordinal (first_seen ["0.5"; "10"; "0.5"]%string) s)
    /\ decode_all (length ["0.5"; "10"; "0.5"]%string)
         (concat (pool_stream [] ["0.5"; "10"; "0.5"]%string)) 0 _StringPool_init
       = (inr (["0.5"; "10"; "0.5"]%string,
               length (concat (pool_stream [] ["0.5"; "10"; "0.5"]%string))), p').
Proof.
  apply (pool_monotonicity ["0.5"; "10"; "0.5"]%string).
  - repeat constructor.
  - cbn [length]. lia.
Defined.

(** The stream of the witness: two literals, then a reference to id 1. *)
Example pool_stream_example :
  concat (pool_stream [] ["0.5"; "10"; "0.5"]%string)
  = map byte_of_Z [7; 48; 46; 53; 5; 49; 48; 2].
Proof. vm_compute. reflexivity. Qed.

(** ** Running the codec *)

Lemma bind_inr {St A B : Type} (m : M St A) (k : A -> M St B) (s s' : St) (a : A) :
  m s = (inr a, s') -> bind m k s = k a s'.
Proof. intros H. unfold bind. now rewrite H. Qed.

Lemma bind_inl {St A B : Type} (m : M St A) (k : A -> M St B) (s s' : St) (e : exn) :
  m s = (inl e, s') -> bind m k s = (inl e, s').
Proof. intros H. unfold bind. now rewrite H. Qed.

Lemma set_pool_eta (c : FrameCompressorV3) : set_pool (pool c) c = c.
Proof. destruct c; reflexivity. Qed.

Lemma set_st_pool_eta (d : _V3State) : set_st_pool (st_pool d) d = d.
Proof. destruct d; reflexivity. Qed.

Lemma items_bytes_app (a b : list item) (p : _StringPool) :
  items_bytes p (a ++ b) = items_bytes p a ++ items_bytes (items_pool p a) b.
Proof.
  revert p. induction a as [|[s|bs] a IH]; intros p; cbn [app items_bytes items_pool].
  - reflexivity.
  - now rewrite IH, <- app_assoc.
  - now rewrite IH, <- app_assoc.
Qed.

Lemma items_pool_app (a b : list item) (p : _StringPool) :
  items_pool p (a ++ b) = items_pool (items_pool p a) b.
Proof.
  revert p. induction a as [|[s|bs] a IH]; intros p; cbn [app items_pool]; auto.
Qed.

Lemma items_pool_wf (items : list item) (p : _StringPool) :
  pool_wf p -> pool_wf (items_pool p items).
Proof.
  revert p. induction items as [|[s|bs] r IH]; intros p Hp; cbn [items_pool]; auto.
  apply IH. now apply pool_after_wf.
Qed.

Lemma items_pool_next (items : list item) (p : _StringPool) :
  _next p <= _next (items_pool p items).
Proof.
  revert p. induction items as [|[s|bs] r IH]; intros p; cbn [items_pool]; [lia| |auto].
  pose proof (pool_after_next p s). specialize (IH (pool_after p s)). lia.
Qed.

Lemma view_str_inv (v : option json) (s : string) :
  view_str v = Some s -> v = Some (JStr s) /\ wf_str s = true.
Proof.
  unfold view_str. destruct v as [[]|]; try discriminate.
  destruct (wf_str s0) eqn:E; [|discriminate]. intros [= <-]. auto.
Qed.

Section Encoder.

Context (R : PyRuntime).

Lemma view_side_inv (v : option json) (s : string) :
  view_side R v = Some s ->
  v = Some (JStr s) /\ wf_str s = true
  /\ (str_upper R s = "SELL"%string \/ str_upper R s = "BUY"%string).
Proof.
  unfold view_side. destruct (view_str v) as [s'|] eqn:E; [|discriminate].
  apply view_str_inv in E as [-> Hwf].
  destruct (String.eqb_spec (str_upper R s') "SELL") as [H1|H1];
    destruct (String.eqb_spec (str_upper R s') "BUY") as [H2|H2];
    cbn; intros [= <-]; auto.
Qed.

Lemma on_pool_encode (s : string) (out : list byte) (c : FrameCompressorV3) :
  pool_wf (pool c) ->
  on_pool (_StringPool_encode s out) c
  = (inr (out ++ pool_elem (pool c) s), set_pool (pool_after (pool c) s) c).
Proof.
  intros Hp. unfold on_pool. now rewrite pool_encode_ok.
Qed.

Lemma encode_levels_loop_ok (lv : list json) :
  forall (ls : list (string * string)) (out : list byte) (c : FrameCompressorV3),
    view_list view_level lv = Some ls ->
    pool_wf (pool c) ->
    encode_levels_loop R lv out c
    = (inr (out ++ items_bytes (pool c) (levels_items ls)),
       set_pool (items_pool (pool c) (levels_items ls)) c).
Proof.
  induction lv as [|lvx lv IH]; intros ls out c Hv Hp.
  - cbn in Hv. injection Hv as <-. cbn. now rewrite app_nil_r, set_pool_eta.
  - cbn [view_list] in Hv.
    destruct (view_level lvx) as [[pr sz]|] eqn:El; [|discriminate].
    destruct (view_list view_level lv) as [ls'|] eqn:Er; [|discriminate].
    injection Hv as <-.
    unfold view_level in El. destruct lvx as [| | | | | |d]; try discriminate.
    destruct (view_str (dict_get "price" d)) as [pr'|] eqn:Ep; [|discriminate].
    destruct (view_str (dict_get "size" d)) as [sz'|] eqn:Es; [|discriminate].
    injection El as -> ->.
    apply view_str_inv in Ep as [Ep _]. apply view_str_inv in Es as [Es _].
    cbn [encode_levels_loop py_get]. rewrite Ep, Es.
    rewrite (bind_inr _ _ c c (JStr pr)) by reflexivity.
    cbn [py_str].
    rewrite (bind_inr _ _ _ _ _ (on_pool_encode pr out c Hp)).
    rewrite (bind_inr _ _ _ _ (JStr sz)) by reflexivity.
    cbn [py_str].
    assert (Hp1 : pool_wf (pool (set_pool (pool_after (pool c) pr) c)))
      by (cbn; now apply pool_after_wf).
    rewrite (bind_inr _ _ _ _ _ (on_pool_encode sz _ _ Hp1)).
    cbn [pool set_pool].
    rewrite (IH ls') by (try reflexivity; cbn; now do 2 apply pool_after_wf).
    cbn [levels_items flat_map app items_bytes items_pool fst snd pool set_pool].
    now rewrite <- !app_assoc.
Qed.

Lemma view_list_length {A : Type} (f : json -> option A) (l : list json) (r : list A) :
  view_list f l = Some r -> length l = length r.
Proof.
  revert r. induction l as [|x l IH]; intros r; cbn.
  - now intros [= <-].
  - destruct (f x); [|discriminate]. destruct (view_list f l); [|discriminate].
    intros [= <-]. cbn. f_equal. now apply IH.
Qed.

Lemma view_array_inv {A : Type} (f : json -> option A) (v : option json) (r : list A) :
  view_array f v = Some r ->
  exists lv, v = Some (JArr lv) /\ view_list f lv = Some r
             /\ Z.of_nat (length r) < 2 ^ 63.
Proof.
  unfold view_array. destruct v as [[]|]; try discriminate.
  destruct (Z.ltb_spec (Z.of_nat (length items)) (2 ^ 63)) as [Hlt|]; [|discriminate].
  intros Hv. exists items. rewrite <- (view_list_length _ _ _ Hv). auto.
Qed.

Lemma _encode_levels_ok (lv : list json) (ls : list (string * string))
    (out : list byte) (c : FrameCompressorV3) :
  view_list view_level lv = Some ls ->
  pool_wf (pool c) ->
  _encode_levels R (JArr lv) out c
  = (inr (out ++ items_bytes (pool c)
                   (IRaw (uvarint_bytes (Z.of_nat (length ls))) :: levels_items ls)),
     set_pool (items_pool (pool c) (levels_items ls)) c).
Proof.
  intros Hv Hp. unfold _encode_levels. cbn [py_list].
  rewrite (bind_inr _ _ c c lv) by reflexivity.
  rewrite (bind_inr _ _ c c (out ++ uvarint_bytes (Z.of_nat (length lv))))
    by (unfold lift; rewrite _uvarint_encode_ok by lia; reflexivity).
  rewrite (encode_levels_loop_ok lv ls) by assumption.
  rewrite (view_list_length _ _ _ Hv). cbn [items_bytes].
  now rewrite <- app_assoc.
Qed.

Lemma encode_changes_loop_ok (chs : list json) :
  forall (cs : list (string * (string * string))) (out : list byte)
         (c : FrameCompressorV3),
    view_list (view_change R) chs = Some cs ->
    pool_wf (pool c) ->
    encode_changes_loop R chs out c
    = (inr (out ++ items_bytes (pool c) (changes_items R cs)),
       set_pool (items_pool (pool c) (changes_items R cs)) c).
Proof.
  induction chs as [|ch chs IH]; intros cs out c Hv Hp.
  - cbn in Hv. injection Hv as <-. cbn. now rewrite app_nil_r, set_pool_eta.
  - cbn [view_list] in Hv.
    destruct (view_change R ch) as [[sd [pr sz]]|] eqn:El; [|discriminate].
    destruct (view_list (view_change R) chs) as [cs'|] eqn:Er; [|discriminate].
    injection Hv as <-.
    unfold view_change in El. destruct ch as [| | | | | |d]; try discriminate.
    destruct (view_side R (dict_get "side" d)) as [sd'|] eqn:Ed; [|discriminate].
    destruct (view_str (dict_get "price" d)) as [pr'|] eqn:Ep; [|discriminate].
    destruct (view_str (dict_get "size" d)) as [sz'|] eqn:Es; [|discriminate].
    injection El as -> -> ->.
    apply view_side_inv in Ed as (Ed & _ & _).
    apply view_str_inv in Ep as [Ep _]. apply view_str_inv in Es as [Es _].
    cbn [encode_changes_loop py_get]. rewrite Ed, Ep, Es.
    rewrite (bind_inr _ _ c c (JStr sd)) by reflexivity.
    cbn [py_str].
    rewrite (bind_inr _ _ c c (JStr pr)) by reflexivity.
    cbn [py_str].
    rewrite (bind_inr _ _ _ _ _ (on_pool_encode pr _ c Hp)).
    rewrite (bind_inr _ _ _ _ (JStr sz)) by reflexivity.
    cbn [py_str].
    assert (Hp1 : pool_wf (pool (set_pool (pool_after (pool c) pr) c)))
      by (cbn; now apply pool_after_wf).
    rewrite (bind_inr _ _ _ _ _ (on_pool_encode sz _ _ Hp1)).
    cbn [pool set_pool].
    rewrite (IH cs') by (try reflexivity; cbn; now do 2 apply pool_after_wf).
    cbn [changes_items flat_map app items_bytes items_pool fst snd pool set_pool].
    now rewrite <- !app_assoc.
Qed.

(** The type byte the encoder builds is the one of the layout. *)
Lemma type_byte_encoder (pl : payload) (ts_abs has_fee : bool) :
  (et_code pl = 3 ->
   has_fee = match pl with LastTradePrice _ _ _ (Some _) => true | _ => false end) ->
  (if (et_code pl =? 3) && has_fee
   then Z.lor (if ts_abs then Z.lor (Z.land (et_code pl) 0x07) _TB_TS_ABS
               else Z.land (et_code pl) 0x07) _TB_OPT0
   else if ts_abs then Z.lor (Z.land (et_code pl) 0x07) _TB_TS_ABS
        else Z.land (et_code pl) 0x07)
  = type_byte pl ts_abs.
Proof.
  intros H. destruct pl as [| | |? ? ? [f|]], ts_abs;
    try reflexivity; cbn in H; rewrite H by reflexivity; reflexivity.
Qed.

Lemma type_byte_opt0 (pl : payload) (ts_abs : bool) :
  negb (Z.land (type_byte pl ts_abs) _TB_OPT0 =? 0)
  = match pl with LastTradePrice _ _ _ (Some _) => true | _ => false end.
Proof. destruct pl as [| | |? ? ? [f|]], ts_abs; reflexivity. Qed.

Lemma type_byte_decoder (pl : payload) (ts_abs : bool) :
  Z.land (type_byte pl ts_abs) 0x07 = et_code pl
  /\ negb (Z.land (type_byte pl ts_abs) _TB_TS_ABS =? 0) = ts_abs
  /\ 0 <= type_byte pl ts_abs < 256.
Proof.
  destruct pl as [| | |? ? ? [f|]], ts_abs;
    (split; [reflexivity|split; [reflexivity|unfold type_byte, et_code; lia]]).
Qed.

Lemma view_payload_inv (et : string) (d : list (string * json)) (pl : payload) :
  view_payload R et d = Some pl -> et = et_name pl.
Proof.
  intros H. unfold view_payload, option_map in H.
  repeat case_match; simplify_eq; cbn [et_name]; now apply String.eqb_eq.
Qed.

Lemma _ET_CODE_name (pl : payload) : _ET_CODE (et_name pl) = Some (et_code pl).
Proof. destruct pl; reflexivity. Qed.

Lemma view_timestamp_inv (v : option json) (t : Z) :
  view_timestamp R v = Some t ->
  exists s, v = Some (JStr s) /\ int_of_str R s = Some t /\ 0 <= t < 2 ^ 64.
Proof.
  unfold view_timestamp. destruct v as [[]|]; try discriminate.
  destruct (int_of_str R s) as [t'|] eqn:E; [|discriminate].
  destruct (Z.leb_spec 0 t'); [|discriminate].
  destruct (Z.ltb_spec t' (2 ^ 64)); [|discriminate].
  cbn. intros [= <-]. eauto.
Qed.

Lemma encode_payload_ok (d : list (string * json)) (pl : payload) (ts_abs : bool)
    (out : list byte) (c : FrameCompressorV3) :
  view_payload R (et_name pl) d = Some pl ->
  pool_wf (pool c) ->
  (if et_code pl =? 0 then _encode_book R (JObj d) out
   else if et_code pl =? 1 then _encode_price_change R (JObj d) out
   else if et_code pl =? 2 then _encode_tick_size_change R (JObj d) out
   else if et_code pl =? 3
        then _encode_last_trade_price R (JObj d) (type_byte pl ts_abs) out
   else ret out) c
  = (inr (out ++ items_bytes (pool c) (payload_items R pl)),
     set_pool (items_pool (pool c) (payload_items R pl)) c).
Proof.
  intros Hv Hp. destruct pl as [b a|cs|o n|p s sd fee]; cbn [et_code et_name] in *.
  - (* book *)
    cbn [Z.eqb Pos.eqb]. unfold view_payload in Hv. cbn [String.eqb Ascii.eqb Bool.eqb] in Hv.
    destruct (view_array view_level
                (if dict_has "bids" d then dict_get "bids" d else dict_get "buys" d))
      as [b'|] eqn:Eb; [|discriminate].
    destruct (view_array view_level
                (if dict_has "asks" d then dict_get "asks" d else dict_get "sells" d))
      as [a'|] eqn:Ea; [|discriminate].
    injection Hv as -> ->.
    apply view_array_inv in Eb as (lb & Eb & Hb & _).
    apply view_array_inv in Ea as (la & Ea & Ha & _).
    unfold _encode_book.
    replace (if dict_has "bids" d then default (JArr []) (dict_get "bids" d)
             else default (JArr []) (dict_get "buys" d)) with (JArr lb)
      by (destruct (dict_has "bids" d); rewrite Eb; reflexivity).
    replace (if dict_has "asks" d then default (JArr []) (dict_get "asks" d)
             else default (JArr []) (dict_get "sells" d)) with (JArr la)
      by (destruct (dict_has "asks" d); rewrite Ea; reflexivity).
    rewrite (bind_inr _ _ _ _ _ (_encode_levels_ok lb b out c Hb Hp)).
    rewrite (_encode_levels_ok la a) by (try assumption; cbn; now apply items_pool_wf).
    cbn [payload_items pool set_pool items_bytes items_pool].
    rewrite !items_bytes_app, !items_pool_app. cbn [items_bytes items_pool].
    now rewrite <- !app_assoc.
  - (* price_change *)
    cbn [Z.eqb Pos.eqb]. unfold view_payload in Hv. cbn [String.eqb Ascii.eqb Bool.eqb] in Hv.
    destruct (view_array (view_change R) (dict_get "changes" d)) as [cs'|] eqn:Ec;
      [|discriminate].
    injection Hv as ->.
    apply view_array_inv in Ec as (lc & Ec & Hc & _).
    unfold _encode_price_change. cbn [py_get]. rewrite Ec.
    rewrite (bind_inr _ _ c c (JArr lc)) by reflexivity.
    replace (if py_truthy (JArr lc) then JArr lc else JArr []) with (JArr lc)
      by (destruct lc; reflexivity).
    cbn [py_list].
    rewrite (bind_inr _ _ c c lc) by reflexivity.
    rewrite (bind_inr _ _ c c (out ++ uvarint_bytes (Z.of_nat (length lc))))
      by (unfold lift; rewrite _uvarint_encode_ok by lia; reflexivity).
    rewrite (encode_changes_loop_ok lc cs) by assumption.
    rewrite (view_list_length _ _ _ Hc).
    cbn [payload_items items_bytes items_pool]. now rewrite <- app_assoc.
  - (* tick_size_change *)
    cbn [Z.eqb Pos.eqb]. unfold view_payload in Hv. cbn [String.eqb Ascii.eqb Bool.eqb] in Hv.
    destruct (view_str (dict_get "old_tick_size" d)) as [o'|] eqn:Eo; [|discriminate].
    destruct (view_str (dict_get "new_tick_size" d)) as [n'|] eqn:En; [|discriminate].
    injection Hv as -> ->.
    apply view_str_inv in Eo as [Eo _]. apply view_str_inv in En as [En _].
    unfold _encode_tick_size_change. cbn [py_get]. rewrite Eo, En.
    rewrite (bind_inr _ _ c c (JStr o)) by reflexivity. cbn [py_str].
    rewrite (bind_inr _ _ _ _ _ (on_pool_encode o out c Hp)).
    rewrite (bind_inr _ _ _ _ (JStr n)) by reflexivity. cbn [py_str].
    rewrite on_pool_encode by (cbn; now apply pool_after_wf).
    cbn [payload_items items_bytes items_pool pool set_pool].
    now rewrite app_nil_r, <- !app_assoc.
  - (* last_trade_price *)
    cbn [Z.eqb Pos.eqb]. unfold view_payload in Hv. cbn [String.eqb Ascii.eqb Bool.eqb] in Hv.
    destruct (view_str (dict_get "price" d)) as [p'|] eqn:Ep; [|discriminate].
    destruct (view_str (dict_get "size" d)) as [s'|] eqn:Es; [|discriminate].
    destruct (view_side R (dict_get "side" d)) as [sd'|] eqn:Ed; [|discriminate].
    apply view_str_inv in Ep as [Ep _]. apply view_str_inv in Es as [Es _].
    apply view_side_inv in Ed as (Ed & _ & _).
    assert (Hfee : match fee with
                   | Some f => dict_get "fee_rate_bps" d = Some (JStr f)
                   | None => True
                   end /\ p' = p /\ s' = s /\ sd' = sd).
    { destruct (dict_has "fee_rate_bps" d).
      - destruct (view_str (dict_get "fee_rate_bps" d)) as [f|] eqn:Ef; [|discriminate].
        apply view_str_inv in Ef as [Ef _]. injection Hv as -> -> -> <-. auto.
      - injection Hv as -> -> -> <-. auto. }
    destruct Hfee as (Hfee & -> & -> & ->). clear Hv.
    unfold _encode_last_trade_price. cbn [py_get]. rewrite Ep, Es, Ed.
    rewrite (bind_inr _ _ c c (JStr p)) by reflexivity. cbn [py_str].
    rewrite (bind_inr _ _ _ _ _ (on_pool_encode p out c Hp)).
    rewrite (bind_inr _ _ _ _ (JStr s)) by reflexivity. cbn [py_str].
    assert (Hp1 : pool_wf (pool (set_pool (pool_after (pool c) p) c)))
      by (cbn; now apply pool_after_wf).
    rewrite (bind_inr _ _ _ _ _ (on_pool_encode s _ _ Hp1)).
    rewrite (bind_inr _ _ _ _ (JStr sd)) by reflexivity. cbn [py_str].
    rewrite type_byte_opt0.
    destruct fee as [f|].
    + rewrite Hfee.
      rewrite (bind_inr _ _ _ _ (JStr f)) by reflexivity. cbn [py_str].
      rewrite on_pool_encode by (cbn; now do 2 apply pool_after_wf).
      cbn [payload_items app items_bytes items_pool pool set_pool].
      rewrite ?app_nil_r, <- ?app_assoc. reflexivity.
    + cbn [payload_items app items_bytes items_pool pool set_pool ret].
      rewrite ?app_nil_r, <- ?app_assoc. reflexivity.
Qed.

Lemma bind_get {St B : Type} (k : St -> M St B) (s : St) : bind get k s = k s s.
Proof. reflexivity. Qed.

Lemma bind_modify {St B : Type} (f : St -> St) (k : unit -> M St B) (s : St) :
  bind (modify f) k s = k tt (f s).
Proof. reflexivity. Qed.

Lemma view_payload_fee (et : string) (d : list (string * json))
    (p s sd : string) (fee : option string) :
  view_payload R et d = Some (LastTradePrice p s sd fee) ->
  dict_has "fee_rate_bps" d = match fee with Some _ => true | None => false end.
Proof.
  intros H. unfold view_payload, option_map in H.
  repeat case_match; simplify_eq; reflexivity.
Qed.

Lemma _encode_event_ok (ev : json) (e : event) (out : list byte)
    (c : FrameCompressorV3) (p : Z) :
  view_event R ev = Some e ->
  pool_wf (pool c) ->
  prev_ts c = Some p ->
  _encode_event R ev out c
  = (inr (out ++ items_bytes (pool c) (event_items R p e)),
     set_pool (items_pool (pool c) (event_items R p e))
       (set_prev_ts (Some (ev_timestamp e)) c)).
Proof.
  intros Hv Hp Hprev. unfold view_event in Hv.
  destruct ev as [| | | | | |d]; try discriminate.
  destruct (dict_get "event_type" d) as [[| | | |et| |]|] eqn:Eet; try discriminate.
  destruct (view_timestamp R (dict_get "timestamp" d)) as [t|] eqn:Et; [|discriminate].
  destruct (view_payload R et d) as [pl|] eqn:Epl; [|discriminate].
  injection Hv as <-. cbn [ev_timestamp ev_payload].
  pose proof (view_payload_inv _ _ _ Epl) as ->.
  apply view_timestamp_inv in Et as (s & Ets & Hint & Ht).
  unfold _encode_event. cbn [py_get]. rewrite Eet.
  rewrite (bind_inr _ _ c c (JStr (et_name pl))) by reflexivity.
  cbn [py_str]. rewrite _ET_CODE_name.
  cbn [_get_ts]. rewrite Ets. cbn [py_int]. rewrite Hint.
  rewrite (bind_inr _ _ c c (Some t)) by reflexivity.
  rewrite bind_get. rewrite Hprev.
  assert (Hfee : et_code pl = 3 ->
                 dict_has "fee_rate_bps" d
                 = match pl with LastTradePrice _ _ _ (Some _) => true | _ => false end).
  { destruct pl as [| | |? ? ? fee]; cbn; try discriminate. intros _.
    rewrite (view_payload_fee _ _ _ _ _ _ Epl). destruct fee; reflexivity. }
  unfold event_items. cbn [ev_timestamp ev_payload].
  destruct (Z.leb_spec p t) as [Hle|Hgt]; cbn [negb].
  - rewrite bind_modify. cbv zeta.
    rewrite (type_byte_encoder pl false _ Hfee).
    rewrite (bind_inr _ _ _ _ ((out ++ [byte_of_Z (type_byte pl false)])
                               ++ uvarint_bytes (t - p)))
      by (unfold lift; rewrite _uvarint_encode_ok by lia; reflexivity).
    rewrite (encode_payload_ok d pl false) by assumption.
    cbn [items_bytes items_pool pool set_pool set_prev_ts].
    rewrite <- !app_assoc. reflexivity.
  - rewrite bind_modify. cbv zeta.
    rewrite (type_byte_encoder pl true _ Hfee).
    rewrite (bind_inr _ _ _ _ ((out ++ [byte_of_Z (type_byte pl true)])
                               ++ uvarint_bytes t))
      by (unfold lift; rewrite _uvarint_encode_ok by lia; reflexivity).
    rewrite (encode_payload_ok d pl true) by assumption.
    cbn [items_bytes items_pool pool set_pool set_prev_ts].
    rewrite <- !app_assoc. reflexivity.
Qed.

Lemma set_prev_ts_eta (c : FrameCompressorV3) (p : Z) :
  prev_ts c = Some p -> set_pool (pool c) (set_prev_ts (Some p) c) = c.
Proof. destruct c; cbn. now intros ->. Qed.

Lemma encode_events_loop_ok (evs : list json) :
  forall (es : list event) (out : list byte) (c : FrameCompressorV3) (p : Z),
    view_list (view_event R) evs = Some es ->
    pool_wf (pool c) ->
    prev_ts c = Some p ->
    encode_events_loop R evs out c
    = (inr (out ++ items_bytes (pool c) (events_items R p es)),
       set_pool (items_pool (pool c) (events_items R p es))
         (set_prev_ts (Some (last_timestamp p es)) c)).
Proof.
  induction evs as [|ev evs IH]; intros es out c p Hv Hp Hprev.
  - cbn in Hv. injection Hv as <-. cbn.
    now rewrite app_nil_r, set_prev_ts_eta.
  - cbn [view_list] in Hv.
    destruct (view_event R ev) as [e|] eqn:Ee; [|discriminate].
    destruct (view_list (view_event R) evs) as [es'|] eqn:Er; [|discriminate].
    injection Hv as <-.
    cbn [encode_events_loop].
    rewrite (bind_inr _ _ _ _ _ (_encode_event_ok ev e out c p Ee Hp Hprev)).
    rewrite (IH es' _ _ (ev_timestamp e)); [|reflexivity| |reflexivity].
    + cbn [events_items last_timestamp fold_left pool set_pool set_prev_ts prev_ts].
      rewrite items_bytes_app, items_pool_app, <- app_assoc. reflexivity.
    + cbn. now apply items_pool_wf.
Qed.

End Encoder.

(** ** Decoding what the compressor wrote *)

Ltac buf_eq := subst; rewrite <- ?app_assoc; cbn [app]; rewrite <- ?app_assoc; reflexivity.
Ltac idx_eq := subst; rewrite ?length_app; cbn [length]; lia.

Lemma buf_at_middle (buf pre post : list byte) (b : byte) (i : nat) :
  buf = pre ++ b :: post -> i = length pre -> buf_at buf i = inr (byte_to_Z b).
Proof. intros -> ->. unfold buf_at. now rewrite list_lookup_middle. Qed.

Lemma uvarint_decode_at (n : Z) (buf pre post : list byte) (i : nat) :
  0 <= n < 2 ^ 77 ->
  buf = pre ++ uvarint_bytes n ++ post -> i = length pre ->
  _uvarint_decode buf i = inr (n, (i + length (uvarint_bytes n))%nat).
Proof. intros Hn -> ->. now apply _uvarint_decode_bytes. Qed.

Lemma on_st_pool_decode (s : string) (buf pre post : list byte) (i : nat) (d : _V3State) :
  pool_wf (st_pool d) -> wf_str s = true ->
  _next (pool_after (st_pool d) s) <= 2 ^ 76 ->
  buf = pre ++ pool_elem (st_pool d) s ++ post -> i = length pre ->
  on_st_pool (_StringPool_decode buf i) d
  = (inr (s, (i + length (pool_elem (st_pool d) s))%nat),
     set_st_pool (pool_after (st_pool d) s) d).
Proof.
  intros Hp Hs Hb -> ->. unfold on_st_pool. now rewrite pool_decode_ok.
Qed.

Lemma dec_levels_loop_ok (post : list byte) (ls : list (string * string)) :
  forall (buf pre : list byte) (i : nat) (acc : list json) (d : _V3State),
    Forall level_wf ls ->
    pool_wf (st_pool d) ->
    _next (items_pool (st_pool d) (levels_items ls)) <= 2 ^ 76 ->
    buf = pre ++ items_bytes (st_pool d) (levels_items ls) ++ post ->
    i = length pre ->
    dec_levels_loop (length ls) buf i acc d
    = (inr (acc ++ map norm_level ls,
            (i + length (items_bytes (st_pool d) (levels_items ls)))%nat),
       set_st_pool (items_pool (st_pool d) (levels_items ls)) d).
Proof.
  induction ls as [|[pr sz] ls IH]; intros buf pre i acc d Hwf Hp Hb Hbuf Hi.
  - cbn. now rewrite app_nil_r, Nat.add_0_r, set_st_pool_eta.
  - apply Forall_cons in Hwf as [[Hpr Hsz] Hwf]. cbn [fst snd] in Hpr, Hsz.
    cbn [levels_items flat_map app items_bytes items_pool fst snd] in *.
    fold (levels_items ls) in *.
    set (p := st_pool d) in *. set (p1 := pool_after p pr) in *.
    set (p2 := pool_after p1 sz) in *.
    pose proof (items_pool_next (levels_items ls) p2) as Hn2.
    pose proof (pool_after_next p1 sz) as Hn1. fold p2 in Hn1.
    cbn [length dec_levels_loop].
    rewrite (bind_inr _ _ _ _ _
               (on_st_pool_decode pr buf pre
                  (pool_elem p1 sz ++ items_bytes p2 (levels_items ls) ++ post)
                  i d Hp Hpr ltac:(fold p p1; lia) ltac:(fold p; buf_eq) Hi)).
    cbv beta iota. fold p p1.
    assert (Hp1 : pool_wf (st_pool (set_st_pool p1 d)))
      by (cbn; now apply pool_after_wf).
    rewrite (bind_inr _ _ _ _ _
               (on_st_pool_decode sz buf (pre ++ pool_elem p pr)
                  (items_bytes p2 (levels_items ls) ++ post)
                  (i + length (pool_elem p pr))%nat
                  (set_st_pool p1 d) Hp1 Hsz ltac:(cbn; fold p2; lia)
                  ltac:(cbn; buf_eq) ltac:(idx_eq))).
    cbv beta iota. cbn [st_pool set_st_pool]. fold p2.
    rewrite (IH buf ((pre ++ pool_elem p pr) ++ pool_elem p1 sz));
      [|assumption|cbn; now do 2 apply pool_after_wf|cbn; assumption
       |cbn; buf_eq|idx_eq].
    cbn [st_pool set_st_pool map norm_level fst snd].
    rewrite <- !app_assoc, !length_app. cbn [app].
    do 3 f_equal. lia.
Qed.

Lemma _dec_levels_ok (post : list byte) (ls : list (string * string))
    (buf pre : list byte) (i : nat) (d : _V3State) :
  Forall level_wf ls -> Z.of_nat (length ls) < 2 ^ 63 ->
  pool_wf (st_pool d) ->
  _next (items_pool (st_pool d) (levels_items ls)) <= 2 ^ 76 ->
  buf = pre ++ items_bytes (st_pool d)
                 (IRaw (uvarint_bytes (Z.of_nat (length ls))) :: levels_items ls)
            ++ post ->
  i = length pre ->
  _dec_levels buf i d
  = (inr (map norm_level ls,
          (i + length (items_bytes (st_pool d)
                         (IRaw (uvarint_bytes (Z.of_nat (length ls)))
                          :: levels_items ls)))%nat),
     set_st_pool (items_pool (st_pool d) (levels_items ls)) d).
Proof.
  intros Hwf Hlen Hp Hb Hbuf Hi. unfold _dec_levels. cbn [items_bytes] in *.
  rewrite (bind_inr _ _ d d
             (Z.of_nat (length ls), (i + length (uvarint_bytes (Z.of_nat (length ls))))%nat)).
  2:{ unfold lift. f_equal.
      apply (uvarint_decode_at _ buf pre
               (items_bytes (st_pool d) (levels_items ls) ++ post)); [lia|buf_eq|assumption]. }
  cbv beta iota. rewrite Nat2Z.id.
  rewrite (dec_levels_loop_ok post ls buf
             (pre ++ uvarint_bytes (Z.of_nat (length ls)))); try assumption;
    [|buf_eq|idx_eq].
  cbn [app]. rewrite !length_app. do 3 f_equal. lia.
Qed.

Section Decoder.

Context (R : PyRuntime).

Lemma side_name_byte (sd : string) :
  side_ok R sd -> side_name (byte_to_Z (side_byte (str_upper R sd))) = str_upper R sd.
Proof. intros [H|H]; rewrite H; reflexivity. Qed.

Lemma dec_changes_loop_ok (post : list byte) (cs : list (string * (string * string))) :
  forall (buf pre : list byte) (i : nat) (acc : list json) (d : _V3State),
    Forall (change_wf R) cs ->
    pool_wf (st_pool d) ->
    _next (items_pool (st_pool d) (changes_items R cs)) <= 2 ^ 76 ->
    buf = pre ++ items_bytes (st_pool d) (changes_items R cs) ++ post ->
    i = length pre ->
    dec_changes_loop (length cs) buf i acc d
    = (inr (acc ++ map (norm_change R) cs,
            (i + length (items_bytes (st_pool d) (changes_items R cs)))%nat),
       set_st_pool (items_pool (st_pool d) (changes_items R cs)) d).
Proof.
  induction cs as [|[sd [pr sz]] cs IH]; intros buf pre i acc d Hwf Hp Hb Hbuf Hi.
  - cbn. now rewrite app_nil_r, Nat.add_0_r, set_st_pool_eta.
  - apply Forall_cons in Hwf as [(Hsd & Hpr & Hsz) Hwf]. cbn [fst snd] in Hsd, Hpr, Hsz.
    cbn [changes_items flat_map app items_bytes items_pool fst snd] in *.
    fold (changes_items R cs) in *.
    set (p := st_pool d) in *. set (p1 := pool_after p pr) in *.
    set (p2 := pool_after p1 sz) in *.
    set (sb := side_byte (str_upper R sd)) in *.
    pose proof (items_pool_next (changes_items R cs) p2) as Hn2.
    pose proof (pool_after_next p1 sz) as Hn1. fold p2 in Hn1.
    cbn [length dec_changes_loop].
    rewrite (bind_inr _ _ d d (byte_to_Z sb)).
    2:{ unfold lift. f_equal.
        apply (buf_at_middle buf pre
                 (pool_elem p pr ++ pool_elem p1 sz
                  ++ items_bytes p2 (changes_items R cs) ++ post));
          [buf_eq|assumption]. }
    subst sb. rewrite side_name_byte by assumption.
    rewrite (bind_inr _ _ _ _ _
               (on_st_pool_decode pr buf (pre ++ [side_byte (str_upper R sd)])
                  (pool_elem p1 sz ++ items_bytes p2 (changes_items R cs) ++ post)
                  (S i) d Hp Hpr ltac:(fold p p1; lia) ltac:(fold p; buf_eq)
                  ltac:(idx_eq))).
    cbv beta iota. fold p p1.
    assert (Hp1 : pool_wf (st_pool (set_st_pool p1 d)))
      by (cbn; now apply pool_after_wf).
    rewrite (bind_inr _ _ _ _ _
               (on_st_pool_decode sz buf
                  ((pre ++ [side_byte (str_upper R sd)]) ++ pool_elem p pr)
                  (items_bytes p2 (changes_items R cs) ++ post)
                  (S i + length (pool_elem p pr))%nat
                  (set_st_pool p1 d) Hp1 Hsz ltac:(cbn; fold p2; lia)
                  ltac:(cbn; buf_eq) ltac:(idx_eq))).
    cbv beta iota. cbn [st_pool set_st_pool]. fold p2.
    rewrite (IH buf (((pre ++ [side_byte (str_upper R sd)]) ++ pool_elem p pr)
                     ++ pool_elem p1 sz));
      [|assumption|cbn; now do 2 apply pool_after_wf|cbn; assumption
       |cbn; buf_eq|idx_eq].
    cbn [st_pool set_st_pool map norm_change fst snd].
    rewrite <- !app_assoc, !length_app. cbn [app length].
    do 3 f_equal. lia.
Qed.

Lemma _ET_FROM_code (pl : payload) : _ET_FROM (et_code pl) = Some (et_name pl).
Proof. destruct pl; reflexivity. Qed.

Lemma decoded_ts_decoder (q : option Z) (prev t : Z) :
  match q with
  | Some p =>
      if negb (prev <=? t) then (if negb (prev <=? t) then t else t - prev)
      else p + (if negb (prev <=? t) then t else t - prev)
  | None => if negb (prev <=? t) then t else t - prev
  end = decoded_ts q prev t.
Proof. reflexivity. Qed.

End Decoder.

Section DecoderEvent.

Context (R : PyRuntime).

Lemma _decode_event_ok (post : list byte) (e : event) (prev : Z)
    (buf pre : list byte) (i : nat) (d : _V3State) :
  event_wf R e -> 0 <= prev ->
  pool_wf (st_pool d) ->
  _next (items_pool (st_pool d) (event_items R prev e)) <= 2 ^ 76 ->
  buf = pre ++ items_bytes (st_pool d) (event_items R prev e) ++ post ->
  i = length pre ->
  _decode_event buf i d
  = (inr (normalise R (stamp d)
            {| ev_timestamp := decoded_ts (st_prev_ts d) prev (ev_timestamp e);
               ev_payload := ev_payload e |},
          (i + length (items_bytes (st_pool d) (event_items R prev e)))%nat),
     set_st_pool (items_pool (st_pool d) (event_items R prev e))
       (set_st_prev_ts (Some (decoded_ts (st_prev_ts d) prev (ev_timestamp e))) d)).
Proof.
  destruct e as [t pl]. intros [Ht Hpl] Hprev Hp Hb Hbuf Hi.
  cbn [ev_timestamp ev_payload] in *.
  unfold event_items in *. cbn [ev_timestamp ev_payload items_bytes items_pool] in *.
  set (ts_abs := negb (prev <=? t)) in *.
  set (tsv := if ts_abs then t else t - prev) in *.
  set (tb := type_byte pl ts_abs) in *.
  set (p := st_pool d) in *.
  destruct (type_byte_decoder pl ts_abs) as (Hcode & Habs & Htb). fold tb in Hcode, Habs, Htb.
  assert (Htsv : 0 <= tsv < 2 ^ 77).
  { subst tsv ts_abs. destruct (Z.leb_spec prev t); cbn [negb]; lia. }
  unfold _decode_event.
  rewrite (bind_inr _ _ d d tb).
  2:{ unfold lift. f_equal. rewrite <- (byte_to_of_Z tb Htb).
      apply (buf_at_middle buf pre
               (uvarint_bytes tsv ++ items_bytes p (payload_items R pl) ++ post));
        [buf_eq|assumption]. }
  cbv zeta. rewrite Hcode, Habs, _ET_FROM_code.
  rewrite (bind_inr _ _ d d (tsv, (S i + length (uvarint_bytes tsv))%nat)).
  2:{ unfold lift. f_equal.
      apply (uvarint_decode_at _ buf (pre ++ [byte_of_Z tb])
               (items_bytes p (payload_items R pl) ++ post)); [lia|buf_eq|idx_eq]. }
  cbv beta iota. rewrite bind_get, bind_modify.
  set (dts := match st_prev_ts d with
              | Some p0 => if ts_abs then tsv else p0 + tsv
              | None => tsv
              end).
  change (decoded_ts (st_prev_ts d) prev t) with dts.
  set (d1 := set_st_prev_ts (Some dts) d).
  assert (Hp1 : pool_wf (st_pool d1)) by exact Hp.
  set (pre1 := pre ++ [byte_of_Z tb] ++ uvarint_bytes tsv).
  assert (Hi1 : (S i + length (uvarint_bytes tsv))%nat = length pre1)
    by (subst pre1; idx_eq).
  rewrite Hi1. unfold normalise. cbn [ev_timestamp ev_payload].
  destruct pl as [b a|cs|o n|pr sz sd fee]; cbn [et_name String.eqb Ascii.eqb Bool.eqb].
  - (* book *)
    destruct Hpl as [[Hwb Hlb] [Hwa Hla]].
    cbn [payload_items] in *.
    change (IRaw (uvarint_bytes (Z.of_nat (length b)))
            :: levels_items b ++ IRaw (uvarint_bytes (Z.of_nat (length a))) :: levels_items a)
      with ((IRaw (uvarint_bytes (Z.of_nat (length b))) :: levels_items b)
            ++ (IRaw (uvarint_bytes (Z.of_nat (length a))) :: levels_items a)) in *.
    rewrite items_bytes_app in Hbuf. rewrite items_pool_app in Hb.
    rewrite items_bytes_app, items_pool_app.
    cbn [items_pool] in *.
    set (pb := items_pool p (levels_items b)) in *.
    pose proof (items_pool_next (levels_items a) pb) as Hnb.
    rewrite (bind_inr _ _ _ _ _
               (_dec_levels_ok
                  (items_bytes pb (IRaw (uvarint_bytes (Z.of_nat (length a))) :: levels_items a)
                   ++ post)
                  b buf pre1 _ d1 Hwb Hlb Hp1 ltac:(cbn; fold p pb; lia)
                  ltac:(subst pre1; cbn -[items_bytes]; fold p; buf_eq) eq_refl)).
    cbv beta iota. cbn [st_pool set_st_prev_ts d1]. fold p pb.
    rewrite (bind_inr _ _ _ _ _
               (_dec_levels_ok post a buf
                  (pre1 ++ items_bytes p
                             (IRaw (uvarint_bytes (Z.of_nat (length b))) :: levels_items b))
                  (length pre1
                   + length (items_bytes p
                               (IRaw (uvarint_bytes (Z.of_nat (length b)))
                                :: levels_items b)))%nat
                  (set_st_pool pb d1) Hwa Hla
                  ltac:(cbn; now apply items_pool_wf) ltac:(cbn; fold pb; lia)
                  ltac:(subst pre1; cbn -[items_bytes]; buf_eq)
                  ltac:(rewrite length_app; lia))).
    cbv beta iota. cbn [st_pool set_st_pool set_st_prev_ts d1 norm_payload].
    fold pb. unfold ret.
    f_equal. f_equal. f_equal. subst pre1 i. repeat (rewrite ?length_app; cbn [length]). lia.
  - (* price_change *)
    destruct Hpl as [Hwc Hlc].
    cbn [payload_items items_bytes items_pool] in *.
    rewrite (bind_inr _ _ d1 d1
               (Z.of_nat (length cs),
                (length pre1 + length (uvarint_bytes (Z.of_nat (length cs))))%nat)).
    2:{ unfold lift. f_equal.
        apply (uvarint_decode_at _ buf pre1
                 (items_bytes p (changes_items R cs) ++ post));
          [lia|subst pre1; buf_eq|reflexivity]. }
    cbv beta iota. rewrite Nat2Z.id.
    rewrite (bind_inr _ _ _ _ _
               (dec_changes_loop_ok R post cs buf
                  (pre1 ++ uvarint_bytes (Z.of_nat (length cs)))
                  (length pre1 + length (uvarint_bytes (Z.of_nat (length cs))))%nat
                  [] d1 Hwc Hp1 ltac:(cbn; fold p; lia)
                  ltac:(subst pre1; cbn -[items_bytes]; fold p; buf_eq)
                  ltac:(rewrite length_app; lia))).
    cbv beta iota. cbn [st_pool set_st_pool set_st_prev_ts d1 norm_payload app].
    fold p. unfold ret.
    f_equal. f_equal. f_equal. subst pre1 i. repeat (rewrite ?length_app; cbn [length]). lia.
  - (* tick_size_change *)
    destruct Hpl as [Hwo Hwn].
    cbn [payload_items items_bytes items_pool] in *.
    set (p1 := pool_after p o) in *. set (p2 := pool_after p1 n) in *.
    pose proof (pool_after_next p1 n) as Hn1. fold p2 in Hn1.
    rewrite (bind_inr _ _ _ _ _
               (on_st_pool_decode o buf pre1 (pool_elem p1 n ++ post)
                  _ d1 Hp1 Hwo ltac:(cbn; fold p p1; lia)
                  ltac:(subst pre1; cbn -[pool_elem]; fold p p1;
                        rewrite ?app_nil_r; buf_eq) eq_refl)).
    cbv beta iota. cbn [st_pool set_st_prev_ts d1]. fold p p1.
    rewrite (bind_inr _ _ _ _ _
               (on_st_pool_decode n buf (pre1 ++ pool_elem p o) post
                  (length pre1 + length (pool_elem p o))%nat
                  (set_st_pool p1 d1)
                  ltac:(cbn; now apply pool_after_wf) Hwn ltac:(cbn; fold p2; lia)
                  ltac:(subst pre1; cbn -[pool_elem]; fold p1;
                        rewrite ?app_nil_r; buf_eq)
                  ltac:(rewrite length_app; lia))).
    cbv beta iota. cbn [st_pool set_st_pool set_st_prev_ts d1 norm_payload app].
    fold p1 p2. unfold ret.
    f_equal. f_equal. f_equal. subst pre1 i. repeat (rewrite ?length_app; cbn [length]). lia.
  - (* last_trade_price *)
    destruct Hpl as (Hwp & Hws & Hsd & Hwf).
    unfold tb at 1. rewrite type_byte_opt0.
    cbn [payload_items app items_bytes items_pool norm_payload] in *.
    set (p1 := pool_after p pr) in *. set (p2 := pool_after p1 sz) in *.
    set (sb := side_byte (str_upper R sd)) in *.
    set (fi := match fee with Some f => [IStr f] | None => [] end) in *.
    pose proof (items_pool_next fi p2) as Hn2.
    pose proof (pool_after_next p1 sz) as Hn1. fold p2 in Hn1.
    rewrite (bind_inr _ _ _ _ _
               (on_st_pool_decode pr buf pre1
                  (pool_elem p1 sz ++ sb :: items_bytes p2 fi ++ post)
                  _ d1 Hp1 Hwp ltac:(cbn; fold p p1; lia)
                  ltac:(subst pre1; cbn -[pool_elem items_bytes]; fold p p1; buf_eq)
                  eq_refl)).
    cbv beta iota. cbn [st_pool set_st_prev_ts d1]. fold p p1.
    rewrite (bind_inr _ _ _ _ _
               (on_st_pool_decode sz buf (pre1 ++ pool_elem p pr)
                  (sb :: items_bytes p2 fi ++ post)
                  (length pre1 + length (pool_elem p pr))%nat
                  (set_st_pool p1 d1)
                  ltac:(cbn; now apply pool_after_wf) Hws ltac:(cbn; fold p2; lia)
                  ltac:(subst pre1; cbn -[pool_elem items_bytes]; fold p1; buf_eq)
                  ltac:(rewrite length_app; lia))).
    cbv beta iota. cbn [st_pool set_st_pool set_st_prev_ts d1]. fold p1 p2.
    rewrite (bind_inr _ _ (set_st_pool p2 d1) (set_st_pool p2 d1) (byte_to_Z sb)).
    2:{ unfold lift. f_equal.
        apply (buf_at_middle buf ((pre1 ++ pool_elem p pr) ++ pool_elem p1 sz)
                 (items_bytes p2 fi ++ post));
          [subst pre1; buf_eq|rewrite !length_app; lia]. }
    subst sb. rewrite side_name_byte by assumption.
    destruct fee as [f|]; subst fi; cbn [items_bytes items_pool app] in *.
    + set (p3 := pool_after p2 f) in *.
      rewrite (bind_inr _ _ _ _ _
                 (on_st_pool_decode f buf
                    (((pre1 ++ pool_elem p pr) ++ pool_elem p1 sz)
                     ++ [side_byte (str_upper R sd)])
                    post
                    (S (length pre1 + length (pool_elem p pr) + length (pool_elem p1 sz)))
                    (set_st_pool p2 d1)
                    ltac:(cbn; now do 2 apply pool_after_wf) Hwf
                    ltac:(cbn; fold p3; lia)
                    ltac:(subst pre1; cbn -[pool_elem items_bytes]; fold p3;
                          rewrite ?app_nil_r; buf_eq)
                    ltac:(rewrite !length_app; cbn [length]; lia))).
      cbv beta iota. cbn [st_pool set_st_pool set_st_prev_ts d1]. fold p3.
      unfold ret. apply f_equal2; [apply f_equal; apply f_equal2; [reflexivity|]|reflexivity].
      subst pre1 i. repeat (rewrite ?length_app; cbn [length]). lia.
    + unfold ret. apply f_equal2; [apply f_equal; apply f_equal2; [reflexivity|]|reflexivity].
      subst pre1 i. repeat (rewrite ?length_app; cbn [length]). lia.
Qed.

End DecoderEvent.

Section Frames.

Context (R : PyRuntime).

Lemma st_eta (d : _V3State) :
  set_st_pool (st_pool d) (set_st_prev_ts (st_prev_ts d) d) = d.
Proof. destruct d; reflexivity. Qed.

Lemma decode_events_loop_ok (post : list byte) (es : list event) :
  forall (prev : Z) (buf pre : list byte) (i : nat) (acc : list json) (d : _V3State),
    Forall (event_wf R) es -> 0 <= prev ->
    pool_wf (st_pool d) ->
    _next (items_pool (st_pool d) (events_items R prev es)) <= 2 ^ 76 ->
    buf = pre ++ items_bytes (st_pool d) (events_items R prev es) ++ post ->
    i = length pre ->
    decode_events_loop (length es) buf i acc d
    = (inr (acc ++ map (normalise R (stamp d)) (decoded_events (st_prev_ts d) prev es),
            (i + length (items_bytes (st_pool d) (events_items R prev es)))%nat),
       set_st_pool (items_pool (st_pool d) (events_items R prev es))
         (set_st_prev_ts (decoded_prev (st_prev_ts d) prev es) d)).
Proof.
  induction es as [|e es IH]; intros prev buf pre i acc d Hwf Hprev Hp Hb Hbuf Hi.
  - cbn. now rewrite app_nil_r, Nat.add_0_r, st_eta.
  - apply Forall_cons in Hwf as [He Hwf].
    cbn [events_items] in *. rewrite items_bytes_app in Hbuf. rewrite items_pool_app in Hb.
    rewrite items_bytes_app, items_pool_app.
    set (p := st_pool d) in *.
    set (p1 := items_pool p (event_items R prev e)) in *.
    pose proof (items_pool_next (events_items R (ev_timestamp e) es) p1) as Hn.
    cbn [length decode_events_loop].
    rewrite (bind_inr _ _ _ _ _
               (_decode_event_ok R
                  (items_bytes p1 (events_items R (ev_timestamp e) es) ++ post)
                  e prev buf pre i d He Hprev Hp ltac:(fold p p1; lia)
                  ltac:(fold p; buf_eq) Hi)).
    cbv beta iota. fold p p1.
    set (dts := decoded_ts (st_prev_ts d) prev (ev_timestamp e)).
    destruct He as [Ht _].
    rewrite (IH (ev_timestamp e) buf (pre ++ items_bytes p (event_items R prev e)));
      [|assumption|lia
       |cbn [st_pool set_st_pool set_st_prev_ts]; now apply items_pool_wf
       |cbn [st_pool set_st_pool set_st_prev_ts]; exact Hb
       |cbn [st_pool set_st_pool set_st_prev_ts]; buf_eq|idx_eq].
    cbn [st_pool st_prev_ts set_st_pool set_st_prev_ts stamp st_asset_ids
         decoded_events decoded_prev map].
    fold dts p1. unfold stamp at 2. cbn [st_asset_ids set_st_pool set_st_prev_ts].
    fold (stamp d).
    apply f_equal2; [apply f_equal; apply f_equal2|reflexivity].
    + now rewrite <- app_assoc.
    + rewrite length_app. lia.
Qed.

Lemma frame_record_ok (evs : list json) (es : list event) (c : FrameCompressorV3) (p : Z) :
  view_list (view_event R) evs = Some es ->
  pool_wf (pool c) ->
  prev_ts c = Some p ->
  frame_record R evs c
  = (inr (frame_bytes R (pool c) p es),
     set_pool (items_pool (pool c) (events_items R p es))
       (set_prev_ts (Some (last_timestamp p es)) c)).
Proof.
  intros Hv Hp Hprev. unfold frame_record, frame_bytes.
  rewrite (bind_inr _ _ c c ([byte_of_Z _REC_FRAME] ++ uvarint_bytes (Z.of_nat (length evs))))
    by (unfold lift; rewrite _uvarint_encode_ok by lia; reflexivity).
  rewrite (encode_events_loop_ok R evs es _ c p Hv Hp Hprev).
  rewrite (view_list_length _ _ _ Hv), <- app_assoc. reflexivity.
Qed.

Lemma decode_frame_events_ok (es : list event) (prev : Z) (d : _V3State) (post : list byte) :
  Forall (event_wf R) es -> Z.of_nat (length es) < 2 ^ 63 -> 0 <= prev ->
  pool_wf (st_pool d) ->
  _next (items_pool (st_pool d) (events_items R prev es)) <= 2 ^ 76 ->
  decode_frame_events (frame_bytes R (st_pool d) prev es ++ post) 1 d
  = (inr (map (normalise R (stamp d)) (decoded_events (st_prev_ts d) prev es),
          length (frame_bytes R (st_pool d) prev es)),
     set_st_pool (items_pool (st_pool d) (events_items R prev es))
       (set_st_prev_ts (decoded_prev (st_prev_ts d) prev es) d)).
Proof.
  intros Hwf Hlen Hprev Hp Hb. unfold decode_frame_events, frame_bytes.
  set (buf := ([byte_of_Z _REC_FRAME] ++ uvarint_bytes (Z.of_nat (length es))
               ++ items_bytes (st_pool d) (events_items R prev es)) ++ post).
  rewrite (bind_inr _ _ d d
             (Z.of_nat (length es), (1 + length (uvarint_bytes (Z.of_nat (length es))))%nat)).
  2:{ unfold lift. f_equal.
      apply (uvarint_decode_at _ buf [byte_of_Z _REC_FRAME]
               (items_bytes (st_pool d) (events_items R prev es) ++ post));
        [lia|subst buf; buf_eq|reflexivity]. }
  cbv beta iota. rewrite Nat2Z.id.
  rewrite (decode_events_loop_ok post es prev buf
             ([byte_of_Z _REC_FRAME] ++ uvarint_bytes (Z.of_nat (length es))));
    try assumption; [|subst buf; buf_eq|idx_eq].
  cbn [app]. apply f_equal2; [apply f_equal; apply f_equal2; [reflexivity|]|reflexivity].
  repeat (rewrite ?length_app; cbn [length]). lia.
Qed.

End Frames.

Section Session.

Context (R : PyRuntime).

Lemma uvarint_decode_lift {St : Type} (n : Z) (buf pre post : list byte) (i j : nat)
    (d : St) :
  0 <= n < 2 ^ 77 ->
  buf = pre ++ uvarint_bytes n ++ post -> i = length pre ->
  j = length (pre ++ uvarint_bytes n) ->
  lift (_uvarint_decode buf i) d = (inr (n, j), d).
Proof.
  intros Hn Hbuf Hi ->. unfold lift.
  rewrite (uvarint_decode_at n buf pre post i Hn Hbuf Hi), length_app.
  now subst i.
Qed.

Lemma _ensure_header_done (ts : option Z) (c : FrameCompressorV3) :
  wrote_header c = true -> _ensure_header R ts c = (inr None, c).
Proof. intros H. unfold _ensure_header. now rewrite H. Qed.

Lemma _ensure_header_new (ts : option Z) (c : FrameCompressorV3) :
  wrote_header c = false ->
  0 <= match ts with Some t => t | None => 0 end ->
  _ensure_header R ts c
  = (inr (Some (_deflate_raw_b64 R
                  (header_bytes (asset_id c) match ts with Some t => t | None => 0 end))),
     header_written (asset_id c) match ts with Some t => t | None => 0 end).
Proof.
  intros H Hb. unfold _ensure_header. rewrite H.
  set (base := match ts with Some t => t | None => 0 end) in *.
  cbn [asset_id pool base_ts prev_ts wrote_header].
  unfold bind, lift, ret, header_bytes, header_written, _H_SINGLE_ASSET.
  change (Z.shiftl 1 0) with 1.
  rewrite (_uvarint_encode_ok 3) by lia.
  rewrite (_uvarint_encode_ok 1) by lia.
  rewrite (_uvarint_encode_ok base) by lia.
  rewrite (_uvarint_encode_ok 1) by lia.
  rewrite _uvarint_encode_ok by lia.
  rewrite <- !app_assoc. reflexivity.
Qed.

Lemma _decode_header_ok (aid : string) (base : Z) (post : list byte) (d : _V3State) :
  wf_str aid = true -> 0 <= base < 2 ^ 77 ->
  _decode_header (header_bytes aid base ++ post) 1 d
  = (inr (length (header_bytes aid base)), header_state aid base).
Proof.
  intros Haid Hbase. unfold _decode_header, header_bytes.
  pose proof (wf_str_length aid Haid) as Hlen.
  set (la := Z.of_nat (length (utf8_encode aid))) in *.
  set (buf := ([byte_of_Z _REC_HEADER] ++ uvarint_bytes 3 ++ uvarint_bytes _H_SINGLE_ASSET
               ++ uvarint_bytes base ++ uvarint_bytes 1 ++ uvarint_bytes la
               ++ utf8_encode aid) ++ post).
  set (pre0 := [byte_of_Z _REC_HEADER]).
  set (pre1 := pre0 ++ uvarint_bytes 3).
  set (pre2 := pre1 ++ uvarint_bytes _H_SINGLE_ASSET).
  set (pre3 := pre2 ++ uvarint_bytes base).
  set (pre4 := pre3 ++ uvarint_bytes 1).
  set (pre5 := pre4 ++ uvarint_bytes la).
  rewrite (bind_inr _ _ d d (3, length pre1))
    by (apply (uvarint_decode_lift 3 buf pre0
                 (uvarint_bytes _H_SINGLE_ASSET ++ uvarint_bytes base ++ uvarint_bytes 1
                  ++ uvarint_bytes la ++ utf8_encode aid ++ post));
        [lia|subst buf pre0; buf_eq|reflexivity|reflexivity]).
  cbv beta iota. cbn [Z.eqb Pos.eqb negb].
  rewrite (bind_inr _ _ d d (_H_SINGLE_ASSET, length pre2))
    by (apply (uvarint_decode_lift _H_SINGLE_ASSET buf pre1
                 (uvarint_bytes base ++ uvarint_bytes 1
                  ++ uvarint_bytes la ++ utf8_encode aid ++ post));
        [unfold _H_SINGLE_ASSET; change (Z.shiftl 1 0) with 1; lia
        |subst buf pre1 pre0; buf_eq|reflexivity|reflexivity]).
  cbv beta iota.
  rewrite (bind_inr _ _ d d (base, length pre3))
    by (apply (uvarint_decode_lift base buf pre2
                 (uvarint_bytes 1 ++ uvarint_bytes la ++ utf8_encode aid ++ post));
        [lia|subst buf pre2 pre1 pre0; buf_eq|reflexivity|reflexivity]).
  cbv beta iota. rewrite bind_modify.
  match goal with
  | |- bind _ _ ?st = _ => set (d1 := st)
  end.
  rewrite (bind_inr _ _ d1 d1 (1, length pre4))
    by (apply (uvarint_decode_lift 1 buf pre3
                 (uvarint_bytes la ++ utf8_encode aid ++ post));
        [lia|subst buf pre3 pre2 pre1 pre0; buf_eq|reflexivity|reflexivity]).
  cbv beta iota. rewrite bind_modify.
  change (Z.to_nat 1) with 1%nat. cbn [decode_assets_loop].
  match goal with
  | |- bind (bind _ _) _ ?st = _ => set (d2 := st)
  end.
  assert (Hbuf : buf = pre5 ++ utf8_encode aid ++ post)
    by (subst buf pre5 pre4 pre3 pre2 pre1 pre0; buf_eq).
  match goal with
  | |- bind ?m _ d2 = _ =>
      assert (Hin : m d2 = (inr (length pre5 + length (utf8_encode aid))%nat,
                            set_st_asset_ids [aid] d2))
  end.
  { rewrite (bind_inr _ _ d2 d2 (la, length pre5))
      by (apply (uvarint_decode_lift la buf pre4 (utf8_encode aid ++ post));
          [subst la; lia|subst buf pre4 pre3 pre2 pre1 pre0; buf_eq
          |reflexivity|reflexivity]).
    cbv beta iota.
    destruct (Z.ltb_spec (Z.of_nat (length buf)) (Z.of_nat (length pre5) + la)) as [Hlt|_].
    { rewrite Hbuf, !length_app in Hlt. subst la. lia. }
    replace (drop (length pre5) buf) with (utf8_encode aid ++ post)
      by (rewrite Hbuf, drop_app_length; reflexivity).
    subst la. rewrite Nat2Z.id, take_app_length, utf8_decode_encode by assumption.
    rewrite bind_modify. reflexivity. }
  rewrite (bind_inr _ _ _ _ _ Hin). rewrite bind_modify.
  unfold ret, header_state. subst d2 d1. cbn [set_st_asset_ids st_pool st_base_ts
    st_prev_ts st_asset_ids st_flags st_have_header].
  apply f_equal2; [apply f_equal|reflexivity].
  subst pre5 pre4 pre3 pre2 pre1 pre0.
  repeat (rewrite ?length_app; cbn [length]). lia.
Qed.

Lemma _deflate_raw_b64_nonempty (data : list byte) :
  String.eqb (_deflate_raw_b64 R data) EmptyString = false.
Proof.
  unfold _deflate_raw_b64. pose proof (raw_deflate_nonempty R data) as Hne.
  destruct (raw_deflate R data) as [|a [|b [|c rest]]]; [congruence| | |];
    reflexivity.
Qed.

Lemma with_header_pair (data : list byte) (line : string) :
  with_header (Some (_deflate_raw_b64 R data)) line
  = Pair (_deflate_raw_b64 R data) line.
Proof. unfold with_header. now rewrite _deflate_raw_b64_nonempty. Qed.

Lemma byte_kind (k : Z) (rest : list byte) :
  0 <= k < 256 ->
  [byte_of_Z k] ++ rest = byte_of_Z k :: rest /\ byte_to_Z (byte_of_Z k) = k.
Proof. intros Hk. split; [reflexivity|now apply byte_to_of_Z]. Qed.

Lemma try_decode_kind (k : Z) (body : list byte) (d : _V3State) :
  0 <= k < 256 ->
  _try_decode_v3_line R (_deflate_raw_b64 R (byte_of_Z k :: body)) d
  = (if k =? _REC_HEADER then
       _ <-- _decode_header (byte_of_Z k :: body) 1 ;;
       ret (Some [])
     else if k =? _REC_FRAME then
       <( js, _ )> <-- _decode_frame R (byte_of_Z k :: body) 1 ;;
       ret (Some [js])
     else if k =? _REC_RAW then
       <( js, _ )> <-- _decode_raw R (byte_of_Z k :: body) 1 ;;
       ret (Some [js])
     else ret None) d.
Proof.
  intros Hk. unfold _try_decode_v3_line.
  rewrite _inflate_deflate_raw_b64. cbv beta iota zeta.
  now rewrite byte_to_of_Z.
Qed.

Lemma try_decode_header (aid : string) (base : Z) (d : _V3State) :
  wf_str aid = true -> 0 <= base < 2 ^ 77 ->
  _try_decode_v3_line R (_deflate_raw_b64 R (header_bytes aid base)) d
  = (inr (Some []), header_state aid base).
Proof.
  intros Haid Hbase.
  pose proof (_decode_header_ok aid base [] d Haid Hbase) as Hdec.
  rewrite app_nil_r in Hdec.
  change (header_bytes aid base)
    with (byte_of_Z _REC_HEADER
          :: (uvarint_bytes 3 ++ uvarint_bytes _H_SINGLE_ASSET ++ uvarint_bytes base
              ++ uvarint_bytes 1 ++ uvarint_bytes (Z.of_nat (length (utf8_encode aid)))
              ++ utf8_encode aid)) in *.
  rewrite try_decode_kind by (unfold _REC_HEADER; lia).
  change (_REC_HEADER =? _REC_HEADER) with true. cbv iota.
  now rewrite (bind_inr _ _ _ _ _ Hdec).
Qed.

Lemma try_decode_frame (es : list event) (prev : Z) (d : _V3State) :
  Forall (event_wf R) es -> Z.of_nat (length es) < 2 ^ 63 -> 0 <= prev ->
  pool_wf (st_pool d) ->
  _next (items_pool (st_pool d) (events_items R prev es)) <= 2 ^ 76 ->
  _try_decode_v3_line R (_deflate_raw_b64 R (frame_bytes R (st_pool d) prev es)) d
  = (inr (Some [json_dumps R
                  (JArr (map (normalise R (stamp d))
                           (decoded_events (st_prev_ts d) prev es)))]),
     set_st_pool (items_pool (st_pool d) (events_items R prev es))
       (set_st_prev_ts (decoded_prev (st_prev_ts d) prev es) d)).
Proof.
  intros Hwf Hlen Hprev Hp Hb.
  pose proof (decode_frame_events_ok R es prev d [] Hwf Hlen Hprev Hp Hb) as Hdec.
  rewrite app_nil_r in Hdec.
  change (frame_bytes R (st_pool d) prev es)
    with (byte_of_Z _REC_FRAME
          :: (uvarint_bytes (Z.of_nat (length es))
              ++ items_bytes (st_pool d) (events_items R prev es))) in *.
  rewrite try_decode_kind by (unfold _REC_FRAME; lia).
  change (_REC_FRAME =? _REC_HEADER) with false.
  change (_REC_FRAME =? _REC_FRAME) with true. cbv iota.
  unfold _decode_frame.
  rewrite (bind_inr _ _ _ _ _ (bind_inr _ _ _ _ _ Hdec)).
  reflexivity.
Qed.

Lemma try_decode_raw (s : string) (d : _V3State) :
  pool_wf (st_pool d) -> wf_str s = true ->
  _next (pool_after (st_pool d) s) <= 2 ^ 76 ->
  _try_decode_v3_line R
    (_deflate_raw_b64 R ([byte_of_Z _REC_RAW] ++ pool_elem (st_pool d) s)) d
  = (inr (Some [json_dumps R (JStr s)]), set_st_pool (pool_after (st_pool d) s) d).
Proof.
  intros Hp Hs Hb.
  pose proof (on_st_pool_decode s ([byte_of_Z _REC_RAW] ++ pool_elem (st_pool d) s)
                [byte_of_Z _REC_RAW] [] 1 d Hp Hs Hb
                ltac:(now rewrite app_nil_r) eq_refl) as Hdec.
  cbn [app] in *.
  rewrite try_decode_kind by (unfold _REC_RAW; lia).
  change (_REC_RAW =? _REC_HEADER) with false.
  change (_REC_RAW =? _REC_FRAME) with false.
  change (_REC_RAW =? _REC_RAW) with true. cbv iota.
  unfold _decode_raw.
  rewrite (bind_inr _ _ _ _ _ (bind_inr _ _ _ _ _ Hdec)).
  reflexivity.
Qed.

(** *** What [view_event] guarantees *)

Lemma view_list_Forall {A : Type} (f : json -> option A) (P : A -> Prop) :
  (forall x a, f x = Some a -> P a) ->
  forall l r, view_list f l = Some r -> Forall P r.
Proof.
  intros Hf. induction l as [|x l IH]; intros r; cbn.
  - intros [= <-]. constructor.
  - destruct (f x) as [a|] eqn:Ex; [|discriminate].
    destruct (view_list f l) as [r'|]; [|discriminate].
    intros [= <-]. constructor; eauto.
Qed.

Lemma view_level_wf (v : json) (l : string * string) :
  view_level v = Some l -> level_wf l.
Proof.
  unfold view_level. destruct v; try discriminate.
  destruct (view_str (dict_get "price" members)) as [p|] eqn:Ep; [|discriminate].
  destruct (view_str (dict_get "size" members)) as [s|] eqn:Es; [|discriminate].
  intros [= <-]. apply view_str_inv in Ep as [_ Hp]. apply view_str_inv in Es as [_ Hs].
  split; assumption.
Qed.

Lemma view_change_wf (v : json) (c : string * (string * string)) :
  view_change R v = Some c -> change_wf R c.
Proof.
  unfold view_change. destruct v; try discriminate.
  destruct (view_side R (dict_get "side" members)) as [sd|] eqn:Ed; [|discriminate].
  destruct (view_str (dict_get "price" members)) as [p|] eqn:Ep; [|discriminate].
  destruct (view_str (dict_get "size" members)) as [s|] eqn:Es; [|discriminate].
  intros [= <-]. apply view_side_inv in Ed as (_ & _ & Hd).
  apply view_str_inv in Ep as [_ Hp]. apply view_str_inv in Es as [_ Hs].
  repeat split; assumption.
Qed.

Lemma view_payload_wf (et : string) (d : list (string * json)) (pl : payload) :
  view_payload R et d = Some pl -> payload_wf R pl.
Proof.
  intros H. unfold view_payload, option_map in H.
  repeat case_match; simplify_eq; cbn [payload_wf];
    repeat match goal with
    | H : view_array _ _ = Some _ |- _ =>
        apply view_array_inv in H as (? & _ & ? & ?)
    | H : view_str _ = Some _ |- _ => apply view_str_inv in H as [_ ?]
    | H : view_side _ _ = Some _ |- _ => apply view_side_inv in H as (_ & _ & ?)
    end;
    repeat split; try assumption;
    try (eapply view_list_Forall; [|eassumption]; apply view_level_wf);
    try (eapply view_list_Forall; [|eassumption]; apply view_change_wf).
Qed.

Lemma view_event_wf (ev : json) (e : event) :
  view_event R ev = Some e -> event_wf R e.
Proof.
  unfold view_event. destruct ev; try discriminate.
  destruct (dict_get "event_type" members) as [[]|]; try discriminate.
  destruct (view_timestamp R (dict_get "timestamp" members)) as [t|] eqn:Et;
    [|discriminate].
  destruct (view_payload R s members) as [pl|] eqn:Epl; [|discriminate].
  intros [= <-]. apply view_timestamp_inv in Et as (_ & _ & _ & Ht).
  split; [exact Ht|]. now apply view_payload_wf in Epl.
Qed.

Lemma view_event_ts (ev : json) (e : event) :
  view_event R ev = Some e -> _get_ts R ev = inr (Some (ev_timestamp e)).
Proof.
  unfold view_event. destruct ev; try discriminate.
  destruct (dict_get "event_type" members) as [[]|]; try discriminate.
  destruct (view_timestamp R (dict_get "timestamp" members)) as [t|] eqn:Et;
    [|discriminate].
  destruct (view_payload R s members) as [pl|]; [|discriminate].
  intros [= <-]. apply view_timestamp_inv in Et as (ts & E & Hint & _).
  cbn [_get_ts ev_timestamp]. rewrite E. cbn [py_int]. now rewrite Hint.
Qed.

Lemma first_timestamp_view (evs : list json) (es : list event) :
  view_list (view_event R) evs = Some es ->
  first_timestamp R evs
  = inr (match es with e :: _ => Some (ev_timestamp e) | [] => None end).
Proof.
  destruct evs as [|ev evs]; cbn.
  - now intros [= <-].
  - destruct (view_event R ev) as [e|] eqn:Ee; [|discriminate].
    destruct (view_list (view_event R) evs); [|discriminate].
    intros [= <-]. now rewrite (view_event_ts _ _ Ee).
Qed.

Lemma dict_get_pop (k k' : string) (d : list (string * json)) :
  String.eqb k' k = false -> dict_get k (dict_pop k' d) = dict_get k d.
Proof.
  intros Hne. unfold dict_pop. induction d as [|[k0 v] d IH]; [reflexivity|].
  cbn [List.filter fst].
  destruct (String.eqb_spec k' k0) as [->|Hk0]; cbn [negb dict_get].
  - rewrite IH. rewrite String.eqb_sym, Hne. reflexivity.
  - now rewrite IH.
Qed.

Lemma dict_get_strip (k : string) (d : list (string * json)) :
  String.eqb "market" k = false -> String.eqb "hash" k = false ->
  dict_get k (dict_pop "hash" (dict_pop "market" d)) = dict_get k d.
Proof. intros H1 H2. now rewrite !dict_get_pop. Qed.

Lemma view_event_strip (ev : json) :
  view_event R (strip_event ev) = view_event R ev.
Proof.
  destruct ev; try reflexivity. cbn [strip_event].
  unfold view_event, view_payload, dict_has.
  rewrite !dict_get_strip by reflexivity. reflexivity.
Qed.

Lemma view_list_strip (evs : list json) :
  view_list (view_event R) (map strip_event evs) = view_list (view_event R) evs.
Proof.
  induction evs as [|ev evs IH]; [reflexivity|].
  cbn [map view_list]. now rewrite view_event_strip, IH.
Qed.

(** *** One call of [compress] on a frame of events *)

Lemma compress_events_synced (evs : list json) (es : list event)
    (c : FrameCompressorV3) (p : Z) :
  view_list (view_event R) evs = Some es ->
  wrote_header c = true -> pool_wf (pool c) -> prev_ts c = Some p ->
  compress_events R evs c
  = (inr (One (_deflate_raw_b64 R (frame_bytes R (pool c) p es))),
     set_pool (items_pool (pool c) (events_items R p es))
       (set_prev_ts (Some (last_timestamp p es)) c)).
Proof.
  intros Hv Hw Hp Hprev. unfold compress_events.
  rewrite (bind_inr _ _ c c _ (f_equal (fun r => (r, c)) (first_timestamp_view _ _ Hv))).
  rewrite (bind_inr _ _ _ _ _ (_ensure_header_done _ c Hw)).
  unfold _encode_frame_events.
  pose proof (frame_record_ok R (map strip_event evs) es c p
                ltac:(now rewrite view_list_strip) Hp Hprev) as Hrec.
  rewrite (bind_inr _ _ _ _ _ (bind_inr _ _ _ _ _ Hrec)).
  reflexivity.
Qed.

Lemma base_of_nonneg (es : list event) :
  Forall (event_wf R) es -> 0 <= base_of es < 2 ^ 64.
Proof.
  destruct es as [|e es]; cbn; [lia|].
  intros H. apply Forall_cons in H as [[Ht _] _]. exact Ht.
Qed.

Lemma compress_events_fresh (evs : list json) (es : list event) (c : FrameCompressorV3) :
  view_list (view_event R) evs = Some es ->
  wrote_header c = false ->
  compress_events R evs c
  = (inr (Pair (_deflate_raw_b64 R (header_bytes (asset_id c) (base_of es)))
               (_deflate_raw_b64 R (frame_bytes R _StringPool_init (base_of es) es))),
     set_pool (items_pool _StringPool_init (events_items R (base_of es) es))
       (set_prev_ts (Some (last_timestamp (base_of es) es))
          (header_written (asset_id c) (base_of es)))).
Proof.
  intros Hv Hw. unfold compress_events.
  pose proof (view_list_Forall _ _ view_event_wf _ _ Hv) as Hwf.
  pose proof (base_of_nonneg es Hwf) as Hbase.
  rewrite (bind_inr _ _ c c _ (f_equal (fun r => (r, c)) (first_timestamp_view _ _ Hv))).
  assert (Hts : match match es with e :: _ => Some (ev_timestamp e) | [] => None end with
                | Some t => t
                | None => 0
                end = base_of es) by (destruct es; reflexivity).
  pose proof (_ensure_header_new
                (match es with e :: _ => Some (ev_timestamp e) | [] => None end) c Hw) as Hh.
  rewrite Hts in Hh. specialize (Hh ltac:(lia)).
  rewrite (bind_inr _ _ _ _ _ Hh).
  unfold _encode_frame_events.
  pose proof (frame_record_ok R (map strip_event evs) es
                (header_written (asset_id c) (base_of es)) (base_of es)
                ltac:(now rewrite view_list_strip) pool_init_wf eq_refl) as Hrec.
  rewrite (bind_inr _ _ _ _ _ (bind_inr _ _ _ _ _ Hrec)).
  unfold ret. now rewrite with_header_pair.
Qed.

Lemma view_frame_inv (text : string) (es : list event) :
  view_frame R text = Some es ->
  exists evs,
    (forall c, compress R text c = compress_events R evs c)
    /\ view_list (view_event R) evs = Some es
    /\ Z.of_nat (length es) < 2 ^ 63.
Proof.
  unfold view_frame, compress.
  destruct (json_loads R text) as [[| | | | |evs|d]|]; try discriminate.
  - intros H. apply view_array_inv in H as (lv & [= <-] & Hv & Hlen). eauto.
  - intros H. exists [JObj d]. split; [reflexivity|]. split; [exact H|].
    rewrite <- (view_list_length _ _ _ H). cbn. lia.
Qed.

Lemma decoded_ts_sync (p t : Z) : decoded_ts (Some p) p t = t.
Proof. unfold decoded_ts. destruct (p <=? t); cbn; lia. Qed.

Lemma decoded_events_sync (es : list event) (p : Z) :
  decoded_events (Some p) p es = es
  /\ decoded_prev (Some p) p es = Some (last_timestamp p es).
Proof.
  revert p. induction es as [|[t pl] es IH]; intros p; [split; reflexivity|].
  cbn [decoded_events decoded_prev last_timestamp fold_left ev_timestamp ev_payload].
  rewrite decoded_ts_sync. destruct (IH t) as [-> ->]. split; reflexivity.
Qed.

Lemma last_timestamp_nonneg (es : list event) (p : Z) :
  Forall (event_wf R) es -> 0 <= p -> 0 <= last_timestamp p es.
Proof.
  revert p. induction es as [|e es IH]; intros p Hwf Hp; [exact Hp|].
  apply Forall_cons in Hwf as [[Ht _] Hwf]. cbn. apply IH; [assumption|lia].
Qed.

Lemma frame_step_synced (text : string) (es : list event) (c : FrameCompressorV3) :
  view_frame R text = Some es -> in_session c ->
  exists line c',
    compress R text c = (inr (One line), c')
    /\ in_session c' /\ asset_id c' = asset_id c
    /\ _next (pool c) <= _next (pool c')
    /\ (_next (pool c') <= 2 ^ 76 ->
        forall d, synced c d ->
        exists d',
          _try_decode_v3_line R line d
          = (inr (Some [json_dumps R (JArr (map (normalise R (asset_id c)) es))]), d')
          /\ synced c' d').
Proof.
  intros Hv (Hw & Hp & p & Hprev & Hp0).
  apply view_frame_inv in Hv as (evs & Hc & Hv & Hlen).
  pose proof (view_list_Forall _ _ view_event_wf _ _ Hv) as Hwf.
  eexists _, _. rewrite Hc, (compress_events_synced evs es c p Hv Hw Hp Hprev).
  split; [reflexivity|]. cbn [pool set_pool set_prev_ts asset_id].
  split; [|split; [reflexivity|split; [apply items_pool_next|]]].
  { refine (conj Hw (conj _ _)); [now apply items_pool_wf|].
    exists (last_timestamp p es). split; [reflexivity|].
    now apply last_timestamp_nonneg. }
  intros Hb d (Hstamp & Hpool & Hdprev).
  rewrite <- Hpool in *. rewrite Hprev in Hdprev.
  rewrite (try_decode_frame es p d Hwf Hlen Hp0 Hp Hb).
  rewrite Hdprev, Hstamp. destruct (decoded_events_sync es p) as [-> ->].
  eexists. split; [reflexivity|].
  exact (conj Hstamp (conj eq_refl eq_refl)).
Qed.

Lemma frame_step_fresh (text : string) (es : list event) (c : FrameCompressorV3) :
  view_frame R text = Some es ->
  wrote_header c = false -> wf_str (asset_id c) = true ->
  exists h line c',
    compress R text c = (inr (Pair h line), c')
    /\ in_session c' /\ asset_id c' = asset_id c
    /\ (_next (pool c') <= 2 ^ 76 ->
        forall d, exists d1 d',
          _try_decode_v3_line R h d = (inr (Some []), d1)
          /\ _try_decode_v3_line R line d1
             = (inr (Some [json_dumps R (JArr (map (normalise R (asset_id c)) es))]), d')
          /\ synced c' d').
Proof.
  intros Hv Hw Hwfa.
  apply view_frame_inv in Hv as (evs & Hc & Hv & Hlen).
  pose proof (view_list_Forall _ _ view_event_wf _ _ Hv) as Hwf.
  pose proof (base_of_nonneg es Hwf) as Hbase.
  eexists _, _, _. rewrite Hc, (compress_events_fresh evs es c Hv Hw).
  split; [reflexivity|]. cbn [pool set_pool set_prev_ts asset_id header_written].
  split; [|split; [reflexivity|]].
  { refine (conj eq_refl (conj _ _)); [apply items_pool_wf, pool_init_wf|].
    exists (last_timestamp (base_of es) es). split; [reflexivity|].
    apply last_timestamp_nonneg; [assumption|lia]. }
  intros Hb d.
  rewrite (try_decode_header (asset_id c) (base_of es) d Hwfa ltac:(lia)).
  eexists _, _. split; [reflexivity|].
  pose proof (try_decode_frame es (base_of es) (header_state (asset_id c) (base_of es))
                Hwf Hlen ltac:(lia) pool_init_wf Hb) as Hdec.
  cbn [st_pool st_prev_ts header_state] in Hdec.
  change (stamp (header_state (asset_id c) (base_of es))) with (asset_id c) in Hdec.
  destruct (decoded_events_sync es (base_of es)) as [E1 E2].
  rewrite E1, E2 in Hdec. rewrite Hdec. split; [reflexivity|].
  exact (conj eq_refl (conj eq_refl eq_refl)).
Qed.



End Session.



(** ** Header idempotence *)

Lemma keeps_ret {A : Type} (a : A) : keeps (ret a).
Proof. intros c r c' [= _ <-]. reflexivity. Qed.

Lemma keeps_raise {A : Type} (e : exn) : keeps (@raise _ A e).
Proof. intros c r c' [= _ <-]. reflexivity. Qed.

Lemma keeps_lift {A : Type} (x : exn + A) : keeps (lift x).
Proof. intros c r c' [= _ <-]. reflexivity. Qed.

Lemma keeps_get : keeps get.
Proof. intros c r c' [= _ <-]. reflexivity. Qed.

Lemma keeps_modify_prev (t : option Z) : keeps (modify (set_prev_ts t)).
Proof. intros c r c' [= _ <-]. reflexivity. Qed.

Lemma keeps_on_pool {A : Type} (m : M _StringPool A) : keeps (on_pool m).
Proof.
  intros c r c'. unfold on_pool. destruct (m (pool c)). intros [= _ <-]. reflexivity.
Qed.

Lemma keeps_bind {A B : Type} (m : M FrameCompressorV3 A) (k : A -> M FrameCompressorV3 B) :
  keeps m -> (forall a, keeps (k a)) -> keeps (bind m k).
Proof.
  intros Hm Hk c r c'. unfold bind. destruct (m c) as [[e|a] c1] eqn:E.
  - intros [= _ <-]. eapply Hm; eassumption.
  - intros Hka. rewrite (Hk a _ _ _ Hka). eapply Hm; eassumption.
Qed.

Ltac keeps_tac :=
  repeat first
    [ apply keeps_ret | apply keeps_raise | apply keeps_lift | apply keeps_get
    | apply keeps_on_pool | apply keeps_modify_prev
    | assumption
    | apply keeps_bind; [|intros]
    | match goal with |- keeps (if ?b then _ else _) => destruct b end
    | match goal with |- keeps (match ?x with _ => _ end) => destruct x end ].

Section Idempotence.

Context (R : PyRuntime).

Lemma keeps_encode_levels_loop (lv : list json) :
  forall out, keeps (encode_levels_loop R lv out).
Proof.
  induction lv as [|x lv IH]; intros out; cbn [encode_levels_loop]; keeps_tac.
  apply IH.
Qed.

Lemma keeps__encode_levels (levels : json) (out : list byte) :
  keeps (_encode_levels R levels out).
Proof. unfold _encode_levels. keeps_tac. apply keeps_encode_levels_loop. Qed.

Lemma keeps_encode_changes_loop (chs : list json) :
  forall out, keeps (encode_changes_loop R chs out).
Proof.
  induction chs as [|x chs IH]; intros out; cbn [encode_changes_loop]; keeps_tac.
  apply IH.
Qed.

Lemma keeps__encode_event (ev : json) (out : list byte) : keeps (_encode_event R ev out).
Proof.
  unfold _encode_event, _encode_book, _encode_price_change,
    _encode_tick_size_change, _encode_last_trade_price.
  keeps_tac; try apply keeps__encode_levels; try apply keeps_encode_levels_loop;
    try apply keeps_encode_changes_loop.
Qed.

Lemma keeps_encode_events_loop (evs : list json) :
  forall out, keeps (encode_events_loop R evs out).
Proof.
  induction evs as [|ev evs IH]; intros out; cbn [encode_events_loop].
  - apply keeps_ret.
  - apply keeps_bind; [apply keeps__encode_event|intros; apply IH].
Qed.

Lemma keeps__encode_frame_events (evs : list json) : keeps (_encode_frame_events R evs).
Proof.
  unfold _encode_frame_events, frame_record.
  apply keeps_bind; [|intros; apply keeps_ret].
  apply keeps_bind; [apply keeps_lift|intros; apply keeps_encode_events_loop].
Qed.

Lemma keeps_raw_record (s : string) : keeps (raw_record s).
Proof. unfold raw_record. keeps_tac. Qed.

(** [_ensure_header] on an instance that has not written its header:
    it raises and leaves the flag clear, or returns the header line and sets
    the flag. *)
Lemma _ensure_header_cases (ts : option Z) (c : FrameCompressorV3) :
  wrote_header c = false ->
  (exists e c', _ensure_header R ts c = (inl e, c') /\ wrote_header c' = false)
  \/ (exists data c', _ensure_header R ts c = (inr (Some (_deflate_raw_b64 R data)), c')
                      /\ wrote_header c' = true).
Proof.
  intros Hw. unfold _ensure_header. rewrite Hw.
  match goal with
  | |- context [match ?m ?s with _ => _ end] => destruct (m s) as [[e|out] c1] eqn:E
  end.
  - left. eexists _, _. split; [reflexivity|].
    unfold bind, lift, ret in E.
    repeat match type of E with
    | context [match ?x with _ => _ end] => destruct x
    end; injection E as _ <-; reflexivity.
  - right. eexists _, _. split; reflexivity.
Qed.

(** Once the header is written, a call never returns a pair and the flag
    stays set, whether the call returns or raises. *)
Lemma compress_after_header (text : string) (c c' : FrameCompressorV3) (r : exn + lines) :
  wrote_header c = true -> compress R text c = (r, c') ->
  wrote_header c' = true /\ returned_pair r = false.
Proof.
  intros Hw. unfold compress.
  assert (Hraw : forall s, compress_raw R s c = (r, c') ->
                           wrote_header c' = true /\ returned_pair r = false).
  { intros s. unfold compress_raw.
    rewrite (bind_inr _ _ _ _ _ (_ensure_header_done R None c Hw)).
    unfold bind. destruct (raw_record s c) as [[e|out] c1] eqn:E.
    - intros [= <- <-]. split; [|reflexivity].
      rewrite (keeps_raw_record _ _ _ _ E). exact Hw.
    - intros [= <- <-]. split; [|reflexivity].
      rewrite (keeps_raw_record _ _ _ _ E). exact Hw. }
  assert (Hev : forall evs, compress_events R evs c = (r, c') ->
                            wrote_header c' = true /\ returned_pair r = false).
  { intros evs. unfold compress_events. unfold bind at 1, lift.
    destruct (first_timestamp R evs) as [e|ts].
    - intros [= <- <-]. split; [exact Hw|reflexivity].
    - rewrite (bind_inr _ _ _ _ _ (_ensure_header_done R ts c Hw)).
      unfold bind. destruct (_encode_frame_events R (map strip_event evs) c)
        as [[e|line] c1] eqn:E.
      + intros [= <- <-]. split; [|reflexivity].
        rewrite (keeps__encode_frame_events _ _ _ _ E). exact Hw.
      + intros [= <- <-]. split; [|reflexivity].
        rewrite (keeps__encode_frame_events _ _ _ _ E). exact Hw. }
  destruct (json_loads R text) as [[| | | | | |]|]; eauto.
Qed.

(** Before the header is written, a call that returns returns a pair and
    sets the flag. *)
Lemma compress_first_return (text : string) (c c' : FrameCompressorV3) (l : lines) :
  wrote_header c = false -> compress R text c = (inr l, c') ->
  wrote_header c' = true /\ returned_pair (inr l) = true.
Proof.
  intros Hw. unfold compress.
  assert (Hraw : forall s, compress_raw R s c = (inr l, c') ->
                           wrote_header c' = true /\ returned_pair (inr l) = true).
  { intros s. unfold compress_raw.
    destruct (_ensure_header_cases None c Hw)
      as [(e & c1 & Hh & Hw1)|(data & c1 & Hh & Hw1)].
    - rewrite (bind_inl _ _ _ _ _ Hh). discriminate.
    - rewrite (bind_inr _ _ _ _ _ Hh).
      unfold bind. destruct (raw_record s c1) as [[e|out] c2] eqn:E; [discriminate|].
      intros [= <- <-]. rewrite ?with_header_pair, ?_deflate_raw_b64_nonempty.
      split; [|reflexivity].
      rewrite (keeps_raw_record _ _ _ _ E). exact Hw1. }
  assert (Hev : forall evs, compress_events R evs c = (inr l, c') ->
                            wrote_header c' = true /\ returned_pair (inr l) = true).
  { intros evs. unfold compress_events. unfold bind at 1, lift.
    destruct (first_timestamp R evs) as [e|ts]; [discriminate|].
    destruct (_ensure_header_cases ts c Hw)
      as [(e & c1 & Hh & Hw1)|(data & c1 & Hh & Hw1)].
    - rewrite (bind_inl _ _ _ _ _ Hh). discriminate.
    - rewrite (bind_inr _ _ _ _ _ Hh).
      unfold bind. destruct (_encode_frame_events R (map strip_event evs) c1)
        as [[e|line] c2] eqn:E; [discriminate|].
      intros [= <- <-]. rewrite ?with_header_pair, ?_deflate_raw_b64_nonempty.
      split; [|reflexivity].
      rewrite (keeps__encode_frame_events _ _ _ _ E). exact Hw1. }
  destruct (json_loads R text) as [[| | | | | |]|]; eauto.
Qed.

Lemma compress_calls_after_header (frames : list string) :
  forall c, wrote_header c = true ->
  Forall (fun r => returned_pair r = false) (fst (compress_calls R frames c))
  /\ wrote_header (snd (compress_calls R frames c)) = true.
Proof.
  induction frames as [|f fs IH]; intros c Hw; cbn [compress_calls].
  - split; [constructor|exact Hw].
  - destruct (compress R f c) as [r c1] eqn:E.
    destruct (compress_after_header f c c1 r Hw E) as [Hw1 Hr].
    specialize (IH c1 Hw1). destruct (compress_calls R fs c1) as [rs c2].
    cbn [fst snd] in *. destruct IH as [IH1 IH2]. split; [|exact IH2].
    constructor; assumption.
Qed.

Lemma compress_calls_pair (frames : list string) :
  forall c pre r post,
    wrote_header c = false ->
    fst (compress_calls R frames c) = pre ++ r :: post ->
    returned_pair r = true ->
    Forall (fun r' => returned r' = false) pre
    /\ Forall (fun r' => returned_pair r' = false) post.
Proof.
  induction frames as [|f fs IH]; intros c pre r post Hw Hrs Hpair; cbn [compress_calls] in Hrs.
  - destruct pre; discriminate.
  - destruct (compress R f c) as [r1 c1] eqn:E.
    destruct (compress_calls R fs c1) as [rs c2] eqn:Ers. cbn [fst] in Hrs.
    destruct r1 as [e|l].
    + (* the call raised: the flag may be set or clear *)
      destruct pre as [|r0 pre]; cbn [app] in Hrs; injection Hrs as Hr0 Hrs.
      { subst r. discriminate. }
      subst r0. destruct (wrote_header c1) eqn:Hw1.
      * pose proof (compress_calls_after_header fs c1 Hw1) as [Hall _].
        rewrite Ers in Hall. cbn [fst] in Hall. rewrite Hrs in Hall.
        apply Forall_app in Hall as [_ Hall]. apply Forall_cons in Hall as [Hr _].
        congruence.
      * specialize (IH c1 pre r post Hw1). rewrite Ers in IH.
        destruct (IH Hrs Hpair) as [Hpre Hpost]. split; [|exact Hpost].
        constructor; [reflexivity|exact Hpre].
    + (* the call returned: it wrote the header *)
      destruct (compress_first_return f c c1 l Hw E) as [Hw1 _].
      pose proof (compress_calls_after_header fs c1 Hw1) as [Hall _].
      rewrite Ers in Hall. cbn [fst] in Hall.
      destruct pre as [|r0 pre]; cbn [app] in Hrs; injection Hrs as Hr0 Hrs.
      * subst rs. split; [constructor|exact Hall].
      * rewrite Hrs in Hall.
        apply Forall_app in Hall as [_ Hall]. apply Forall_cons in Hall as [Hr _].
        congruence.
Qed.

End Idempotence.

(** C5: header idempotence.  For every compressor and every sequence of
    calls of [compress]: a call that returns a pair
    [[header_line, frame_line]] is the first call that returns (every call
    before it raised, and no call after it returns a pair); and once
    [wrote_header] is set, no call returns a pair (each returns a single
    line, or raises) and the flag stays set. *)
Theorem header_idempotence :
  forall (R : PyRuntime) (frames : list string) (c : FrameCompressorV3),
    (wrote_header c = true ->
     Forall (fun r => returned_pair r = false) (fst (compress_calls R frames c))
     /\ wrote_header (snd (compress_calls R frames c)) = true)
    /\ (forall pre r post,
          fst (compress_calls R frames c) = pre ++ r :: post ->
          returned_pair r = true ->
          Forall (fun r' => returned r' = false) pre
          /\ Forall (fun r' => returned_pair r' = false) post).
Proof.
  intros R frames c. split.
  - apply compress_calls_after_header.
  - intros pre r post Hrs Hpair. destruct (wrote_header c) eqn:Hw.
    + destruct (compress_calls_after_header R frames c Hw) as [Hall _].
      rewrite Hrs in Hall. apply Forall_app in Hall as [_ Hall].
      apply Forall_cons in Hall as [Hr _]. congruence.
    + now apply (compress_calls_pair R frames c pre r post Hw).
Qed.

(** ** Header handling by the decoder *)

Lemma decode_assets_loop_ok (post : list byte) (assets : list string) :
  forall (buf pre : list byte) (i : nat) (d : _V3State),
    Forall (fun a => wf_str a = true) assets ->
    buf = pre ++ assets_bytes assets ++ post -> i = length pre ->
    decode_assets_loop (length assets) buf i d
    = (inr (i + length (assets_bytes assets))%nat,
       set_st_asset_ids (st_asset_ids d ++ assets) d).
Proof.
  induction assets as [|a assets IH]; intros buf pre i d Hwf Hbuf Hi.
  - cbn. rewrite app_nil_r, Nat.add_0_r. destruct d; reflexivity.
  - apply Forall_cons in Hwf as [Ha Hwf].
    pose proof (wf_str_length a Ha) as Hlen.
    cbn [assets_bytes flat_map] in *. fold (assets_bytes assets) in *.
    set (la := Z.of_nat (length (utf8_encode a))) in *.
    set (pre1 := pre ++ uvarint_bytes la).
    assert (Hbuf1 : buf = pre1 ++ utf8_encode a ++ assets_bytes assets ++ post)
      by (subst pre1; buf_eq).
    cbn [length decode_assets_loop].
    rewrite (bind_inr _ _ d d (la, length pre1))
      by (apply (uvarint_decode_lift la buf pre
                   (utf8_encode a ++ assets_bytes assets ++ post));
          [subst la; lia|buf_eq|assumption|reflexivity]).
    cbv beta iota.
    destruct (Z.ltb_spec (Z.of_nat (length buf)) (Z.of_nat (length pre1) + la)) as [Hlt|_].
    { rewrite Hbuf1, !length_app in Hlt. subst la. lia. }
    replace (drop (length pre1) buf) with (utf8_encode a ++ assets_bytes assets ++ post)
      by (rewrite Hbuf1, drop_app_length; reflexivity).
    subst la. rewrite Nat2Z.id, take_app_length, utf8_decode_encode by assumption.
    rewrite bind_modify.
    rewrite (IH buf (pre1 ++ utf8_encode a)); [|assumption|rewrite Hbuf1; buf_eq|idx_eq].
    cbn [st_asset_ids set_st_asset_ids].
    apply f_equal2; [apply f_equal|].
    + subst pre1 i. repeat (rewrite ?length_app; cbn [length]). lia.
    + rewrite <- app_assoc. reflexivity.
Qed.

Lemma _decode_header_layout (flags base : Z) (assets : list string)
    (post : list byte) (d : _V3State) :
  0 <= flags < 2 ^ 77 -> 0 <= base < 2 ^ 77 ->
  Z.of_nat (length assets) < 2 ^ 77 ->
  Forall (fun a => wf_str a = true) assets ->
  _decode_header (header_layout 3 flags base assets ++ post) 1 d
  = (inr (length (header_layout 3 flags base assets)),
     {| st_pool := _StringPool_init; st_base_ts := base; st_prev_ts := Some base;
        st_asset_ids := assets; st_flags := flags; st_have_header := true |}).
Proof.
  intros Hflags Hbase Hn Hwf. unfold _decode_header, header_layout.
  set (n := Z.of_nat (length assets)) in *.
  set (buf := ([byte_of_Z _REC_HEADER] ++ uvarint_bytes 3 ++ uvarint_bytes flags
               ++ uvarint_bytes base ++ uvarint_bytes n ++ assets_bytes assets) ++ post).
  set (pre0 := [byte_of_Z _REC_HEADER]).
  set (pre1 := pre0 ++ uvarint_bytes 3).
  set (pre2 := pre1 ++ uvarint_bytes flags).
  set (pre3 := pre2 ++ uvarint_bytes base).
  set (pre4 := pre3 ++ uvarint_bytes n).
  rewrite (bind_inr _ _ d d (3, length pre1))
    by (apply (uvarint_decode_lift 3 buf pre0
                 (uvarint_bytes flags ++ uvarint_bytes base ++ uvarint_bytes n
                  ++ assets_bytes assets ++ post));
        [lia|subst buf pre0; buf_eq|reflexivity|reflexivity]).
  cbv beta iota. cbn [Z.eqb Pos.eqb negb].
  rewrite (bind_inr _ _ d d (flags, length pre2))
    by (apply (uvarint_decode_lift flags buf pre1
                 (uvarint_bytes base ++ uvarint_bytes n ++ assets_bytes assets ++ post));
        [lia|subst buf pre1 pre0; buf_eq|reflexivity|reflexivity]).
  cbv beta iota.
  rewrite (bind_inr _ _ d d (base, length pre3))
    by (apply (uvarint_decode_lift base buf pre2
                 (uvarint_bytes n ++ assets_bytes assets ++ post));
        [lia|subst buf pre2 pre1 pre0; buf_eq|reflexivity|reflexivity]).
  cbv beta iota. rewrite bind_modify.
  match goal with
  | |- bind _ _ ?st = _ => set (d1 := st)
  end.
  rewrite (bind_inr _ _ d1 d1 (n, length pre4))
    by (apply (uvarint_decode_lift n buf pre3 (assets_bytes assets ++ post));
        [subst n; lia|subst buf pre3 pre2 pre1 pre0; buf_eq|reflexivity|reflexivity]).
  cbv beta iota. rewrite bind_modify.
  subst n. rewrite Nat2Z.id.
  rewrite (bind_inr _ _ _ _ _
             (decode_assets_loop_ok post assets buf pre4 (length pre4)
                (set_st_asset_ids [] d1) Hwf
                ltac:(subst buf pre4 pre3 pre2 pre1 pre0; buf_eq) eq_refl)).
  rewrite bind_modify. unfold ret. subst d1.
  cbn [set_st_asset_ids st_pool st_base_ts st_prev_ts st_asset_ids st_flags
       st_have_header app].
  apply f_equal2; [apply f_equal|reflexivity].
  subst pre4 pre3 pre2 pre1 pre0.
  repeat (rewrite ?length_app; cbn [length]). lia.
Qed.

Lemma _decode_header_bad_version (buf : list byte) (ver : Z) (i : nat) (d : _V3State) :
  _uvarint_decode buf 1 = inr (ver, i) -> ver <> 3 ->
  _decode_header buf 1 d = (inl (UnsupportedVersion ver), d).
Proof.
  intros Hdec Hver. unfold _decode_header.
  rewrite (bind_inr _ _ d d (ver, i)) by (unfold lift; now rewrite Hdec).
  cbv beta iota. destruct (Z.eqb_spec ver 3); [contradiction|reflexivity].
Qed.

Lemma try_decode_inflated (R : PyRuntime) (token : string) (k : byte)
    (body : list byte) (d : _V3State) :
  _inflate_raw_b64 R token = inr (k :: body) ->
  _try_decode_v3_line R token d
  = (if byte_to_Z k =? _REC_HEADER then
       _ <-- _decode_header (k :: body) 1 ;;
       ret (Some [])
     else if byte_to_Z k =? _REC_FRAME then
       <( js, _ )> <-- _decode_frame R (k :: body) 1 ;;
       ret (Some [js])
     else if byte_to_Z k =? _REC_RAW then
       <( js, _ )> <-- _decode_raw R (k :: body) 1 ;;
       ret (Some [js])
     else ret None) d.
Proof. intros H. unfold _try_decode_v3_line. now rewrite H. Qed.

(** C6: header handling by the decoder.  For every line whose inflated
    bytes begin with ['H'] (0x48): when the version varint is not 3 the
    decode fails with [UnsupportedVersion] (and the state is untouched);
    when the record is a version-3 header of the layout of section 4.5
    (flags, base timestamp, asset count and assets, anything after them),
    the state's pool is reset, [base_ts] is the header's, [prev_ts] equals
    [base_ts], the flags and the asset ids are stored, and
    [_try_decode_v3_line] returns the empty list. *)
Theorem header_line_decoding :
  forall (R : PyRuntime) (token : string) (d : _V3State),
    (forall (body : list byte) (ver : Z) (i : nat),
        _inflate_raw_b64 R token = inr (byte_of_Z 0x48 :: body) ->
        _uvarint_decode (byte_of_Z 0x48 :: body) 1 = inr (ver, i) ->
        ver <> 3 ->
        _try_decode_v3_line R token d = (inl (UnsupportedVersion ver), d))
    /\ (forall (flags base : Z) (assets : list string) (surplus : list byte),
          _inflate_raw_b64 R token = inr (header_layout 3 flags base assets ++ surplus) ->
          0 <= flags < 2 ^ 77 -> 0 <= base < 2 ^ 77 ->
          Z.of_nat (length assets) < 2 ^ 77 ->
          Forall (fun a => wf_str a = true) assets ->
          _try_decode_v3_line R token d
          = (inr (Some []),
             {| st_pool := _StringPool_init; st_base_ts := base;
                st_prev_ts := Some base; st_asset_ids := assets;
                st_flags := flags; st_have_header := true |})).
Proof.
  intros R token d. split.
  - intros body ver i Hinf Hdec Hver.
    rewrite (try_decode_inflated R token _ _ d Hinf).
    change (byte_to_Z (byte_of_Z 0x48) =? _REC_HEADER) with true. cbv iota.
    now rewrite (bind_inl _ _ _ _ _ (_decode_header_bad_version _ ver i d Hdec Hver)).
  - intros flags base assets surplus Hinf Hflags Hbase Hn Hwf.
    pose proof (_decode_header_layout flags base assets surplus d Hflags Hbase Hn Hwf)
      as Hdec.
    change (header_layout 3 flags base assets ++ surplus)
      with (byte_of_Z _REC_HEADER
            :: ((uvarint_bytes 3 ++ uvarint_bytes flags ++ uvarint_bytes base
                 ++ uvarint_bytes (Z.of_nat (length assets)) ++ assets_bytes assets)
                ++ surplus)) in *.
    rewrite (try_decode_inflated R token _ _ d Hinf).
    change (byte_to_Z (byte_of_Z _REC_HEADER) =? _REC_HEADER) with true. cbv iota.
    now rewrite (bind_inr _ _ _ _ _ Hdec).
Qed.

Lemma header_line_decoding_witness :
  _try_decode_v3_line ref_runtime
    (_deflate_raw_b64 ref_runtime (header_layout 3 1 1000 ["A"%string])) _V3State_init
  = (inr (Some []),
     {| st_pool := _StringPool_init; st_base_ts := 1000; st_prev_ts := Some 1000;
        st_asset_ids := ["A"%string]; st_flags := 1; st_have_header := true |})
  /\ _try_decode_v3_line ref_runtime
       (_deflate_raw_b64 ref_runtime (header_layout 4 1 1000 ["A"%string])) _V3State_init
     = (inl (UnsupportedVersion 4), _V3State_init).
Proof.
  split.
  - apply (proj2 (header_line_decoding ref_runtime _ _V3State_init) 1 1000 ["A"%string] []).
    + rewrite app_nil_r. apply _inflate_deflate_raw_b64.
    + lia.
    + lia.
    + cbn [length]. lia.
    + repeat constructor.
  - apply (proj1 (header_line_decoding ref_runtime _ _V3State_init)
             (skipn 1 (header_layout 4 1 1000 ["A"%string])) 4 2%nat).
    + apply _inflate_deflate_raw_b64.
    + vm_compute. reflexivity.
    + lia.
Defined.

(** ** The raw path of [compress] *)

Section Heartbeat.
Context (R : PyRuntime).

Lemma compress_raw_fresh (text : string) (c : FrameCompressorV3) :
  wrote_header c = false ->
  compress_raw R text c
  = (inr (Pair (_deflate_raw_b64 R (header_bytes (asset_id c) 0))
               (_deflate_raw_b64 R
                  ([byte_of_Z _REC_RAW] ++ pool_elem _StringPool_init text))),
     set_pool (pool_after _StringPool_init text) (header_written (asset_id c) 0)).
Proof.
  intros Hw. unfold compress_raw.
  rewrite (bind_inr _ _ _ _ _ (_ensure_header_new R None c Hw ltac:(lia))).
  unfold raw_record.
  rewrite (bind_inr _ _ _ _ _
             (on_pool_encode text [byte_of_Z _REC_RAW] (header_written (asset_id c) 0)
                pool_init_wf)).
  unfold ret. now rewrite with_header_pair.
Qed.

Lemma compress_raw_written (text : string) (c : FrameCompressorV3) :
  wrote_header c = true -> pool_wf (pool c) ->
  compress_raw R text c
  = (inr (One (_deflate_raw_b64 R ([byte_of_Z _REC_RAW] ++ pool_elem (pool c) text))),
     set_pool (pool_after (pool c) text) c).
Proof.
  intros Hw Hp. unfold compress_raw.
  rewrite (bind_inr _ _ _ _ _ (_ensure_header_done R None c Hw)).
  unfold raw_record.
  rewrite (bind_inr _ _ _ _ _ (on_pool_encode text [byte_of_Z _REC_RAW] c Hp)).
  reflexivity.
Qed.

Lemma compress_not_json (text : string) :
  json_loads R text = None -> compress R text = compress_raw R text.
Proof. intros H. unfold compress. now rewrite H. Qed.

End Heartbeat.

(** C9: the heartbeat path.  For an input text that [json.loads] rejects,
    [compress] on an instance without header returns the pair of a header
    line with base timestamp 0 and a RAW line, the record ['X'] followed by
    the text written through the (reset) string pool; on an instance whose
    header is written it returns the RAW line alone.  Decoding the header
    line gives no output, and decoding the RAW line gives exactly one
    output, the JSON string value of the text. *)
Theorem heartbeat_raw_path :
  forall (R : PyRuntime) (text : string) (c : FrameCompressorV3),
    json_loads R text = None -> wf_str text = true ->
    (wrote_header c = false ->
     compress R text c
     = (inr (Pair (_deflate_raw_b64 R (header_bytes (asset_id c) 0))
                  (_deflate_raw_b64 R
                     ([byte_of_Z _REC_RAW] ++ pool_elem _StringPool_init text))),
        set_pool (pool_after _StringPool_init text) (header_written (asset_id c) 0))
     /\ (wf_str (asset_id c) = true ->
         forall d : _V3State,
           decode_session R
             [_deflate_raw_b64 R (header_bytes (asset_id c) 0);
              _deflate_raw_b64 R
                ([byte_of_Z _REC_RAW] ++ pool_elem _StringPool_init text)] d
           = (inr [Some []; Some [json_dumps R (JStr text)]],
              set_st_pool (pool_after _StringPool_init text)
                (header_state (asset_id c) 0))))
    /\ (wrote_header c = true -> pool_wf (pool c) ->
        compress R text c
        = (inr (One (_deflate_raw_b64 R
                       ([byte_of_Z _REC_RAW] ++ pool_elem (pool c) text))),
           set_pool (pool_after (pool c) text) c)
        /\ (_next (pool_after (pool c) text) <= 2 ^ 76 ->
            forall d : _V3State,
              st_pool d = pool c ->
              _try_decode_v3_line R
                (_deflate_raw_b64 R
                   ([byte_of_Z _REC_RAW] ++ pool_elem (pool c) text)) d
              = (inr (Some [json_dumps R (JStr text)]),
                 set_st_pool (pool_after (pool c) text) d))).
Proof.
  intros R text c Hjson Htext. split.
  - intros Hw. split.
    + rewrite compress_not_json by assumption. now apply compress_raw_fresh.
    + intros Haid d.
      pose proof (try_decode_header R (asset_id c) 0 d Haid ltac:(lia)) as Hh.
      pose proof (pool_after_next _StringPool_init text) as Hn.
      pose proof (try_decode_raw R text (header_state (asset_id c) 0) pool_init_wf Htext
                    ltac:(cbn [st_pool header_state]; cbn [_next _StringPool_init] in Hn;
                          lia)) as Hx.
      cbn [st_pool header_state] in Hx.
      cbn [decode_session].
      rewrite (bind_inr _ _ _ _ _ Hh).
      rewrite (bind_inr _ _ _ _ _ (bind_inr _ _ _ _ _ Hx)).
      reflexivity.
  - intros Hw Hp. split.
    + rewrite compress_not_json by assumption. now apply compress_raw_written.
    + intros Hb d Hd. rewrite <- Hd in *.
      apply try_decode_raw; assumption.
Qed.

Lemma heartbeat_raw_path_witness :
  (compress ref_runtime "PONG" (FrameCompressorV3_init "A")
   = (inr (Pair (_deflate_raw_b64 ref_runtime (header_bytes "A" 0))
                (_deflate_raw_b64 ref_runtime
                   ([byte_of_Z _REC_RAW] ++ pool_elem _StringPool_init "PONG"))),
      set_pool (pool_after _StringPool_init "PONG") (header_written "A" 0))
   /\ decode_session ref_runtime
        [_deflate_raw_b64 ref_runtime (header_bytes "A" 0);
         _deflate_raw_b64 ref_runtime
           ([byte_of_Z _REC_RAW] ++ pool_elem _StringPool_init "PONG")] _V3State_init
      = (inr [Some []; Some [json_dumps ref_runtime (JStr "PONG")]],
         set_st_pool (pool_after _StringPool_init "PONG") (header_state "A" 0)))
  /\ (compress ref_runtime "PONG" (header_written "A" 1000)
      = (inr (One (_deflate_raw_b64 ref_runtime
                     ([byte_of_Z _REC_RAW] ++ pool_elem _StringPool_init "PONG"))),
         set_pool (pool_after _StringPool_init "PONG") (header_written "A" 1000))
      /\ _try_decode_v3_line ref_runtime
           (_deflate_raw_b64 ref_runtime
              ([byte_of_Z _REC_RAW] ++ pool_elem _StringPool_init "PONG"))
           (header_state "A" 1000)
         = (inr (Some [json_dumps ref_runtime (JStr "PONG")]),
            set_st_pool (pool_after _StringPool_init "PONG") (header_state "A" 1000))).
Proof.
  split.
  - destruct (proj1 (heartbeat_raw_path ref_runtime "PONG" (FrameCompressorV3_init "A")
                       eq_refl eq_refl) eq_refl) as [Hc Hd].
    split; [exact Hc|exact (Hd eq_refl _V3State_init)].
  - destruct (proj2 (heartbeat_raw_path ref_runtime "PONG" (header_written "A" 1000)
                       eq_refl eq_refl) eq_refl pool_init_wf) as [Hc Hd].
    split; [exact Hc|].
    apply (Hd ltac:(vm_compute; discriminate) (header_state "A" 1000) eq_refl).
Defined.

(** The heartbeat of the specification, evaluated: the RAW record is ['X'],
    the literal tag [2 * 4 + 1] and the four bytes of the text, and the
    decoder prints the text as a JSON string. *)
Example heartbeat_pong :
  [byte_of_Z _REC_RAW] ++ pool_elem _StringPool_init "PONG"
  = map byte_of_Z [0x58; 9; 0x50; 0x4f; 0x4e; 0x47]
  /\ list_byte_of_string (json_dumps ref_runtime (JStr "PONG"))
     = map byte_of_Z [34; 0x50; 0x4f; 0x4e; 0x47; 34].
Proof. split; vm_compute; reflexivity. Qed.

(** ** The scenarios, evaluated *)

(** C8: the delta-and-reference scenario.  After the book frame of
    scenario 1 (timestamp 1000, levels 0.5/10 and 0.6/5), compressing the
    price-change frame of scenario 2 returns one line, the frame record
    [scenario_2_record]: its event has the type byte 1, in which [TS_ABS]
    is clear, and the timestamp value 50 (the delta from 1000), and its
    price [0.5], interned with id 1 by scenario 1, is written as the varint
    2, a reference (low bit 0) to id 1; decoding the session's lines gives
    for that line the event with side [SELL] and timestamp [1050]. *)
Theorem scenario_delta_and_reference :
  exists (h l1 : string) (c1 c2 : FrameCompressorV3) (o1 : string) (d : _V3State),
    compress ref_runtime scenario_1_frame (FrameCompressorV3_init "A")
    = (inr (Pair h l1), c1)
    /\ compress ref_runtime scenario_2_frame c1
       = (inr (One (_deflate_raw_b64 ref_runtime scenario_2_record)), c2)
    /\ scenario_2_record = frame_bytes ref_runtime (pool c1) 1000 scenario_2_events
    /\ prev_ts c1 = Some 1000
    /\ buf_at scenario_2_record 2 = inr 1
    /\ Z.land 1 _TB_TS_ABS = 0
    /\ _uvarint_decode scenario_2_record 3 = inr (50, 4%nat)
    /\ _uvarint_decode scenario_2_record 6 = inr (2, 7%nat)
    /\ Z.land 2 1 = 0
    /\ _i2s (pool c1) !! Z.to_nat (Z.shiftr 2 1) = Some "0.5"%string
    /\ _s2i (pool c1) !! "0.5"%string = Some 1
    /\ decode_session ref_runtime
         [h; l1; _deflate_raw_b64 ref_runtime scenario_2_record] _V3State_init
       = (inr [Some []; Some [o1]; Some [scenario_2_decoded]], d).
Proof.
  do 6 eexists.
  split; [vm_compute; reflexivity|].
  split; [vm_compute; reflexivity|].
  repeat split; vm_compute; reflexivity.
Qed.

(** C2: the timestamp delta law fails on an event without timestamp.  The
    encoder leaves its [prev_ts] at 1000 when it encodes the event of
    [untimed_frame]; the decoder, reading the absolute value 0 the encoder
    wrote, sets its [prev_ts] to 0.  In a session the next frame (scenario
    2, timestamp 1050, written as the delta 50) is then decoded with
    timestamp 50, and the two [prev_ts] are 1050 and 50. *)
Theorem timestamp_law_fails_without_timestamp :
  (forall R : PyRuntime,
      exists (rec : list byte) (c' : FrameCompressorV3) (obj : json) (n : nat)
             (d' : _V3State),
        _encode_event R untimed_event [] (header_written "A" 1000) = (inr rec, c')
        /\ _decode_event rec 0 (header_state "A" 1000) = (inr (obj, n), d')
        /\ prev_ts c' = Some 1000
        /\ st_prev_ts d' = Some 0)
  /\ (exists (c : FrameCompressorV3) (d : _V3State) (os : list (option (list string))),
         run_session ref_runtime "A" [scenario_1_frame; untimed_frame] = Some (c, d, os)
         /\ prev_ts c = Some 1000
         /\ st_prev_ts d = Some 0)
  /\ (exists (c : FrameCompressorV3) (d : _V3State) (o1 o2 : string),
         run_session ref_runtime "A" [scenario_1_frame; untimed_frame; scenario_2_frame]
         = Some (c, d,
                 [Some []; Some [o1]; Some [o2];
                  Some [RefRuntime.dq
                          "[{'event_type':'price_change','asset_id':'A','timestamp':'50','changes':[{'side':'SELL','price':'0.5','size':'0'}]}]"]])
         /\ prev_ts c = Some 1050
         /\ st_prev_ts d = Some 50).
Proof.
  split; [|split].
  - intros R. do 5 eexists.
    split; [vm_compute; reflexivity|].
    split; [vm_compute; reflexivity|].
    split; reflexivity.
  - do 3 eexists. split; [vm_compute; reflexivity|]. split; reflexivity.
  - do 4 eexists. split; [vm_compute; reflexivity|]. split; reflexivity.
Qed.

(** ** Frames without header *)



(** The first frame line of the scenario session, alone on a fresh state:
    the book event comes out with the empty asset id and the timestamp 0,
    the delta the encoder wrote after its header. *)
Example first_frame_without_header :
  fst (_try_decode_v3_line ref_runtime
         (_deflate_raw_b64 ref_runtime
            (frame_bytes ref_runtime _StringPool_init 1000 scenario_1_events))
         _V3State_init)
  = inr (Some [RefRuntime.dq
                 "[{'event_type':'book','asset_id':'','timestamp':'0','bids':[{'price':'0.5','size':'10'}],'asks':[{'price':'0.6','size':'5'}]}]"]).
Proof. vm_compute. reflexivity. Qed.


(** ** Header idempotence on the heartbeat and the scenario frames *)

Lemma header_idempotence_witness :
  (Forall (fun r => returned_pair r = false)
     (fst (compress_calls ref_runtime ["PONG"%string; scenario_1_frame]
             (header_written "A" 0)))
   /\ wrote_header
        (snd (compress_calls ref_runtime ["PONG"%string; scenario_1_frame]
                (header_written "A" 0))) = true)
  /\ (Forall (fun r' => returned r' = false) []
      /\ Forall (fun r' => returned_pair r' = false)
           (tl (fst (compress_calls ref_runtime ["PONG"%string; scenario_1_frame]
                       (FrameCompressorV3_init "A"))))).
Proof.
  split.
  - apply (proj1 (header_idempotence ref_runtime ["PONG"%string; scenario_1_frame]
                    (header_written "A" 0))).
    reflexivity.
  - apply (proj2 (header_idempotence ref_runtime ["PONG"%string; scenario_1_frame]
                    (FrameCompressorV3_init "A"))
             []
             (hd (inl IndexError)
                (fst (compress_calls ref_runtime ["PONG"%string; scenario_1_frame]
                        (FrameCompressorV3_init "A"))))).
    + vm_compute. reflexivity.
    + vm_compute. reflexivity.
Defined.

(** A call that raises before the header is written (the frame [[1]] has
    an event that is not a dict) returns nothing, and the call after it
    returns the pair. *)
Example header_after_failed_call :
  exists (h l : string) (c : FrameCompressorV3),
    compress_calls ref_runtime ["[1]"%string; "PONG"%string] (FrameCompressorV3_init "A")
    = ([inl AttributeError; inr (Pair h l)], c).
Proof. do 3 eexists. vm_compute. reflexivity. Qed.

(** * Further properties of the codec *)

(** ** Varints: bounds *)

Lemma uvarint_scan_bounds (rest : list byte) :
  forall (i : nat) (k : nat) (x r : Z) (j : nat),
    (k <= 10)%nat -> 0 <= x < 2 ^ (7 * Z.of_nat k) ->
    uvarint_scan rest i (7 * Z.of_nat k) x = inr (r, j) ->
    (i < j <= i + length rest)%nat /\ (j + k <= i + 11)%nat /\ 0 <= r < 2 ^ 77.
Proof.
  induction rest as [|b rest IH]; intros i k x r j Hk Hx Hs; [discriminate|].
  cbn [uvarint_scan] in Hs.
  pose proof (byte_to_Z_range b) as Hb.
  assert (Hm : 0 <= Z.land (byte_to_Z b) 0x7F < 128)
    by (rewrite land_7F; apply Z.mod_pos_bound; lia).
  rewrite lor_shiftl_add in Hs by lia.
  assert (Hpow : 2 ^ (7 * Z.of_nat (S k)) = 2 ^ (7 * Z.of_nat k) * 128).
  { replace (7 * Z.of_nat (S k)) with (7 * Z.of_nat k + 7) by lia.
    rewrite Z.pow_add_r by lia. reflexivity. }
  assert (Hnew : 0 <= x + Z.land (byte_to_Z b) 0x7F * 2 ^ (7 * Z.of_nat k)
                 < 2 ^ (7 * Z.of_nat (S k))) by (rewrite Hpow; nia).
  destruct (Z.land (byte_to_Z b) 0x80 =? 0).
  - injection Hs as <- <-. cbn [length]. split; [lia|]. split; [lia|].
    split; [lia|].
    apply Z.lt_le_trans with (2 ^ (7 * Z.of_nat (S k))); [lia|].
    apply Z.pow_le_mono_r; lia.
  - destruct (Z.ltb_spec 70 (7 * Z.of_nat k + 7)) as [|Hle]; [discriminate|].
    replace (7 * Z.of_nat k + 7) with (7 * Z.of_nat (S k)) in Hs by lia.
    apply IH in Hs; [|lia|exact Hnew].
    cbn [length]. lia.
Qed.

Lemma uvarint_scan_errors (rest : list byte) :
  forall (i : nat) (shift x : Z) (e : exn),
    uvarint_scan rest i shift x = inl e ->
    e = UvarintTruncated \/ e = UvarintOverflow.
Proof.
  induction rest as [|b rest IH]; intros i shift x e Hs.
  - injection Hs as <-. now left.
  - cbn [uvarint_scan] in Hs.
    destruct (Z.land (byte_to_Z b) 0x80 =? 0); [discriminate|].
    destruct (70 <? shift + 7).
    + injection Hs as <-. now right.
    + exact (IH _ _ _ _ Hs).
Qed.

Lemma uvarint_decode_cases (buf : list byte) (i : nat) :
  match _uvarint_decode buf i with
  | inr (x, j) =>
      (i < j <= length buf)%nat /\ (j <= i + 11)%nat /\ 0 <= x < 2 ^ 77
  | inl e => e = UvarintTruncated \/ e = UvarintOverflow
  end.
Proof.
  unfold _uvarint_decode.
  destruct (uvarint_scan (drop i buf) i 0 0) as [e|[x j]] eqn:E.
  - exact (uvarint_scan_errors _ _ _ _ _ E).
  - apply (uvarint_scan_bounds _ i 0%nat) in E; [|lia|cbn; lia].
    rewrite length_drop in E. lia.
Qed.

(** X1: [_uvarint_decode] stays inside the buffer.  A successful call
    consumes between one and eleven bytes, all of them inside [buf], and
    returns a value in [0, 2^77); a failing call raises the truncation or
    the overflow error, never an index error. *)
Theorem uvarint_decode_bounds :
  forall (buf : list byte) (i : nat),
    match _uvarint_decode buf i with
    | inr (x, j) =>
        (i < j <= length buf)%nat /\ (j <= i + 11)%nat /\ 0 <= x < 2 ^ 77
    | inl e => e = UvarintTruncated \/ e = UvarintOverflow
    end.
Proof.
  intros buf i. unfold _uvarint_decode.
  destruct (uvarint_scan (drop i buf) i 0 0) as [e|[x j]] eqn:E.
  - exact (uvarint_scan_errors _ _ _ _ _ E).
  - apply (uvarint_scan_bounds _ i 0%nat) in E; [|lia|cbn; lia].
    rewrite length_drop in E. lia.
Qed.

(** ** Varints: the size of an encoding *)

Lemma uvarint_bytes_shape (m : nat) :
  forall n : Z,
    0 <= n < 2 ^ (7 * (Z.of_nat m + 1)) ->
    exists (front : list byte) (l : byte),
      uvarint_bytes n = front ++ [l]
      /\ Forall cont_bit front /\ byte_to_Z l < 128
      /\ length front = Z.to_nat (Z.log2 n / 7).
Proof.
  induction m as [|m IH]; intros n Hn.
  - change (2 ^ (7 * (Z.of_nat 0 + 1))) with 128 in Hn.
    exists [], (byte_of_Z n). rewrite uvarint_bytes_small by lia.
    split; [reflexivity|]. split; [constructor|].
    rewrite byte_to_of_Z by lia. split; [lia|].
    assert (Z.log2 n < 7) by (destruct (Z.eq_dec n 0) as [->|];
                               [cbn; lia|apply Z.log2_lt_pow2; lia]).
    pose proof (Z.log2_nonneg n). rewrite Z.div_small by lia. reflexivity.
  - destruct (Z_le_gt_dec n 0x7F) as [Hle|Hgt].
    + exists [], (byte_of_Z n). rewrite uvarint_bytes_small by lia.
      split; [reflexivity|]. split; [constructor|].
      rewrite byte_to_of_Z by lia. split; [lia|].
      assert (Z.log2 n < 7) by (destruct (Z.eq_dec n 0) as [->|];
                                 [cbn; lia|apply Z.log2_lt_pow2; lia]).
      pose proof (Z.log2_nonneg n). rewrite Z.div_small by lia. reflexivity.
    + assert (Hq : 0 <= n / 128 < 2 ^ (7 * (Z.of_nat m + 1))).
      { split; [apply Z.div_pos; lia|]. apply Z.div_lt_upper_bound; [lia|].
        replace (7 * (Z.of_nat (S m) + 1)) with (7 + 7 * (Z.of_nat m + 1)) in Hn by lia.
        rewrite Z.pow_add_r in Hn by lia. change (2 ^ 7) with 128 in Hn. lia. }
      destruct (IH _ Hq) as (front & l & Hb & Hf & Hl & Hlen).
      pose proof (Z.mod_pos_bound n 128 ltac:(lia)) as Hmod.
      exists (byte_of_Z (n mod 128 + 128) :: front), l.
      rewrite uvarint_bytes_big, Hb by lia.
      split; [reflexivity|]. split.
      { constructor; [|exact Hf]. unfold cont_bit. rewrite byte_to_of_Z by lia. lia. }
      split; [exact Hl|].
      cbn [length]. rewrite Hlen.
      assert (H7 : 7 <= Z.log2 n) by (apply Z.log2_le_pow2; lia).
      assert (Hlog : Z.log2 (n / 128) = Z.log2 n - 7).
      { change 128 with (2 ^ 7). rewrite <- Z.shiftr_div_pow2 by lia.
        rewrite Z.log2_shiftr by lia. lia. }
      rewrite Hlog.
      replace (Z.log2 n) with ((Z.log2 n - 7) + 1 * 7) at 2 by lia.
      rewrite Z.div_add by lia.
      assert (0 <= (Z.log2 n - 7) / 7) by (apply Z.div_pos; lia). lia.
Qed.

(** X2: the size and shape of a varint.  For [n >= 0], [_uvarint_encode]
    leaves the bytes already in [out] as they are and appends
    [floor(log2 n / 7) + 1] bytes ([1] byte for [0]): all but the last carry
    the continuation bit, the last does not. *)
Theorem uvarint_encode_shape :
  forall (n : Z) (out : list byte),
    0 <= n ->
    exists (front : list byte) (l : byte),
      _uvarint_encode n out = inr (out ++ front ++ [l])
      /\ Forall cont_bit front /\ byte_to_Z l < 128
      /\ length (front ++ [l]) = S (Z.to_nat (Z.log2 n / 7)).
Proof.
  intros n out Hn.
  assert (Hb : 0 <= n < 2 ^ (7 * (Z.of_nat (Z.to_nat (Z.log2 n)) + 1))).
  { split; [lia|]. destruct (Z.eq_dec n 0) as [->|Hne]; [cbn; lia|].
    pose proof (Z.log2_nonneg n). rewrite Z2Nat.id by lia.
    apply Z.lt_le_trans with (2 ^ (Z.log2 n + 1)).
    - apply Z.log2_spec. lia.
    - apply Z.pow_le_mono_r; lia. }
  destruct (uvarint_bytes_shape _ n Hb) as (front & l & Hbs & Hf & Hl & Hlen).
  exists front, l. rewrite _uvarint_encode_ok, Hbs by lia.
  split; [reflexivity|]. split; [exact Hf|]. split; [exact Hl|].
  rewrite length_app. cbn [length]. lia.
Qed.

Lemma uvarint_encode_shape_witness :
  exists (front : list byte) (l : byte),
    _uvarint_encode 1050 [] = inr ([] ++ front ++ [l])
    /\ Forall cont_bit front /\ byte_to_Z l < 128
    /\ length (front ++ [l]) = S (Z.to_nat (Z.log2 1050 / 7)).
Proof. apply (uvarint_encode_shape 1050 []). lia. Defined.

(** ** The alphabet of a line *)

Lemma b64_char_url (v : Z) : 0 <= v < 64 -> b64url_char (b64_char v) = true.
Proof.
  revert v. apply forall_below_64. intros k Hk.
  do 64 (destruct k as [|k]; [vm_compute; auto|]). lia.
Qed.

Lemma urlsafe_b64encode_chars (n : nat) :
  forall data : list byte,
    (length data <= n)%nat ->
    forallb b64url_char (urlsafe_b64encode data) = true
    /\ length (urlsafe_b64encode data) = (4 * ((length data + 2) / 3))%nat.
Proof.
  induction n as [|n IH]; intros data Hlen.
  - destruct data; [split; reflexivity|simpl in Hlen; lia].
  - destruct data as [|a [|b [|c rest]]]; [split; reflexivity| | |].
    + pose proof (byte_to_Z_range a) as Ha.
      destruct (sextet_ranges _ _ _ Ha Ha Ha) as (H0 & H1 & _).
      cbn [urlsafe_b64encode forallb].
      rewrite (b64_char_url _ H0), (b64_char_url _ H1). split; reflexivity.
    + pose proof (byte_to_Z_range a) as Ha. pose proof (byte_to_Z_range b) as Hb.
      destruct (sextet_ranges _ _ _ Ha Hb Hb) as (H0 & _ & H1 & H2 & _).
      cbn [urlsafe_b64encode forallb].
      rewrite (b64_char_url _ H0), (b64_char_url _ H1), (b64_char_url _ H2).
      split; reflexivity.
    + pose proof (byte_to_Z_range a) as Ha. pose proof (byte_to_Z_range b) as Hb.
      pose proof (byte_to_Z_range c) as Hc.
      destruct (sextet_ranges _ _ _ Ha Hb Hc) as (H0 & _ & H1 & _ & H2 & H3).
      cbn [urlsafe_b64encode forallb].
      rewrite (b64_char_url _ H0), (b64_char_url _ H1), (b64_char_url _ H2),
              (b64_char_url _ H3).
      cbn [andb]. destruct (IH rest ltac:(simpl in Hlen; lia)) as [Hc' Hl'].
      split; [exact Hc'|].
      cbn [length]. rewrite Hl'.
      replace (S (S (S (length rest))) + 2)%nat with (length rest + 2 + 1 * 3)%nat by lia.
      rewrite Nat.div_add by lia. lia.
Qed.

(** X3: the alphabet of a line.  Every line [_deflate_raw_b64] returns is
    a non-empty text over [A-Z a-z 0-9 - _ =] whose length is four times
    the number of three-byte groups of the compressed record; in
    particular it holds no newline, quote or backslash, and its ASCII
    encoding is the text itself. *)
Theorem deflate_raw_b64_alphabet :
  forall (R : PyRuntime) (data : list byte),
    forallb b64url_char (list_byte_of_string (_deflate_raw_b64 R data)) = true
    /\ length (list_byte_of_string (_deflate_raw_b64 R data))
       = (4 * ((length (raw_deflate R data) + 2) / 3))%nat
    /\ _deflate_raw_b64 R data <> EmptyString
    /\ ascii_encode (_deflate_raw_b64 R data)
       = Some (list_byte_of_string (_deflate_raw_b64 R data)).
Proof.
  intros R data. unfold _deflate_raw_b64.
  rewrite list_byte_of_string_of_list_byte.
  destruct (urlsafe_b64encode_chars _ (raw_deflate R data) (Nat.le_refl _)) as [Hc Hl].
  split; [exact Hc|]. split; [exact Hl|]. split.
  - pose proof (raw_deflate_nonempty R data) as Hne.
    destruct (raw_deflate R data) as [|a [|b [|c rest]]]; [congruence| | |];
      discriminate.
  - unfold ascii_encode. rewrite list_byte_of_string_of_list_byte.
    now rewrite urlsafe_b64encode_ascii.
Qed.

(** ** The decoder pool on arbitrary bytes *)

Lemma pool_intern_wf (p : _StringPool) (s : string) :
  pool_wf p -> pool_wf (pool_intern s p).
Proof.
  intros (Hn & H1 & Hinv). unfold pool_wf, pool_intern. cbn. split; [|split].
  - rewrite length_app. simpl. lia.
  - lia.
  - intros s' i. destruct (decide (s = s')) as [->|Hne].
    + rewrite lookup_insert_eq. intros [= <-]. split; [lia|].
      rewrite Hn, Nat2Z.id. rewrite lookup_app_r by lia.
      now rewrite Nat.sub_diag.
    + rewrite lookup_insert_ne by assumption. intros Hs.
      destruct (Hinv _ _ Hs) as [Hi Hl]. split; [lia|].
      rewrite lookup_app_l; [exact Hl|]. apply lookup_lt_Some in Hl. exact Hl.
Qed.

(** X4: [_StringPool.decode] on arbitrary bytes.  On a consistent pool a
    call either raises, leaving the pool as it was, with one of the varint
    errors, "bad string ref", "literal overflow" or a UTF-8 error (the list
    lookup [_i2s[idx]] is never out of range); or it returns a string and an
    index inside the buffer, past the one it started from, and leaves a
    consistent pool: the same pool for a reference, the pool with the
    string appended under the next id for a literal. *)
Theorem pool_decode_safe :
  forall (buf : list byte) (i : nat) (p : _StringPool),
    pool_wf p ->
    match _StringPool_decode buf i p with
    | (inr (s, j), p') =>
        (i < j <= length buf)%nat /\ pool_wf p'
        /\ ((p' = p /\ exists id, 1 <= id < _next p /\ _i2s p !! Z.to_nat id = Some s)
            \/ (p' = pool_intern s p /\ _i2s p' !! Z.to_nat (_next p) = Some s))
    | (inl e, p') =>
        p' = p
        /\ (e = UvarintTruncated \/ e = UvarintOverflow \/ e = BadStringRef
            \/ e = LiteralOverflow \/ e = UnicodeDecodeError)
    end.
Proof.
  intros buf i p Hp. unfold _StringPool_decode.
  pose proof (uvarint_decode_cases buf i) as Hv.
  destruct (_uvarint_decode buf i) as [e|[v i']].
  - split; [reflexivity|]. destruct Hv as [->| ->]; auto.
  - destruct Hv as (Hi & _ & Hvr).
    destruct (Z.land v 1 =? 0).
    + destruct (Z.leb_spec (Z.shiftr v 1) 0) as [|Hlo]; cbn [orb].
      { split; [reflexivity|]. auto. }
      destruct (Z.leb_spec (_next p) (Z.shiftr v 1)) as [|Hhi].
      { split; [reflexivity|]. auto. }
      destruct Hp as (Hn & H1 & Hinv).
      destruct (_i2s p !! Z.to_nat (Z.shiftr v 1)) as [s|] eqn:El.
      * split; [lia|]. split; [exact (conj Hn (conj H1 Hinv))|].
        left. split; [reflexivity|]. exists (Z.shiftr v 1). split; [lia|exact El].
      * apply lookup_ge_None in El. lia.
    + destruct (Z.ltb_spec (Z.of_nat (length buf)) (Z.of_nat i' + Z.shiftr v 1)) as [|Hfit].
      { split; [reflexivity|]. auto 6. }
      destruct (utf8_decode (take (Z.to_nat (Z.shiftr v 1)) (drop i' buf))) as [s|].
      * assert (0 <= Z.shiftr v 1) by (apply Z.shiftr_nonneg; lia).
        split; [lia|]. split; [now apply pool_intern_wf|].
        right. split; [reflexivity|].
        destruct Hp as (Hn & _ & _). unfold pool_intern. cbn [_i2s].
        rewrite Hn, Nat2Z.id, lookup_app_r by lia. now rewrite Nat.sub_diag.
      * split; [reflexivity|]. auto 6.
Qed.

Lemma pool_decode_safe_witness :
  match _StringPool_decode (map byte_of_Z [7; 48; 46; 53; 2]) 0 _StringPool_init with
  | (inr (s, j), p') =>
      (0 < j <= length (map byte_of_Z [7; 48; 46; 53; 2]%Z))%nat /\ pool_wf p'
      /\ ((p' = _StringPool_init
           /\ exists id, 1 <= id < _next _StringPool_init
                         /\ _i2s _StringPool_init !! Z.to_nat id = Some s)
          \/ (p' = pool_intern s _StringPool_init
              /\ _i2s p' !! Z.to_nat (_next _StringPool_init) = Some s))
  | (inl e, p') =>
      p' = _StringPool_init
      /\ (e = UvarintTruncated \/ e = UvarintOverflow \/ e = BadStringRef
          \/ e = LiteralOverflow \/ e = UnicodeDecodeError)
  end.
Proof.
  apply (pool_decode_safe (map byte_of_Z [7; 48; 46; 53; 2]) 0 _StringPool_init).
  apply pool_init_wf.
Defined.

(** ** Lines that are not V3 *)

(** X5: what [_try_decode_v3_line] takes as "not V3".  The call returns
    [None] exactly when the token does not inflate (not ASCII, not base64,
    not a DEFLATE stream), inflates to no bytes, or begins with a byte
    other than ['H'], ['F'] and ['X']; it then leaves the decoder state
    untouched.  An error inside a header, frame or raw record is raised, not
    turned into [None]. *)
Theorem try_decode_not_v3 :
  forall (R : PyRuntime) (token : string) (d : _V3State),
    (fst (_try_decode_v3_line R token d) = inr None
     <-> match _inflate_raw_b64 R token with
         | inl _ => True
         | inr [] => True
         | inr (k :: _) =>
             byte_to_Z k <> 0x48 /\ byte_to_Z k <> 0x46 /\ byte_to_Z k <> 0x58
         end)
    /\ (fst (_try_decode_v3_line R token d) = inr None ->
        snd (_try_decode_v3_line R token d) = d).
Proof.
  intros R token d. unfold _try_decode_v3_line.
  destruct (_inflate_raw_b64 R token) as [e|[|k body]].
  - cbn. tauto.
  - cbn. tauto.
  - cbv zeta. unfold _REC_HEADER, _REC_FRAME, _REC_RAW.
    destruct (Z.eqb_spec (byte_to_Z k) 0x48) as [Hh|Hh].
    { unfold bind, ret. destruct (_decode_header (k :: body) 1 d) as [[e|n] d'];
        cbn; split; [split; [discriminate|lia]|discriminate
                    |split; [discriminate|lia]|discriminate]. }
    destruct (Z.eqb_spec (byte_to_Z k) 0x46) as [Hf|Hf].
    { unfold bind, ret. destruct (_decode_frame R (k :: body) 1 d) as [[e|[js n]] d'];
        cbn; split; [split; [discriminate|lia]|discriminate
                    |split; [discriminate|lia]|discriminate]. }
    destruct (Z.eqb_spec (byte_to_Z k) 0x58) as [Hx|Hx].
    { unfold bind, ret. destruct (_decode_raw R (k :: body) 1 d) as [[e|[js n]] d'];
        cbn; split; [split; [discriminate|lia]|discriminate
                    |split; [discriminate|lia]|discriminate]. }
    cbn. tauto.
Qed.

(** ** Sessions of frames of any kind *)

Section MixedSession.
Context (R : PyRuntime).

Lemma view_any_events (text : string) (es : list event) :
  view_any R text = Some (FEvents es) -> view_frame R text = Some es.
Proof.
  unfold view_any. destruct (json_loads R text) as [[]|] eqn:E;
    try (destruct (wf_str _); discriminate).
  - destruct (view_frame R text); [intros [= <-]; reflexivity|discriminate].
  - destruct (view_frame R text); [intros [= <-]; reflexivity|discriminate].
Qed.

Lemma view_any_raw (text s : string) :
  view_any R text = Some (FRaw s) ->
  compress R text = compress_raw R s /\ wf_str s = true.
Proof.
  unfold view_any, compress.
  destruct (json_loads R text) as [[]|] eqn:E;
    try (destruct (view_frame R text); discriminate);
    match goal with
    | |- context [wf_str ?t] => destruct (wf_str t) eqn:Hw; [|discriminate]
    end;
    intros [= <-]; split; solve [reflexivity|assumption].
Qed.

Lemma raw_step_synced (s : string) (c : FrameCompressorV3) :
  wf_str s = true -> in_session c ->
  exists line c',
    compress_raw R s c = (inr (One line), c')
    /\ in_session c' /\ asset_id c' = asset_id c
    /\ _next (pool c) <= _next (pool c')
    /\ (_next (pool c') <= 2 ^ 76 ->
        forall d, synced c d ->
        exists d',
          _try_decode_v3_line R line d = (inr (Some [json_dumps R (JStr s)]), d')
          /\ synced c' d').
Proof.
  intros Hs (Hw & Hp & p & Hprev & Hp0).
  eexists _, _. rewrite (compress_raw_written R s c Hw Hp).
  split; [reflexivity|]. cbn [pool set_pool asset_id].
  split; [|split; [reflexivity|split; [apply pool_after_next|]]].
  { refine (conj Hw (conj _ _)); [now apply pool_after_wf|].
    exists p. split; [exact Hprev|exact Hp0]. }
  intros Hb d (Hstamp & Hpool & Hdprev).
  rewrite <- Hpool in *.
  rewrite (try_decode_raw R s d Hp Hs Hb).
  eexists. split; [reflexivity|].
  exact (conj Hstamp (conj eq_refl Hdprev)).
Qed.

Lemma raw_step_fresh (s : string) (c : FrameCompressorV3) :
  wf_str s = true -> wrote_header c = false -> wf_str (asset_id c) = true ->
  exists h line c',
    compress_raw R s c = (inr (Pair h line), c')
    /\ in_session c' /\ asset_id c' = asset_id c
    /\ (_next (pool c') <= 2 ^ 76 ->
        forall d, exists d1 d',
          _try_decode_v3_line R h d = (inr (Some []), d1)
          /\ _try_decode_v3_line R line d1 = (inr (Some [json_dumps R (JStr s)]), d')
          /\ synced c' d').
Proof.
  intros Hs Hw Hwfa.
  eexists _, _, _. rewrite (compress_raw_fresh R s c Hw).
  split; [reflexivity|]. cbn [pool set_pool asset_id header_written].
  split; [|split; [reflexivity|]].
  { refine (conj eq_refl (conj _ _)); [apply pool_after_wf, pool_init_wf|].
    exists 0. split; [reflexivity|lia]. }
  intros Hb d.
  rewrite (try_decode_header R (asset_id c) 0 d Hwfa ltac:(lia)).
  eexists _, _. split; [reflexivity|].
  pose proof (try_decode_raw R s (header_state (asset_id c) 0) pool_init_wf Hs Hb) as Hx.
  cbn [st_pool header_state] in Hx. rewrite Hx. split; [reflexivity|].
  exact (conj eq_refl (conj eq_refl eq_refl)).
Qed.

Lemma any_step_synced (text : string) (fv : frame_view) (c : FrameCompressorV3) :
  view_any R text = Some fv -> in_session c ->
  exists line c',
    compress R text c = (inr (One line), c')
    /\ in_session c' /\ asset_id c' = asset_id c
    /\ _next (pool c) <= _next (pool c')
    /\ (_next (pool c') <= 2 ^ 76 ->
        forall d, synced c d ->
        exists d',
          _try_decode_v3_line R line d
          = (inr (Some [frame_output R (asset_id c) fv]), d')
          /\ synced c' d').
Proof.
  intros Hv Hc. destruct fv as [es|s].
  - apply view_any_events in Hv. exact (frame_step_synced R text es c Hv Hc).
  - apply view_any_raw in Hv as [-> Hs]. exact (raw_step_synced s c Hs Hc).
Qed.

Lemma any_step_fresh (text : string) (fv : frame_view) (c : FrameCompressorV3) :
  view_any R text = Some fv ->
  wrote_header c = false -> wf_str (asset_id c) = true ->
  exists h line c',
    compress R text c = (inr (Pair h line), c')
    /\ in_session c' /\ asset_id c' = asset_id c
    /\ (_next (pool c') <= 2 ^ 76 ->
        forall d, exists d1 d',
          _try_decode_v3_line R h d = (inr (Some []), d1)
          /\ _try_decode_v3_line R line d1
             = (inr (Some [frame_output R (asset_id c) fv]), d')
          /\ synced c' d').
Proof.
  intros Hv Hw Ha. destruct fv as [es|s].
  - apply view_any_events in Hv. exact (frame_step_fresh R text es c Hv Hw Ha).
  - apply view_any_raw in Hv as [-> Hs]. exact (raw_step_fresh s c Hs Hw Ha).
Qed.

Lemma any_session_synced (frames : list string) (fvs : list frame_view) :
  Forall2 (fun t fv => view_any R t = Some fv) frames fvs ->
  forall c, in_session c ->
  exists tokens c',
    compress_session R frames c = (inr tokens, c')
    /\ in_session c' /\ asset_id c' = asset_id c
    /\ _next (pool c) <= _next (pool c')
    /\ (_next (pool c') <= 2 ^ 76 ->
        forall d, synced c d ->
        exists d',
          decode_session R tokens d
          = (inr (map (fun fv => Some [frame_output R (asset_id c) fv]) fvs), d')
          /\ synced c' d').
Proof.
  induction 1 as [|text fv frames fvs Hv _ IH]; intros c Hc.
  - exists [], c. split; [reflexivity|]. split; [assumption|]. split; [reflexivity|].
    split; [lia|]. intros _ d Hs. exists d. split; [reflexivity|assumption].
  - destruct (any_step_synced text fv c Hv Hc)
      as (line & c1 & Hcomp & Hc1 & Haid1 & Hn1 & Hdec1).
    destruct (IH c1 Hc1) as (tokens & c' & Hrest & Hc' & Haid' & Hn' & Hdec').
    exists (line :: tokens), c'. cbn [compress_session].
    rewrite (bind_inr _ _ _ _ _ Hcomp), (bind_inr _ _ _ _ _ Hrest).
    split; [reflexivity|]. split; [assumption|]. split; [congruence|].
    split; [lia|]. intros Hb d Hs.
    destruct (Hdec1 ltac:(lia) d Hs) as (d1 & Hd1 & Hs1).
    destruct (Hdec' Hb d1 Hs1) as (d' & Hd' & Hs').
    exists d'. cbn [decode_session map].
    rewrite (bind_inr _ _ _ _ _ Hd1), (bind_inr _ _ _ _ _ Hd').
    rewrite Haid1 in *. split; [reflexivity|assumption].
Qed.

(** A whole session of a fresh compressor, decoded from any state. *)
Lemma any_session_run (aid : string) (frames : list string) (fvs : list frame_view) :
  wf_str aid = true ->
  Forall2 (fun t fv => view_any R t = Some fv) frames fvs ->
  frames <> [] ->
  exists tokens c',
    compress_session R frames (FrameCompressorV3_init aid) = (inr tokens, c')
    /\ (_next (pool c') <= 2 ^ 76 ->
        forall d0, exists d',
          decode_session R tokens d0
          = (inr (Some [] :: map (fun fv => Some [frame_output R aid fv]) fvs), d')
          /\ synced c' d' /\ asset_id c' = aid).
Proof.
  intros Haid Hframes Hne.
  destruct Hframes as [|text fv frames fvs Hv Hrest]; [congruence|].
  destruct (any_step_fresh text fv (FrameCompressorV3_init aid) Hv eq_refl Haid)
    as (h & line & c1 & Hcomp & Hc1 & Haid1 & Hdec1).
  destruct (any_session_synced frames fvs Hrest c1 Hc1)
    as (tokens & c' & Hcs & _ & Haid' & Hn & Hdec').
  exists ([h; line] ++ tokens), c'. cbn [compress_session].
  rewrite (bind_inr _ _ _ _ _ Hcomp), (bind_inr _ _ _ _ _ Hcs).
  split; [reflexivity|]. intros Hb d0.
  destruct (Hdec1 ltac:(lia) d0) as (d1 & d2 & Hh & Hl & Hs).
  destruct (Hdec' Hb d2 Hs) as (d' & Hd' & Hs').
  cbn [asset_id FrameCompressorV3_init] in *.
  assert (Hdl : decode_session R (line :: tokens) d1
                = (inr (map (fun fv => Some [frame_output R aid fv]) (fv :: fvs)), d')).
  { cbn [decode_session map].
    rewrite (bind_inr _ _ _ _ _ Hl), (bind_inr _ _ _ _ _ Hd').
    rewrite Haid1. reflexivity. }
  exists d'. cbn [app].
  change (decode_session R (h :: line :: tokens))
    with (o <-- _try_decode_v3_line R h ;;
          os <-- decode_session R (line :: tokens) ;;
          ret (o :: os)).
  rewrite (bind_inr _ _ _ _ _ Hh), (bind_inr _ _ _ _ _ Hdl).
  split; [reflexivity|]. split; [exact Hs'|congruence].
Qed.

Lemma session_outputs_any (aid : string) (fvs : list frame_view) :
  session_outputs (map (fun fv => Some [frame_output R aid fv]) fvs)
  = Some (map (frame_output R aid) fvs).
Proof.
  induction fvs as [|fv fvs IH]; [reflexivity|]. cbn. now rewrite IH.
Qed.

Lemma decode_session_app (t1 t2 : list string) :
  forall (d d1 d2 : _V3State) (os1 os2 : list (option (list string))),
    decode_session R t1 d = (inr os1, d1) ->
    decode_session R t2 d1 = (inr os2, d2) ->
    decode_session R (t1 ++ t2) d = (inr (os1 ++ os2), d2).
Proof.
  induction t1 as [|t t1 IH]; intros d d1 d2 os1 os2 H1 H2.
  - injection H1 as <- <-. exact H2.
  - cbn [decode_session app] in *. unfold bind in H1 |- *.
    destruct (_try_decode_v3_line R t d) as [[e|o] d'] eqn:Et; [discriminate|].
    destruct (decode_session R t1 d') as [[e|os] d''] eqn:Es; [discriminate|].
    injection H1 as <- <-.
    rewrite (IH _ _ _ _ _ Es H2). reflexivity.
Qed.

Lemma session_outputs_app (os1 os2 : list (option (list string))) (a b : list string) :
  session_outputs os1 = Some a -> session_outputs os2 = Some b ->
  session_outputs (os1 ++ os2) = Some (a ++ b).
Proof.
  revert a. induction os1 as [|[js|] os1 IH]; intros a H1 H2.
  - injection H1 as <-. exact H2.
  - cbn [session_outputs app] in *.
    destruct (session_outputs os1) as [r|]; [|discriminate].
    injection H1 as <-. rewrite (IH r eq_refl H2). cbn. now rewrite app_assoc.
  - discriminate.
Qed.

End MixedSession.

(** X6: a session of frames of any kind, decoded from any state.  For every
    non-empty sequence of frame texts, each a frame of valid events, a text
    that is not JSON (a heartbeat) or a JSON scalar, a fresh compressor
    returns lines for every frame; a decoder state, whatever it has seen
    before, fed these lines gives no output for the header line and then one
    JSON text per frame: the array of the normalised events, or the JSON
    string of the raw text (for a scalar, of its compact dump).  The decoder
    ends with the pool and the previous timestamp of the compressor. *)
Theorem mixed_session_roundtrip :
  forall (R : PyRuntime) (aid : string) (frames : list string)
         (fvs : list frame_view),
    wf_str aid = true ->
    Forall2 (fun t fv => view_any R t = Some fv) frames fvs ->
    frames <> [] ->
    exists tokens c',
      compress_session R frames (FrameCompressorV3_init aid) = (inr tokens, c')
      /\ (_next (pool c') <= 2 ^ 76 ->
          forall d0 : _V3State,
          exists os d',
            decode_session R tokens d0 = (inr os, d')
            /\ session_outputs os = Some (map (frame_output R aid) fvs)
            /\ stamp d' = aid /\ st_pool d' = pool c' /\ st_prev_ts d' = prev_ts c').
Proof.
  intros R aid frames fvs Haid Hframes Hne.
  destruct (any_session_run R aid frames fvs Haid Hframes Hne)
    as (tokens & c' & Hc & Hdec).
  exists tokens, c'. split; [exact Hc|]. intros Hb d0.
  destruct (Hdec Hb d0) as (d' & Hd & (Hst & Hpool & Hprev) & Ha).
  eexists _, d'. split; [exact Hd|].
  split; [cbn [session_outputs]; rewrite session_outputs_any; reflexivity|].
  split; [congruence|]. split; assumption.
Qed.

Lemma mixed_session_roundtrip_witness :
  exists tokens c',
    compress_session ref_runtime mixed_frames (FrameCompressorV3_init "A")
    = (inr tokens, c')
    /\ (_next (pool c') <= 2 ^ 76 ->
        forall d0 : _V3State,
        exists os d',
          decode_session ref_runtime tokens d0 = (inr os, d')
          /\ session_outputs os = Some (map (frame_output ref_runtime "A") mixed_views)
          /\ stamp d' = "A"%string /\ st_pool d' = pool c'
          /\ st_prev_ts d' = prev_ts c').
Proof.
  apply (mixed_session_roundtrip ref_runtime "A" mixed_frames mixed_views).
  - reflexivity.
  - repeat constructor.
  - discriminate.
Defined.

(** X7: sessions appended to one log.  The lines of two sessions, each of
    a fresh compressor (the logger opens its file for appending and starts
    a new compressor at every start), decode one after the other on one
    decoder state: the header of the second session resets the pool, the
    timestamps and the asset, and the outputs are those of the first
    session followed by those of the second. *)
Theorem appended_sessions_roundtrip :
  forall (R : PyRuntime) (aid1 aid2 : string) (frames1 frames2 : list string)
         (fvs1 fvs2 : list frame_view),
    wf_str aid1 = true -> wf_str aid2 = true ->
    Forall2 (fun t fv => view_any R t = Some fv) frames1 fvs1 ->
    Forall2 (fun t fv => view_any R t = Some fv) frames2 fvs2 ->
    frames1 <> [] -> frames2 <> [] ->
    exists tokens1 c1 tokens2 c2,
      compress_session R frames1 (FrameCompressorV3_init aid1) = (inr tokens1, c1)
      /\ compress_session R frames2 (FrameCompressorV3_init aid2) = (inr tokens2, c2)
      /\ (_next (pool c1) <= 2 ^ 76 -> _next (pool c2) <= 2 ^ 76 ->
          exists os d',
            decode_session R (tokens1 ++ tokens2) _V3State_init = (inr os, d')
            /\ session_outputs os
               = Some (map (frame_output R aid1) fvs1 ++ map (frame_output R aid2) fvs2)).
Proof.
  intros R aid1 aid2 frames1 frames2 fvs1 fvs2 Ha1 Ha2 Hf1 Hf2 Hn1 Hn2.
  destruct (any_session_run R aid1 frames1 fvs1 Ha1 Hf1 Hn1)
    as (tokens1 & c1 & Hc1 & Hdec1).
  destruct (any_session_run R aid2 frames2 fvs2 Ha2 Hf2 Hn2)
    as (tokens2 & c2 & Hc2 & Hdec2).
  exists tokens1, c1, tokens2, c2. split; [exact Hc1|]. split; [exact Hc2|].
  intros Hb1 Hb2.
  destruct (Hdec1 Hb1 _V3State_init) as (d1 & Hd1 & _).
  destruct (Hdec2 Hb2 d1) as (d2 & Hd2 & _).
  eexists _, d2. split; [exact (decode_session_app R _ _ _ _ _ _ _ Hd1 Hd2)|].
  apply session_outputs_app; cbn [session_outputs];
    rewrite session_outputs_any; reflexivity.
Qed.

Lemma appended_sessions_roundtrip_witness :
  exists tokens1 c1 tokens2 c2,
    compress_session ref_runtime mixed_frames (FrameCompressorV3_init "A")
    = (inr tokens1, c1)
    /\ compress_session ref_runtime ["PONG"%string; scenario_1_frame]
         (FrameCompressorV3_init "B") = (inr tokens2, c2)
    /\ (_next (pool c1) <= 2 ^ 76 -> _next (pool c2) <= 2 ^ 76 ->
        exists os d',
          decode_session ref_runtime (tokens1 ++ tokens2) _V3State_init = (inr os, d')
          /\ session_outputs os
             = Some (map (frame_output ref_runtime "A") mixed_views
                     ++ map (frame_output ref_runtime "B")
                          [FRaw "PONG"; FEvents scenario_1_events])).
Proof.
  apply (appended_sessions_roundtrip ref_runtime "A" "B" mixed_frames
           ["PONG"%string; scenario_1_frame] mixed_views
           [FRaw "PONG"; FEvents scenario_1_events]).
  - reflexivity.
  - reflexivity.
  - repeat constructor.
  - repeat constructor.
  - discriminate.
  - discriminate.
Defined.

(** ** Calls of [compress] that raise *)

Section FailedCalls.
Context (R : PyRuntime).

Lemma compress_frame_events (text : string) (v : json) (evs : list json) :
  json_loads R text = Some v -> frame_events v = Some evs ->
  compress R text = compress_events R evs.
Proof.
  intros Hl Hv. unfold compress. rewrite Hl.
  destruct v; try discriminate; injection Hv as <-; reflexivity.
Qed.

Lemma encode_events_loop_app (a b : list json) :
  forall (out : list byte) (c : FrameCompressorV3),
    encode_events_loop R (a ++ b) out c
    = bind (encode_events_loop R a out) (fun out' => encode_events_loop R b out') c.
Proof.
  induction a as [|ev a IH]; intros out c; [reflexivity|].
  cbn [app encode_events_loop]. unfold bind.
  destruct (_encode_event R ev out c) as [[e|out'] c1]; [reflexivity|].
  rewrite IH. reflexivity.
Qed.

(** A frame whose events [evs] encode and whose next event raises: the call
    raises, and the instance is left as the failing event left it. *)
Lemma compress_events_prefix_fail (evs : list json) (es : list event)
    (bad : json) (rest : list json) (fts : option Z)
    (c c2 : FrameCompressorV3) (p : Z) (e : exn) :
  view_list (view_event R) evs = Some es ->
  first_timestamp R (evs ++ bad :: rest) = inr fts ->
  wrote_header c = true -> pool_wf (pool c) -> prev_ts c = Some p ->
  (forall out,
      _encode_event R (strip_event bad) out
        (set_pool (items_pool (pool c) (events_items R p es))
           (set_prev_ts (Some (last_timestamp p es)) c))
      = (inl e, c2)) ->
  compress_events R (evs ++ bad :: rest) c = (inl e, c2).
Proof.
  intros Hv Hfts Hw Hp Hprev Hbad. unfold compress_events.
  rewrite (bind_inr _ _ c c _ (f_equal (fun r => (r, c)) Hfts)).
  rewrite (bind_inr _ _ _ _ _ (_ensure_header_done R _ c Hw)).
  unfold _encode_frame_events, frame_record.
  rewrite map_app. cbn [map].
  apply bind_inl. apply bind_inl.
  rewrite (bind_inr _ _ c c
             ([byte_of_Z _REC_FRAME]
              ++ uvarint_bytes (Z.of_nat (length (map strip_event evs
                                                  ++ strip_event bad
                                                     :: map strip_event rest)))))
    by (unfold lift; rewrite _uvarint_encode_ok by lia; reflexivity).
  rewrite encode_events_loop_app.
  rewrite (bind_inr _ _ _ _ _
             (encode_events_loop_ok R (map strip_event evs) es _ c p
                ltac:(now rewrite view_list_strip) Hp Hprev)).
  cbn [encode_events_loop]. apply bind_inl. apply Hbad.
Qed.

Lemma first_timestamp_prefix (ev : json) (e : event) (evs : list json) :
  view_event R ev = Some e ->
  first_timestamp R (ev :: evs) = inr (Some (ev_timestamp e)).
Proof. intros Hv. cbn [first_timestamp]. now rewrite (view_event_ts R _ _ Hv). Qed.

Lemma first_timestamp_valid_app (evs : list json) (es : list event) (tail : list json) :
  view_list (view_event R) evs = Some es -> evs <> [] ->
  exists t, first_timestamp R (evs ++ tail) = inr (Some t).
Proof.
  intros Hv Hne. destruct evs as [|ev evs]; [congruence|].
  cbn [view_list] in Hv. destruct (view_event R ev) as [e|] eqn:Ee; [|discriminate].
  exists (ev_timestamp e). cbn [app]. now apply first_timestamp_prefix.
Qed.

Lemma _encode_event_unknown (d : list (string * json)) (out : list byte)
    (c : FrameCompressorV3) :
  _ET_CODE (py_str R (default (JStr EmptyString) (dict_get "event_type" d))) = None ->
  _encode_event R (strip_event (JObj d)) out c
  = (inl (UnknownEventType
            (py_str R (default (JStr EmptyString) (dict_get "event_type" d)))), c).
Proof.
  intros Het. unfold _encode_event. cbn [strip_event py_get].
  rewrite dict_get_strip by reflexivity.
  unfold bind at 1. unfold lift at 1.
  replace (match dict_get "event_type" d with
           | Some x => x
           | None => JStr EmptyString
           end) with (default (JStr EmptyString) (dict_get "event_type" d))
    by (destruct (dict_get "event_type" d); reflexivity).
  now rewrite Het.
Qed.

Lemma _encode_event_negative (d : list (string * json)) (et ts : string) (code t p : Z)
    (out : list byte) (c : FrameCompressorV3) :
  dict_get "event_type" d = Some (JStr et) -> _ET_CODE et = Some code ->
  dict_get "timestamp" d = Some (JStr ts) -> int_of_str R ts = Some t ->
  t < 0 -> prev_ts c = Some p -> 0 <= p ->
  _encode_event R (strip_event (JObj d)) out c
  = (inl UvarintNegative, set_prev_ts (Some t) c).
Proof.
  intros Het Hcode Hts Hint Ht Hprev Hp.
  unfold _encode_event. cbn [strip_event py_get _get_ts].
  rewrite !dict_get_strip by reflexivity. rewrite Het, Hts.
  unfold bind at 1. unfold lift at 1. cbn [py_str]. rewrite Hcode.
  cbn [py_int]. rewrite Hint.
  unfold bind at 1. unfold lift at 1.
  rewrite bind_get. rewrite Hprev.
  destruct (Z.leb_spec p t); [lia|].
  rewrite bind_modify.
  apply bind_inl. unfold lift, _uvarint_encode.
  destruct (Z.ltb_spec t 0); [reflexivity|lia].
Qed.

End FailedCalls.

(** X8: a first call that fails after the header was built loses the
    header.  On an instance without header, when [compress] raises on a
    frame of events whose first timestamp (or 0) is not negative, the call
    has already set [wrote_header]: the header line it built is returned to
    nobody, and no later call on the instance returns a header. *)
Theorem failed_first_call_loses_header :
  forall (R : PyRuntime) (text : string) (v : json) (evs : list json)
         (fts : option Z) (c c' : FrameCompressorV3) (e : exn),
    wrote_header c = false ->
    json_loads R text = Some v -> frame_events v = Some evs ->
    first_timestamp R evs = inr fts ->
    0 <= match fts with Some t => t | None => 0 end ->
    compress R text c = (inl e, c') ->
    wrote_header c' = true
    /\ forall frames : list string,
         Forall (fun r => returned_pair r = false) (fst (compress_calls R frames c')).
Proof.
  intros R text v evs fts c c' e Hw Hl Hv Hfts Hbase Hc.
  assert (Hw' : wrote_header c' = true).
  { rewrite (compress_frame_events R text v evs Hl Hv) in Hc.
    unfold compress_events in Hc.
    rewrite (bind_inr _ _ c c _ (f_equal (fun r => (r, c)) Hfts)) in Hc.
    rewrite (bind_inr _ _ _ _ _ (_ensure_header_new R fts c Hw Hbase)) in Hc.
    assert (Hk : keeps (frame_line <-- _encode_frame_events R (map strip_event evs) ;;
                        ret (with_header
                               (Some (_deflate_raw_b64 R
                                        (header_bytes (asset_id c)
                                           match fts with Some t => t | None => 0 end)))
                               frame_line)))
      by (apply keeps_bind; [apply keeps__encode_frame_events|intros; apply keeps_ret]).
    rewrite (Hk _ _ _ Hc). reflexivity. }
  split; [exact Hw'|].
  intros frames. exact (proj1 (compress_calls_after_header R frames c' Hw')).
Qed.

Lemma failed_first_call_loses_header_witness :
  wrote_header (snd (compress ref_runtime unknown_type_frame (FrameCompressorV3_init "A")))
  = true
  /\ forall frames : list string,
       Forall (fun r => returned_pair r = false)
         (fst (compress_calls ref_runtime frames
                 (snd (compress ref_runtime unknown_type_frame
                         (FrameCompressorV3_init "A"))))).
Proof.
  apply (failed_first_call_loses_header ref_runtime unknown_type_frame
           (JArr (ref_items unknown_type_frame)) (ref_items unknown_type_frame)
           (Some 1000) (FrameCompressorV3_init "A") _ (UnknownEventType "trade")).
  - reflexivity.
  - vm_compute. reflexivity.
  - reflexivity.
  - vm_compute. reflexivity.
  - lia.
  - vm_compute. reflexivity.
Defined.

(** X9: [compress] is not atomic.  When the events [evs] at the start of a
    frame are valid and the event after them has an unknown type, the call
    raises [ValueError("Unknown event_type: ...")] and returns no line, but
    the strings of [evs] stay in the pool and [prev_ts] is the timestamp of
    the last of them. *)
Theorem failed_frame_keeps_pool :
  forall (R : PyRuntime) (text : string) (evs : list json) (es : list event)
         (d : list (string * json)) (rest : list json)
         (c : FrameCompressorV3) (p : Z),
    json_loads R text = Some (JArr (evs ++ JObj d :: rest)) ->
    view_list (view_event R) evs = Some es -> evs <> [] ->
    _ET_CODE (py_str R (default (JStr EmptyString) (dict_get "event_type" d))) = None ->
    wrote_header c = true -> pool_wf (pool c) -> prev_ts c = Some p ->
    compress R text c
    = (inl (UnknownEventType
              (py_str R (default (JStr EmptyString) (dict_get "event_type" d)))),
       set_pool (items_pool (pool c) (events_items R p es))
         (set_prev_ts (Some (last_timestamp p es)) c)).
Proof.
  intros R text evs es d rest c p Hl Hv Hne Het Hw Hp Hprev.
  rewrite (compress_frame_events R text _ _ Hl eq_refl).
  destruct (first_timestamp_valid_app R evs es (JObj d :: rest) Hv Hne) as [t Hfts].
  apply (compress_events_prefix_fail R evs es (JObj d) rest (Some t) c _ p _
           Hv Hfts Hw Hp Hprev).
  intros out. now apply _encode_event_unknown.
Qed.

Lemma failed_frame_keeps_pool_witness :
  compress ref_runtime partial_frame (header_written "A" 1000)
  = (inl (UnknownEventType "trade"),
     set_pool
       (items_pool _StringPool_init
          (events_items ref_runtime 1000
             [{| ev_timestamp := 1000;
                 ev_payload := Book [("0.5", "10")]%string [] |}]))
       (set_prev_ts
          (Some (last_timestamp 1000
                   [{| ev_timestamp := 1000;
                       ev_payload := Book [("0.5", "10")]%string [] |}]))
          (header_written "A" 1000))).
Proof.
  apply (failed_frame_keeps_pool ref_runtime partial_frame
           (firstn 1 (ref_items partial_frame))
           [{| ev_timestamp := 1000; ev_payload := Book [("0.5", "10")]%string [] |}]
           [("event_type", JStr "trade"); ("timestamp", JStr "1001")]%string []
           (header_written "A" 1000) 1000).
  - vm_compute. reflexivity.
  - vm_compute. reflexivity.
  - vm_compute. discriminate.
  - reflexivity.
  - reflexivity.
  - apply pool_init_wf.
  - reflexivity.
Defined.

(** X10: a negative timestamp.  In a session, an event of a known type
    whose timestamp reads as a negative number makes [compress] raise
    [ValueError("uvarint negative")]: the event is taken as a step back in
    time and its timestamp handed to the varint encoder.  The call returns
    no line, but [prev_ts] is already the negative timestamp (and the
    strings of the events before it stay in the pool). *)
Theorem negative_timestamp_raises :
  forall (R : PyRuntime) (text : string) (evs : list json) (es : list event)
         (d : list (string * json)) (rest : list json) (et ts : string) (code t : Z)
         (c : FrameCompressorV3) (p : Z),
    json_loads R text = Some (JArr (evs ++ JObj d :: rest)) ->
    view_list (view_event R) evs = Some es ->
    dict_get "event_type" d = Some (JStr et) -> _ET_CODE et = Some code ->
    dict_get "timestamp" d = Some (JStr ts) -> int_of_str R ts = Some t -> t < 0 ->
    wrote_header c = true -> pool_wf (pool c) -> prev_ts c = Some p -> 0 <= p ->
    compress R text c
    = (inl UvarintNegative,
       set_pool (items_pool (pool c) (events_items R p es)) (set_prev_ts (Some t) c)).
Proof.
  intros R text evs es d rest et ts code t c p Hl Hv Het Hcode Hts Hint Ht Hw Hp Hprev Hp0.
  rewrite (compress_frame_events R text _ _ Hl eq_refl).
  assert (Hfts : exists fts, first_timestamp R (evs ++ JObj d :: rest) = inr fts).
  { destruct evs as [|ev evs'].
    - cbn [app first_timestamp _get_ts]. rewrite Hts. cbn [py_int]. rewrite Hint.
      eexists. reflexivity.
    - destruct (first_timestamp_valid_app R (ev :: evs') es (JObj d :: rest) Hv
                  ltac:(discriminate)) as [t0 H0].
      eexists. exact H0. }
  destruct Hfts as [fts Hfts].
  pose proof (view_list_Forall _ _ (view_event_wf R) _ _ Hv) as Hwf.
  apply (compress_events_prefix_fail R evs es (JObj d) rest fts c _ p _
           Hv Hfts Hw Hp Hprev).
  intros out.
  rewrite (_encode_event_negative R d et ts code t (last_timestamp p es) out
             (set_pool (items_pool (pool c) (events_items R p es))
                (set_prev_ts (Some (last_timestamp p es)) c))
             Het Hcode Hts Hint Ht eq_refl (last_timestamp_nonneg R es p Hwf Hp0)).
  destruct c; reflexivity.
Qed.

Lemma negative_timestamp_raises_witness :
  compress ref_runtime negative_ts_frame (header_written "A" 1000)
  = (inl UvarintNegative,
     set_pool (items_pool _StringPool_init (events_items ref_runtime 1000 []))
       (set_prev_ts (Some (-5)) (header_written "A" 1000))).
Proof.
  apply (negative_timestamp_raises ref_runtime negative_ts_frame [] []
           [("event_type", JStr "tick_size_change"); ("timestamp", JStr "-5");
            ("old_tick_size", JStr "0.01"); ("new_tick_size", JStr "0.001")]%string
           [] "tick_size_change" "-5" 2 (-5) (header_written "A" 1000) 1000).
  - vm_compute. reflexivity.
  - reflexivity.
  - reflexivity.
  - reflexivity.
  - reflexivity.
  - vm_compute. reflexivity.
  - lia.
  - reflexivity.
  - apply pool_init_wf.
  - reflexivity.
  - lia.
Defined.

(** ** The pools stay consistent on every input *)

Lemma preserves_ret {St A : Type} (I : St -> Prop) (a : A) : preserves I (@ret St A a).
Proof. intros s r s' Hs [= _ <-]. exact Hs. Qed.

Lemma preserves_raise {St A : Type} (I : St -> Prop) (e : exn) :
  preserves I (@raise St A e).
Proof. intros s r s' Hs [= _ <-]. exact Hs. Qed.

Lemma preserves_lift {St A : Type} (I : St -> Prop) (x : exn + A) :
  preserves I (@lift St A x).
Proof. intros s r s' Hs [= _ <-]. exact Hs. Qed.

Lemma preserves_get {St : Type} (I : St -> Prop) : preserves I (@get St).
Proof. intros s r s' Hs [= _ <-]. exact Hs. Qed.

Lemma preserves_modify {St : Type} (I : St -> Prop) (f : St -> St) :
  (forall s, I s -> I (f s)) -> preserves I (modify f).
Proof. intros Hf s r s' Hs [= _ <-]. now apply Hf. Qed.

Lemma preserves_bind {St A B : Type} (I : St -> Prop) (m : M St A) (k : A -> M St B) :
  preserves I m -> (forall a, preserves I (k a)) -> preserves I (bind m k).
Proof.
  intros Hm Hk s r s' Hs. unfold bind. destruct (m s) as [[e|a] s1] eqn:E.
  - intros [= _ <-]. eapply Hm; eassumption.
  - intros Hka. eapply Hk; [|exact Hka]. eapply Hm; eassumption.
Qed.

Lemma preserves_pair {St A B C : Type} (I : St -> Prop) (xy : A * B)
    (k : A -> B -> M St C) :
  (forall x y, preserves I (k x y)) -> preserves I (let '(x, y) := xy in k x y).
Proof. intros Hk. destruct xy. apply Hk. Qed.

Lemma pool_encode_wf (s : string) (out : list byte) (p p' : _StringPool)
    (r : exn + list byte) :
  pool_wf p -> _StringPool_encode s out p = (r, p') -> pool_wf p'.
Proof.
  intros Hp. rewrite (pool_encode_ok s out p Hp). intros [= _ <-].
  now apply pool_after_wf.
Qed.

Lemma pool_decode_wf (buf : list byte) (i : nat) (p p' : _StringPool)
    (r : exn + string * nat) :
  pool_wf p -> _StringPool_decode buf i p = (r, p') -> pool_wf p'.
Proof.
  intros Hp. unfold _StringPool_decode.
  destruct (_uvarint_decode buf i) as [e|[v j]]; [now intros [= _ <-]|].
  destruct (Z.land v 1 =? 0).
  - destruct ((Z.shiftr v 1 <=? 0) || (_next p <=? Z.shiftr v 1));
      [now intros [= _ <-]|].
    destruct (_i2s p !! Z.to_nat (Z.shiftr v 1)); now intros [= _ <-].
  - destruct (Z.of_nat (length buf) <? Z.of_nat j + Z.shiftr v 1);
      [now intros [= _ <-]|].
    destruct (utf8_decode (take (Z.to_nat (Z.shiftr v 1)) (drop j buf)));
      intros [= _ <-]; [now apply pool_intern_wf|exact Hp].
Qed.

Lemma preserves_on_pool_encode (s : string) (out : list byte) :
  preserves enc_ok (on_pool (_StringPool_encode s out)).
Proof.
  intros c r c' Hc. unfold on_pool.
  destruct (_StringPool_encode s out (pool c)) as [r0 p] eqn:E.
  intros [= _ <-]. exact (pool_encode_wf _ _ _ _ _ Hc E).
Qed.

Lemma preserves_on_st_pool_decode (buf : list byte) (i : nat) :
  preserves dec_ok (on_st_pool (_StringPool_decode buf i)).
Proof.
  intros d r d' Hd. unfold on_st_pool.
  destruct (_StringPool_decode buf i (st_pool d)) as [r0 p] eqn:E.
  intros [= _ <-]. exact (pool_decode_wf _ _ _ _ _ Hd E).
Qed.

Ltac pres_tac :=
  repeat first
    [ apply preserves_ret | apply preserves_raise | apply preserves_lift
    | apply preserves_get
    | apply preserves_on_pool_encode | apply preserves_on_st_pool_decode
    | apply preserves_modify; intros [] ?; assumption
    | assumption
    | apply preserves_bind; [|intros]
    | match goal with |- preserves _ (let '(_, _) := ?x in _) => destruct x end
    | match goal with |- preserves _ (if ?b then _ else _) => destruct b end
    | match goal with |- preserves _ (match ?x with _ => _ end) => destruct x end ].

Section Consistency.
Context (R : PyRuntime).

Lemma preserves_encode_levels_loop (lv : list json) :
  forall out, preserves enc_ok (encode_levels_loop R lv out).
Proof.
  induction lv as [|x lv IH]; intros out; cbn [encode_levels_loop]; pres_tac.
  apply IH.
Qed.

Lemma preserves_encode_changes_loop (chs : list json) :
  forall out, preserves enc_ok (encode_changes_loop R chs out).
Proof.
  induction chs as [|x chs IH]; intros out; cbn [encode_changes_loop]; pres_tac.
  apply IH.
Qed.

Lemma preserves__encode_event (ev : json) (out : list byte) :
  preserves enc_ok (_encode_event R ev out).
Proof.
  unfold _encode_event, _encode_book, _encode_price_change,
    _encode_tick_size_change, _encode_last_trade_price, _encode_levels.
  pres_tac; try apply preserves_encode_levels_loop;
    try apply preserves_encode_changes_loop.
Qed.

Lemma preserves_encode_events_loop (evs : list json) :
  forall out, preserves enc_ok (encode_events_loop R evs out).
Proof.
  induction evs as [|ev evs IH]; intros out; cbn [encode_events_loop].
  - apply preserves_ret.
  - apply preserves_bind; [apply preserves__encode_event|intros; apply IH].
Qed.

Lemma preserves__ensure_header (ts : option Z) : preserves enc_ok (_ensure_header R ts).
Proof.
  intros c r c' Hc. unfold _ensure_header.
  destruct (wrote_header c); [intros [= _ <-]; exact Hc|].
  match goal with
  | |- context [match ?m ?s with _ => _ end] => destruct (m s) as [[e|out] c1] eqn:E
  end.
  - unfold bind, lift, ret in E.
    repeat match type of E with
    | context [match ?x with _ => _ end] => destruct x
    end; injection E as _ <-; intros [= _ <-]; exact Hc.
  - intros [= _ <-]. exact pool_init_wf.
Qed.

Lemma preserves_compress (text : string) : preserves enc_ok (compress R text).
Proof.
  assert (Hraw : forall s, preserves enc_ok (compress_raw R s)).
  { intros s. unfold compress_raw, raw_record.
    apply preserves_bind; [apply preserves__ensure_header|intros].
    pres_tac. }
  assert (Hev : forall evs, preserves enc_ok (compress_events R evs)).
  { intros evs. unfold compress_events, _encode_frame_events, frame_record.
    apply preserves_bind; [apply preserves_lift|intros].
    apply preserves_bind; [apply preserves__ensure_header|intros].
    apply preserves_bind; [|intros; apply preserves_ret].
    apply preserves_bind; [|intros; apply preserves_ret].
    apply preserves_bind; [apply preserves_lift|intros].
    apply preserves_encode_events_loop. }
  unfold compress. destruct (json_loads R text) as [[]|]; auto.
Qed.

Lemma preserves_decode_assets_loop (n : nat) (buf : list byte) :
  forall i, preserves dec_ok (decode_assets_loop n buf i).
Proof.
  induction n as [|n IH]; intros i; cbn [decode_assets_loop]; pres_tac.
  apply IH.
Qed.

Lemma preserves__decode_header (buf : list byte) (i : nat) :
  preserves dec_ok (_decode_header buf i).
Proof.
  unfold _decode_header.
  apply preserves_bind; [apply preserves_lift|intros [ver i1]].
  destruct (negb (ver =? 3)); [apply preserves_raise|].
  apply preserves_bind; [apply preserves_lift|intros [flags i2]].
  apply preserves_bind; [apply preserves_lift|intros [base i3]].
  apply preserves_bind;
    [apply preserves_modify; intros s _; exact pool_init_wf|intros _].
  apply preserves_bind; [apply preserves_lift|intros [ac i4]].
  apply preserves_bind; [apply preserves_modify; intros [] ?; assumption|intros _].
  apply preserves_bind; [apply preserves_decode_assets_loop|intros i5].
  apply preserves_bind; [apply preserves_modify; intros [] ?; assumption|intros _].
  apply preserves_ret.
Qed.

Lemma preserves_dec_levels_loop (n : nat) (buf : list byte) :
  forall i out, preserves dec_ok (dec_levels_loop n buf i out).
Proof.
  induction n as [|n IH]; intros i out; cbn [dec_levels_loop]; pres_tac.
  apply IH.
Qed.

Lemma preserves_dec_changes_loop (n : nat) (buf : list byte) :
  forall i chs, preserves dec_ok (dec_changes_loop n buf i chs).
Proof.
  induction n as [|n IH]; intros i chs; cbn [dec_changes_loop]; pres_tac.
  apply IH.
Qed.

Lemma preserves__decode_event (buf : list byte) (i : nat) :
  preserves dec_ok (_decode_event buf i).
Proof.
  unfold _decode_event, _dec_levels.
  pres_tac; try apply preserves_dec_levels_loop; try apply preserves_dec_changes_loop.
Qed.

Lemma preserves_decode_events_loop (n : nat) (buf : list byte) :
  forall i arr, preserves dec_ok (decode_events_loop n buf i arr).
Proof.
  induction n as [|n IH]; intros i arr; cbn [decode_events_loop].
  - apply preserves_ret.
  - apply preserves_bind; [apply preserves__decode_event|intros [ev j]; apply IH].
Qed.

Lemma preserves__try_decode_v3_line (token : string) :
  preserves dec_ok (_try_decode_v3_line R token).
Proof.
  unfold _try_decode_v3_line.
  destruct (_inflate_raw_b64 R token) as [e|[|k body]]; try apply preserves_ret.
  cbv zeta.
  destruct (byte_to_Z k =? _REC_HEADER).
  { apply preserves_bind; [apply preserves__decode_header|intros; apply preserves_ret]. }
  destruct (byte_to_Z k =? _REC_FRAME).
  { unfold _decode_frame, decode_frame_events.
    apply preserves_bind; [|intros [js j]; apply preserves_ret].
    apply preserves_bind; [|intros [arr j]; apply preserves_ret].
    apply preserves_bind; [apply preserves_lift|intros [cnt j]].
    apply preserves_decode_events_loop. }
  destruct (byte_to_Z k =? _REC_RAW); [|apply preserves_ret].
  unfold _decode_raw.
  apply preserves_bind; [|intros [js j]; apply preserves_ret].
  apply preserves_bind; [|intros [s j]; apply preserves_ret].
  apply preserves_on_st_pool_decode.
Qed.

Lemma compress_calls_ok (frames : list string) :
  forall c, enc_ok c -> enc_ok (snd (compress_calls R frames c)).
Proof.
  induction frames as [|f fs IH]; intros c Hc; cbn [compress_calls]; [exact Hc|].
  destruct (compress R f c) as [r c1] eqn:E.
  specialize (IH c1 (preserves_compress f c r c1 Hc E)).
  destruct (compress_calls R fs c1) as [rs c2]. exact IH.
Qed.

End Consistency.

(** X11: the compressor's pool stays consistent.  Whatever the frame
    texts, and whether the calls return or raise, after any sequence of
    calls of [compress] on a new instance the pool is consistent: [_next]
    is the length of [_i2s], and every string of [_s2i] has an id in
    [1 .. _next - 1] under which [_i2s] holds that string; so every
    reference the compressor writes names a string it wrote as a literal
    before. *)
Theorem compressor_pool_consistent :
  forall (R : PyRuntime) (aid : string) (frames : list string),
    pool_wf (pool (snd (compress_calls R frames (FrameCompressorV3_init aid)))).
Proof.
  intros R aid frames.
  apply (compress_calls_ok R frames (FrameCompressorV3_init aid)).
  exact pool_init_wf.
Qed.

(** X12: the decoder's pool stays consistent.  On a state whose pool is
    consistent, [_try_decode_v3_line] leaves a consistent pool for every
    token: a line that is not V3, a record that decodes and a record that
    raises half-way. *)
Theorem decoder_pool_consistent :
  forall (R : PyRuntime) (token : string) (d : _V3State),
    pool_wf (st_pool d) ->
    pool_wf (st_pool (snd (_try_decode_v3_line R token d))).
Proof.
  intros R token d Hd.
  destruct (_try_decode_v3_line R token d) as [r d'] eqn:E.
  exact (preserves__try_decode_v3_line R token d r d' Hd E).
Qed.

Lemma decoder_pool_consistent_witness :
  pool_wf (st_pool (snd (_try_decode_v3_line ref_runtime
                           (_deflate_raw_b64 ref_runtime scenario_2_record)
                           _V3State_init))).
Proof.
  apply (decoder_pool_consistent ref_runtime
           (_deflate_raw_b64 ref_runtime scenario_2_record) _V3State_init).
  exact pool_init_wf.
Defined.

(** ** Missing fields *)

Lemma dict_get_snoc (k k' : string) (v : json) (d : list (string * json)) :
  dict_get k (d ++ [(k', v)])
  = match dict_get k d with
    | Some x => Some x
    | None => if String.eqb k k' then Some v else None
    end.
Proof.
  induction d as [|[k0 v0] d IH]; cbn [app dict_get]; [reflexivity|].
  destruct (String.eqb k k0); [reflexivity|exact IH].
Qed.

Lemma dict_get_snoc_ne (k k' : string) (v : json) (d : list (string * json)) :
  String.eqb k k' = false -> dict_get k (d ++ [(k', v)]) = dict_get k d.
Proof.
  intros Hne. rewrite dict_get_snoc, Hne. destruct (dict_get k d); reflexivity.
Qed.

Lemma dict_get_snoc_eq (k : string) (v : json) (d : list (string * json)) :
  dict_get k d = None -> dict_get k (d ++ [(k, v)]) = Some v.
Proof. intros Hn. now rewrite dict_get_snoc, Hn, String.eqb_refl. Qed.

Section Defaults.
Context (R : PyRuntime).

(** X13: a missing field is its default.  An event that lacks one of the
    text fields [price], [size], [side], [old_tick_size], [new_tick_size]
    is encoded exactly as the event with the empty string under that key;
    one that lacks [changes], as with the empty list; one that lacks both
    [bids] and [buys] (or [asks] and [sells]), as with the empty list of
    bids (of asks).  The bytes written, the exception raised if any, and
    the state left are the same. *)
Theorem missing_field_is_default :
  forall (d : list (string * json)) (k : string) (v : json)
         (out : list byte) (c : FrameCompressorV3),
    dict_get k d = None -> field_default d k = Some v ->
    _encode_event R (JObj (d ++ [(k, v)])) out c = _encode_event R (JObj d) out c.
Proof.
  intros d k v out c Hk Hv.
  assert (Hget : forall k' dflt,
             (String.eqb k' k = false \/ (k' = k /\ dflt = v)) ->
             py_get (JObj (d ++ [(k, v)])) k' dflt = py_get (JObj d) k' dflt).
  { intros k' dflt [Hne|[-> ->]]; cbn [py_get].
    - now rewrite dict_get_snoc_ne.
    - now rewrite dict_get_snoc_eq, Hk. }
  assert (Hhas : forall k', String.eqb k' k = false ->
             dict_has k' (d ++ [(k, v)]) = dict_has k' d).
  { intros k' Hne. unfold dict_has. now rewrite dict_get_snoc_ne. }
  assert (Hts : _get_ts R (JObj (d ++ [(k, v)])) = _get_ts R (JObj d)).
  { cbn [_get_ts]. rewrite dict_get_snoc_ne; [reflexivity|].
    unfold field_default in Hv.
    destruct (String.eqb_spec "timestamp" k) as [<-|]; [discriminate Hv|reflexivity]. }
  assert (Het : py_get (JObj (d ++ [(k, v)])) "event_type" (JStr EmptyString)
                = py_get (JObj d) "event_type" (JStr EmptyString)).
  { apply Hget. left. unfold field_default in Hv.
    destruct (String.eqb_spec "event_type" k) as [<-|]; [discriminate Hv|reflexivity]. }
  assert (Hfee : dict_has "fee_rate_bps" (d ++ [(k, v)]) = dict_has "fee_rate_bps" d).
  { apply Hhas. unfold field_default in Hv.
    destruct (String.eqb_spec "fee_rate_bps" k) as [<-|]; [discriminate Hv|reflexivity]. }
  assert (Hbook : _encode_book R (JObj (d ++ [(k, v)])) = _encode_book R (JObj d)).
  { unfold _encode_book, dict_has. rewrite !dict_get_snoc.
    unfold field_default, dict_has in Hv.
    destruct (String.eqb_spec k "bids") as [->|Hb].
    - cbn in Hv. rewrite Hk in *. rewrite !String.eqb_refl.
      destruct (dict_get "buys" d); [discriminate|]. injection Hv as <-.
      cbn [String.eqb Ascii.eqb Bool.eqb andb].
      destruct (dict_get "asks" d), (dict_get "sells" d); reflexivity.
    - destruct (String.eqb_spec k "asks") as [->|Ha].
      + cbn in Hv. rewrite Hk in *. rewrite !String.eqb_refl.
        destruct (dict_get "sells" d); [discriminate|]. injection Hv as <-.
        cbn [String.eqb Ascii.eqb Bool.eqb andb].
        destruct (dict_get "bids" d), (dict_get "buys" d); reflexivity.
      + assert (Hbuys : k <> "buys"%string).
        { intros ->. cbn in Hv. discriminate. }
        assert (Hsells : k <> "sells"%string).
        { intros ->. cbn in Hv. discriminate. }
        assert (E1 : String.eqb "bids" k = false)
          by (apply String.eqb_neq; congruence).
        assert (E2 : String.eqb "asks" k = false)
          by (apply String.eqb_neq; congruence).
        assert (E3 : String.eqb "buys" k = false)
          by (apply String.eqb_neq; congruence).
        assert (E4 : String.eqb "sells" k = false)
          by (apply String.eqb_neq; congruence).
        rewrite E1, E2, E3, E4.
        destruct (dict_get "bids" d), (dict_get "asks" d), (dict_get "buys" d),
          (dict_get "sells" d); reflexivity. }
  assert (Hdef : forall k' dflt,
             In (k', dflt)
               [("price", JStr EmptyString); ("size", JStr EmptyString);
                ("side", JStr EmptyString); ("old_tick_size", JStr EmptyString);
                ("new_tick_size", JStr EmptyString); ("changes", JArr [])]%string ->
             py_get (JObj (d ++ [(k, v)])) k' dflt = py_get (JObj d) k' dflt).
  { intros k' dflt Hin. apply Hget.
    destruct (String.eqb_spec k' k) as [->|]; [right|now left].
    split; [reflexivity|].
    unfold field_default in Hv. cbn [In] in Hin.
    destruct Hin as [H|[H|[H|[H|[H|[H|[]]]]]]]; injection H as <- <-;
      cbn in Hv; congruence. }
  unfold _encode_event. rewrite Het, Hts, Hfee, Hbook.
  unfold _encode_price_change, _encode_tick_size_change, _encode_last_trade_price.
  rewrite (Hdef "price" (JStr EmptyString)) by (cbn; tauto).
  rewrite (Hdef "size" (JStr EmptyString)) by (cbn; tauto).
  rewrite (Hdef "side" (JStr EmptyString)) by (cbn; tauto).
  rewrite (Hdef "old_tick_size" (JStr EmptyString)) by (cbn; tauto).
  rewrite (Hdef "new_tick_size" (JStr EmptyString)) by (cbn; tauto).
  rewrite (Hdef "changes" (JArr [])) by (cbn; tauto).
  rewrite (Hget "fee_rate_bps" (JStr EmptyString)); [reflexivity|].
  left. unfold field_default in Hv.
  destruct (String.eqb_spec "fee_rate_bps" k) as [<-|]; [discriminate Hv|reflexivity].
Qed.

End Defaults.

Lemma missing_field_is_default_witness :
  _encode_event ref_runtime (JObj (bare_trade ++ [("size"%string, JStr EmptyString)])) []
    (header_written "A" 1000)
  = _encode_event ref_runtime (JObj bare_trade) [] (header_written "A" 1000).
Proof.
  apply (missing_field_is_default ref_runtime bare_trade "size" (JStr EmptyString) []
           (header_written "A" 1000)).
  - reflexivity.
  - reflexivity.
Defined.

(** ** [_strip_keys] *)

(** Induction on a JSON value, with the hypothesis for the items of a list
    and the values of a dict. *)
Lemma json_nested_ind (P : json -> Prop) :
  P JNull -> (forall b, P (JBool b)) -> (forall z, P (JInt z)) ->
  (forall r, P (JFloat r)) -> (forall s, P (JStr s)) ->
  (forall l, Forall P l -> P (JArr l)) ->
  (forall d, Forall (fun kv => P (snd kv)) d -> P (JObj d)) ->
  forall v, P v.
Proof.
  intros Hnull Hbool Hint Hfloat Hstr Harr Hobj.
  fix IH 1. intros [| b | z | r | s | l | d].
  - exact Hnull.
  - apply Hbool.
  - apply Hint.
  - apply Hfloat.
  - apply Hstr.
  - apply Harr. induction l as [|x l IHl]; constructor; [apply IH|exact IHl].
  - apply Hobj. induction d as [|[k x] d IHd]; constructor; [apply IH|exact IHd].
Qed.

Lemma _strip_keys_members (d : list (string * json)) :
  _strip_keys (JObj d) = JObj (strip_members d).
Proof.
  cbn [_strip_keys]. f_equal. unfold strip_members.
  induction d as [|[k x] d IH]; [reflexivity|].
  cbn [List.filter map fst snd].
  destruct (String.eqb k "market" || String.eqb k "hash"); cbn [negb map fst snd];
    now rewrite IH.
Qed.

Lemma has_key_members (k : string) (d : list (string * json)) :
  has_key k (JObj d)
  = existsb (fun kv => String.eqb (fst kv) k || has_key k (snd kv)) d.
Proof.
  cbn [has_key]. induction d as [|[k' x] d IH]; [reflexivity|].
  cbn [existsb fst snd]. rewrite <- IH. reflexivity.
Qed.

Lemma _strip_keys_no_key (k : string) :
  k = "market"%string \/ k = "hash"%string ->
  forall v, has_key k (_strip_keys v) = false.
Proof.
  intros Hk. induction v as [| | | | |l IH|d IH] using json_nested_ind;
    try reflexivity.
  - cbn [_strip_keys has_key]. induction IH as [|x l Hx _ IHl]; [reflexivity|].
    cbn [map existsb]. now rewrite Hx, IHl.
  - rewrite _strip_keys_members, has_key_members. unfold strip_members.
    induction IH as [|[k' x] d Hx _ IHd]; [reflexivity|].
    cbn [List.filter fst snd].
    destruct (String.eqb_spec k' "market") as [->|Hm]; cbn [orb negb]; [exact IHd|].
    destruct (String.eqb_spec k' "hash") as [->|Hh]; cbn [negb]; [exact IHd|].
    cbn [map existsb fst snd]. cbn [snd] in Hx. rewrite Hx, IHd.
    destruct (String.eqb_spec k' k) as [->|]; [|reflexivity].
    destruct Hk; congruence.
Qed.

Lemma _strip_keys_fixed (v : json) :
  has_key "market" v = false -> has_key "hash" v = false -> _strip_keys v = v.
Proof.
  induction v as [| | | | |l IH|d IH] using json_nested_ind; try reflexivity.
  - cbn [_strip_keys has_key]. intros Hm Hh. f_equal.
    induction IH as [|x l Hx _ IHl]; [reflexivity|].
    cbn [existsb] in Hm, Hh.
    apply orb_false_elim in Hm as [Hm1 Hm2]. apply orb_false_elim in Hh as [Hh1 Hh2].
    cbn [map]. now rewrite Hx, IHl.
  - rewrite _strip_keys_members, !has_key_members. intros Hm Hh. f_equal.
    unfold strip_members.
    induction IH as [|[k x] d Hx _ IHd]; [reflexivity|].
    cbn [existsb fst snd] in Hm, Hh. cbn [snd] in Hx.
    apply orb_false_elim in Hm as [Hm1 Hm2]. apply orb_false_elim in Hh as [Hh1 Hh2].
    apply orb_false_elim in Hm1 as [Hmk Hmx]. apply orb_false_elim in Hh1 as [Hhk Hhx].
    cbn [List.filter fst snd]. rewrite Hmk, Hhk. cbn [orb negb map fst snd].
    now rewrite Hx, IHd.
Qed.

Lemma dict_get_strip_members (k : string) (d : list (string * json)) :
  String.eqb k "market" = false -> String.eqb k "hash" = false ->
  dict_get k (strip_members d) = option_map _strip_keys (dict_get k d).
Proof.
  intros Hm Hh. unfold strip_members.
  induction d as [|[k' x] d IH]; [reflexivity|].
  cbn [List.filter fst snd dict_get].
  destruct (String.eqb_spec k k') as [<-|Hne].
  - rewrite Hm, Hh. cbn [orb negb map fst snd dict_get]. now rewrite String.eqb_refl.
  - destruct (String.eqb k' "market" || String.eqb k' "hash"); cbn [negb]; [exact IH|].
    cbn [map fst snd dict_get].
    destruct (String.eqb_spec k k'); [contradiction|exact IH].
Qed.

(** X14: [_strip_keys] removes [market] and [hash] at every depth and
    nothing else.  The result has no dict with a key [market] or [hash],
    however deep; a list keeps its length and a dict keeps, in their order,
    its other keys, each with its stripped value. *)
Theorem strip_keys_removes :
  forall v : json,
    has_key "market" (_strip_keys v) = false
    /\ has_key "hash" (_strip_keys v) = false
    /\ match v with
       | JObj d =>
           exists d', _strip_keys v = JObj d'
             /\ map fst d'
                = List.filter (fun k => negb (String.eqb k "market" || String.eqb k "hash"))
                    (map fst d)
             /\ forall k, String.eqb k "market" = false -> String.eqb k "hash" = false ->
                          dict_get k d' = option_map _strip_keys (dict_get k d)
       | JArr l => _strip_keys v = JArr (map _strip_keys l)
       | _ => _strip_keys v = v
       end.
Proof.
  intros v. split; [apply _strip_keys_no_key; now left|].
  split; [apply _strip_keys_no_key; now right|].
  destruct v as [| | | | |l|d]; try reflexivity.
  exists (strip_members d). split; [apply _strip_keys_members|]. split.
  - unfold strip_members. rewrite map_map. cbn [fst].
    induction d as [|[k x] d IH]; [reflexivity|].
    cbn [List.filter map fst].
    destruct (String.eqb k "market" || String.eqb k "hash"); cbn [negb map fst];
      now rewrite IH.
  - intros k Hm Hh. now apply dict_get_strip_members.
Qed.

(** X15: the fixed points of [_strip_keys].  A value that holds no key
    [market] and no key [hash] is returned as it is; so stripping is
    idempotent. *)
Theorem strip_keys_idempotent :
  forall v : json,
    (has_key "market" v = false -> has_key "hash" v = false -> _strip_keys v = v)
    /\ _strip_keys (_strip_keys v) = _strip_keys v.
Proof.
  intros v. split; [apply _strip_keys_fixed|].
  apply _strip_keys_fixed; apply _strip_keys_no_key; [now left|now right].
Qed.

Lemma strip_keys_idempotent_witness :
  _strip_keys (_strip_keys nested_value) = _strip_keys nested_value
  /\ _strip_keys (_strip_keys nested_value) = _strip_keys (_strip_keys nested_value).
Proof.
  split.
  - apply (proj1 (strip_keys_idempotent (_strip_keys nested_value))); reflexivity.
  - apply (proj2 (strip_keys_idempotent (_strip_keys nested_value))).
Defined.

(** ** The log file *)

Lemma b64url_char_clean (bs : list byte) :
  forallb b64url_char bs = true -> clean bs.
Proof.
  induction bs as [|b bs IH]; [constructor|].
  cbn [forallb]. intros H. apply andb_prop in H as [Hb Hbs].
  constructor; [|now apply IH].
  unfold b64url_char in Hb. split; intros E; rewrite E in Hb; discriminate.
Qed.

Lemma universal_newlines_no_cr (bs : list byte) :
  Forall (fun b => byte_to_Z b <> 13) bs -> universal_newlines bs = bs.
Proof.
  induction 1 as [|b bs Hb _ IH]; [reflexivity|].
  cbn [universal_newlines]. destruct (Z.eqb_spec (byte_to_Z b) 13); [contradiction|].
  now rewrite IH.
Qed.

Lemma records_no_cr (recs : list (list byte)) :
  Forall clean recs ->
  Forall (fun b => byte_to_Z b <> 13) (flat_map (fun r => r ++ [nl]) recs).
Proof.
  induction 1 as [|r recs Hr _ IH]; [constructor|].
  cbn [flat_map]. rewrite <- app_assoc. apply Forall_app. split.
  - eapply Forall_impl; [exact Hr|]. intros b [_ H]. exact H.
  - constructor; [vm_compute; discriminate|exact IH].
Qed.

Lemma text_lines_record (r rest cur : list byte) :
  clean r ->
  text_lines (r ++ [nl] ++ rest) cur = (cur ++ r ++ [nl]) :: text_lines rest [].
Proof.
  intros Hr. revert cur. induction Hr as [|b r [Hb _] _ IH]; intros cur.
  - reflexivity.
  - cbn [app text_lines]. destruct (Z.eqb_spec (byte_to_Z b) 10); [contradiction|].
    cbn [app] in IH. rewrite IH. now rewrite <- app_assoc.
Qed.

Lemma text_lines_records (recs : list (list byte)) :
  Forall clean recs ->
  text_lines (flat_map (fun r => r ++ [nl]) recs) [] = map (fun r => r ++ [nl]) recs.
Proof.
  induction 1 as [|r recs Hr _ IH]; [reflexivity|].
  cbn [flat_map map]. rewrite <- app_assoc.
  rewrite (text_lines_record r _ [] Hr). now rewrite IH.
Qed.

Lemma rstrip_nl_record (r : list byte) :
  clean r -> rstrip_nl (r ++ [nl]) = r.
Proof.
  induction 1 as [|b r [Hb _] Hr IH]; [reflexivity|].
  cbn [app rstrip_nl]. rewrite IH.
  destruct r; [|reflexivity].
  destruct (Z.eqb_spec (byte_to_Z b) 10); [contradiction|reflexivity].
Qed.

Lemma write_line_clean (line : string) (fh : list byte) :
  clean (list_byte_of_string line) ->
  write_line line fh = fh ++ list_byte_of_string line ++ [nl].
Proof.
  intros Hc. unfold write_line.
  replace (existsb (fun x => byte_to_Z x =? 10) (list_byte_of_string line)) with false;
    [reflexivity|].
  symmetry. induction Hc as [|b r [Hb _] _ IH]; [reflexivity|].
  cbn [existsb]. rewrite IH. destruct (Z.eqb_spec (byte_to_Z b) 10); [contradiction|].
  reflexivity.
Qed.






(** ** From the logger to the reinflater *)

Section LoggedSession.
Context (R : PyRuntime) (L : LegacyRuntime).

Lemma is_token_clean (t : string) : is_token R t -> clean (list_byte_of_string t).
Proof.
  intros [data ->]. apply b64url_char_clean. unfold _deflate_raw_b64.
  rewrite list_byte_of_string_of_list_byte.
  exact (proj1 (urlsafe_b64encode_chars _ (raw_deflate R data) (Nat.le_refl _))).
Qed.

Lemma is_token_nonempty (t : string) : is_token R t -> list_byte_of_string t <> [].
Proof.
  intros [data ->]. unfold _deflate_raw_b64.
  rewrite list_byte_of_string_of_list_byte.
  pose proof (raw_deflate_nonempty R data) as Hne.
  destruct (raw_deflate R data) as [|a [|b [|c rest]]]; [congruence| | |];
    discriminate.
Qed.

Lemma with_header_tokens (h : option string) (line : string) :
  match h with Some x => is_token R x | None => True end ->
  is_token R line ->
  Forall (is_token R) (lines_list (with_header h line)).
Proof.
  intros Hh Hl. unfold with_header. destruct h as [x|].
  - destruct (String.eqb x EmptyString); repeat constructor; assumption.
  - repeat constructor; assumption.
Qed.

Lemma _ensure_header_token (ts : option Z) (c c' : FrameCompressorV3) (h : option string) :
  _ensure_header R ts c = (inr h, c') ->
  match h with Some x => is_token R x | None => True end.
Proof.
  destruct (wrote_header c) eqn:Hw.
  - rewrite (_ensure_header_done R ts c Hw). intros [= <- _]. exact I.
  - destruct (_ensure_header_cases R ts c Hw) as [(e & c1 & E & _)|(data & c1 & E & _)];
      rewrite E; [discriminate|].
    intros [= <- _]. now exists data.
Qed.

Lemma compress_tokens (text : string) (c c' : FrameCompressorV3) (l : lines) :
  compress R text c = (inr l, c') -> Forall (is_token R) (lines_list l).
Proof.
  assert (Hraw : forall s, compress_raw R s c = (inr l, c') ->
                           Forall (is_token R) (lines_list l)).
  { intros s. unfold compress_raw, bind.
    destruct (_ensure_header R None c) as [[e|h] c1] eqn:Eh; [discriminate|].
    destruct (raw_record s c1) as [[e|out] c2]; [discriminate|].
    unfold ret. intros [= <- _].
    apply with_header_tokens; [exact (_ensure_header_token _ _ _ _ Eh)|now eexists]. }
  assert (Hev : forall evs, compress_events R evs c = (inr l, c') ->
                            Forall (is_token R) (lines_list l)).
  { intros evs. unfold compress_events, bind, lift.
    destruct (first_timestamp R evs) as [e|fts]; [discriminate|].
    destruct (_ensure_header R fts c) as [[e|h] c1] eqn:Eh; [discriminate|].
    unfold _encode_frame_events, bind.
    destruct (frame_record R (map strip_event evs) c1) as [[e|out] c2]; [discriminate|].
    unfold ret. intros [= <- _].
    apply with_header_tokens; [exact (_ensure_header_token _ _ _ _ Eh)|now eexists]. }
  unfold compress. destruct (json_loads R text) as [[]|]; eauto.
Qed.

Lemma compress_session_tokens (frames : list string) :
  forall c c' tokens,
    compress_session R frames c = (inr tokens, c') -> Forall (is_token R) tokens.
Proof.
  induction frames as [|f fs IH]; intros c c' tokens; cbn [compress_session].
  - intros [= <- _]. constructor.
  - unfold bind. destruct (compress R f c) as [[e|l] c1] eqn:Ec; [discriminate|].
    destruct (compress_session R fs c1) as [[e|ls] c2] eqn:Es; [discriminate|].
    unfold ret. intros [= <- _]. apply Forall_app. split.
    + exact (compress_tokens _ _ _ _ Ec).
    + exact (IH _ _ _ Es).
Qed.

Lemma _write_compact_tokens (l : lines) (fh : list byte) :
  Forall (is_token R) (lines_list l) ->
  _write_compact l fh = fh ++ token_records (lines_list l).
Proof.
  unfold _write_compact, token_records. revert fh.
  induction (lines_list l) as [|t ts IH]; intros fh Ht.
  - cbn. now rewrite app_nil_r.
  - apply Forall_cons in Ht as [Ht Hts]. cbn [fold_left map flat_map].
    rewrite (write_line_clean t fh (is_token_clean t Ht)).
    rewrite (IH _ Hts). now rewrite <- !app_assoc.
Qed.

Lemma _on_message_compact (t : Z) (m aid : string) (c c1 : FrameCompressorV3)
    (l : lines) (fh : list byte) :
  compress R m c = (inr l, c1) ->
  _on_message R L t m
    {| sub_asset_id := aid; sub_compressor := Some c;
       sub_compact_records := true; sub_out := fh |}
  = {| sub_asset_id := aid; sub_compressor := Some c1;
       sub_compact_records := true; sub_out := fh ++ token_records (lines_list l) |}.
Proof.
  intros Ec. unfold _on_message.
  cbn [sub_compressor sub_compact_records sub_out sub_asset_id]. rewrite Ec.
  now rewrite (_write_compact_tokens l fh (compress_tokens _ _ _ _ Ec)).
Qed.

Lemma on_messages_compact (msgs : list (Z * string)) :
  forall (aid : string) (c c' : FrameCompressorV3) (fh : list byte)
         (tokens : list string),
    compress_session R (map snd msgs) c = (inr tokens, c') ->
    on_messages R L msgs
      {| sub_asset_id := aid; sub_compressor := Some c;
         sub_compact_records := true; sub_out := fh |}
    = {| sub_asset_id := aid; sub_compressor := Some c';
         sub_compact_records := true; sub_out := fh ++ token_records tokens |}.
Proof.
  induction msgs as [|[t m] msgs IH]; intros aid c c' fh tokens;
    cbn [map snd compress_session].
  - intros [= <- <-]. cbn. now rewrite app_nil_r.
  - unfold bind. destruct (compress R m c) as [[e|l] c1] eqn:Ec; [discriminate|].
    destruct (compress_session R (map snd msgs) c1) as [[e|ls] c2] eqn:Es;
      [discriminate|].
    unfold ret. intros [= <- <-].
    unfold on_messages in *. cbn [fold_left fst snd].
    rewrite (_on_message_compact t m aid c c1 l fh Ec).
    rewrite (IH aid c1 c2 _ ls Es).
    unfold token_records. now rewrite map_app, flat_map_app, <- !app_assoc.
Qed.

Lemma _iter_any_entries_tokens (tokens : list string) :
  Forall (is_token R) tokens ->
  not_json_array R (token_records tokens) ->
  _iter_any_entries R (token_records tokens) = map JStr tokens.
Proof.
  intros Ht Hnot. unfold _iter_any_entries, not_json_array in *.
  assert (Hclean : Forall clean (map list_byte_of_string tokens)).
  { rewrite Forall_map. eapply Forall_impl; [exact Ht|]. apply is_token_clean. }
  unfold token_records in *.
  rewrite (universal_newlines_no_cr _ (records_no_cr _ Hclean)) in *.
  assert (Hlines :
            map (fun s => JStr (string_of_list_byte s))
              (List.filter (fun s => match s with [] => false | _ => true end)
                 (map rstrip_nl
                    (text_lines
                       (flat_map (fun r => r ++ [nl]) (map list_byte_of_string tokens))
                       [])))
            = map JStr tokens).
  { rewrite (text_lines_records _ Hclean). clear Hnot Hclean.
    induction Ht as [|t ts Ht _ IH]; [reflexivity|].
    cbn [map]. rewrite (rstrip_nl_record _ (is_token_clean t Ht)).
    pose proof (is_token_nonempty t Ht) as Hne.
    cbn [List.filter]. destruct (list_byte_of_string t) as [|b bs] eqn:Eb; [congruence|].
    cbn [map]. rewrite <- Eb, string_of_list_byte_of_string. f_equal. exact IH. }
  destruct (json_loads R _) as [[]|]; try exact Hlines. contradiction.
Qed.

Lemma yield_json_values_v3 (tokens : list string) :
  forall (d d' : _V3State) (os : list (option (list string))) (vs : list string),
    decode_session R tokens d = (inr os, d') ->
    session_outputs os = Some vs ->
    yield_json_values R L (map JStr tokens) d = (vs, None, d').
Proof.
  induction tokens as [|t ts IH]; intros d d' os vs; cbn [decode_session map].
  - intros [= <- <-] [= <-]. reflexivity.
  - unfold bind. destruct (_try_decode_v3_line R t d) as [[e|o] d1] eqn:Et; [discriminate|].
    destruct (decode_session R ts d1) as [[e|os'] d2] eqn:Es; [discriminate|].
    unfold ret. intros [= <- <-]. cbn [session_outputs].
    destruct o as [js|]; [|discriminate].
    destruct (session_outputs os') as [rest|] eqn:Eo; [|discriminate].
    intros [= <-]. cbn [yield_json_values entry_values].
    unfold bind. rewrite Et. unfold ret.
    now rewrite (IH d1 d2 os' rest Es Eo).
Qed.

End LoggedSession.

(** X17: the reinflater inverts the logger.  The subscriber that [main]
    builds, on a new file, logs a non-empty sequence of messages, each a
    frame of valid events, a heartbeat or a JSON scalar; [reinflate_file]
    on that file, in NDJSON mode, ends without exception and writes one
    line per message: the array of the normalised events, or the JSON
    string of the raw text.  The file is taken line by line because, as a
    whole, it is not a JSON array. *)
Theorem logged_session_reinflates :
  forall (R : PyRuntime) (L : LegacyRuntime) (aid : string)
         (msgs : list (Z * string)) (fvs : list frame_view),
    wf_str aid = true ->
    Forall2 (fun m fv => view_any R (snd m) = Some fv) msgs fvs ->
    msgs <> [] ->
    exists c',
      sub_compressor (on_messages R L msgs (subscriber_init aid [])) = Some c'
      /\ (_next (pool c') <= 2 ^ 76 ->
          not_json_array R (sub_out (on_messages R L msgs (subscriber_init aid []))) ->
          reinflate_file R L (sub_out (on_messages R L msgs (subscriber_init aid []))) true
          = (None,
             Some (flat_map (fun fv => list_byte_of_string (frame_output R aid fv) ++ [nl])
                     fvs))).
Proof.
  intros R L aid msgs fvs Haid Hv Hne.
  assert (Hv' : Forall2 (fun t fv => view_any R t = Some fv) (map snd msgs) fvs).
  { clear Hne. induction Hv; cbn [map]; constructor; assumption. }
  assert (Hne' : map snd msgs <> []) by (destruct msgs; [congruence|discriminate]).
  destruct (any_session_run R aid (map snd msgs) fvs Haid Hv' Hne')
    as (tokens & c' & Hc & Hdec).
  unfold subscriber_init.
  rewrite (on_messages_compact R L msgs aid _ c' [] tokens Hc).
  cbn [sub_compressor sub_out app].
  exists c'. split; [reflexivity|]. intros Hb Hnot.
  destruct (Hdec Hb _V3State_init) as (d' & Hd & _).
  pose proof (compress_session_tokens R _ _ _ _ Hc) as Htok.
  unfold reinflate_file.
  rewrite (_iter_any_entries_tokens R tokens Htok Hnot).
  rewrite (yield_json_values_v3 R L tokens _ _ _ (map (frame_output R aid) fvs) Hd)
    by (cbn [session_outputs]; rewrite session_outputs_any; reflexivity).
  f_equal. f_equal. clear. induction fvs as [|fv fvs IH]; [reflexivity|].
  cbn [map flat_map]. now rewrite IH.
Qed.

Lemma logged_session_reinflates_witness :
  reinflate_file ref_runtime ref_legacy
    (sub_out (on_messages ref_runtime ref_legacy mixed_messages
                (subscriber_init "A" []))) true
  = (None,
     Some (flat_map
             (fun fv => list_byte_of_string (frame_output ref_runtime "A" fv) ++ [nl])
             mixed_views)).
Proof.
  destruct (logged_session_reinflates ref_runtime ref_legacy "A" mixed_messages
              mixed_views eq_refl ltac:(repeat constructor) ltac:(discriminate))
    as (c' & Hc & H).
  apply H.
  - vm_compute in Hc. injection Hc as <-. vm_compute. discriminate.
  - vm_compute. exact I.
Defined.

(** ** The values of one entry *)

Section Entries.
Context (R : PyRuntime) (L : LegacyRuntime).

Lemma try_decode_none_state (token : string) (d : _V3State) :
  fst (_try_decode_v3_line R token d) = inr None ->
  _try_decode_v3_line R token d = (inr None, d).
Proof.
  unfold _try_decode_v3_line.
  destruct (_inflate_raw_b64 R token) as [e|[|k body]]; try reflexivity.
  cbv zeta.
  destruct (byte_to_Z k =? _REC_HEADER).
  { unfold bind, ret. destruct (_decode_header (k :: body) 1 d) as [[e|n] d'];
      discriminate. }
  destruct (byte_to_Z k =? _REC_FRAME).
  { unfold bind, ret. destruct (_decode_frame R (k :: body) 1 d) as [[e|[js n]] d'];
      discriminate. }
  destruct (byte_to_Z k =? _REC_RAW); [|reflexivity].
  unfold bind, ret. destruct (_decode_raw R (k :: body) 1 d) as [[e|[js n]] d'];
    discriminate.
Qed.

Lemma try_decode_no_value (token : string) (d d' : _V3State) :
  _try_decode_v3_line R token d = (inr (Some []), d') ->
  exists body, _inflate_raw_b64 R token = inr (byte_of_Z 0x48 :: body).
Proof.
  unfold _try_decode_v3_line.
  destruct (_inflate_raw_b64 R token) as [e|[|k body]]; try discriminate.
  cbv zeta. unfold _REC_HEADER, _REC_FRAME, _REC_RAW.
  destruct (Z.eqb_spec (byte_to_Z k) 0x48) as [Hh|Hh].
  { intros _. exists body. now rewrite <- Hh, byte_of_to_Z. }
  destruct (byte_to_Z k =? 0x46).
  { unfold bind, ret. destruct (_decode_frame R (k :: body) 1 d) as [[e|[js n]] d1];
      discriminate. }
  destruct (byte_to_Z k =? 0x58); [|discriminate].
  unfold bind, ret. destruct (_decode_raw R (k :: body) 1 d) as [[e|[js n]] d1];
    discriminate.
Qed.

Lemma try_v3_none (entry x : json) (d : _V3State) :
  (forall token, x = JStr token -> fst (_try_decode_v3_line R token d) = inr None) ->
  try_v3 R x d = (inr None, d).
Proof.
  intros H. destruct x; try reflexivity. cbn [try_v3].
  apply try_decode_none_state. now apply H.
Qed.

End Entries.

(** X18: an entry that is not V3 yields exactly one value.  When none of
    the tokens of an entry is taken as a V3 line, the entry yields one JSON
    text (from the legacy compact form, from its own JSON, or as a JSON
    string) and the decoder state is left as it was: legacy lines between
    the lines of a V3 session do not disturb the session. *)
Theorem entry_not_v3_one_value :
  forall (R : PyRuntime) (L : LegacyRuntime) (entry : json) (d : _V3State),
    (forall token, entry_token entry token ->
                   fst (_try_decode_v3_line R token d) = inr None) ->
    exists js, entry_values R L entry d = (inr [js], d).
Proof.
  intros R L entry d H. destruct entry as [| | | |s| |dd]; try (eexists; reflexivity).
  - cbn [entry_values]. unfold bind.
    rewrite (try_decode_none_state R s d (H s (or_introl eq_refl))).
    destruct (legacy_compact R L (JStr s)); [eexists; reflexivity|].
    destruct (_maybe_json_value R L s); eexists; reflexivity.
  - cbn [entry_values].
    assert (Hm : exists js,
               match dict_get "m" dd with
               | Some m => ret [wrapper_payload R m]
               | None => ret [json_dumps R (_strip_keys (JObj dd))]
               end d = (inr [js], d))
      by (destruct (dict_get "m" dd); eexists; reflexivity).
    assert (Hc : exists js,
               match dict_get "compressed" dd with
               | Some x =>
                   maybe <-- try_v3 R x ;;
                   match maybe with
                   | Some vs => ret vs
                   | None =>
                       match dict_get "m" dd with
                       | Some m => ret [wrapper_payload R m]
                       | None => ret [json_dumps R (_strip_keys (JObj dd))]
                       end
                   end
               | None =>
                   match dict_get "m" dd with
                   | Some m => ret [wrapper_payload R m]
                   | None => ret [json_dumps R (_strip_keys (JObj dd))]
                   end
               end d = (inr [js], d)).
    { destruct (dict_get "compressed" dd) as [x|] eqn:Ex; [|exact Hm].
      unfold bind. rewrite (try_v3_none R (JObj dd) x d); [exact Hm|].
      intros token ->. apply H. right. exists dd. auto. }
    destruct (dict_get "c" dd) as [x|] eqn:Ex; [|exact Hc].
    unfold bind. rewrite (try_v3_none R (JObj dd) x d).
    + destruct (legacy_compact R L x); [eexists; reflexivity|exact Hc].
    + intros token ->. apply H. right. exists dd. auto.
Qed.

Lemma entry_not_v3_one_value_witness :
  exists js, entry_values ref_runtime ref_legacy (JStr "{'a':1}") _V3State_init
             = (inr [js], _V3State_init).
Proof.
  apply (entry_not_v3_one_value ref_runtime ref_legacy (JStr "{'a':1}") _V3State_init).
  intros token [E|(dd & E & _)]; [|discriminate].
  injection E as <-. vm_compute. reflexivity.
Defined.

(** X19: only a header line yields nothing.  When an entry yields no value
    at all, one of its tokens is a V3 line whose record begins with ['H']:
    every other entry that does not raise yields at least one value. *)
Theorem entry_no_value_is_header :
  forall (R : PyRuntime) (L : LegacyRuntime) (entry : json) (d d' : _V3State),
    entry_values R L entry d = (inr [], d') ->
    exists token body,
      entry_token entry token
      /\ _inflate_raw_b64 R token = inr (byte_of_Z 0x48 :: body)
      /\ _try_decode_v3_line R token d = (inr (Some []), d').
Proof.
  intros R L entry d d'.
  assert (Htry : forall x r d1,
             try_v3 R x d = (inr (Some r), d1) ->
             exists token, x = JStr token
                           /\ _try_decode_v3_line R token d = (inr (Some r), d1)).
  { intros x r d1. destruct x; try discriminate. intros E. eexists. split; [reflexivity|].
    exact E. }
  destruct entry as [| | | |s| |dd]; try discriminate.
  - cbn [entry_values]. unfold bind.
    destruct (_try_decode_v3_line R s d) as [[e|[vs|]] d1] eqn:Et; [discriminate| |].
    + unfold ret. intros [= -> <-].
      destruct (try_decode_no_value R s d d1 Et) as [body Hb].
      exists s, body. split; [now left|]. split; assumption.
    + destruct (legacy_compact R L (JStr s)); [discriminate|].
      destruct (_maybe_json_value R L s); discriminate.
  - cbn [entry_values].
    assert (Hm : match dict_get "m" dd with
                 | Some m => ret [wrapper_payload R m]
                 | None => ret [json_dumps R (_strip_keys (JObj dd))]
                 end d <> (inr [], d'))
      by (destruct (dict_get "m" dd); discriminate).
    assert (Hc : forall d0,
               match dict_get "compressed" dd with
               | Some x =>
                   maybe <-- try_v3 R x ;;
                   match maybe with
                   | Some vs => ret vs
                   | None =>
                       match dict_get "m" dd with
                       | Some m => ret [wrapper_payload R m]
                       | None => ret [json_dumps R (_strip_keys (JObj dd))]
                       end
                   end
               | None =>
                   match dict_get "m" dd with
                   | Some m => ret [wrapper_payload R m]
                   | None => ret [json_dumps R (_strip_keys (JObj dd))]
                   end
               end d = (inr [], d0) ->
               d0 = d' ->
               exists token body,
                 entry_token (JObj dd) token
                 /\ _inflate_raw_b64 R token = inr (byte_of_Z 0x48 :: body)
                 /\ _try_decode_v3_line R token d = (inr (Some []), d')).
    { intros d0. destruct (dict_get "compressed" dd) as [x|] eqn:Ex.
      - unfold bind. destruct (try_v3 R x d) as [[e|[vs|]] d1] eqn:Et; [discriminate| |].
        + unfold ret. intros [= -> <-] <-.
          destruct (Htry _ _ _ Et) as (token & -> & Ht).
          destruct (try_decode_no_value R token d d1 Ht) as [body Hb].
          exists token, body. split; [right; exists dd; auto|]. split; assumption.
        + intros E <-. destruct (dict_get "m" dd); discriminate.
      - intros E <-. contradiction. }
    destruct (dict_get "c" dd) as [x|] eqn:Ex; [|intros E; exact (Hc d' E eq_refl)].
    unfold bind. destruct (try_v3 R x d) as [[e|[vs|]] d1] eqn:Et; [discriminate| |].
    + unfold ret. intros [= -> <-].
      destruct (Htry _ _ _ Et) as (token & -> & Ht).
      destruct (try_decode_no_value R token d d1 Ht) as [body Hb].
      exists token, body. split; [right; exists dd; auto|]. split; assumption.
    + destruct x; cbn [try_v3] in Et;
        try (injection Et as <-; destruct (legacy_compact R L _); [discriminate|];
             intros E; exact (Hc d' E eq_refl)).
      pose proof (try_decode_none_state R s d ltac:(now rewrite Et)) as Hs.
      rewrite Hs in Et. injection Et as <-.
      destruct (legacy_compact R L (JStr s)); [discriminate|].
      intros E. exact (Hc d' E eq_refl).
Qed.

Lemma entry_no_value_is_header_witness :
  exists token body,
    entry_token (JStr (_deflate_raw_b64 ref_runtime (header_bytes "A" 1000))) token
    /\ _inflate_raw_b64 ref_runtime token = inr (byte_of_Z 0x48 :: body)
    /\ _try_decode_v3_line ref_runtime token _V3State_init
       = (inr (Some []), header_state "A" 1000).
Proof.
  apply (entry_no_value_is_header ref_runtime ref_legacy
           (JStr (_deflate_raw_b64 ref_runtime (header_bytes "A" 1000)))
           _V3State_init (header_state "A" 1000)).
  vm_compute. reflexivity.
Defined.

(** ** Frame records that are longer or shorter than their count says *)

Section FrameLength.
Context (R : PyRuntime).

Lemma try_decode_frame_surplus (es : list event) (prev : Z) (d : _V3State)
    (surplus : list byte) :
  Forall (event_wf R) es -> Z.of_nat (length es) < 2 ^ 63 -> 0 <= prev ->
  pool_wf (st_pool d) ->
  _next (items_pool (st_pool d) (events_items R prev es)) <= 2 ^ 76 ->
  _try_decode_v3_line R
    (_deflate_raw_b64 R (frame_bytes R (st_pool d) prev es ++ surplus)) d
  = (inr (Some [json_dumps R
                  (JArr (map (normalise R (stamp d))
                           (decoded_events (st_prev_ts d) prev es)))]),
     set_st_pool (items_pool (st_pool d) (events_items R prev es))
       (set_st_prev_ts (decoded_prev (st_prev_ts d) prev es) d)).
Proof.
  intros Hwf Hlen Hprev Hp Hb.
  pose proof (decode_frame_events_ok R es prev d surplus Hwf Hlen Hprev Hp Hb) as Hdec.
  change (frame_bytes R (st_pool d) prev es ++ surplus)
    with (byte_of_Z _REC_FRAME
          :: ((uvarint_bytes (Z.of_nat (length es))
               ++ items_bytes (st_pool d) (events_items R prev es)) ++ surplus)) in *.
  rewrite try_decode_kind by (unfold _REC_FRAME; lia).
  change (_REC_FRAME =? _REC_HEADER) with false.
  change (_REC_FRAME =? _REC_FRAME) with true. cbv iota.
  unfold _decode_frame.
  rewrite (bind_inr _ _ _ _ _ (bind_inr _ _ _ _ _ Hdec)).
  reflexivity.
Qed.

Lemma decode_events_loop_add (a b : nat) (buf : list byte) :
  forall (i : nat) (acc : list json) (d : _V3State),
    decode_events_loop (a + b) buf i acc d
    = match decode_events_loop a buf i acc d with
      | (inr (acc', i'), d') => decode_events_loop b buf i' acc' d'
      | (inl e, d') => (inl e, d')
      end.
Proof.
  induction a as [|a IH]; intros i acc d; [reflexivity|].
  cbn [Nat.add decode_events_loop]. unfold bind.
  destruct (_decode_event buf i d) as [[e|[ev j]] d1]; [reflexivity|].
  apply IH.
Qed.

Lemma _decode_event_at_end (buf : list byte) (d : _V3State) :
  _decode_event buf (length buf) d = (inl IndexError, d).
Proof.
  unfold _decode_event, bind, lift, buf_at.
  now rewrite (proj2 (lookup_ge_None buf (length buf)) (Nat.le_refl _)).
Qed.

End FrameLength.

(** X20: bytes after the events of a frame are ignored.  The decoder reads
    the number of events the record announces and does not look at what
    follows them: a frame record with any bytes appended decodes to the
    same JSON text, and leaves the same state, as the record itself. *)
Theorem frame_surplus_ignored :
  forall (R : PyRuntime) (es : list event) (prev : Z) (d : _V3State)
         (surplus : list byte),
    Forall (event_wf R) es -> Z.of_nat (length es) < 2 ^ 63 -> 0 <= prev ->
    pool_wf (st_pool d) ->
    _next (items_pool (st_pool d) (events_items R prev es)) <= 2 ^ 76 ->
    _try_decode_v3_line R
      (_deflate_raw_b64 R (frame_bytes R (st_pool d) prev es ++ surplus)) d
    = _try_decode_v3_line R (_deflate_raw_b64 R (frame_bytes R (st_pool d) prev es)) d
    /\ exists js d',
         _try_decode_v3_line R (_deflate_raw_b64 R (frame_bytes R (st_pool d) prev es)) d
         = (inr (Some [js]), d').
Proof.
  intros R es prev d surplus Hwf Hlen Hprev Hp Hb.
  rewrite (try_decode_frame_surplus R es prev d surplus Hwf Hlen Hprev Hp Hb).
  rewrite (try_decode_frame R es prev d Hwf Hlen Hprev Hp Hb).
  split; [reflexivity|]. eexists _, _. reflexivity.
Qed.

Lemma frame_surplus_ignored_witness :
  _try_decode_v3_line ref_runtime
    (_deflate_raw_b64 ref_runtime
       (frame_bytes ref_runtime _StringPool_init 1000 scenario_1_events
        ++ map byte_of_Z [1; 2; 3]))
    (header_state "A" 1000)
  = _try_decode_v3_line ref_runtime
      (_deflate_raw_b64 ref_runtime
         (frame_bytes ref_runtime _StringPool_init 1000 scenario_1_events))
      (header_state "A" 1000).
Proof.
  apply (proj1 (frame_surplus_ignored ref_runtime scenario_1_events 1000
                  (header_state "A" 1000) (map byte_of_Z [1; 2; 3])
                  ltac:(repeat constructor; cbn; try lia; reflexivity)
                  ltac:(cbn; lia) ltac:(lia) pool_init_wf
                  ltac:(vm_compute; discriminate))).
Defined.

(** X21: a frame that announces more events than it holds.  When the
    record ends after the events [es] but its count says [k] more, the
    decoder reads [es], then raises [IndexError] at the type byte of the
    next event (not one of the codec's [ValueError]s); the strings of [es]
    are in the pool and [prev_ts] has moved, though the line gave no
    output. *)
Theorem frame_count_too_large :
  forall (R : PyRuntime) (es : list event) (prev k : Z) (d : _V3State),
    Forall (event_wf R) es -> 0 <= prev -> 1 <= k ->
    Z.of_nat (length es) + k < 2 ^ 77 ->
    pool_wf (st_pool d) ->
    _next (items_pool (st_pool d) (events_items R prev es)) <= 2 ^ 76 ->
    _try_decode_v3_line R
      (_deflate_raw_b64 R
         ([byte_of_Z _REC_FRAME] ++ uvarint_bytes (Z.of_nat (length es) + k)
          ++ items_bytes (st_pool d) (events_items R prev es))) d
    = (inl IndexError,
       set_st_pool (items_pool (st_pool d) (events_items R prev es))
         (set_st_prev_ts (decoded_prev (st_prev_ts d) prev es) d)).
Proof.
  intros R es prev k d Hwf Hprev Hk Hcount Hp Hb.
  set (n := Z.of_nat (length es) + k) in *.
  set (body := items_bytes (st_pool d) (events_items R prev es)).
  set (buf := [byte_of_Z _REC_FRAME] ++ uvarint_bytes n ++ body).
  change buf with (byte_of_Z _REC_FRAME :: (uvarint_bytes n ++ body)).
  rewrite try_decode_kind by (unfold _REC_FRAME; lia).
  change (_REC_FRAME =? _REC_HEADER) with false.
  change (_REC_FRAME =? _REC_FRAME) with true. cbv iota.
  change (byte_of_Z _REC_FRAME :: (uvarint_bytes n ++ body)) with buf.
  apply bind_inl. unfold _decode_frame. apply bind_inl.
  unfold decode_frame_events.
  rewrite (bind_inr _ _ d d (n, (1 + length (uvarint_bytes n))%nat)).
  2:{ unfold lift. f_equal.
      apply (uvarint_decode_at n buf [byte_of_Z _REC_FRAME] body);
        [subst n; lia|reflexivity|reflexivity]. }
  cbv beta iota.
  replace (Z.to_nat n) with (length es + Z.to_nat k)%nat by (subst n; lia).
  rewrite decode_events_loop_add.
  rewrite (decode_events_loop_ok R [] es prev buf
             ([byte_of_Z _REC_FRAME] ++ uvarint_bytes n));
    try assumption; [|subst buf body; rewrite app_nil_r; buf_eq|idx_eq].
  fold body.
  replace (1 + length (uvarint_bytes n) + length body)%nat with (length buf)
    by (subst buf; repeat (rewrite ?length_app; cbn [length]); lia).
  destruct (Z.to_nat k) as [|k'] eqn:Ek; [lia|].
  cbn [decode_events_loop]. apply bind_inl. apply _decode_event_at_end.
Qed.

Lemma frame_count_too_large_witness :
  _try_decode_v3_line ref_runtime
    (_deflate_raw_b64 ref_runtime
       ([byte_of_Z _REC_FRAME]
        ++ uvarint_bytes (Z.of_nat (length scenario_1_events) + 1)
        ++ items_bytes _StringPool_init
             (events_items ref_runtime 1000 scenario_1_events)))
    (header_state "A" 1000)
  = (inl IndexError,
     set_st_pool
       (items_pool _StringPool_init (events_items ref_runtime 1000 scenario_1_events))
       (set_st_prev_ts (decoded_prev (Some 1000) 1000 scenario_1_events)
          (header_state "A" 1000))).
Proof.
  apply (frame_count_too_large ref_runtime scenario_1_events 1000 1
           (header_state "A" 1000)
           ltac:(repeat constructor; cbn; try lia; reflexivity)
           ltac:(lia) ltac:(lia) ltac:(cbn; lia) pool_init_wf
           ltac:(vm_compute; discriminate)).
Defined.



(** ** Time going backwards *)

(** X23: a timestamp below the previous one is written absolute.  In a
    session whose previous timestamp is [p], a frame of one valid event
    with a timestamp [t < p] is written as ['F'], the count 1, the type byte
    with [TS_ABS] set, the varint of [t] itself and the payload; the
    compressor's [prev_ts] becomes [t], and a decoder in step with the
    compressor prints the event with timestamp [t] and takes [t] as its
    [prev_ts] too. *)
Theorem backwards_timestamp_absolute :
  forall (R : PyRuntime) (text : string) (e : event) (c : FrameCompressorV3)
         (d : _V3State) (p : Z),
    view_frame R text = Some [e] ->
    wrote_header c = true -> pool_wf (pool c) -> prev_ts c = Some p -> 0 <= p ->
    ev_timestamp e < p ->
    synced c d ->
    _next (items_pool (pool c) (events_items R p [e])) <= 2 ^ 76 ->
    exists (c' : FrameCompressorV3) (d' : _V3State),
      compress R text c
      = (inr (One (_deflate_raw_b64 R
                     ([byte_of_Z _REC_FRAME] ++ uvarint_bytes 1
                      ++ [byte_of_Z (type_byte (ev_payload e) true)]
                      ++ uvarint_bytes (ev_timestamp e)
                      ++ items_bytes (pool c) (payload_items R (ev_payload e))))), c')
      /\ Z.land (type_byte (ev_payload e) true) _TB_TS_ABS = _TB_TS_ABS
      /\ prev_ts c' = Some (ev_timestamp e)
      /\ _try_decode_v3_line R
           (_deflate_raw_b64 R
              ([byte_of_Z _REC_FRAME] ++ uvarint_bytes 1
               ++ [byte_of_Z (type_byte (ev_payload e) true)]
               ++ uvarint_bytes (ev_timestamp e)
               ++ items_bytes (pool c) (payload_items R (ev_payload e)))) d
         = (inr (Some [json_dumps R (JArr [normalise R (asset_id c) e])]), d')
      /\ st_prev_ts d' = Some (ev_timestamp e).
Proof.
  intros R text e c d p Hv Hw Hp Hprev Hp0 Ht (Hstamp & Hpool & Hdprev) Hb.
  apply view_frame_inv in Hv as (evs & Hc & Hv & Hlen).
  pose proof (view_list_Forall _ _ (view_event_wf R) _ _ Hv) as Hwf.
  assert (Hrec : frame_bytes R (pool c) p [e]
                 = [byte_of_Z _REC_FRAME] ++ uvarint_bytes 1
                   ++ [byte_of_Z (type_byte (ev_payload e) true)]
                   ++ uvarint_bytes (ev_timestamp e)
                   ++ items_bytes (pool c) (payload_items R (ev_payload e))).
  { unfold frame_bytes. cbn [length events_items app]. rewrite app_nil_r.
    unfold event_items. destruct (Z.leb_spec p (ev_timestamp e)); [lia|].
    cbn [negb items_bytes]. reflexivity. }
  eexists _, _. rewrite Hc, (compress_events_synced R evs [e] c p Hv Hw Hp Hprev), Hrec.
  split; [reflexivity|]. split.
  { unfold type_byte, _TB_TS_ABS. change (Z.shiftl 1 5) with 32.
    destruct (ev_payload e) as [| | |? ? ? [f|]]; reflexivity. }
  split; [reflexivity|].
  rewrite <- Hrec. rewrite <- Hpool in *.
  rewrite (try_decode_frame R [e] p d Hwf Hlen Hp0 Hp Hb).
  rewrite Hdprev, Hprev, Hstamp.
  cbn [decoded_events decoded_prev map st_prev_ts set_st_pool set_st_prev_ts].
  unfold decoded_ts. destruct (Z.leb_spec p (ev_timestamp e)); [lia|].
  cbn [negb]. destruct e. split; reflexivity.
Qed.

Lemma backwards_timestamp_absolute_witness :
  exists (c' : FrameCompressorV3) (d' : _V3State),
    compress ref_runtime scenario_3_frame (header_written "A" 1050)
    = (inr (One (_deflate_raw_b64 ref_runtime
                   ([byte_of_Z _REC_FRAME] ++ uvarint_bytes 1
                    ++ [byte_of_Z (type_byte (ev_payload scenario_3_event) true)]
                    ++ uvarint_bytes (ev_timestamp scenario_3_event)
                    ++ items_bytes (pool (header_written "A" 1050))
                         (payload_items ref_runtime (ev_payload scenario_3_event))))),
       c')
    /\ Z.land (type_byte (ev_payload scenario_3_event) true) _TB_TS_ABS = _TB_TS_ABS
    /\ prev_ts c' = Some (ev_timestamp scenario_3_event)
    /\ _try_decode_v3_line ref_runtime
         (_deflate_raw_b64 ref_runtime
            ([byte_of_Z _REC_FRAME] ++ uvarint_bytes 1
             ++ [byte_of_Z (type_byte (ev_payload scenario_3_event) true)]
             ++ uvarint_bytes (ev_timestamp scenario_3_event)
             ++ items_bytes (pool (header_written "A" 1050))
                  (payload_items ref_runtime (ev_payload scenario_3_event))))
         (header_state "A" 1050)
       = (inr (Some [json_dumps ref_runtime
                       (JArr [normalise ref_runtime
                                (asset_id (header_written "A" 1050)) scenario_3_event])]),
          d')
    /\ st_prev_ts d' = Some (ev_timestamp scenario_3_event).
Proof.
  apply (backwards_timestamp_absolute ref_runtime scenario_3_frame scenario_3_event
           (header_written "A" 1050) (header_state "A" 1050) 1050).
  - reflexivity.
  - reflexivity.
  - apply pool_init_wf.
  - reflexivity.
  - lia.
  - cbn. lia.
  - repeat split.
  - vm_compute. discriminate.
Defined.

(** ** The keys the encoder does not read *)

(** X24: the encoder reads thirteen keys and no other.  Removing from an
    event any key outside [read_keys] ([asset_id], [market], [hash] or any
    key the feed may add) changes nothing: the same bytes are written, the
    same exception raised, the same state left.  In particular the
    [asset_id] of an event does not reach the line: the decoder stamps the
    asset of the header on every event. *)
Theorem unread_keys_ignored :
  forall (R : PyRuntime) (d : list (string * json)) (k : string)
         (out : list byte) (c : FrameCompressorV3),
    ~ In k read_keys ->
    _encode_event R (JObj (dict_pop k d)) out c = _encode_event R (JObj d) out c.
Proof.
  intros R d k out c Hk.
  assert (Hne : forall k', In k' read_keys -> String.eqb k k' = false).
  { intros k' Hin. apply String.eqb_neq. intros ->. contradiction. }
  assert (Hget : forall k', In k' read_keys ->
                            dict_get k' (dict_pop k d) = dict_get k' d).
  { intros k' Hin. apply dict_get_pop. now apply Hne. }
  assert (Hpy : forall k' dflt, In k' read_keys ->
                  py_get (JObj (dict_pop k d)) k' dflt = py_get (JObj d) k' dflt).
  { intros k' dflt Hin. cbn [py_get]. now rewrite Hget. }
  assert (Hhas : forall k', In k' read_keys ->
                   dict_has k' (dict_pop k d) = dict_has k' d).
  { intros k' Hin. unfold dict_has. now rewrite Hget. }
  assert (Hts : _get_ts R (JObj (dict_pop k d)) = _get_ts R (JObj d)).
  { cbn [_get_ts]. rewrite Hget; [reflexivity|]. cbn; tauto. }
  assert (Hbook : _encode_book R (JObj (dict_pop k d)) = _encode_book R (JObj d)).
  { unfold _encode_book. rewrite !Hhas, !Hget by (cbn; tauto). reflexivity. }
  unfold _encode_event. rewrite Hts, Hbook.
  rewrite (Hhas "fee_rate_bps") by (cbn; tauto).
  unfold _encode_price_change, _encode_tick_size_change, _encode_last_trade_price.
  rewrite (Hpy "event_type") by (cbn; tauto).
  rewrite (Hpy "changes") by (cbn; tauto).
  rewrite (Hpy "old_tick_size") by (cbn; tauto).
  rewrite (Hpy "new_tick_size") by (cbn; tauto).
  rewrite (Hpy "price") by (cbn; tauto).
  rewrite (Hpy "size") by (cbn; tauto).
  rewrite (Hpy "side") by (cbn; tauto).
  rewrite (Hpy "fee_rate_bps") by (cbn; tauto).
  reflexivity.
Qed.

Lemma unread_keys_ignored_witness :
  _encode_event ref_runtime (JObj (dict_pop "asset_id" scenario_3_dict)) []
    (header_written "A" 1050)
  = _encode_event ref_runtime (JObj scenario_3_dict) [] (header_written "A" 1050).
Proof.
  apply (unread_keys_ignored ref_runtime scenario_3_dict "asset_id" []
           (header_written "A" 1050)).
  cbn. intros H. repeat (destruct H as [H|H]; [discriminate H|]). exact H.
Defined.

(** ** A header with several assets *)

Section MultiAsset.
Context (R : PyRuntime).

Lemma try_decode_header_layout (flags base : Z) (assets : list string) (d : _V3State) :
  0 <= flags < 2 ^ 77 -> 0 <= base < 2 ^ 77 ->
  Z.of_nat (length assets) < 2 ^ 77 ->
  Forall (fun a => wf_str a = true) assets ->
  _try_decode_v3_line R (_deflate_raw_b64 R (header_layout 3 flags base assets)) d
  = (inr (Some []),
     {| st_pool := _StringPool_init; st_base_ts := base; st_prev_ts := Some base;
        st_asset_ids := assets; st_flags := flags; st_have_header := true |}).
Proof.
  intros Hflags Hbase Hn Hwf.
  pose proof (_decode_header_layout flags base assets [] d Hflags Hbase Hn Hwf) as Hdec.
  rewrite app_nil_r in Hdec.
  change (header_layout 3 flags base assets)
    with (byte_of_Z _REC_HEADER
          :: (uvarint_bytes 3 ++ uvarint_bytes flags ++ uvarint_bytes base
              ++ uvarint_bytes (Z.of_nat (length assets)) ++ assets_bytes assets)) in *.
  rewrite (try_decode_kind R) by (unfold _REC_HEADER; lia).
  change (_REC_HEADER =? _REC_HEADER) with true. cbv iota.
  now rewrite (bind_inr _ _ _ _ _ Hdec).
Qed.

End MultiAsset.

(** X25: a header with several assets.  After a version-3 header that
    lists the assets [a :: others], whatever its flags, a frame of valid
    events written against the header's base timestamp decodes with every
    event stamped with the first asset, [a]; the other assets are stored
    and never used. *)
Theorem multi_asset_header_stamps_first :
  forall (R : PyRuntime) (flags base : Z) (a : string) (others : list string)
         (es : list event) (d0 : _V3State),
    0 <= flags < 2 ^ 77 -> 0 <= base < 2 ^ 77 ->
    Z.of_nat (length (a :: others)) < 2 ^ 77 ->
    Forall (fun x => wf_str x = true) (a :: others) ->
    Forall (event_wf R) es -> Z.of_nat (length es) < 2 ^ 63 ->
    _next (items_pool _StringPool_init (events_items R base es)) <= 2 ^ 76 ->
    exists d',
      decode_session R
        [_deflate_raw_b64 R (header_layout 3 flags base (a :: others));
         _deflate_raw_b64 R (frame_bytes R _StringPool_init base es)] d0
      = (inr [Some []; Some [json_dumps R (JArr (map (normalise R a) es))]], d')
      /\ st_asset_ids d' = a :: others.
Proof.
  intros R flags base a others es d0 Hflags Hbase Hn Hwfa Hwf Hlen Hb.
  pose proof (try_decode_header_layout R flags base (a :: others) d0
                Hflags Hbase Hn Hwfa) as Hh.
  set (d1 := {| st_pool := _StringPool_init; st_base_ts := base;
                st_prev_ts := Some base; st_asset_ids := a :: others;
                st_flags := flags; st_have_header := true |}) in *.
  pose proof (try_decode_frame R es base d1 Hwf Hlen ltac:(lia) pool_init_wf Hb) as Hf.
  cbn [st_pool st_prev_ts d1] in Hf.
  change (stamp d1) with a in Hf.
  destruct (decoded_events_sync es base) as [E1 E2]. rewrite E1, E2 in Hf.
  eexists. cbn [decode_session].
  rewrite (bind_inr _ _ _ _ _ Hh).
  rewrite (bind_inr _ _ _ _ _ (bind_inr _ _ _ _ _ Hf)).
  split; reflexivity.
Qed.

Lemma multi_asset_header_stamps_first_witness :
  exists d',
    decode_session ref_runtime
      [_deflate_raw_b64 ref_runtime (header_layout 3 0 1000 ["A"; "B"]%string);
       _deflate_raw_b64 ref_runtime
         (frame_bytes ref_runtime _StringPool_init 1000 scenario_1_events)]
      _V3State_init
    = (inr [Some [];
            Some [json_dumps ref_runtime
                    (JArr (map (normalise ref_runtime "A") scenario_1_events))]], d')
    /\ st_asset_ids d' = ["A"; "B"]%string.
Proof.
  apply (multi_asset_header_stamps_first ref_runtime 0 1000 "A" ["B"%string]
           scenario_1_events _V3State_init).
  - lia.
  - lia.
  - cbn. lia.
  - repeat constructor.
  - repeat constructor; cbn; try lia; reflexivity.
  - cbn. lia.
  - vm_compute. discriminate.
Defined.
